(* ===== verification/_CoqProject ===== *)
-Q . S2P
Prelude.v
GoStrings.v
GoPath.v
GoNum.v
GoTime.v
GoDuration.v
Limits.v
TransferOut.v
GoEncoding.v
Http.v
Challenge.v
NonceStore.v
IPRateLimiter.v
SessionBearers.v
DynamicTenants.v
Policy.v
GoBig.v
Markets.v
Units.v
ChainLib.v
Payload.v
Assembler.v
Cancels.v
Orders.v
FundsBuilder.v
Builders.v
Assets.v
TxInspect.v
EVMBuilder.v
BridgeRegistry.v
ABI.v
LendoraABI.v
Keccak.v
ABITables.v
ABIBindings.v
LendoraCache.v
Server.v
AuthTools.v
Signer.v
Devsign.v
Broadcast.v
Indexer.v
Tools.v
Concurrent.v
ConcurrentCaps.v
ConcurrentAuth.v
ChainClients.v
Support.v
LendoraFormat.v
EVMTools.v
SwapTools.v
AccountTools.v
MarketTools.v
FaucetTools.v
ReadTools.v
BridgeTools.v
LendoraRisk.v
LendoraOps.v
LendoraRead.v
Config.v
System.v
Login.v
Edge.v
Bank.v
ConcurrentAccounts.v
Boot.v
Restart.v
Lifecycle.v
