(* ===== verification/Prelude.v ===== *)
(** * svpchain-mcp: a verification development

    svpchain-mcp is an MCP server in Go that lets agents trade and move funds on
    svpchain without handing over their keys: the server builds unsigned
    transactions, the agent signs them locally, and the server checks and
    broadcasts the signed bytes.  This library models the parts of the server
    that carry that promise, as executable definitions translated from the
    sources under src/, and proves what makes them correct.

    ** The program and the files that model it

    - The language and its standard library.  [Prelude] (this file): errors,
      results, the state monad, machine integers, a small Hoare logic.
      [GoStrings], [GoPath], [GoNum], [GoTime], [GoDuration], [GoEncoding],
      [GoBig], [Http]: the parts of strings, path/filepath, strconv, math/big,
      time with its parser of durations in binary64, encoding/hex, encoding/base64, net/url and net/http the program uses.
    - Funds limits (lib/mcp/limits).  [Limits]: usdc.go and limits.go, the caps
      and the daily withdraw ledger behind the interface [WithdrawLedger];
      [TransferOut]: transferout.go, the per-owner per-symbol caps and usage
      with their write-through file.
    - Identity (lib/mcp/auth, lib/mcp/policy).  [Challenge], [NonceStore],
      [IPRateLimiter], [SessionBearers], [DynamicTenants]: one file of auth/
      each; [Policy]: the policy engine, the idempotency table, the rate limiter
      and the audit log.
    - Markets and units (lib/mcp/markets, lib/mcp/units).  [Markets]: the
      ticker cache; [Units]: sizes, prices and market-order limits.
    - Transactions (lib/mcp/payload, lib/mcp/builder).  [ChainLib]: the messages
      and codecs of the chain's libraries, as a class; [Payload]: the wire
      types; [Assembler], [Cancels], [Orders], [FundsBuilder]: the Cosmos
      builders; [Builders]: what all nine guarantee; [EVMBuilder]: the EVM
      assembler; [ABI]: the ERC, router and bridge bindings of erc.go,
      uniswap.go and bridge.go over the encoder of go-ethereum; [LendoraABI]:
      those of lendora.go and oracle.go; [ABITables]: the JSON interfaces
      embedded in these files, the contract ABI encoding and the specification of
      the encoder; [Keccak]: the hash; [ABIBindings]: the bindings against the
      interfaces.
    - Signing (lib/mcp/signer, cmd/devsign).  [Signer]: the local signer;
      [Devsign]: the command around it, with its files and exit status.
    - Bridging (lib/mcp/bridge).  [BridgeRegistry]: the route registry.
    - Money markets (lib/mcp/lendora).  [LendoraCache]: the market cache.
    - Services (lib/mcp/indexer, lib/mcp/faucet, lib/mcp/chain).  [Indexer]: the
      client of the indexer with every endpoint; the faucet client is the first
      module of [FaucetTools]; [ChainClients]: the clients of the nodes.
    - Codec, logging, metrics (lib/mcp/mcpcodec, lib/mcp/logging,
      lib/mcp/metrics).  [Support]: the encoding configuration over the shared
      registries of the SDK, loggers and counters.
    - Tools (lib/mcp/tools, cmd/mcp-server).  [Assets]: token symbols and
      amounts; [TxInspect]: what a signed transaction takes out, who signed it,
      and the fee error; [Server]: the state of all stores, the request context
      and the authorisation prelude; [AuthTools]: the handshake tools and the
      middleware; [Broadcast]: broadcast_signed_tx and broadcast_evm_tx;
      [Tools]: the build, cap and status tools; [EVMTools], [SwapTools],
      [BridgeTools]: the contract tools of erc.go, swap.go and bridge.go;
      [LendoraFormat], [LendoraRisk], [LendoraOps], [LendoraRead]: the money-
      market tools; [AccountTools], [MarketTools], [FaucetTools]: the read tools
      and the faucet, [ReadTools]: their registration; [Config]: loading and
      validation of the configuration and the wiring of the EVM family, the
      promise [deps_ok] the EVM tools rely on; [System]: requests for any of the
      64 registered tools, served by the composition of middleware and handlers,
      as a transition system; [Login]: a login over the life of that system;
      [Edge]: the composition of NewServer, from what arrives on the socket; [Bank]: an abstract bank of balances, caps and
      affordable payments, which that system refines; [Boot]: BuildServer, from
      the configuration to the first state of that system; [Restart]: the cap
      file over the life of a server; [Lifecycle]: Server.Run with its goroutines, and main.
    - Requests in flight at once.  [Concurrent]: the broadcast handlers as
      programs of critical sections and node calls, pools of such programs, and
      outlines with a ghost value per thread; [ConcurrentCaps]: the caps;
      [ConcurrentAccounts]: the books, with a history of what was accepted;
      [ConcurrentAuth]: the handshake.

    ** How the code is modelled

    A pure function is a function; a fallible one returns [result]; a method
    that takes a lock and changes its receiver is a state transformer (the lock
    makes it atomic); a handler is a computation [M srv A] over the record
    [Server.srv] of all stores.  What the program reads from outside (the clock,
    random bytes, the outcome of file writes, the order of a map iteration, the
    answers of the nodes) is an argument of the store operations and a class
    [Server.Env] for the handlers, where every interaction may differ from every
    other one.  A handler counts its interactions, and [Server.reading s k] is the
    clock at the k-th one after the state [s]: what a theorem says of live
    bearers, nonces and bindings, of tenants in force, of unclaimed client ids
    and of the day of a cap it says of the very reading with which the handler
    decided.  Libraries that are not part of the repository (Cosmos SDK, dYdX
    protocol, go-ethereum, x/time/rate, cosmossdk.io/math) are classes whose laws
    state their documented behaviour; each has a concrete instance, so that the
    witnesses evaluate.  Time is nanoseconds since the Unix epoch in [Z], 64-
    and 32-bit integers are [Z] with their wrap-around written out, [*big.Int]
    is [Z] and a pointer that may be nil an [option].

    ** What the theorems show

    - The server as a whole: only the holder of a live bearer can get a
      transaction to a node, and only one signed by the owner the bearer was
      minted for ([System.only_owners_send]); in every reachable state the daily
      withdraw cap and the transfer-out caps hold ([System.caps_hold]);
      on a day of its clock the server refines an abstract bank
      ([Bank.server_refines_bank]); an accepted broadcast is charged once and in full, a rejected one not at all
      ([Broadcast.broadcast_accounting]); nothing is sent before the tenant,
      idempotency, signer and cap checks passed ([Broadcast.broadcast_guarded],
      [Broadcast.evm_broadcast_guarded]); a build tool builds, for its caller only,
      the very message whose subaccounts and amounts it checked
      ([Tools.build_tool_authorized]); a request without a live bearer changes
      nothing and asks nobody ([System.unauthenticated_inert]).
    - Requests in flight at once: the programs of critical sections are the
      handlers ([Concurrent.broadcast_programs]); in any interleaving, retries of
      one client id send one transaction ([Concurrent.retry_storm_sends_once]), a
      nonce logs in once ([ConcurrentAuth.logins_conserved]), and the caps hold if
      no owner has two broadcasts in flight
      ([ConcurrentCaps.concurrent_caps_hold]); without that condition they do not
      ([ConcurrentCaps.race_exceeds_cap]), and even then no accepted transaction
      is lost or counted twice ([ConcurrentAccounts.concurrent_accounting]).
    - From start to stop: what these theorems assume of the first state is what
      a start makes ([Boot.boot_secure]); a restart keeps caps and usage
      ([Restart.restart_keeps_caps]); Run serves until a signal or an exit of the
      HTTP server, and in every fair execution, ticks of the caches included,
      ends after it with what it started drained ([Lifecycle.Run_returns]), and
      the program gives back its connection
      ([Lifecycle.run_releases]); a shutdown waits at most five seconds for the
      requests in flight ([Lifecycle.shutdown_bounded]); the duration of the file is read to the
      nanosecond ([Config.refresh_exact]).
    - The whole round: a payload of any builder that is signed by the owner's key
      decodes at the broadcast to the owner and the built message, is charged as
      such, and is signed by no other key ([Signer.signed_as_built],
      [Signer.signed_evm_as_built]); signing a challenge logs in,
      and the bearer works until it expires, whoever else logs in meanwhile
      ([Login.login_completes]).
    - Logging in: [AuthTools.AuthVerify_sound], [AuthTools.middleware_authentic],
      single use and exact life time of nonces ([NonceStore.Consume_iff_live]) and of
      client ids ([Policy.Claim_iff]), authenticity of bearers, session
      bindings, the per-address limit, which no header of a request gets around
      ([Edge.challenge_rate]).
    - The limits: exactness of [Enforce] and [Check], the caps over any sequence
      of operations, the atomicity of the cap file and the invisibility of a
      restart.
    - The builders: a payload carries exactly the requested message with the
      owner's authority, the right fee and sequence class and the exact amount.
    - The inspection of signed transactions: the sums charged are the sums of
      the messages; EVM transfers are decoded exactly.
    - Amounts and units: conversions are exact or refused, round trips, bounds.
    - The EVM tools: a payload acts from the caller's own address and encodes
      exactly the request ([EVMTools.erc_tool_faithful]); what it moves is what
      the broadcast check will charge ([EVMTools.erc_tool_charged]); swaps call
      exactly the router method that pays the caller and bounds the slippage
      ([SwapTools.BuildSwap_spec]); deposits lead to the network that was named and
      follow the whitelist ([BridgeTools.bridge_deposit_faithful]), and the
      approvals they ask for can be built on the right chain
      ([Config.approval_on_deposit_chain]); the registry loads exactly the
      unambiguous files ([BridgeRegistry.newRegistry_iff]) and looks routes up independently of their order; a valid
      configuration is wired as it says ([Config.wire_sound]).
    - The contract interfaces: every call is encoded as its contract expects
      ([ABIBindings.bindings_encode]), every answer is read as it was meant
      ([ABIBindings.answers_decode]), and what the other theorems assume of the
      encoder follows from the documented encoding
      ([ABIBindings.abi_laws_hold]).
    - The money markets: a refresh publishes exactly what the contracts answered,
      field by field, and the table stays the index of the list ([lendora_Refresh_exact],
      [lendora_cache_well_formed] of [LendoraCache]); the risk report is the
      arithmetic of the Comptroller ([LendoraRisk.computeRisk_exact]); an operation
      encodes exactly the request behind its checks
      ([LendoraOps.lendora_op_faithful], [LendoraOps.lendora_guardrail]), of which
      the one on disabling collateral covers the cached markets only
      ([LendoraOps.disable_unchecked_outside_cache]).
    - The read tools: a read of account data names no account but the
      caller's own, whatever its filters hold ([AccountTools.owner_reads_scoped]); an account the
      indexer does not know reads as empty where that is meant
      ([AccountTools.unknown_account_empty]); no answer is null where its schema
      has a list, save a null body passed on by get_orders
      ([MarketTools.read_answers_shaped]); the faucet pays the caller
      ([FaucetTools.faucet_pays_caller]).

    ** Bounds and fuel

    The loops with fuel are [Limits.pad_frac] (six rounds reach the six digits
    it pads to), [TransferOut.pad_zeros] (the number of decimals), the digit
    printer of [GoNum] (one round per binary digit suffices), the trimming of
    [GoStrings] and the query parser of [Http] (the length of the text), and the
    blocks of [Keccak] (the length of the input), and the scanner of [GoDuration]
    (the length of the text).  Lemmas or evaluations show that
    each reaches its end.  [Lifecycle.Run_returns] needs no bound: it is
    about infinite executions; the ticks of the cache loops are arguments of the
    functional models of the caches and steps of the lifecycle.

    ** Not modelled

    The decoding of the TOML file and of JSON bodies, gRPC and JSON-RPC transport
    and what the packages of the chain register with its codecs, which are
    arguments or classes; the HTTP and MCP framing and the parsing of the command
    line, which are the work of libraries; the tool descriptions and schemas, and
    the structs that only wrap a modelled value for them.  A wait on a client's
    rate limiter is an outcome, not a delay.  The transition system of [System]
    serves requests one after the other; interleavings inside a handler are
    modelled for the handlers whose guarantees they could break, the two broadcasts
    and the handshake, and the other handlers are interleaved whole. *)

From stdpp Require Export base tactics list gmap strings fin_maps.
From Stdlib Require Export ZArith Ascii String Lia.

Open Scope Z_scope.
Open Scope list_scope.

(** Rewriting with the string and integer normal forms; case analysis of the
    boolean guards of an operation. *)
Create Rewrite HintDb gostr.
Create HintDb gonum.
Create HintDb store.

(** ** Go errors

    An error keeps what the source gives it: the sentinel of [errors.New],
    the format and arguments of [fmt.Errorf] (a [%w] argument is the wrapped
    error), or the fields of a typed error struct.  [Panic] stands for a run-time
    panic where the source would return. *)

Inductive goerr : Type :=
| ErrNew (msg : string)
| Errorf (format : string) (args : list fmtarg)
| ErrCapExceeded (kind tool limit requested used : string)
| ErrSymbolCapExceeded (symbol limit requested used : string)
| ErrInsufficientFee (required got : string)
| NumError (func num err : string)
| Panic (msg : string)
with fmtarg : Type :=
| FStr (s : string)
| FInt (z : Z)
| FErr (e : goerr).

(** ** Results *)

Inductive result (A : Type) : Type :=
| Ok (a : A)
| Err (e : goerr).
Arguments Ok {A} _.
Arguments Err {A} _.

#[export] Instance result_ret : MRet result := fun A a => Ok a.

#[export] Instance result_bind : MBind result := fun A B f m =>
  match m with Ok a => f a | Err e => Err e end.

#[export] Instance result_fmap : FMap result := fun A B f m =>
  match m with Ok a => Ok (f a) | Err e => Err e end.

(** [wrap f r] is Go's [if err != nil { return fmt.Errorf(f, ..., err) }]:
    it maps the error of [r] and leaves a value alone. *)
Definition wrap {A} (f : goerr -> goerr) (r : result A) : result A :=
  match r with Ok a => Ok a | Err e => Err (f e) end.

(** [check b e] is [if b { return e }]. *)
Definition check (b : bool) (e : goerr) : result unit :=
  if b then Err e else Ok tt.

(** [from_opt o e] is the comma-ok idiom [v, ok := ...; if !ok { return e }]. *)
Definition from_opt {A} (o : option A) (e : goerr) : result A :=
  match o with Some a => Ok a | None => Err e end.

Definition is_ok {A} (r : result A) : bool :=
  match r with Ok _ => true | Err _ => false end.

(** An operation that returns only an [error]: [Ok tt] is [nil]. *)
Abbreviation error := (result unit).

(** ** Computations over a state: the value or error, and the new state. *)

Definition M (S A : Type) : Type := S -> result A * S.

#[export] Instance M_ret {S} : MRet (M S) := fun A a s => (Ok a, s).

#[export] Instance M_bind {S} : MBind (M S) := fun A B f m s =>
  match m s with
  | (Ok a, s') => f a s'
  | (Err e, s') => (Err e, s')
  end.

(** A stateless computation inside a stateful one. *)
Definition lift {S A} (r : result A) : M S A := fun s => (r, s).

(** ** Machine integers

    Go's unsigned and signed integers are [Z] in range; the wrap-around of an
    operation that can leave the range is written out with these functions. *)

Definition u64 (z : Z) : Z := z mod 2 ^ 64.
Definition u32 (z : Z) : Z := z mod 2 ^ 32.
Definition i32 (z : Z) : Z := (z + 2 ^ 31) mod 2 ^ 32 - 2 ^ 31.
Definition i64 (z : Z) : Z := (z + 2 ^ 63) mod 2 ^ 64 - 2 ^ 63.
Definition maxU64 : Z := 2 ^ 64 - 1.

Definition is_u64 (z : Z) : bool := (0 <=? z) && (z <=? maxU64).
Definition is_u32 (z : Z) : bool := (0 <=? z) && (z <? 2 ^ 32).
Definition is_i64 (z : Z) : bool := (- 2 ^ 63 <=? z) && (z <? 2 ^ 63).

(** ** Inversion of computations *)

Lemma M_bind_ok {S A B} (m : M S A) (f : A -> M S B) s b s' :
  (m ≫= f) s = (Ok b, s') -> exists a s1, m s = (Ok a, s1) /\ f a s1 = (Ok b, s').
Proof. unfold mbind, M_bind. destruct (m s) as [[a|e] s1]; [eauto|done]. Qed.

Lemma M_bind_cases {S A B} (m : M S A) (f : A -> M S B) s r s' :
  (m ≫= f) s = (r, s') ->
  (exists e, m s = (Err e, s') /\ r = Err e) \/ (exists a s1, m s = (Ok a, s1) /\ f a s1 = (r, s')).
Proof. unfold mbind, M_bind. destruct (m s) as [[a|e] s1]; [eauto|]. intros [= <- <-]. eauto. Qed.

Lemma lift_ok {S A} (r : result A) (s s' : S) a : lift r s = (Ok a, s') -> r = Ok a /\ s' = s.
Proof. unfold lift. by intros [= -> ->]. Qed.

Lemma wrap_ok {A} f (r : result A) a : wrap f r = Ok a -> r = Ok a.
Proof. by destruct r. Qed.

(** A guard that was passed, and a step whose value is [nil]. *)
Lemma bind_check_ok {A} b e (f : unit -> result A) a : (check b e ≫= f) = Ok a -> b = false /\ f tt = Ok a.
Proof. by destruct b. Qed.

Lemma bind_error_ok {A} (m : error) (f : unit -> result A) a : (m ≫= f) = Ok a -> m = Ok tt /\ f tt = Ok a.
Proof. by destruct m as [[]|]. Qed.

(** Walk a computation that returned a value, one bind at a time: [H1] is the
    step, [H] the rest. *)
Tactic Notation "m_inv" hyp(H) "as" ident(a) ident(s1) ident(H1) :=
  apply M_bind_ok in H as (a & s1 & H1 & H).

(** ** A Hoare logic for computations

    [triple P m Q R]: from a state in [P] the computation ends with a value and
    state in [Q] or with an error and a state in [R]. *)
Definition triple {S A} (P : S -> Prop) (m : M S A) (Q : A -> S -> Prop) (R : S -> Prop) : Prop :=
  forall s, P s -> match m s with (Ok a, s') => Q a s' | (Err _, s') => R s' end.

Lemma triple_bind {S A B} (P : S -> Prop) (m : M S A) (Q : A -> S -> Prop) (R : S -> Prop)
    (f : A -> M S B) (Q' : B -> S -> Prop) :
  triple P m Q R -> (forall a, triple (Q a) (f a) Q' R) -> triple P (m ≫= f) Q' R.
Proof.
  intros Hm Hf s Hs. specialize (Hm s Hs). unfold mbind, M_bind.
  destruct (m s) as [[a|e] s1]; [by apply Hf|done].
Qed.

Lemma triple_ret {S A} (a : A) (Q : A -> S -> Prop) R : triple (Q a) (mret a) Q R.
Proof. by intros s Hs. Qed.

Lemma triple_weaken {S A} (P P' : S -> Prop) (m : M S A) (Q Q' : A -> S -> Prop) (R R' : S -> Prop) :
  triple P m Q R -> (forall s, P' s -> P s) -> (forall a s, Q a s -> Q' a s) -> (forall s, R s -> R' s) ->
  triple P' m Q' R'.
Proof.
  intros Hm HP HQ HR s Hs. specialize (Hm s (HP s Hs)). destruct (m s) as [[a|e] s1]; auto.
Qed.

Lemma triple_lift {S A} (P : S -> Prop) (r : result A) :
  triple P (lift r) (fun a s => P s /\ r = Ok a) P.
Proof. intros s Hs. unfold lift. by destruct r. Qed.

(** A pure fact of the precondition moves to the context. *)
Lemma triple_pure {S A} (P : S -> Prop) (F : Prop) (m : M S A) Q R :
  (F -> triple P m Q R) -> triple (fun s => P s /\ F) m Q R.
Proof. intros H s [Hs HF]. by apply (H HF). Qed.

(** Preservation of a predicate, on success and on failure. *)
Abbreviation preserves P m := (triple P m (fun _ => P) P) (only parsing).
