(* ===== verification/GoStrings.v ===== *)
(** * Go strings and byte slices

    The functions of Go's [strings] package the program calls, on byte strings
    ([string] is Go's immutable byte string, [list ascii] is [[]byte]), with
    the lemmas the components share.  [strings.ToLower], [strings.ToUpper]
    and [strings.EqualFold] of a string with a byte of 0x80 or more depend on the Unicode tables, which
    the class [Unicode] leaves as a parameter; on ASCII input the functions are
    the usual case maps. *)

From S2P Require Import Prelude.

Abbreviation bytes := (list ascii).
Abbreviation chars := list_ascii_of_string.
Abbreviation str := string_of_list_ascii.

Definition code (c : ascii) : Z := Z.of_N (N_of_ascii c).
Definition chr (z : Z) : ascii := ascii_of_N (Z.to_N z).

(** [len(s)] *)
Definition len (s : string) : Z := Z.of_nat (String.length s).

Definition bs (l : list Z) : string := str (map chr l).

(** ** Prefixes *)

(** [has_prefix_l p s] on byte lists; [Some r] gives the rest after [p]. *)
Fixpoint strip_prefix (p s : bytes) : option bytes :=
  match p, s with
  | [], _ => Some s
  | _ :: _, [] => None
  | a :: p', b :: s' => if Ascii.eqb a b then strip_prefix p' s' else None
  end.

Definition HasPrefix (s p : string) : bool :=
  match strip_prefix (chars p) (chars s) with Some _ => true | None => false end.

(** [strings.CutPrefix] *)
Definition CutPrefix (s p : string) : string * bool :=
  match strip_prefix (chars p) (chars s) with
  | Some r => (str r, true)
  | None => (s, false)
  end.

(** [strings.TrimPrefix] *)
Definition TrimPrefix (s p : string) : string := fst (CutPrefix s p).

(** ** White space

    The UTF-8 encodings of the code points for which [unicode.IsSpace] holds:
    TAB..CR, SPACE, U+0085, U+00A0, U+1680, U+2000..U+200A, U+2028, U+2029,
    U+202F, U+205F and U+3000. *)
Definition space_seqs : list bytes :=
  map (map chr)
    ([[9]; [10]; [11]; [12]; [13]; [32]; [194; 133]; [194; 160];
      [225; 154; 128]; [226; 128; 168]; [226; 128; 169]; [226; 128; 175];
      [226; 129; 159]; [227; 128; 128]]
     ++ map (fun k => [226; 128; 128 + k]) [0; 1; 2; 3; 4; 5; 6; 7; 8; 9; 10]).

Fixpoint strip_any (seqs : list bytes) (s : bytes) : option bytes :=
  match seqs with
  | [] => None
  | w :: ws => match strip_prefix w s with Some r => Some r | None => strip_any ws s end
  end.

(** One sequence is removed per round and each is non-empty, so the length of
    the input bounds the number of rounds. *)
Fixpoint trim_left (seqs : list bytes) (fuel : nat) (s : bytes) : bytes :=
  match fuel with
  | O => s
  | S f => match strip_any seqs s with Some r => trim_left seqs f r | None => s end
  end.

(** [strings.TrimSpace] *)
Definition TrimSpace (s : string) : string :=
  let l := trim_left space_seqs (String.length s) (chars s) in
  str (rev (trim_left (map (@rev ascii) space_seqs) (List.length l) (rev l))).

(** ** Splitting *)

(** [strings.Cut(s, sep)] for a one-byte separator. *)
Fixpoint cut_l (c : ascii) (s : bytes) : bytes * option bytes :=
  match s with
  | [] => ([], None)
  | a :: s' => if Ascii.eqb a c then ([], Some s')
               else let '(x, r) := cut_l c s' in (a :: x, r)
  end.

Definition Cut (s : string) (c : ascii) : string * string * bool :=
  match cut_l c (chars s) with
  | (x, Some y) => (str x, str y, true)
  | (x, None) => (s, EmptyString, false)
  end.

(** [strings.SplitN(s, sep, n)] for a one-byte separator and [n > 0]: at most
    [n] parts, the last one holding the unsplit rest. *)
Fixpoint SplitN_l (c : ascii) (n : nat) (s : bytes) : list bytes :=
  match n with
  | O => []
  | S O => [s]
  | S n' => match cut_l c s with
            | (x, Some y) => x :: SplitN_l c n' y
            | (_, None) => [s]
            end
  end.

Definition SplitN (s : string) (c : ascii) (n : nat) : list string :=
  map str (SplitN_l c n (chars s)).

(** [strings.TrimRight(s, cutset)] for a one-byte cutset. *)
Fixpoint drop_while (c : ascii) (s : bytes) : bytes :=
  match s with
  | [] => []
  | a :: s' => if Ascii.eqb a c then drop_while c s' else s
  end.

Definition TrimRight1 (s : string) (c : ascii) : string :=
  str (rev (drop_while c (rev (chars s)))).

(** [strings.Join(parts, sep)] *)
Fixpoint Join (parts : list string) (sep : string) : string :=
  match parts with
  | [] => EmptyString
  | [p] => p
  | p :: ps => (p +:+ sep +:+ Join ps sep)%string
  end.

(** ** Case maps *)

Definition is_ascii_str (s : string) : bool :=
  forallb (fun c => code c <? 128) (chars s).

Definition lower_ascii (c : ascii) : ascii :=
  if (65 <=? code c) && (code c <=? 90) then chr (code c + 32) else c.
Definition upper_ascii (c : ascii) : ascii :=
  if (97 <=? code c) && (code c <=? 122) then chr (code c - 32) else c.

Class Unicode : Type := {
  unicode_ToLower : string -> string;  (* strings.ToLower off the ASCII path *)
  unicode_ToUpper : string -> string;
  unicode_EqualFold : string -> string -> bool;  (* strings.EqualFold off the ASCII path *)
}.

Definition ToLower `{Unicode} (s : string) : string :=
  if is_ascii_str s then str (map lower_ascii (chars s)) else unicode_ToLower s.
Definition ToUpper `{Unicode} (s : string) : string :=
  if is_ascii_str s then str (map upper_ascii (chars s)) else unicode_ToUpper s.

Definition EqualFold `{Unicode} (s t : string) : bool :=
  if is_ascii_str s && is_ascii_str t
  then bool_decide (map lower_ascii (chars s) = map lower_ascii (chars t)) else unicode_EqualFold s t.

(** The instance used in concrete evaluations: non-ASCII strings are kept. *)
Definition unicode_id : Unicode :=
  {| unicode_ToLower := fun s => s; unicode_ToUpper := fun s => s; unicode_EqualFold := String.eqb |}.

(** ** Lemmas *)

Lemma str_chars s : str (chars s) = s.
Proof. apply string_of_list_ascii_of_string. Qed.

Lemma chars_str l : chars (str l) = l.
Proof. apply list_ascii_of_string_of_list_ascii. Qed.

Lemma chars_app s t : chars (s +:+ t) = chars s ++ chars t.
Proof. induction s as [|a s IH]; [done|]. simpl. by rewrite IH. Qed.

Lemma str_app l k : str (l ++ k) = (str l +:+ str k)%string.
Proof. induction l as [|a l IH]; [done|]. simpl. by rewrite IH. Qed.

Lemma length_chars s : List.length (chars s) = String.length s.
Proof. induction s; simpl; congruence. Qed.

Lemma chars_inj s t : chars s = chars t -> s = t.
Proof. intros H. by rewrite <- (str_chars s), H, str_chars. Qed.

Lemma str_inj l k : str l = str k -> l = k.
Proof. intros H. by rewrite <- (chars_str l), H, chars_str. Qed.

Lemma code_bound c : 0 <= code c < 256.
Proof.
  unfold code. pose proof (N_ascii_bounded c). lia.
Qed.

Lemma code_chr z : 0 <= z < 256 -> code (chr z) = z.
Proof. intros H. unfold code, chr. rewrite N_ascii_embedding; lia. Qed.

Lemma chr_code c : chr (code c) = c.
Proof. unfold code, chr. by rewrite N2Z.id, ascii_N_embedding. Qed.

Lemma code_inj c d : code c = code d -> c = d.
Proof. intros H. by rewrite <- (chr_code c), H, chr_code. Qed.

Lemma strip_prefix_app p s : strip_prefix p (p ++ s) = Some s.
Proof. induction p as [|a p IH]; simpl; [done|]. by rewrite Ascii.eqb_refl. Qed.

Lemma strip_prefix_Some p s r : strip_prefix p s = Some r -> s = p ++ r.
Proof.
  revert s. induction p as [|a p IH]; intros [|b s] H; simplify_eq/=; try done.
  destruct (Ascii.eqb_spec a b); [|done]. subst. by rewrite (IH _ H).
Qed.

Lemma HasPrefix_app p s : HasPrefix (p +:+ s) p = true.
Proof. unfold HasPrefix. by rewrite chars_app, strip_prefix_app. Qed.

Lemma HasPrefix_true s p : HasPrefix s p = true -> exists r, s = (p +:+ r)%string.
Proof.
  unfold HasPrefix. destruct (strip_prefix _ _) as [r|] eqn:E; [|done]. intros _.
  exists (str r). apply chars_inj. by rewrite chars_app, chars_str, (strip_prefix_Some _ _ _ E).
Qed.

Lemma cut_l_notin c s : c ∉ s -> cut_l c s = (s, None).
Proof.
  induction s as [|a s IH]; [done|]. intros H; simpl.
  destruct (Ascii.eqb_spec a c); [subst; set_solver|].
  rewrite IH; [done|set_solver].
Qed.

Lemma cut_l_app c s t : c ∉ s -> cut_l c (s ++ c :: t) = (s, Some t).
Proof.
  induction s as [|a s IH]; simpl; intros H.
  - by rewrite Ascii.eqb_refl.
  - destruct (Ascii.eqb_spec a c); [subst; set_solver|].
    rewrite IH; [done|set_solver].
Qed.

Lemma cut_l_spec c s x r :
  cut_l c s = (x, r) ->
  c ∉ x /\ match r with Some y => s = x ++ c :: y | None => s = x end.
Proof.
  revert x r. induction s as [|a s IHs]; simpl; intros x r E.
  - simplify_eq. set_solver.
  - destruct (Ascii.eqb_spec a c); [clear IHs; simplify_eq; set_solver|].
    destruct (cut_l c s) as [x' r'] eqn:E'. simplify_eq.
    destruct (IHs _ _ eq_refl) as [Hn Hr]. split; [set_solver|].
    destruct r; by subst.
Qed.

Lemma Cut_app c s t : c ∉ chars s -> Cut (s +:+ String c t) c = (s, t, true).
Proof.
  intros H. unfold Cut. rewrite chars_app. simpl.
  by rewrite (cut_l_app _ _ _ H), !str_chars.
Qed.

Lemma Cut_notin c s : c ∉ chars s -> Cut s c = (s, EmptyString, false).
Proof. intros H. unfold Cut. by rewrite (cut_l_notin _ _ H). Qed.

(** A byte that starts (ends) no white-space sequence stops the trimming. *)
Definition no_space_head (seqs : list bytes) (c : ascii) : bool :=
  forallb (fun w => match w with a :: _ => negb (Ascii.eqb a c) | [] => false end) seqs.

Lemma strip_any_head seqs c s :
  no_space_head seqs c = true -> strip_any seqs (c :: s) = None.
Proof.
  induction seqs as [|w ws IH]; [done|]. simpl.
  rewrite andb_true_iff. intros [H1 H2].
  destruct w as [|a w]; [done|]. simpl. rewrite negb_true_iff in H1. rewrite H1. auto.
Qed.

Lemma trim_left_head seqs c s n :
  no_space_head seqs c = true -> trim_left seqs n (c :: s) = c :: s.
Proof. intros H. destruct n; [done|]. simpl. by rewrite strip_any_head. Qed.

(** Bytes that neither start nor end a white-space sequence: every ASCII byte
    that is not itself white space. *)
Definition solid (c : ascii) : bool :=
  no_space_head space_seqs c && no_space_head (map (@rev ascii) space_seqs) c.

Lemma TrimSpace_solid a l b :
  solid a = true -> solid b = true ->
  TrimSpace (str (a :: l ++ [b])) = str (a :: l ++ [b]).
Proof.
  unfold solid. rewrite !andb_true_iff. intros [Ha _] [_ Hb].
  unfold TrimSpace. rewrite chars_str, (trim_left_head _ _ _ _ Ha).
  change (a :: l ++ [b]) with ((a :: l) ++ [b]).
  rewrite rev_app_distr. change (rev [b] ++ rev (a :: l)) with (b :: rev (a :: l)).
  rewrite (trim_left_head _ _ _ _ Hb).
  change (rev (b :: rev (a :: l))) with (rev (rev (a :: l)) ++ [b]).
  by rewrite rev_involutive.
Qed.

Lemma TrimSpace_solid1 a : solid a = true -> TrimSpace (str [a]) = str [a].
Proof.
  unfold solid. rewrite andb_true_iff. intros [Ha Hb]. unfold TrimSpace.
  rewrite chars_str, (trim_left_head _ _ _ _ Ha).
  change (rev [a]) with [a]. by rewrite (trim_left_head _ _ _ _ Hb).
Qed.

#[export] Hint Rewrite str_chars chars_str chars_app str_app : gostr.

Lemma TrimSpace_solid_all l :
  l <> [] -> Forall (fun c => solid c = true) l -> TrimSpace (str l) = str l.
Proof.
  intros Hl Hf. destruct l as [|a l]; [done|].
  destruct l as [|b l _] using rev_ind.
  - inversion Hf; subst. by apply TrimSpace_solid1.
  - apply Forall_cons in Hf as [Ha Hf]. apply Forall_app in Hf as [_ Hb].
    inversion Hb; subst. by apply TrimSpace_solid.
Qed.
