(* ===== verification/GoPath.v ===== *)
(** * Go's [path/filepath] on Unix

    The functions with which the configuration resolves relative file names:
    [Clean], [Dir], [Join] and [IsAbs].  [Clean] works on the segments between
    the slashes: empty and [.] segments go, [..] takes the segment before it
    with it, and stays only at the front of a path that is not rooted. *)

From S2P Require Import Prelude GoStrings.

Module filepath.

Definition slash : ascii := "/".
Definition dot : bytes := chars ".".
Definition dotdot : bytes := chars "..".

Definition IsAbs (path : string) : bool := HasPrefix path "/".

(** The segments of a path. *)
Fixpoint segments (s : bytes) : list bytes :=
  match s with
  | [] => [[]]
  | c :: s' =>
      if Ascii.eqb c slash then [] :: segments s'
      else match segments s' with
           | seg :: rest => (c :: seg) :: rest
           | [] => [[c]]
           end
  end.

(** One segment on the stack of those kept, the last on top. *)
Definition push (rooted : bool) (kept : list bytes) (seg : bytes) : list bytes :=
  if bool_decide (seg = []) || bool_decide (seg = dot) then kept
  else if bool_decide (seg = dotdot) then
    match kept with
    | [] => if rooted then [] else [dotdot]
    | top :: below => if bool_decide (top = dotdot) then dotdot :: kept else below
    end
  else seg :: kept.

Definition Clean (path : string) : string :=
  let rooted := IsAbs path in
  let body := GoStrings.Join (map str (rev (foldl (push rooted) [] (segments (chars path))))) "/" in
  if rooted then ("/" +:+ body)%string else if String.eqb body "" then "." else body.

(** A byte of the scan from the end: whether a slash was seen, the text up to
    it in reverse, the text after it. *)
Definition cut_step (c : ascii) (st : bool * bytes * bytes) : bool * bytes * bytes :=
  let '(seen, before, after) := st in
  if seen || Ascii.eqb c slash then (true, before ++ [c], after) else (false, before, c :: after).

(** The text up to and with the last slash. *)
Definition up_to_slash (path : string) : string :=
  str (rev (snd (fst (foldr cut_step (false, [], []) (chars path))))).

Definition Dir (path : string) : string := Clean (up_to_slash path).

Fixpoint skip_empty (elem : list string) : list string :=
  match elem with
  | e :: l => if String.eqb e "" then skip_empty l else elem
  | [] => []
  end.

Definition Join (elem : list string) : string :=
  match skip_empty elem with
  | [] => ""
  | l => Clean (GoStrings.Join l "/")
  end.

Example clean_cases :
  map Clean [""; "/"; "a//b/./c/"; "a/../../b"; "/../a/../.."; "./etc"]%string = ["."; "/"; "a/b/c"; "../b"; "/"; "etc"]%string.
Proof. vm_compute. reflexivity. Qed.
Example dir_cases :
  map Dir ["mcp.toml"; "/mcp.toml"; "/etc/svpchain-mcp/mcp.toml"; "conf/dev/mcp.toml"]%string
  = ["."; "/"; "/etc/svpchain-mcp"; "conf/dev"]%string.
Proof. vm_compute. reflexivity. Qed.
Example join_cases :
  Join [Dir "/etc/svpchain-mcp/mcp.toml"; "routes.json"] = "/etc/svpchain-mcp/routes.json"%string
  /\ Join [Dir "mcp.toml"; "caps.json"] = "caps.json"%string
  /\ Join [Dir "conf/mcp.toml"; "../caps.json"] = "caps.json"%string.
Proof. vm_compute. done. Qed.

Lemma IsAbs_slash s : IsAbs ("/" +:+ s) = true.
Proof. apply (HasPrefix_app "/" s). Qed.

Lemma IsAbs_inv s : IsAbs s = true -> exists r, s = ("/" +:+ r)%string.
Proof. apply HasPrefix_true. Qed.

(** Cleaning keeps a rooted path rooted. *)
Lemma Clean_abs s : IsAbs s = true -> IsAbs (Clean s) = true.
Proof. intros H. unfold Clean. rewrite H. apply IsAbs_slash. Qed.

Lemma up_to_slash_abs s : IsAbs s = true -> IsAbs (up_to_slash s) = true.
Proof.
  intros [r ->]%IsAbs_inv. unfold up_to_slash.
  change (chars ("/" +:+ r)) with (slash :: chars r). cbn [foldr].
  destruct (foldr cut_step (false, [], []) (chars r)) as [[seen before] after].
  unfold cut_step. change (Ascii.eqb slash slash) with true. rewrite orb_true_r. cbn [fst snd]. rewrite rev_app_distr. cbn [rev app].
  change (slash :: rev before) with (chars "/" ++ rev before). rewrite str_app, str_chars. apply IsAbs_slash.
Qed.

Lemma Dir_abs s : IsAbs s = true -> IsAbs (Dir s) = true.
Proof. intros H. by apply Clean_abs, up_to_slash_abs. Qed.

(** A file name joined to a rooted directory is rooted. *)
Lemma Join_abs dir name : IsAbs dir = true -> IsAbs (Join [dir; name]) = true.
Proof.
  intros [r ->]%IsAbs_inv. unfold Join. cbn [skip_empty String.append String.eqb].
  apply Clean_abs. exact (IsAbs_slash (r +:+ "/" +:+ name)).
Qed.

End filepath.
