(* ===== verification/GoNum.v ===== *)
(** * Decimal text of integers

    [strconv.FormatUint/FormatInt], [big.Int.String] and the [%d] verb print
    decimal digits; [strconv.ParseUint/ParseInt] with base 10 and 64 bits and
    [big.Int.SetString(s, 10)] read them back. *)

From S2P Require Import Prelude GoStrings.

Definition digit_char (d : Z) : ascii := chr (48 + d).

Definition digit_val (c : ascii) : option Z :=
  if (48 <=? code c) && (code c <=? 57) then Some (code c - 48) else None.

Definition is_digit (c : ascii) : bool := (48 <=? code c) && (code c <=? 57).

(** The decimal digits of a non-negative integer, most significant first.  A
    decimal digit is consumed per round, so [log2 n + 1] rounds are enough. *)
Fixpoint digits_fuel (fuel : nat) (n : Z) : list Z :=
  match fuel with
  | O => []
  | S f => if n <? 10 then [n] else digits_fuel f (n / 10) ++ [n mod 10]
  end.

Definition digits (n : Z) : list Z := digits_fuel (S (Z.to_nat (Z.log2 n))) n.

Definition FormatUint (n : Z) : string := str (map digit_char (digits n)).

Definition FormatInt (z : Z) : string :=
  if z <? 0 then String "-" (FormatUint (- z)) else FormatUint z.

Definition zeros (n : nat) : bytes := repeat "0"%char n.

(** [fmt.Sprintf("%0wd", n)] for [n >= 0]. *)
Definition pad_left (w : nat) (s : string) : string :=
  str (zeros (w - String.length s) ++ chars s).

(** The value of a digit string; [None] when a byte is not a digit. *)
Fixpoint parse_digits_acc (acc : Z) (s : bytes) : option Z :=
  match s with
  | [] => Some acc
  | c :: s' => match digit_val c with
               | Some d => parse_digits_acc (acc * 10 + d) s'
               | None => None
               end
  end.

Definition parse_digits (s : bytes) : option Z := parse_digits_acc 0 s.

Definition parse_nat (s : bytes) : option Z :=
  match s with [] => None | _ => parse_digits s end.

Definition err_syntax : string := "invalid syntax".
Definition err_range : string := "value out of range".

(** [strconv.ParseUint(s, 10, 64)] *)
Definition ParseUint (s : string) : result Z :=
  match parse_nat (chars s) with
  | None => Err (NumError "ParseUint" s err_syntax)
  | Some n => if n <=? maxU64 then Ok n else Err (NumError "ParseUint" s err_range)
  end.

Definition split_sign (s : bytes) : bool * bytes :=
  match s with
  | c :: s' => if Ascii.eqb c "-" then (true, s')
               else if Ascii.eqb c "+" then (false, s') else (false, s)
  | [] => (false, s)
  end.

(** [strconv.ParseInt(s, 10, 64)] *)
Definition ParseInt (s : string) : result Z :=
  let '(neg, body) := split_sign (chars s) in
  match parse_nat body with
  | None => Err (NumError "ParseInt" s err_syntax)
  | Some n => let z := if neg : bool then - n else n in
              if is_i64 z then Ok z else Err (NumError "ParseInt" s err_range)
  end.

(** [new(big.Int).SetString(s, 10)] *)
Definition BigSetString10 (s : string) : option Z :=
  let '(neg, body) := split_sign (chars s) in
  match parse_nat body with
  | None => None
  | Some n => Some (if neg : bool then - n else n)
  end.

(** The value of a list of digits. *)
Definition digits_value (l : list Z) : Z := foldl (fun acc d => acc * 10 + d) 0 l.

(** ** Lemmas *)

Lemma digit_val_char d : 0 <= d <= 9 -> digit_val (digit_char d) = Some d.
Proof.
  intros H. unfold digit_val, digit_char. rewrite code_chr by lia.
  rewrite (proj2 (Z.leb_le 48 (48 + d))), (proj2 (Z.leb_le (48 + d) 57)) by lia.
  simpl. f_equal. lia.
Qed.

Lemma is_digit_char d : 0 <= d <= 9 -> is_digit (digit_char d) = true.
Proof.
  intros H. unfold is_digit, digit_char. rewrite code_chr by lia.
  apply andb_true_intro; split; apply Z.leb_le; lia.
Qed.

Lemma is_digit_ex c : is_digit c = true -> exists d, 0 <= d <= 9 /\ c = digit_char d.
Proof.
  unfold is_digit. rewrite andb_true_iff, !Z.leb_le. intros [H1 H2].
  exists (code c - 48). split; [lia|]. unfold digit_char.
  replace (48 + (code c - 48)) with (code c) by lia. by rewrite chr_code.
Qed.

Lemma digit_val_is_digit c : is_digit c = true -> is_Some (digit_val c).
Proof. intros (d & Hd & ->)%is_digit_ex. rewrite digit_val_char by done. eauto. Qed.

Lemma digit_solid c : is_digit c = true -> solid c = true.
Proof.
  intros (d & Hd & ->)%is_digit_ex.
  assert (d = 0 \/ d = 1 \/ d = 2 \/ d = 3 \/ d = 4 \/ d = 5 \/ d = 6 \/ d = 7 \/ d = 8 \/ d = 9)
    as Hc by lia.
  by destruct_or!; subst.
Qed.

(** A digit is not one of the separator or sign bytes. *)
Lemma digit_neq c d :
  is_digit c = true -> is_digit d = false -> Ascii.eqb c d = false.
Proof. intros Hc Hd. apply Ascii.eqb_neq. intros ->. congruence. Qed.

Lemma digits_fuel_range f n : 0 <= n -> Forall (fun d => 0 <= d <= 9) (digits_fuel f n).
Proof.
  revert n. induction f as [|f IH]; intros n Hn; simpl; [constructor|].
  destruct (Z.ltb_spec n 10); [repeat constructor; lia|].
  apply Forall_app; split.
  - apply IH. apply Z.div_pos; lia.
  - pose proof (Z.mod_pos_bound n 10). repeat constructor; lia.
Qed.

Lemma digits_range n : 0 <= n -> Forall (fun d => 0 <= d <= 9) (digits n).
Proof. apply digits_fuel_range. Qed.

Lemma foldl_digits_app a l k :
  foldl (fun acc d => acc * 10 + d) a (l ++ k)
  = foldl (fun acc d => acc * 10 + d) (foldl (fun acc d => acc * 10 + d) a l) k.
Proof. apply foldl_app. Qed.

Lemma digits_fuel_value f n :
  0 <= n < 2 ^ Z.of_nat f -> (0 < f)%nat -> digits_value (digits_fuel f n) = n.
Proof.
  revert n. induction f as [|f IH]; intros n Hn Hf; [lia|]. simpl.
  destruct (Z.ltb_spec n 10) as [H|H]; [unfold digits_value; simpl; lia|].
  unfold digits_value in *. rewrite foldl_digits_app. simpl.
  rewrite Nat2Z.inj_succ, Z.pow_succ_r in Hn by lia.
  pose proof (Z.div_mod n 10). pose proof (Z.mod_pos_bound n 10).
  rewrite IH; [lia| |].
  - split; [lia|]. apply Z.div_lt_upper_bound; lia.
  - destruct f; [simpl in Hn; lia|lia].
Qed.

Lemma digits_digits_value n : 0 <= n -> digits_value (digits n) = n.
Proof.
  intros Hn. unfold digits. apply digits_fuel_value; [|lia].
  split; [done|]. destruct (Z.eq_dec n 0) as [->|H0]; [done|].
  pose proof (Z.log2_spec n ltac:(lia)). pose proof (Z.log2_nonneg n).
  rewrite Nat2Z.inj_succ, Z2Nat.id by lia. lia.
Qed.

Lemma digits_nonempty n : digits n <> [].
Proof.
  unfold digits. simpl. destruct (n <? 10); [done|].
  intros H. by apply app_eq_nil in H as [_ H].
Qed.

Lemma parse_digits_acc_map acc l :
  Forall (fun d => 0 <= d <= 9) l ->
  parse_digits_acc acc (map digit_char l)
  = Some (foldl (fun a d => a * 10 + d) acc l).
Proof.
  revert acc. induction l as [|d l IH]; intros acc H; [done|].
  inversion H; subst. simpl. rewrite digit_val_char by done. by apply IH.
Qed.

Lemma parse_digits_FormatUint n :
  0 <= n -> parse_digits (chars (FormatUint n)) = Some n.
Proof.
  intros Hn. unfold FormatUint, parse_digits. rewrite chars_str.
  rewrite parse_digits_acc_map by (by apply digits_range).
  f_equal. by apply digits_digits_value.
Qed.

Lemma FormatUint_nonempty n : chars (FormatUint n) <> [].
Proof.
  unfold FormatUint. rewrite chars_str. intros H%map_eq_nil. by apply digits_nonempty in H.
Qed.

Lemma FormatUint_digits n :
  0 <= n -> Forall (fun c => is_digit c = true) (chars (FormatUint n)).
Proof.
  intros Hn. unfold FormatUint. rewrite chars_str. apply Forall_map.
  eapply Forall_impl; [by apply digits_range|]. intros d Hd. by apply is_digit_char.
Qed.

Lemma parse_nat_FormatUint n : 0 <= n -> parse_nat (chars (FormatUint n)) = Some n.
Proof.
  intros Hn. pose proof (FormatUint_nonempty n).
  destruct (chars (FormatUint n)) eqn:E; [done|].
  unfold parse_nat. rewrite <- E. by apply parse_digits_FormatUint.
Qed.

Lemma FormatUint_inj n m : 0 <= n -> 0 <= m -> FormatUint n = FormatUint m -> n = m.
Proof.
  intros Hn Hm E. apply (f_equal (parse_digits ∘ chars)) in E. simpl in E.
  rewrite !parse_digits_FormatUint in E by done. by simplify_eq.
Qed.

Lemma ParseUint_FormatUint n : 0 <= n <= maxU64 -> ParseUint (FormatUint n) = Ok n.
Proof.
  intros Hn. unfold ParseUint. rewrite parse_nat_FormatUint by lia.
  destruct (Z.leb_spec n maxU64); [done|lia].
Qed.

Lemma split_sign_digits s :
  Forall (fun c => is_digit c = true) s -> split_sign s = (false, s).
Proof.
  intros H. destruct s as [|c s]; [done|]. inversion H; subst. simpl.
  by rewrite !digit_neq.
Qed.

Lemma BigSetString10_FormatInt z : BigSetString10 (FormatInt z) = Some z.
Proof.
  unfold BigSetString10, FormatInt. destruct (Z.ltb_spec z 0).
  - simpl. rewrite parse_nat_FormatUint by lia. f_equal. lia.
  - rewrite split_sign_digits by (apply FormatUint_digits; lia).
    by rewrite parse_nat_FormatUint by lia.
Qed.

Lemma ParseInt_FormatInt z : is_i64 z = true -> ParseInt (FormatInt z) = Ok z.
Proof.
  intros Hz. unfold ParseInt, FormatInt. destruct (Z.ltb_spec z 0).
  - simpl. rewrite parse_nat_FormatUint by lia.
    replace (- - z) with z by lia. by rewrite Hz.
  - rewrite split_sign_digits by (apply FormatUint_digits; lia).
    rewrite parse_nat_FormatUint by lia. by rewrite Hz.
Qed.

(** Concatenation of digit strings is positional. *)
Lemma parse_digits_acc_app a s t :
  parse_digits_acc a (s ++ t)
  = match parse_digits_acc a s with Some b => parse_digits_acc b t | None => None end.
Proof.
  revert a. induction s as [|c s IH]; intros a; [done|]. simpl.
  destruct (digit_val c); [apply IH|done].
Qed.

Lemma parse_digits_acc_shift a s n :
  parse_digits s = Some n ->
  parse_digits_acc a s = Some (a * 10 ^ Z.of_nat (List.length s) + n).
Proof.
  unfold parse_digits. revert a n. induction s as [|c s IH] using rev_ind; intros a n H.
  - simplify_eq/=. f_equal. lia.
  - rewrite parse_digits_acc_app in *. destruct (parse_digits_acc 0 s) as [m|] eqn:E; [|done].
    rewrite (IH _ _ eq_refl). simpl in *. destruct (digit_val c) as [d|]; [|done].
    simplify_eq. f_equal. rewrite length_app, Nat2Z.inj_add, Z.pow_add_r by lia.
    simpl. change (Z.pow_pos 10 1) with 10. lia.
Qed.

Lemma parse_digits_app s t n m :
  parse_digits s = Some n -> parse_digits t = Some m ->
  parse_digits (s ++ t) = Some (n * 10 ^ Z.of_nat (List.length t) + m).
Proof.
  intros Hs Ht. unfold parse_digits in *. rewrite parse_digits_acc_app, Hs.
  by apply parse_digits_acc_shift.
Qed.

Lemma parse_digits_zeros k : parse_digits (zeros k) = Some 0.
Proof. unfold parse_digits. induction k as [|k IH]; [done|]. apply IH. Qed.

Lemma parse_digits_zeros_r s n k :
  parse_digits s = Some n -> parse_digits (s ++ zeros k) = Some (n * 10 ^ Z.of_nat k).
Proof.
  intros H. rewrite (parse_digits_app _ _ _ _ H (parse_digits_zeros k)).
  unfold zeros. rewrite repeat_length. f_equal. lia.
Qed.

Lemma parse_digits_zeros_l s n k :
  parse_digits s = Some n -> parse_digits (zeros k ++ s) = Some n.
Proof.
  intros H. by rewrite (parse_digits_app _ _ _ _ (parse_digits_zeros k) H).
Qed.

Lemma zeros_digits k : Forall (fun c => is_digit c = true) (zeros k).
Proof. unfold zeros. apply List.Forall_forall. intros x Hx%repeat_spec. by subst. Qed.

Lemma parse_digits_Some s :
  Forall (fun c => is_digit c = true) s -> exists n, parse_digits s = Some n /\ 0 <= n.
Proof.
  induction s as [|c s IH] using rev_ind; intros H; [by exists 0|].
  apply Forall_app in H as [Hs Hc]. destruct (IH Hs) as (n & Hn & H0).
  inversion Hc as [|? ? Hd _]; subst. apply is_digit_ex in Hd as (d & Hd & ->).
  exists (n * 10 + d). split; [|lia].
  unfold parse_digits in *. rewrite parse_digits_acc_app, Hn. simpl.
  by rewrite digit_val_char.
Qed.

Lemma parse_digits_all_digit s n :
  parse_digits s = Some n -> Forall (fun c => is_digit c = true) s.
Proof.
  unfold parse_digits. generalize 0 at 1. revert n.
  induction s as [|c s IH]; intros n a H; [constructor|]. simpl in H.
  constructor.
  - unfold digit_val in H. unfold is_digit. by destruct (_ && _).
  - destruct (digit_val c); [by eapply IH|done].
Qed.

(** The number of digits of a value below a power of ten. *)
Lemma digits_fuel_length f n k :
  0 <= n < 10 ^ Z.of_nat k -> (0 < k)%nat -> (List.length (digits_fuel f n) <= k)%nat.
Proof.
  revert n k. induction f as [|f IH]; intros n k Hn Hk; simpl; [lia|].
  destruct (Z.ltb_spec n 10); [simpl; lia|].
  rewrite length_app. simpl. destruct k as [|k]; [lia|].
  rewrite Nat2Z.inj_succ, Z.pow_succ_r in Hn by lia.
  assert (0 < k)%nat by (destruct k; [simpl in Hn; lia|lia]).
  assert (List.length (digits_fuel f (n / 10)) <= k)%nat; [|lia].
  apply IH; [|done]. split; [apply Z.div_pos; lia|apply Z.div_lt_upper_bound; lia].
Qed.

Lemma FormatUint_length n k :
  0 <= n < 10 ^ Z.of_nat k -> (0 < k)%nat -> (String.length (FormatUint n) <= k)%nat.
Proof.
  intros H Hk. unfold FormatUint. rewrite <- length_chars, chars_str, length_map.
  by apply digits_fuel_length.
Qed.

Lemma pad_left_length w s :
  (String.length s <= w)%nat -> String.length (pad_left w s) = w.
Proof.
  intros H. unfold pad_left. rewrite <- length_chars, chars_str, length_app, length_chars.
  unfold zeros. rewrite repeat_length. lia.
Qed.

Lemma pad_left_parse w n :
  0 <= n -> parse_digits (chars (pad_left w (FormatUint n))) = Some n.
Proof.
  intros Hn. unfold pad_left. rewrite chars_str. apply parse_digits_zeros_l.
  by apply parse_digits_FormatUint.
Qed.

Lemma pad_left_digits w n :
  0 <= n -> Forall (fun c => is_digit c = true) (chars (pad_left w (FormatUint n))).
Proof.
  intros Hn. unfold pad_left. rewrite chars_str. apply Forall_app; split;
    [apply zeros_digits|by apply FormatUint_digits].
Qed.

Lemma not_elem_digits c s :
  Forall (fun c => is_digit c = true) s -> is_digit c = false -> c ∉ s.
Proof. rewrite Forall_forall. intros H Hc Hin. apply H in Hin. congruence. Qed.

#[export] Hint Resolve FormatUint_digits pad_left_digits FormatUint_nonempty : gonum.
#[export] Hint Rewrite chars_str chars_app : gostr.
