(* ===== verification/GoTime.v ===== *)
(** * Instants and the UTC day key

    A [time.Time] is its instant in nanoseconds since the Unix epoch ([UTC()]
    changes the location, not the instant).  [day_key] is
    [t.UTC().Format("2006-01-02")], computed with the 400/100/4/1-year cycle
    decomposition of Go's [time] package. *)

From S2P Require Import Prelude GoStrings GoNum.

Abbreviation Time := Z (only parsing).
Abbreviation Duration := Z (only parsing).

Definition Nanosecond : Duration := 1.
Definition Second : Duration := 1000000000.
Definition Minute : Duration := 60 * Second.
Definition Hour : Duration := 60 * Minute.

(** [t.Unix()] *)
Definition Unix (t : Time) : Z := t / Second.
(** [time.Unix(s, 0)] *)
Definition TimeUnix (s : Z) : Time := s * Second.
(** [a.Before(b)], [a.After(b)] *)
Definition Before (a b : Time) : bool := a <? b.
Definition After (a b : Time) : bool := b <? a.


Definition minDuration : Duration := - 2 ^ 63.
Definition maxDuration : Duration := 2 ^ 63 - 1.
(** [a.Sub(b)] saturates at the bounds of [time.Duration]. *)
Definition Sub (a b : Time) : Duration := Z.max minDuration (Z.min maxDuration (a - b)).

(** The UTC calendar day of an instant, counted from the Unix epoch. *)
Definition utc_day (t : Time) : Z := t / (24 * Hour).

Definition isLeap (y : Z) : bool :=
  (y mod 4 =? 0) && (negb (y mod 100 =? 0) || (y mod 400 =? 0)).

(** The days from 0000-01-01 to 1970-01-01. *)
Definition unix_epoch_days : Z := 719528.

(** Year and day of the year of a day counted from the Unix epoch.  Days are
    counted from 0001-01-01, so that the leap day of each 4-, 100- and 400-year
    cycle falls in the last year of the cycle, as in Go's [absDate]; the
    [n - n/4] steps keep that last day in the last year. *)
Definition year_yday (days : Z) : Z * Z :=
  let d := days + unix_epoch_days - 366 in
  let n400 := d / 146097 in
  let d := d mod 146097 in
  let n := d / 36524 in
  let n100 := n - n / 4 in
  let d := d - 36524 * n100 in
  let n4 := d / 1461 in
  let d := d mod 1461 in
  let n := d / 365 in
  let n1 := n - n / 4 in
  (1 + 400 * n400 + 100 * n100 + 4 * n4 + n1, d - 365 * n1).

Definition daysBefore (m : Z) : Z :=
  nth (Z.to_nat m) [0; 31; 59; 90; 120; 151; 181; 212; 243; 273; 304; 334; 365] 365.

(** Month (1..12) and day of the month of the day [yday] (from 0) of a year. *)
Definition month_day (leap : bool) (yday : Z) : Z * Z :=
  if leap && (yday =? 59) then (2, 29)
  else
    let day := if leap && (59 <? yday) then yday - 1 else yday in
    let m := day / 31 in
    if daysBefore (m + 1) <=? day then (m + 2, day - daysBefore (m + 1) + 1)
    else (m + 1, day - daysBefore m + 1).

(** [appendInt(b, x, width)] *)
Definition pad_int (w : nat) (x : Z) : string :=
  if x <? 0 then String "-" (pad_left w (FormatUint (- x))) else pad_left w (FormatUint x).

Definition civil (t : Time) : Z * (Z * Z) :=
  let '(y, yd) := year_yday (utc_day t) in (y, month_day (isLeap y) yd).

(** [t.UTC().Format("2006-01-02")] *)
Definition day_key (t : Time) : string :=
  let '(y, (m, d)) := civil t in
  (pad_int 4 y +:+ String "-" (pad_int 2 m +:+ String "-" (pad_int 2 d)))%string.

(** The inverse of [month_day]. *)
Definition yday_of (leap : bool) (md : Z * Z) : Z :=
  let '(m, d) := md in
  daysBefore (m - 1) + d - 1 + (if leap && (2 <? m) then 1 else 0).

(** ** Distinct days have distinct keys *)

Lemma quarter_step n : 0 <= n <= 4 -> 0 <= n - n / 4 <= 3 /\ (n - n / 4 = n \/ n = 4 /\ n - n / 4 = 3).
Proof.
  intros H. assert (n = 0 \/ n = 1 \/ n = 2 \/ n = 3 \/ n = 4) as D by lia.
  destruct D as [->|[->|[->|[->| ->]]]]; vm_compute; intuition discriminate.
Qed.

Lemma cycle_bounds r (n100 := r / 36524 - r / 36524 / 4) (e := r - 36524 * n100)
    (n1 := e mod 1461 / 365 - e mod 1461 / 365 / 4) :
  0 <= r < 146097 ->
  0 <= n100 <= 3 /\ 0 <= e / 1461 <= 24 /\ 0 <= n1 <= 3 /\ 0 <= e mod 1461 - 365 * n1 <= 365
  /\ r = 36524 * n100 + 1461 * (e / 1461) + 365 * n1 + (e mod 1461 - 365 * n1).
Proof.
  intros Hr.
  pose proof (Z.div_mod r 36524 ltac:(lia)). pose proof (Z.mod_pos_bound r 36524 ltac:(lia)).
  assert (0 <= r / 36524 <= 4) as H100 by (split; [apply Z.div_pos|apply Z.div_le_upper_bound]; lia).
  destruct (quarter_step _ H100) as [Q1 Q2]. fold n100 in Q1, Q2.
  assert (e = r - 36524 * n100) as He by done. clearbody n100 e.
  assert (0 <= e <= 36524) by lia.
  pose proof (Z.div_mod e 1461 ltac:(lia)). pose proof (Z.mod_pos_bound e 1461 ltac:(lia)).
  set (f := e mod 1461) in *.
  pose proof (Z.div_mod f 365 ltac:(lia)). pose proof (Z.mod_pos_bound f 365 ltac:(lia)).
  assert (0 <= f / 365 <= 4) as Hf by (split; [apply Z.div_pos|apply Z.div_le_upper_bound]; lia).
  destruct (quarter_step _ Hf) as [Q3 Q4]. fold n1 in Q3, Q4. lia.
Qed.

Lemma year_yday_inj d1 d2 : year_yday d1 = year_yday d2 -> d1 = d2.
Proof.
  unfold year_yday, unix_epoch_days. intros H. injection H as Hy Hd.
  pose proof (Z.mod_pos_bound (d1 + 719528 - 366) 146097 ltac:(lia)).
  pose proof (Z.mod_pos_bound (d2 + 719528 - 366) 146097 ltac:(lia)).
  pose proof (Z.div_mod (d1 + 719528 - 366) 146097 ltac:(lia)).
  pose proof (Z.div_mod (d2 + 719528 - 366) 146097 ltac:(lia)).
  pose proof (cycle_bounds ((d1 + 719528 - 366) mod 146097) ltac:(lia)) as B1.
  pose proof (cycle_bounds ((d2 + 719528 - 366) mod 146097) ltac:(lia)) as B2.
  cbv zeta in B1, B2. lia.
Qed.

Lemma year_yday_range d : 0 <= snd (year_yday d) <= 365.
Proof.
  unfold year_yday. cbn [snd]. apply cycle_bounds. apply Z.mod_pos_bound. lia.
Qed.

(** Exhaustive over the 366 days of a leap year and of a common year. *)
Lemma month_day_ok leap yd :
  0 <= yd <= 365 ->
  yday_of leap (month_day leap yd) = yd
  /\ 0 <= fst (month_day leap yd) <= 99 /\ 0 <= snd (month_day leap yd) <= 99.
Proof.
  intros H.
  assert (forallb (fun k => let md := month_day leap (Z.of_nat k) in
    (yday_of leap md =? Z.of_nat k) && (0 <=? fst md) && (fst md <=? 99)
    && (0 <=? snd md) && (snd md <=? 99)) (seq 0 366) = true) as F
    by (destruct leap; vm_compute; reflexivity).
  rewrite forallb_forall in F. specialize (F (Z.to_nat yd)).
  rewrite in_seq, Z2Nat.id in F by lia. specialize (F ltac:(lia)). cbv zeta in F.
  rewrite !andb_true_iff, Z.eqb_eq, !Z.leb_le in F. lia.
Qed.

Lemma pad_left_FormatUint_inj w a b :
  0 <= a -> 0 <= b -> pad_left w (FormatUint a) = pad_left w (FormatUint b) -> a = b.
Proof.
  intros Ha Hb H. apply (f_equal (parse_digits ∘ chars)) in H. simpl in H.
  rewrite !pad_left_parse in H by done. by simplify_eq.
Qed.

Lemma pad_left_no_minus w a t :
  0 <= a -> pad_left w (FormatUint a) <> String "-" t.
Proof.
  intros Ha H. pose proof (pad_left_digits w a Ha) as D. rewrite H in D.
  simpl in D. by inversion D.
Qed.

Lemma pad_int_inj w a b : pad_int w a = pad_int w b -> a = b.
Proof.
  unfold pad_int. destruct (Z.ltb_spec a 0), (Z.ltb_spec b 0); intros E.
  - simplify_eq. apply pad_left_FormatUint_inj in E; lia.
  - by apply eq_sym, pad_left_no_minus in E.
  - by apply pad_left_no_minus in E.
  - by apply pad_left_FormatUint_inj in E.
Qed.

Lemma pad_int_nonneg w a : 0 <= a -> pad_int w a = pad_left w (FormatUint a).
Proof. intros H. unfold pad_int. destruct (Z.ltb_spec a 0); [lia|done]. Qed.

(** Two bytes of day and two of month: the key is read from the right. *)
Lemma key_suffix_inj y1 m1 d1 y2 m2 d2 :
  0 <= m1 <= 99 -> 0 <= m2 <= 99 -> 0 <= d1 <= 99 -> 0 <= d2 <= 99 ->
  (pad_int 4 y1 +:+ String "-" (pad_int 2 m1 +:+ String "-" (pad_int 2 d1)))%string
  = (pad_int 4 y2 +:+ String "-" (pad_int 2 m2 +:+ String "-" (pad_int 2 d2)))%string ->
  y1 = y2 /\ m1 = m2 /\ d1 = d2.
Proof.
  intros Hm1 Hm2 Hd1 Hd2 E. apply (f_equal chars) in E.
  rewrite !chars_app in E. cbn [list_ascii_of_string] in E. rewrite !chars_app in E.
  cbn [list_ascii_of_string] in E.
  assert (forall a, 0 <= a <= 99 -> List.length (chars (pad_int 2 a)) = 2%nat) as L.
  { intros a Ha. rewrite pad_int_nonneg by lia. rewrite length_chars. apply pad_left_length.
    apply FormatUint_length; [|lia]. simpl. lia. }
  apply app_inj_2 in E as [Ey E];
    [|simpl; rewrite !length_app; simpl; rewrite !L by lia; done].
  injection E as E. apply app_inj_1 in E as [Em E]; [|rewrite !L by lia; done].
  injection E as Ed. by apply chars_inj, pad_int_inj in Ey, Em, Ed.
Qed.

Lemma day_key_inj t1 t2 : day_key t1 = day_key t2 -> utc_day t1 = utc_day t2.
Proof.
  unfold day_key, civil.
  pose proof (year_yday_range (utc_day t1)) as R1. pose proof (year_yday_range (utc_day t2)) as R2.
  destruct (year_yday (utc_day t1)) as [y1 yd1] eqn:E1.
  destruct (year_yday (utc_day t2)) as [y2 yd2] eqn:E2. simpl in R1, R2.
  destruct (month_day_ok (isLeap y1) yd1 R1) as (I1 & M1 & D1).
  destruct (month_day_ok (isLeap y2) yd2 R2) as (I2 & M2 & D2).
  destruct (month_day (isLeap y1) yd1) as [m1 d1], (month_day (isLeap y2) yd2) as [m2 d2].
  simpl in M1, D1, M2, D2. intros (Hy & Hm & Hd)%key_suffix_inj; try done. subst.
  apply year_yday_inj. rewrite E1, E2. congruence.
Qed.

Lemma day_key_iff t1 t2 : day_key t1 = day_key t2 <-> utc_day t1 = utc_day t2.
Proof.
  split; [apply day_key_inj|]. intros E. unfold day_key, civil. by rewrite E.
Qed.

Lemma day_key_eqb t1 t2 : String.eqb (day_key t1) (day_key t2) = (utc_day t1 =? utc_day t2).
Proof.
  destruct (String.eqb_spec (day_key t1) (day_key t2)) as [E|E]; symmetry.
  - apply Z.eqb_eq. by apply day_key_iff.
  - apply Z.eqb_neq. by rewrite <- day_key_iff.
Qed.

(** The last second of 1999, the leap day of 2024, and the first of March. *)
Example day_key_1999 : day_key (TimeUnix 946684799) = "1999-12-31"%string.
Proof. vm_compute. reflexivity. Qed.
Example day_key_leap : day_key (TimeUnix 1709164800) = "2024-02-29"%string.
Proof. vm_compute. reflexivity. Qed.
Example day_key_2100 : day_key (TimeUnix 4107542400) = "2100-03-01"%string.
Proof. vm_compute. reflexivity. Qed.

(** Comparing a saturated difference with a representable duration above the
    lower bound is comparing the exact difference. *)
Lemma Sub_ge a b w : minDuration < w <= maxDuration -> (w <=? Sub a b) = (w <=? a - b).
Proof. unfold Sub. intros H. destruct (Z.leb_spec w (a - b)), (Z.leb_spec w (Z.max minDuration (Z.min maxDuration (a - b)))); lia. Qed.

Lemma Unix_TimeUnix s : Unix (TimeUnix s) = s.
Proof. unfold Unix, TimeUnix. apply Z.div_mul. discriminate. Qed.
