(* ===== verification/GoDuration.v ===== *)
(** * Durations as text

    [time.ParseDuration], which reads the refresh interval of the configuration
    file.  A fraction is scaled in float64 arithmetic: it is modelled with the
    executable IEEE 754 operations of the standard library at binary64, and
    shown to lose nothing down to the nanosecond. *)

From S2P Require Import Prelude GoStrings GoNum GoTime.
From Stdlib Require Import SpecFloat.

(** ** float64 *)

Definition float_of_uint (n : Z) : spec_float := binary_normalize 53 1024 n 0 false.
Definition fmul : spec_float -> spec_float -> spec_float := SFmul 53 1024.
Definition fdiv : spec_float -> spec_float -> spec_float := SFdiv 53 1024.

(** The conversion [uint64(x)] of a float in the range of uint64: the fraction is
    discarded. *)
Definition uint_of_float (x : spec_float) : Z :=
  match x with
  | S754_finite false m e => if 0 <=? e then Z.pos m * 2 ^ e else Z.pos m / 2 ^ (- e)
  | _ => 0
  end.

(** ** The parser *)

Definition Microsecond : Duration := 1000.
Definition Millisecond : Duration := 1000000.

(** The leading digits; [None] when they pass 2^63. *)
Fixpoint leadingInt (x : Z) (s : bytes) : option (Z * bytes) :=
  match s with
  | [] => Some (x, [])
  | c :: s' =>
      if is_digit c then
        if 2 ^ 63 / 10 <? x then None
        else
          let x := x * 10 + (code c - 48) in
          if 2 ^ 63 <? x then None else leadingInt x s'
      else Some (x, s)
  end.

(** The digits of a fraction and ten to their number; digits that do not fit are
    skipped. *)
Fixpoint leadingFraction (x : Z) (scale : spec_float) (overflow : bool) (s : bytes) : Z * spec_float * bytes :=
  match s with
  | [] => (x, scale, [])
  | c :: s' =>
      if is_digit c then
        if overflow then leadingFraction x scale true s'
        else if (2 ^ 63 - 1) / 10 <? x then leadingFraction x scale true s'
        else
          let y := x * 10 + (code c - 48) in
          if 2 ^ 63 <? y then leadingFraction x scale true s'
          else leadingFraction y (fmul scale (float_of_uint 10)) false s'
      else (x, scale, s)
  end.

Definition dot : ascii := "."%char.

(** The bytes up to the next digit or point. *)
Fixpoint leadingUnit (s : bytes) : bytes * bytes :=
  match s with
  | [] => ([], [])
  | c :: s' => if bool_decide (c = dot) || is_digit c then ([], s) else let '(u, r) := leadingUnit s' in (c :: u, r)
  end.

Definition unitMap : list (bytes * Z) :=
  [(chars "ns", Nanosecond); (chars "us", Microsecond); (map chr [194; 181; 115], Microsecond); (map chr [206; 188; 115], Microsecond);
   (chars "ms", Millisecond); (chars "s", Second); (chars "m", Minute); (chars "h", Hour)].

Definition unit_of (u : bytes) : option Z := snd <$> List.find (fun kv => bool_decide (fst kv = u)) unitMap.

(** The quotes of package time: control and non-ASCII bytes in hex. *)
Definition hex_digit (d : Z) : ascii := if d <? 10 then chr (48 + d) else chr (87 + d).
Definition time_quote (s : bytes) : string :=
  let esc c :=
    if (128 <=? code c) || (code c <? 32) then ["\"; "x"; hex_digit (code c / 16); hex_digit (code c mod 16)]%char
    else if (code c =? 34) || (code c =? 92) then ["\"%char; c] else [c] in
  str ([chr 34] ++ List.concat (map esc s) ++ [chr 34]).

Definition invalid_duration (orig : bytes) : goerr := ErrNew ("time: invalid duration " +:+ time_quote orig).

(** A point and the digits behind it: their value, scale, what follows, and
    whether there were any. *)
Definition fraction_part (s : bytes) : Z * spec_float * bytes * bool :=
  match s with
  | c :: s' =>
      if bool_decide (c = dot) then
        let '(f, scale, rem) := leadingFraction 0 (float_of_uint 1) false s' in
        (f, scale, rem, negb (Nat.eqb (List.length s') (List.length rem)))
      else (0, float_of_uint 1, s, false)
  | [] => (0, float_of_uint 1, s, false)
  end.

(** One number with its unit. *)
Definition segment (orig s : bytes) : result (Z * bytes) :=
  match s with
  | [] => Err (invalid_duration orig)
  | c :: _ =>
      if negb (bool_decide (c = dot) || is_digit c) then Err (invalid_duration orig)
      else
        match leadingInt 0 s with
        | None => Err (invalid_duration orig)
        | Some (v, s1) =>
            let pre := negb (Nat.eqb (List.length s) (List.length s1)) in
            let '(f, scale, s2, post) := fraction_part s1 in
            if negb pre && negb post then Err (invalid_duration orig)
            else
              let '(u, s3) := leadingUnit s2 in
              if bool_decide (u = []) then Err (ErrNew ("time: missing unit in duration " +:+ time_quote orig))
              else
                match unit_of u with
                | None => Err (ErrNew ("time: unknown unit " +:+ time_quote u +:+ " in duration " +:+ time_quote orig))
                | Some unit =>
                    if 2 ^ 63 / unit <? v then Err (invalid_duration orig)
                    else
                      let v := v * unit in
                      v ← (if 0 <? f then
                             let v := u64 (v + uint_of_float (fmul (float_of_uint f) (fdiv (float_of_uint unit) scale))) in
                             if 2 ^ 63 <? v then Err (invalid_duration orig) else Ok v
                           else Ok v);
                      Ok (v, s3)
                end
        end
  end.

(** Every round consumes a byte, so the length of the text is enough fuel
    ([segments_fuel]). *)
Fixpoint segments (fuel : nat) (orig : bytes) (d : Z) (s : bytes) : result Z :=
  match s, fuel with
  | [], _ => Ok d
  | _, O => Err (invalid_duration orig)
  | _, S fuel =>
      '(v, s') ← segment orig s;
      let d := u64 (d + v) in
      if 2 ^ 63 <? d then Err (invalid_duration orig) else segments fuel orig d s'
  end.

Definition to_i64 (z : Z) : Z := (z + 2 ^ 63) mod 2 ^ 64 - 2 ^ 63.

Definition ParseDuration (s : string) : result Duration :=
  let orig := chars s in
  let '(neg, s) :=
    match orig with
    | c :: s' => if bool_decide (c = "-"%char) || bool_decide (c = "+"%char) then (bool_decide (c = "-"%char), s') else (false, orig)
    | [] => (false, orig)
    end in
  if bool_decide (s = ["0"%char]) then Ok 0
  else if bool_decide (s = []) then Err (invalid_duration orig)
  else
    d ← segments (List.length s) orig 0 s;
    if neg : bool then Ok (to_i64 (- to_i64 d))
    else if 2 ^ 63 - 1 <? d then Err (invalid_duration orig) else Ok (to_i64 d).

Example parse_refresh :
  ParseDuration "60s" = Ok (60 * Second) /\ ParseDuration "2m" = Ok (2 * Minute) /\ ParseDuration "-1.5h" = Ok (- (90 * Minute))
  /\ ParseDuration "1h0.000000001s" = Ok (Hour + 1) /\ ParseDuration "0" = Ok 0
  /\ ParseDuration "10" = Err (ErrNew ("time: missing unit in duration " +:+ time_quote (chars "10"))).
Proof. split_and!; vm_compute; reflexivity. Qed.

(** ** Integers below 2^53 are exact *)

Lemma digits2_bound m : 2 ^ (Z.pos (digits2_pos m) - 1) <= Z.pos m < 2 ^ Z.pos (digits2_pos m).
Proof.
  induction m as [m IH|m IH|]; cbn [digits2_pos]; [..|cbn; lia]; rewrite Pos2Z.inj_succ;
    replace (Z.succ (Z.pos (digits2_pos m)) - 1) with (Z.succ (Z.pos (digits2_pos m) - 1)) by lia;
    rewrite !Z.pow_succ_r by lia; lia.
Qed.

Lemma Zdigits2_unique n d : 0 < n -> 2 ^ (d - 1) <= n < 2 ^ d -> Zdigits2 n = d.
Proof.
  intros Hn Hd. destruct n as [|m|m]; [lia| |lia]. cbn [Zdigits2]. pose proof (digits2_bound m) as Hb.
  assert (0 < d).
  { destruct (Z.lt_ge_cases 0 d) as [|H]; [done|]. destruct (Z.eq_dec d 0) as [->|]; [cbn in Hd; lia|].
    rewrite (Z.pow_neg_r 2 d) in Hd by lia. lia. }
  destruct (Z.lt_trichotomy (Z.pos (digits2_pos m)) d) as [H1|[H1|H1]]; [|done|].
  - assert (2 ^ Z.pos (digits2_pos m) <= 2 ^ (d - 1)) by (apply Z.pow_le_mono_r; lia). lia.
  - assert (2 ^ d <= 2 ^ (Z.pos (digits2_pos m) - 1)) by (apply Z.pow_le_mono_r; lia). lia.
Qed.

Lemma Zdigits2_bound n : 0 < n -> 0 < Zdigits2 n /\ 2 ^ (Zdigits2 n - 1) <= n < 2 ^ Zdigits2 n.
Proof. destruct n as [|m|m]; [lia| |lia]. intros _. split; [done|apply digits2_bound]. Qed.

Lemma Zdigits2_le n d : 0 < n < 2 ^ d -> 0 <= d -> Zdigits2 n <= d.
Proof.
  intros Hn Hd. destruct (Zdigits2_bound n ltac:(lia)) as [H1 H2]. apply Z.nlt_ge. intros H3.
  assert (2 ^ d <= 2 ^ (Zdigits2 n - 1)) by (apply Z.pow_le_mono_r; lia). lia.
Qed.

Lemma Zdigits2_shift n k : 0 < n -> 0 <= k -> Zdigits2 (n * 2 ^ k) = Zdigits2 n + k.
Proof.
  intros Hn Hk. destruct (Zdigits2_bound n Hn) as [H1 H2]. pose proof (Z.pow_pos_nonneg 2 k ltac:(lia) Hk).
  apply Zdigits2_unique; [nia|]. replace (Zdigits2 n + k - 1) with (Zdigits2 n - 1 + k) by lia.
  rewrite !Z.pow_add_r by lia. nia.
Qed.

Lemma shr_1_even m : shr_1 (Build_shr_record (2 * m) false false) = Build_shr_record m false false.
Proof. by destruct m. Qed.

Lemma iter_shr_even p m : iter_pos shr_1 p (Build_shr_record (m * 2 ^ Z.pos p) false false) = Build_shr_record m false false.
Proof.
  revert m. induction p as [p IH|p IH|]; intros m; cbn [iter_pos].
  - replace (Z.pos p~1) with (Z.pos p + Z.pos p + 1) by lia. rewrite !Z.pow_add_r, Z.pow_1_r by lia.
    replace (m * (2 ^ Z.pos p * 2 ^ Z.pos p * 2)) with (2 * (m * 2 ^ Z.pos p * 2 ^ Z.pos p)) by ring.
    by rewrite shr_1_even, !IH.
  - replace (Z.pos p~0) with (Z.pos p + Z.pos p) by lia. rewrite Z.pow_add_r, Z.mul_assoc by lia. by rewrite !IH.
  - rewrite Z.pow_1_r, Z.mul_comm. apply shr_1_even.
Qed.

Lemma shr_exact n e k : 0 <= k -> shr (Build_shr_record (n * 2 ^ k) false false) e k = (Build_shr_record n false false, e + k).
Proof.
  intros Hk. destruct k as [|p|p]; [|by cbn [shr]; rewrite iter_shr_even|lia]. cbn [shr]. rewrite Z.pow_0_r, Z.mul_1_r. f_equal. lia.
Qed.

(** A mantissa that is an integer of at most 53 bits shifted up is rounded to that
    integer. *)
Lemma round_exact n k e (d := Zdigits2 n) :
  0 < n < 2 ^ 53 -> 0 <= k -> 53 <= d + k -> -1074 <= d + k + e - 53 <= 971 ->
  binary_round_aux 53 1024 false (n * 2 ^ k) e loc_Exact = S754_finite false (Z.to_pos (n * 2 ^ (53 - d))) (d + k + e - 53).
Proof.
  intros Hn Hk Hdk He. pose proof (Zdigits2_le n 53 Hn ltac:(lia)) as Hd. fold d in Hd.
  assert (0 < d) as Hd0 by (apply Zdigits2_bound; lia).
  assert (0 < 2 ^ (53 - d)) by (apply Z.pow_pos_nonneg; lia).
  unfold binary_round_aux, shr_fexp. rewrite Zdigits2_shift by lia. fold d. cbn [shr_record_of_loc].
  assert (forall x, -1074 <= x - 53 -> fexp 53 1024 x = x - 53) as Hf by (intros x Hx; unfold fexp, emin; lia).
  rewrite Hf by lia. replace (d + k + e - 53 - e) with (d + k - 53) by lia.
  replace (n * 2 ^ k) with (n * 2 ^ (53 - d) * 2 ^ (d + k - 53)).
  2: { rewrite <- Z.mul_assoc, <- Z.pow_add_r by lia. do 2 f_equal. lia. }
  rewrite shr_exact by lia. cbn [shr_m loc_of_shr_record round_nearest_even].
  rewrite Zdigits2_shift by lia. fold d. rewrite Hf by lia.
  replace (d + (53 - d) + (e + (d + k - 53)) - 53 - (e + (d + k - 53))) with 0 by lia. cbn [shr].
  cbn [shr_m]. assert (0 < n * 2 ^ (53 - d)) as Hp by nia. destruct (n * 2 ^ (53 - d)) as [|m|m] eqn:Em; [lia| |lia].
  rewrite (proj2 (Z.leb_le _ _)) by lia. cbn [Z.to_pos]. f_equal. lia.
Qed.

Lemma iter_xO m p : Z.pos (Pos.iter xO m p) = Z.pos m * 2 ^ Z.pos p.
Proof.
  induction p as [|p IH] using Pos.peano_ind; [cbn; lia|]. rewrite Pos.iter_succ, Pos2Z.inj_xO, IH, Pos2Z.inj_succ, Z.pow_succ_r by lia.
  ring.
Qed.

Lemma float_of_uint_eq n (d := Zdigits2 n) :
  0 < n < 2 ^ 53 -> float_of_uint n = S754_finite false (Z.to_pos (n * 2 ^ (53 - d))) (d - 53).
Proof.
  intros Hn. pose proof (Zdigits2_le n 53 Hn ltac:(lia)) as Hd. fold d in Hd.
  assert (0 < d) as Hd0 by (apply Zdigits2_bound; lia).
  destruct n as [|m|m]; [lia| |lia]. unfold float_of_uint, binary_normalize, binary_round.
  change (Z.pos (digits2_pos m)) with d. assert (fexp 53 1024 (d + 0) = d - 53) as -> by (unfold fexp, emin; lia).
  unfold shl_align. destruct (d - 53 - 0) as [|p|p] eqn:Ep; [|lia|].
  - pose proof (round_exact (Z.pos m) 0 0 Hn) as Hr. fold d in Hr. rewrite Z.pow_0_r, Z.mul_1_r in Hr. rewrite Hr by lia. f_equal; lia.
  - rewrite iter_xO. pose proof (round_exact (Z.pos m) (Z.pos p) (d - 53) Hn) as Hr. fold d in Hr. rewrite Hr by lia. f_equal; lia.
Qed.

Lemma fmul_exact a b : 0 < a -> 0 < b -> a * b < 2 ^ 53 -> fmul (float_of_uint a) (float_of_uint b) = float_of_uint (a * b).
Proof.
  intros Ha Hb Hab. assert (a < 2 ^ 53 /\ b < 2 ^ 53) as [Ha' Hb'] by nia.
  destruct (Zdigits2_bound a Ha) as [Da0 Da]. destruct (Zdigits2_bound b Hb) as [Db0 Db].
  pose proof (Zdigits2_le a 53 ltac:(lia) ltac:(lia)). pose proof (Zdigits2_le b 53 ltac:(lia) ltac:(lia)).
  rewrite !float_of_uint_eq by nia. unfold fmul, SFmul. cbn [xorb].
  assert (0 < 2 ^ (53 - Zdigits2 a)) by (apply Z.pow_pos_nonneg; lia).
  assert (0 < 2 ^ (53 - Zdigits2 b)) by (apply Z.pow_pos_nonneg; lia).
  rewrite Pos2Z.inj_mul, !Z2Pos.id by nia.
  replace (a * 2 ^ (53 - Zdigits2 a) * (b * 2 ^ (53 - Zdigits2 b))) with (a * b * 2 ^ (106 - Zdigits2 a - Zdigits2 b)).
  2: { replace (106 - Zdigits2 a - Zdigits2 b) with ((53 - Zdigits2 a) + (53 - Zdigits2 b)) by lia. rewrite Z.pow_add_r by lia. ring. }
  assert (Zdigits2 a + Zdigits2 b - 1 <= Zdigits2 (a * b)).
  { destruct (Zdigits2_bound (a * b) ltac:(nia)) as [_ Dab]. apply Z.nlt_ge. intros Hlt.
    assert (2 ^ Zdigits2 (a * b) <= 2 ^ (Zdigits2 a - 1) * 2 ^ (Zdigits2 b - 1)); [|nia].
    rewrite <- Z.pow_add_r by lia. apply Z.pow_le_mono_r; lia. }
  assert (0 < a * b < 2 ^ 53) as Hp by nia. pose proof (Zdigits2_le _ 53 Hp ltac:(lia)).
  rewrite round_exact by lia. f_equal. lia.
Qed.

Lemma uint_of_float_of_uint n : 0 < n < 2 ^ 53 -> uint_of_float (float_of_uint n) = n.
Proof.
  intros Hn. pose proof (Zdigits2_le n 53 Hn ltac:(lia)) as Hd. rewrite float_of_uint_eq by done. unfold uint_of_float.
  assert (0 < 2 ^ (53 - Zdigits2 n)) by (apply Z.pow_pos_nonneg; lia). rewrite Z2Pos.id by nia.
  destruct (Z.leb_spec 0 (Zdigits2 n - 53)).
  - replace (Zdigits2 n) with 53 by lia. cbn. lia.
  - replace (- (Zdigits2 n - 53)) with (53 - Zdigits2 n) by lia. apply Z.div_mul. lia.
Qed.

(** ** Fuel *)

Lemma leadingInt_length x s v r : leadingInt x s = Some (v, r) -> (List.length r <= List.length s)%nat.
Proof.
  revert x. induction s as [|c s IH]; intros x; cbn [leadingInt]; [by intros [= <- <-]|].
  destruct (is_digit c); [|by intros [= <- <-]]. cbv zeta. destruct (_ <? x); [done|]. destruct (_ <? _); [done|].
  intros H%IH. cbn. lia.
Qed.

Lemma leadingFraction_length x sc o s : (List.length (leadingFraction x sc o s).2 <= List.length s)%nat.
Proof.
  revert x sc o. induction s as [|c s IH]; intros x sc o; cbn [leadingFraction]; [done|].
  destruct (is_digit c); [|done]. cbv zeta.
  destruct o; [|destruct (_ <? x); [|destruct (_ <? _)]]; cbn [List.length]; (etrans; [apply IH|lia]).
Qed.

Lemma leadingUnit_length s : (List.length (leadingUnit s).1 + List.length (leadingUnit s).2 = List.length s)%nat.
Proof. induction s as [|c s IH]; [done|]. cbn [leadingUnit]. destruct (_ || _); [done|]. destruct (leadingUnit s). cbn in *. lia. Qed.

Lemma segment_shorter orig s v r : segment orig s = Ok (v, r) -> (List.length r < List.length s)%nat.
Proof.
  destruct s as [|c s]; [done|]. unfold segment. destruct (negb _); [done|].
  destruct (leadingInt 0 (c :: s)) as [[v0 s1]|] eqn:Ei; [|done]. apply leadingInt_length in Ei. cbv zeta.
  destruct (fraction_part s1) as [[[f sc] s2] post] eqn:Em. unfold fraction_part in Em.
  assert (List.length s2 <= List.length s1)%nat as H2.
  { destruct s1 as [|c1 s1]; [by injection Em as _ _ <- _|]. destruct (bool_decide _); [|by injection Em as _ _ <- _].
    pose proof (leadingFraction_length 0 (float_of_uint 1) false s1) as Hl.
    destruct (leadingFraction _ _ _ s1) as [[f' sc'] s2']. injection Em as _ _ <- _. cbn in *. lia. }
  destruct (negb _ && negb _); [done|]. pose proof (leadingUnit_length s2) as H3. destruct (leadingUnit s2) as [u s3]. cbn [fst snd] in H3.
  destruct (bool_decide_reflect (u = [])) as [|Hu]; [done|]. destruct (unit_of u); [|done]. destruct (_ <? v0); [done|].
  intros H. assert (r = s3) as ->.
  { destruct (0 <? f); [destruct (2 ^ 63 <? _); [done|]|]; by injection H. }
  destruct u; [done|]. cbn in *. lia.
Qed.

(** The loop never runs out of fuel. *)
Lemma segments_fuel f1 f2 orig d s :
  (List.length s <= f1)%nat -> (List.length s <= f2)%nat -> segments f1 orig d s = segments f2 orig d s.
Proof.
  revert f2 d s. induction f1 as [|f1 IH]; intros f2 d s H1 H2.
  - destruct s; [by destruct f2|cbn in H1; lia].
  - destruct s as [|c s]; [by destruct f2|]. destruct f2 as [|f2]; [cbn in H2; lia|]. cbn [segments].
    destruct (segment orig (c :: s)) as [[v r]|] eqn:Es; [|done]. cbn [mbind result_bind]. apply segment_shorter in Es.
    destruct (_ <? _); [done|]. apply IH; lia.
Qed.

(** ** Printed durations *)

Inductive time_unit : Type := Uns | Uus | Ums | Us | Um | Uh.

Definition unit_ns (u : time_unit) : Z :=
  match u with Uns => Nanosecond | Uus => Microsecond | Ums => Millisecond | Us => Second | Um => Minute | Uh => Hour end.
Definition unit_name (u : time_unit) : string :=
  match u with Uns => "ns" | Uus => "us" | Ums => "ms" | Us => "s" | Um => "m" | Uh => "h" end.
(** How many digits of a fraction of the unit are whole nanoseconds. *)
Definition max_frac (u : time_unit) : nat := match u with Uns => 0 | Uus => 3 | Ums => 6 | Us => 9 | Um => 10 | Uh => 11 end.

Record piece : Type := mkPiece { pc_int : Z; pc_frac : list Z; pc_unit : time_unit }.

Definition print_frac (l : list Z) : bytes := match l with [] => [] | _ => dot :: map digit_char l end.

Definition print_piece (p : piece) : bytes :=
  chars (FormatUint (pc_int p)) ++ print_frac (pc_frac p) ++ chars (unit_name (pc_unit p)).

Definition piece_ns (p : piece) : Z :=
  pc_int p * unit_ns (pc_unit p) + digits_value (pc_frac p) * (unit_ns (pc_unit p) / 10 ^ Z.of_nat (List.length (pc_frac p))).

Definition piece_ok (p : piece) : Prop :=
  0 <= pc_int p /\ Forall (fun d => 0 <= d <= 9) (pc_frac p) /\ (List.length (pc_frac p) <= max_frac (pc_unit p))%nat
  /\ piece_ns p < 2 ^ 63.

Definition print_duration (neg : bool) (ps : list piece) : string :=
  str ((if neg then ["-"%char] else []) ++ List.concat (map print_piece ps)).

Definition total_ns (ps : list piece) : Z := foldr (fun p n => piece_ns p + n) 0 ps.

(** What may follow a number, and what may follow a unit. *)
Definition no_digit (r : bytes) : Prop := match r with [] => True | c :: _ => is_digit c = false end.
Definition at_digit (r : bytes) : Prop := match r with [] => True | c :: _ => is_digit c = true end.

Lemma foldl_digits_ge l acc : Forall (fun d => 0 <= d <= 9) l -> 0 <= acc -> acc <= foldl (fun a d => a * 10 + d) acc l.
Proof.
  revert acc. induction l as [|d l IH]; intros acc Hl Ha; [done|]. apply Forall_cons in Hl as [Hd Hl]. cbn [foldl].
  etrans; [|apply IH]; [lia|done|lia].
Qed.

Lemma code_digit_char d : 0 <= d <= 9 -> code (digit_char d) = 48 + d.
Proof. intros Hd. apply code_chr. lia. Qed.

Lemma leadingInt_digits l acc r :
  Forall (fun d => 0 <= d <= 9) l -> 0 <= acc -> foldl (fun a d => a * 10 + d) acc l <= 2 ^ 63 -> no_digit r ->
  leadingInt acc (map digit_char l ++ r) = Some (foldl (fun a d => a * 10 + d) acc l, r).
Proof.
  revert acc. induction l as [|d l IH]; intros acc Hl Ha Hv Hr.
  - destruct r as [|c r]; [done|]. cbn in *. by rewrite Hr.
  - apply Forall_cons in Hl as [Hd Hl]. cbn [map app leadingInt foldl] in *. rewrite is_digit_char, code_digit_char by done.
    pose proof (foldl_digits_ge l (acc * 10 + d) Hl ltac:(lia)) as Hge. cbv zeta.
    replace (acc * 10 + (48 + d - 48)) with (acc * 10 + d) by lia.
    assert (acc <= 2 ^ 63 / 10) by (apply Z.div_le_lower_bound; lia).
    rewrite (proj2 (Z.ltb_ge _ _)), (proj2 (Z.ltb_ge _ _)) by lia. apply IH; [done|lia|done|done].
Qed.

(** The value of up to eleven digits, with the scale in floats. *)
Lemma scale_step k : (k < 11)%nat -> fmul (float_of_uint (10 ^ Z.of_nat k)) (float_of_uint 10) = float_of_uint (10 ^ Z.of_nat (S k)).
Proof.
  intros Hk. rewrite Nat2Z.inj_succ, Z.pow_succ_r, (Z.mul_comm 10) by lia. apply fmul_exact; [lia|lia|].
  assert (10 ^ Z.of_nat k <= 10 ^ 10) by (apply Z.pow_le_mono_r; lia). lia.
Qed.

Lemma leadingFraction_digits l k acc r :
  Forall (fun d => 0 <= d <= 9) l -> (k + List.length l <= 11)%nat -> 0 <= acc < 10 ^ Z.of_nat k -> no_digit r ->
  leadingFraction acc (float_of_uint (10 ^ Z.of_nat k)) false (map digit_char l ++ r)
  = (foldl (fun a d => a * 10 + d) acc l, float_of_uint (10 ^ Z.of_nat (k + List.length l)), r).
Proof.
  revert k acc. induction l as [|d l IH]; intros k acc Hl Hk Ha Hr.
  - rewrite Nat.add_0_r. destruct r as [|c r]; [done|]. cbn in *. by rewrite Hr.
  - apply Forall_cons in Hl as [Hd Hl]. cbn [map app leadingFraction foldl List.length] in *. rewrite is_digit_char, code_digit_char by done.
    cbv zeta. replace (acc * 10 + (48 + d - 48)) with (acc * 10 + d) by lia.
    assert (10 ^ Z.of_nat k <= 10 ^ 10) by (apply Z.pow_le_mono_r; lia).
    assert (acc < 2 ^ 50) by lia. rewrite (proj2 (Z.ltb_ge ((2 ^ 63 - 1) / 10) acc)) by (apply Z.div_le_lower_bound; lia).
    rewrite (proj2 (Z.ltb_ge _ _)) by lia. rewrite scale_step by lia. rewrite IH; [|done|lia| |done].
    + by rewrite Nat.add_succ_r.
    + rewrite Nat2Z.inj_succ, Z.pow_succ_r by lia. lia.
Qed.

Lemma unit_div_exact u k :
  (k <= max_frac u)%nat -> fdiv (float_of_uint (unit_ns u)) (float_of_uint (10 ^ Z.of_nat k)) = float_of_uint (unit_ns u / 10 ^ Z.of_nat k)
  /\ 0 < unit_ns u / 10 ^ Z.of_nat k /\ unit_ns u = unit_ns u / 10 ^ Z.of_nat k * 10 ^ Z.of_nat k.
Proof.
  intros Hk. assert (k < S (max_frac u))%nat as Hk' by lia. clear Hk.
  destruct u; cbn [max_frac] in Hk'; repeat (destruct k as [|k]; [split_and!; vm_compute; reflexivity|]); lia.
Qed.

Lemma unit_ns_pos u : 1 <= unit_ns u < 2 ^ 53.
Proof. destruct u; vm_compute; split; congruence. Qed.

Lemma unit_name_read u r : at_digit r -> leadingUnit (chars (unit_name u) ++ r) = (chars (unit_name u), r).
Proof.
  intros Hr. assert (leadingUnit r = ([], r)) as Hn.
  { destruct r as [|c r]; [done|]. cbn in *. by rewrite Hr, orb_true_r. }
  destruct u; cbn - [leadingUnit]; cbn [leadingUnit]; cbn [bool_decide]; rewrite Hn; reflexivity.
Qed.

Lemma unit_name_known u : unit_of (chars (unit_name u)) = Some (unit_ns u).
Proof. destruct u; vm_compute; reflexivity. Qed.

Lemma digits_value_bound l : Forall (fun d => 0 <= d <= 9) l -> 0 <= digits_value l < 10 ^ Z.of_nat (List.length l).
Proof.
  induction l as [|d l IH] using rev_ind; [cbn; lia|]. intros [Hl [Hd _]%Forall_cons]%Forall_app.
  unfold digits_value in *. rewrite foldl_app. cbn [foldl]. rewrite length_app, Nat.add_comm. cbn [List.length Nat.add].
  rewrite Nat2Z.inj_succ, Z.pow_succ_r by lia. specialize (IH Hl). lia.
Qed.

(** The fraction in floats is the exact number of nanoseconds. *)
Lemma frac_exact u l (k := Z.of_nat (List.length l)) :
  Forall (fun d => 0 <= d <= 9) l -> (List.length l <= max_frac u)%nat -> 0 < digits_value l ->
  uint_of_float (fmul (float_of_uint (digits_value l)) (fdiv (float_of_uint (unit_ns u)) (float_of_uint (10 ^ k))))
  = digits_value l * (unit_ns u / 10 ^ k)
  /\ 0 <= digits_value l * (unit_ns u / 10 ^ k) < unit_ns u.
Proof.
  intros Hl Hk Hf. subst k. destruct (unit_div_exact u (List.length l) Hk) as (-> & Hp & Hu).
  pose proof (digits_value_bound l Hl) as Hb. set (k := Z.of_nat (List.length l)) in *. pose proof (unit_ns_pos u).
  assert (digits_value l * (unit_ns u / 10 ^ k) < unit_ns u) by nia. split; [|nia].
  rewrite fmul_exact by nia. apply uint_of_float_of_uint. nia.
Qed.

Lemma fraction_part_printed l u r :
  Forall (fun d => 0 <= d <= 9) l -> (List.length l <= max_frac u)%nat -> no_digit r -> (l = [] -> match r with c :: _ => c <> dot | [] => True end) ->
  fraction_part (print_frac l ++ r)
  = (digits_value l, float_of_uint (10 ^ Z.of_nat (List.length l)), r, negb (Nat.eqb (List.length l) 0)).
Proof.
  intros Hl Hk Hr Hd. destruct l as [|d l].
  - cbn [app print_frac]. destruct r as [|c r]; [done|]. unfold fraction_part. by rewrite bool_decide_eq_false_2 by (by apply Hd).
  - unfold fraction_part, print_frac. cbn [app]. rewrite bool_decide_eq_true_2 by done. assert (max_frac u <= 11)%nat by (destruct u; cbn; lia).
    pose proof (leadingFraction_digits (d :: l) 0 0 r Hl ltac:(cbn in *; lia) ltac:(cbn; lia) Hr) as Hf.
    change (10 ^ Z.of_nat 0) with 1 in Hf. cbn [map app] in Hf |- *. rewrite Hf.
    rewrite (proj2 (Nat.eqb_neq (List.length (digit_char d :: map digit_char l ++ r)) _)); [done|].
    cbn [List.length]. rewrite length_app, length_map. lia.
Qed.

Lemma name_head u r : match chars (unit_name u) ++ r with c :: _ => c <> dot | [] => True end /\ no_digit (chars (unit_name u) ++ r).
Proof. destruct u; split; cbn; done. Qed.

Lemma segment_piece orig p r : piece_ok p -> at_digit r -> segment orig (print_piece p ++ r) = Ok (piece_ns p, r).
Proof.
  intros (Hi & Hf & Hk & Hn) Hr. set (u := pc_unit p) in *. set (l := pc_frac p) in *.
  pose proof (unit_ns_pos u) as Hu. pose proof (digits_value_bound l Hf) as Hb.
  assert (0 <= digits_value l * (unit_ns u / 10 ^ Z.of_nat (List.length l))) as Hp.
  { destruct (unit_div_exact u (List.length l) Hk) as (_ & ? & _). nia. }
  unfold piece_ns in Hn. fold u l in Hn.
  assert (pc_int p * unit_ns u < 2 ^ 63) as Hv by lia.
  unfold print_piece. fold u l. rewrite <- !app_assoc. set (rest := print_frac l ++ chars (unit_name u) ++ r).
  assert (no_digit rest) as Hnd by (unfold rest; destruct l; [apply name_head|done]).
  unfold FormatUint. rewrite chars_str. pose proof (digits_range (pc_int p) Hi) as Hd.
  pose proof (leadingInt_digits (digits (pc_int p)) 0 rest Hd ltac:(lia)) as Hli. fold (digits_value (digits (pc_int p))) in Hli.
  rewrite digits_digits_value in Hli by done. specialize (Hli ltac:(nia) Hnd).
  assert (exists c t, map digit_char (digits (pc_int p)) ++ rest = c :: t /\ is_digit c = true) as (c & t & Ect & Hc).
  { pose proof (digits_nonempty (pc_int p)). destruct (digits (pc_int p)) as [|d0 ds]; [done|]. apply Forall_cons in Hd as [Hd _].
    eexists _, _. split; [done|]. by apply is_digit_char. }
  assert (List.length (map digit_char (digits (pc_int p)) ++ rest) <> List.length rest) as Hlen.
  { rewrite length_app, length_map. pose proof (digits_nonempty (pc_int p)). destruct (digits (pc_int p)); [done|]. cbn. lia. }
  unfold segment. rewrite Ect in Hlen, Hli |- *. rewrite Hc, orb_true_r, Hli. cbn [negb]. cbv zeta.
  rewrite (proj2 (Nat.eqb_neq _ _) Hlen). cbn [negb andb]. unfold rest.
  rewrite (fraction_part_printed l u _ Hf Hk (proj2 (name_head u r)) (fun _ => proj1 (name_head u r))).
  rewrite unit_name_read by done. rewrite bool_decide_eq_false_2 by (by destruct u). rewrite unit_name_known.
  rewrite (proj2 (Z.ltb_ge _ _)) by (apply Z.div_le_lower_bound; lia).
  destruct (Z.ltb_spec 0 (digits_value l)) as [Hf0|Hf0].
  - destruct (frac_exact u l Hf Hk Hf0) as [-> _]. unfold u64. rewrite Z.mod_small by lia.
    rewrite (proj2 (Z.ltb_ge _ _)) by lia. done.
  - cbn [mbind result_bind]. unfold piece_ns. fold u l. replace (digits_value l) with 0 by lia. do 2 f_equal. lia.
Qed.

Lemma print_piece_head p : piece_ok p -> exists c t, print_piece p = c :: t /\ is_digit c = true.
Proof.
  intros [Hi _]. unfold print_piece, FormatUint. rewrite chars_str. pose proof (digits_range (pc_int p) Hi) as Hd.
  pose proof (digits_nonempty (pc_int p)). destruct (digits (pc_int p)) as [|d0 ds]; [done|]. apply Forall_cons in Hd as [Hd _].
  eexists _, _. split; [done|]. by apply is_digit_char.
Qed.

Lemma pieces_head ps : Forall piece_ok ps -> at_digit (List.concat (map print_piece ps)).
Proof.
  intros [|p ps' Hp _]; [done|]. destruct (print_piece_head p Hp) as (c & t & Ec & Hc). cbn [map List.concat]. by rewrite Ec.
Qed.

Lemma piece_ns_nonneg p : piece_ok p -> 0 <= piece_ns p.
Proof.
  intros (Hi & Hf & Hk & _). destruct (unit_div_exact _ _ Hk) as (_ & ? & _). pose proof (digits_value_bound _ Hf).
  pose proof (unit_ns_pos (pc_unit p)). unfold piece_ns. nia.
Qed.

Lemma segments_pieces fuel orig ps d :
  Forall piece_ok ps -> 0 <= d <= 2 ^ 63 -> (List.length ps <= fuel)%nat ->
  segments fuel orig d (List.concat (map print_piece ps))
  = if d + total_ns ps <=? 2 ^ 63 then Ok (d + total_ns ps) else Err (invalid_duration orig).
Proof.
  intros Hps. revert fuel d. induction Hps as [|p ps Hp Hps IH]; intros fuel d Hd Hf; cbn [map List.concat total_ns foldr].
  - rewrite Z.add_0_r, (proj2 (Z.leb_le _ _)) by lia. by destruct fuel.
  - destruct fuel as [|fuel]; [cbn in Hf; lia|]. fold (total_ns ps).
    destruct (print_piece_head p Hp) as (c & t & Ec & _).
    pose proof (segment_piece orig p _ Hp (pieces_head ps Hps)) as Hs. rewrite Ec in Hs |- *. cbn [app segments] in Hs |- *.
    rewrite Hs. cbn [mbind result_bind]. pose proof (piece_ns_nonneg p Hp). destruct Hp as (_ & _ & _ & Hn).
    assert (0 <= total_ns ps).
    { clear - Hps. induction Hps as [|p' ps Hp' _ IH]; [done|]. cbn. apply piece_ns_nonneg in Hp'. fold (total_ns ps). lia. }
    unfold u64. rewrite Z.mod_small by lia. destruct (Z.ltb_spec (2 ^ 63) (d + piece_ns p)) as [Hlt|Hle].
    + by rewrite (proj2 (Z.leb_gt _ _)) by lia.
    + rewrite IH by (cbn in Hf; lia). by rewrite Z.add_assoc.
Qed.

Lemma segments_bound fuel orig d s v : 0 <= d <= 2 ^ 63 -> segments fuel orig d s = Ok v -> 0 <= v <= 2 ^ 63.
Proof.
  revert d s. induction fuel as [|fuel IH]; intros d s Hd H; (destruct s as [|c s]; [by injection H as <-|]); [done|].
  cbn [segments] in H. destruct (segment orig (c :: s)) as [[x r]|]; [|done]. cbn [mbind result_bind] in H.
  destruct (Z.ltb_spec (2 ^ 63) (u64 (d + x))); [done|]. eapply IH; [|exact H]. unfold u64 in *.
  pose proof (Z.mod_pos_bound (d + x) (2 ^ 64)). lia.
Qed.

Lemma to_i64_small z : - 2 ^ 63 <= z < 2 ^ 63 -> to_i64 z = z.
Proof. intros Hz. unfold to_i64. rewrite Z.mod_small by lia. lia. Qed.

Lemma to_i64_range z : - 2 ^ 63 <= to_i64 z < 2 ^ 63.
Proof. unfold to_i64. pose proof (Z.mod_pos_bound (z + 2 ^ 63) (2 ^ 64)). lia. Qed.

Lemma ParseDuration_range s d : ParseDuration s = Ok d -> minDuration <= d <= maxDuration.
Proof.
  unfold ParseDuration, minDuration, maxDuration. cbv zeta.
  destruct (match chars s with [] => _ | _ => _ end) as [neg s']. destruct (bool_decide _); [by intros [= <-]|].
  destruct (bool_decide _); [done|]. destruct (segments _ _ _ _) as [v|]; [|done]. cbn [mbind result_bind].
  pose proof (to_i64_range v). pose proof (to_i64_range (- to_i64 v)).
  destruct neg; [intros [= <-]; lia|]. destruct (_ <? _); [done|]. intros [= <-]. lia.
Qed.

Lemma pieces_length ps : Forall piece_ok ps -> (List.length ps <= List.length (List.concat (map print_piece ps)))%nat.
Proof.
  induction 1 as [|p ps Hp _ IH]; [done|]. destruct (print_piece_head p Hp) as (c & t & Ec & _).
  cbn [map List.concat]. rewrite length_app, Ec. cbn. lia.
Qed.

(** Printed durations are read exactly, or rejected when they do not fit. *)
Lemma ParseDuration_print neg ps (limit := if neg : bool then 2 ^ 63 else 2 ^ 63 - 1) :
  Forall piece_ok ps -> ps <> [] ->
  ParseDuration (print_duration neg ps)
  = if total_ns ps <=? limit then Ok (if neg then - total_ns ps else total_ns ps)
    else Err (invalid_duration (chars (print_duration neg ps))).
Proof.
  intros Hps Hne. subst limit. unfold ParseDuration, print_duration. rewrite chars_str. set (s := List.concat (map print_piece ps)).
  assert (exists c t, s = c :: t /\ is_digit c = true) as (c & t & Es & Hc).
  { destruct ps as [|p ps']; [done|]. apply Forall_cons in Hps as [Hp _]. destruct (print_piece_head p Hp) as (c & t & Ec & Hc).
    unfold s. cbn [map List.concat]. rewrite Ec. by eexists _, _. }
  set (orig := (if neg then ["-"%char] else []) ++ s).
  assert (match orig with
          | c :: s' => if bool_decide (c = "-"%char) || bool_decide (c = "+"%char) then (bool_decide (c = "-"%char), s') else (false, orig)
          | [] => (false, orig) end = (neg, s)) as ->.
  { unfold orig. destruct neg; [done|]. cbn [app]. rewrite Es.
    rewrite !bool_decide_eq_false_2 by (intros ->; vm_compute in Hc; discriminate). done. }
  assert (s <> ["0"%char]) as H0.
  { intros E0. pose proof (segments_pieces (List.length s) orig ps 0 Hps ltac:(lia) (pieces_length ps Hps)) as H.
    fold s in H. rewrite E0 in H. change (segments (List.length ["0"%char]) orig 0 ["0"%char]) with (Err (A := Z) (ErrNew ("time: missing unit in duration " +:+ time_quote orig))) in H.
    destruct (_ <=? _); [done|]. unfold invalid_duration in H. injection H as H. discriminate H. }
  rewrite (bool_decide_eq_false_2 _ H0), bool_decide_eq_false_2 by (by rewrite Es).
  pose proof (segments_pieces (List.length s) orig ps 0 Hps ltac:(lia) (pieces_length ps Hps)) as Hseg. fold s in Hseg. rewrite Hseg.
  rewrite Z.add_0_l. assert (0 <= total_ns ps) as Ht.
  { clear - Hps. induction Hps as [|p' ps Hp' _ IH]; [done|]. cbn. apply piece_ns_nonneg in Hp'. fold (total_ns ps). lia. }
  destruct (Z.leb_spec (total_ns ps) (2 ^ 63)) as [Hle|Hgt]; cbn [mbind result_bind].
  - destruct neg.
    + destruct (Z.eq_dec (total_ns ps) (2 ^ 63)) as [->|]; [reflexivity|]. rewrite (proj2 (Z.leb_le _ _)) by lia.
      rewrite (to_i64_small (total_ns ps)), to_i64_small by lia. done.
    + destruct (Z.ltb_spec (2 ^ 63 - 1) (total_ns ps)) as [H1|H1].
      * by rewrite (proj2 (Z.leb_gt _ _)) by lia.
      * rewrite (proj2 (Z.leb_le _ _)), to_i64_small by lia. done.
  - by destruct neg; rewrite (proj2 (Z.leb_gt _ _)) by lia.
Qed.
