(* ===== verification/Limits.v ===== *)
(** * Funds limits: lib/mcp/limits/usdc.go and lib/mcp/limits/limits.go

    USDC amounts as text and as quantums, the per-transaction caps, and the
    per-tenant daily withdraw ledger.  [WithdrawLedger] is the Go interface of
    the ledger; [WithdrawLedgerLaws] is what [Enforce] relies on, discharged by
    [MemoryLedger]. *)

From S2P Require Import Prelude GoStrings GoNum GoTime.

(** ** usdc.go *)

Definition quantumsPerUSDC : Z := 1000000.

(** [for len(fracPart) < 6 { fracPart += "0" }]; six rounds always suffice. *)
Fixpoint pad_frac (fuel : nat) (fracPart : string) : string :=
  match fuel with
  | O => fracPart
  | S f => if len fracPart <? 6 then pad_frac f (fracPart +:+ "0")%string else fracPart
  end.

Definition HumanToQuantums (human : string) : result Z :=
  let s := TrimSpace human in
  _ ← check (String.eqb s "") (Errorf "usdc amount is empty" []);
  let neg := HasPrefix s "-" in
  _ ← check neg (Errorf "usdc amount must be non-negative: %s" [FStr human]);
  let '(intPart, fracPart, hasFrac) := Cut s "." in
  _ ← check (String.eqb intPart "" && negb hasFrac) (Errorf "invalid usdc amount: %s" [FStr human]);
  let intPart := if String.eqb intPart "" then "0"%string else intPart in
  _ ← check (hasFrac && (6 <? len fracPart))
        (Errorf "usdc amount has more than 6 decimal places: %s" [FStr human]);
  let fracPart := pad_frac 6 fracPart in
  let combined := (intPart +:+ fracPart)%string in
  n ← from_opt (BigSetString10 combined) (Errorf "invalid usdc amount: %s" [FStr human]);
  _ ← check (negb (is_u64 n)) (Errorf "usdc amount overflows uint64: %s" [FStr human]);
  Ok n.

Definition QuantumsToHuman (q : Z) : string :=
  let whole := q / quantumsPerUSDC in
  let frac := q mod quantumsPerUSDC in
  (FormatUint whole +:+ String "." (pad_left 6 (FormatUint frac)))%string.

(** ** limits.go *)

Record Config := {
  DepositMaxUSDC : Z;
  WithdrawMaxUSDC : Z;
  TransferMaxUSDC : Z;
  DailyWithdrawCapUSDC : Z;
}.

Definition ToolDeposit : string := "deposit".
Definition ToolWithdraw : string := "withdraw".
Definition ToolTransfer : string := "transfer".

(** The text an [ErrCapExceeded] renders to. *)
Definition ErrCapExceeded_Error (kind tool limit requested used : string) : string :=
  if String.eqb kind "daily" then
    ("daily_withdraw_cap exceeded: requested " +:+ requested +:+ " USDC + used " +:+ used
       +:+ " USDC > limit " +:+ limit +:+ " USDC")%string
  else
    (tool +:+ "_max_usdc exceeded: requested " +:+ requested +:+ " USDC > limit "
       +:+ limit +:+ " USDC")%string.

Definition perToolCapQuantums (cfg : Config) (tool : string) : option Z :=
  let guard capUSDC :=
    if capUSDC =? 0 then None
    else if maxU64 / quantumsPerUSDC <? capUSDC then None
    else Some (u64 (capUSDC * quantumsPerUSDC)) in
  if String.eqb tool ToolDeposit then guard (DepositMaxUSDC cfg)
  else if String.eqb tool ToolWithdraw then guard (WithdrawMaxUSDC cfg)
  else if String.eqb tool ToolTransfer then guard (TransferMaxUSDC cfg)
  else None.

Definition CheckPerTx (cfg : Config) (tool : string) (quantums : Z) : error :=
  match perToolCapQuantums cfg tool with
  | None => Ok tt
  | Some capQ =>
      if capQ <? quantums then
        Err (ErrCapExceeded "per_tx" tool (QuantumsToHuman capQ) (QuantumsToHuman quantums) "")
      else Ok tt
  end.

Definition dailyCapQuantums (cfg : Config) : option Z :=
  if DailyWithdrawCapUSDC cfg =? 0 then None
  else if maxU64 / quantumsPerUSDC <? DailyWithdrawCapUSDC cfg then None
  else Some (u64 (DailyWithdrawCapUSDC cfg * quantumsPerUSDC)).

(** The Go interface: both methods take the ledger's lock and read its clock. *)
Class WithdrawLedger (L : Type) : Type := {
  Remaining : Time -> string -> L -> Z * L;
  RecordSpend : Time -> string -> Z -> L -> L;
}.

(** [Enforce]; [None] is a nil ledger. *)
Definition Enforce {L} `{WithdrawLedger L} (cfg : Config) (now : Time)
    (tenantID tool : string) (quantums : Z) (ledger : option L) : error * option L :=
  match CheckPerTx cfg tool quantums with
  | Err e => (Err e, ledger)
  | Ok _ =>
      match ledger with
      | None => (Ok tt, None)
      | Some l =>
          if negb (String.eqb tool ToolWithdraw) then (Ok tt, Some l)
          else match dailyCapQuantums cfg with
               | None => (Ok tt, Some l)
               | Some dailyCapQ =>
                   let '(remaining, l') := Remaining now tenantID l in
                   if remaining <? quantums then
                     let usedQ := u64 (dailyCapQ - remaining) in
                     (Err (ErrCapExceeded "daily" tool (QuantumsToHuman dailyCapQ)
                             (QuantumsToHuman quantums) (QuantumsToHuman usedQ)), Some l')
                   else (Ok tt, Some l')
               end
      end
  end.

Record MemoryLedger := mkMemoryLedger {
  capQuantums : Z;
  day : string;
  used : gmap string Z;
}.

Definition NewMemoryLedger (dailyCapUSDC : Z) : MemoryLedger :=
  let capQ := if (0 <? dailyCapUSDC) && (dailyCapUSDC <=? maxU64 / quantumsPerUSDC)
              then u64 (dailyCapUSDC * quantumsPerUSDC) else 0 in
  mkMemoryLedger capQ "" ∅.

Definition rolloverLocked (now : Time) (l : MemoryLedger) : MemoryLedger :=
  let today := day_key now in
  if String.eqb (day l) today then l else mkMemoryLedger (capQuantums l) today ∅.

(** [l.used[tenantID]]: a missing key reads as zero. *)
Definition used_of (l : MemoryLedger) (tenantID : string) : Z :=
  default 0 (used l !! tenantID).

Definition MemRemaining (now : Time) (tenantID : string) (l : MemoryLedger) : Z * MemoryLedger :=
  let l := rolloverLocked now l in
  let u := used_of l tenantID in
  (if capQuantums l <=? u then 0 else capQuantums l - u, l).

Definition MemRecord (now : Time) (tenantID : string) (quantums : Z) (l : MemoryLedger)
  : MemoryLedger :=
  let l := rolloverLocked now l in
  let cur := used_of l tenantID in
  let sum := u64 (cur + quantums) in
  let sum := if sum <? cur then maxU64 else sum in
  mkMemoryLedger (capQuantums l) (day l) (<[tenantID := sum]> (used l)).

#[export] Instance MemoryLedger_WithdrawLedger : WithdrawLedger MemoryLedger :=
  {| Remaining := MemRemaining; RecordSpend := MemRecord |}.

(** What a ledger promises: an amount spent per tenant on the day of an
    instant, a cap, and how the two methods act on them.  Both methods forget
    every day but the one of their clock reading. *)
Class WithdrawLedgerLaws (L : Type) `{WithdrawLedger L} : Type := {
  ledger_cap : L -> Z;
  spent : L -> Time -> string -> Z;
  ledger_ok : L -> Prop;
  spent_day l now now' t : utc_day now = utc_day now' -> spent l now t = spent l now' t;
  spent_range l now t : ledger_ok l -> 0 <= spent l now t <= maxU64;
  cap_range l : ledger_ok l -> 0 <= ledger_cap l <= maxU64;
  Remaining_value now t l :
    ledger_ok l -> fst (Remaining now t l) = Z.max 0 (ledger_cap l - spent l now t);
  Remaining_state now t l :
    ledger_ok l ->
    ledger_ok (snd (Remaining now t l)) /\ ledger_cap (snd (Remaining now t l)) = ledger_cap l
    /\ (forall now' t', spent (snd (Remaining now t l)) now' t'
          = if utc_day now' =? utc_day now then spent l now' t' else 0);
  Record_state now t q l :
    ledger_ok l -> 0 <= q <= maxU64 ->
    ledger_ok (RecordSpend now t q l) /\ ledger_cap (RecordSpend now t q l) = ledger_cap l
    /\ (forall now' t', spent (RecordSpend now t q l) now' t'
          = if utc_day now' =? utc_day now then
              if String.eqb t' t then Z.min maxU64 (spent l now' t + q) else spent l now' t'
            else 0);
}.

(** What broadcast_signed_tx does with the ledger for one withdraw: [Enforce]
    at the first instant, and, when the chain accepts, [RecordSpend] at the
    second. *)
Record withdraw := {
  w_tenant : string; w_quantums : Z; w_check : Time; w_record : Time; w_accepted : bool;
}.

Definition withdraw_step {L} `{WithdrawLedger L} (cfg : Config) (w : withdraw) (l : L) : L :=
  match Enforce cfg (w_check w) (w_tenant w) ToolWithdraw (w_quantums w) (Some l) with
  | (Ok _, Some l') =>
      if w_accepted w then RecordSpend (w_record w) (w_tenant w) (w_quantums w) l' else l'
  | (_, Some l') => l'
  | (_, None) => l
  end.

Definition withdraw_run {L} `{WithdrawLedger L} (cfg : Config) (ws : list withdraw) (l : L) : L :=
  foldl (fun l w => withdraw_step cfg w l) l ws.

(** ** Decimal amounts *)

Lemma pad_frac_eq f s :
  (6 - String.length s <= f)%nat ->
  pad_frac f s = str (chars s ++ zeros (6 - String.length s)).
Proof.
  revert s. induction f as [|f IH]; intros s Hf; unfold pad_frac; fold pad_frac.
  - replace (6 - String.length s)%nat with O by lia. simpl. by rewrite app_nil_r, str_chars.
  - unfold len. destruct (Z.ltb_spec (Z.of_nat (String.length s)) 6).
    + assert (String.length (s +:+ "0") = S (String.length s)) as L.
      { rewrite <- !length_chars, chars_app, length_app. simpl. lia. }
      rewrite IH by lia. rewrite L, chars_app, <- app_assoc. do 2 f_equal.
      by replace (6 - String.length s)%nat with (S (6 - S (String.length s))) by lia.
    + replace (6 - String.length s)%nat with O by lia. simpl. by rewrite app_nil_r, str_chars.
Qed.

Lemma eqb_neq_true (s t : string) : s <> t -> String.eqb s t = false.
Proof. apply String.eqb_neq. Qed.

(** The text of an amount: digits [i], and with [hasFrac] a point followed by at
    most six digits [f]. *)
Section Decimal.
Variables (i f : bytes) (n m : Z) (hasFrac : bool).
Hypothesis Hi : parse_nat i = Some n.
Hypothesis Hf : parse_digits f = Some m.
Hypothesis Hlen : (List.length f <= 6)%nat.
Hypothesis Hnf : hasFrac = false -> f = [].
Let s : string := if hasFrac then str (i ++ "."%char :: f) else str i.
Let v : Z := n * 10 ^ 6 + m * 10 ^ (6 - Z.of_nat (List.length f)).

Lemma int_digits : Forall (fun c => is_digit c = true) i /\ i <> [] /\ parse_digits i = Some n.
Proof.
  destruct i as [|c i']; [done|]. unfold parse_nat in Hi. split_and!; [|done|done].
  by apply parse_digits_all_digit in Hi.
Qed.

Lemma decimal_nonneg : 0 <= v.
Proof.
  destruct int_digits as (Di & _ & Pi).
  destruct (parse_digits_Some _ Di) as (n' & Hn' & ?).
  destruct (parse_digits_Some _ (parse_digits_all_digit _ _ Hf)) as (m' & Hm' & ?).
  assert (n' = n) by congruence. assert (m' = m) by congruence. subst n' m'.
  unfold v. pose proof (Z.pow_nonneg 10 (6 - Z.of_nat (List.length f))). nia.
Qed.

Lemma decimal_trim : TrimSpace s = s.
Proof.
  destruct int_digits as (Di & Ni & _).
  pose proof (parse_digits_all_digit _ _ Hf) as Df.
  unfold s. destruct hasFrac; apply TrimSpace_solid_all.
  - intros H0. by apply app_eq_nil in H0 as [H0 _].
  - apply Forall_app; split; [|constructor; [done|]];
      (eapply Forall_impl; [done|apply digit_solid]).
  - done.
  - eapply Forall_impl; [apply Di|apply digit_solid].
Qed.

Lemma decimal_cut : Cut s "." = (str i, str f, hasFrac).
Proof.
  destruct int_digits as (Di & _ & _). unfold s. destruct hasFrac.
  - unfold Cut. rewrite chars_str, cut_l_app; [done|]. by apply (not_elem_digits _ _ Di).
  - rewrite Cut_notin; [by rewrite (Hnf eq_refl)|]. rewrite chars_str.
    by apply (not_elem_digits _ _ Di).
Qed.

Lemma decimal_head : String.eqb s "" = false /\ HasPrefix s "-" = false.
Proof.
  destruct int_digits as (Di & Ni & _). unfold s, HasPrefix.
  destruct i as [|c i']; [done|]. inversion Di as [|? ? Dc _]; subst.
  split; [by apply eqb_neq_true; destruct hasFrac|].
  destruct hasFrac; rewrite chars_str; cbn [app list_ascii_of_string strip_prefix];
    by rewrite (Ascii.eqb_sym _ c), (digit_neq c "-" Dc).
Qed.

Lemma decimal_combined :
  BigSetString10 (str (i ++ f ++ zeros (6 - List.length f))) = Some v.
Proof.
  destruct int_digits as (Di & Ni & Pi).
  pose proof (parse_digits_all_digit _ _ Hf) as Df.
  set (k := (6 - List.length f)%nat).
  unfold BigSetString10. rewrite chars_str, split_sign_digits.
  2: { apply Forall_app; split; [done|]. apply Forall_app; split; [done|apply zeros_digits]. }
  replace (parse_nat (i ++ f ++ zeros k)) with (parse_digits (i ++ f ++ zeros k))
    by (by destruct i).
  rewrite (parse_digits_app _ _ _ _ Pi (parse_digits_zeros_r _ _ k Hf)).
  unfold v. do 2 f_equal.
  - rewrite length_app. unfold zeros. rewrite repeat_length. do 2 f_equal. lia.
  - do 2 f_equal. lia.
Qed.

Lemma HumanToQuantums_digits :
  HumanToQuantums s
  = if v <=? maxU64 then Ok v else Err (Errorf "usdc amount overflows uint64: %s" [FStr s]).
Proof.
  destruct int_digits as (_ & Ni & _). destruct decimal_head as [E1 E2].
  assert (String.eqb (str i) "" = false) as E3 by (apply eqb_neq_true; by destruct i).
  assert ((6 <? len (str f)) = false) as E4.
  { apply Z.ltb_ge. unfold len. rewrite <- length_chars, chars_str. lia. }
  unfold HumanToQuantums. rewrite decimal_trim, E1, E2, decimal_cut, E3, E4.
  cbn [check andb negb mbind result_bind]. rewrite andb_false_r.
  cbn [check andb negb mbind result_bind].
  rewrite pad_frac_eq by lia. rewrite <- length_chars, chars_str, <- str_app, decimal_combined.
  pose proof decimal_nonneg. cbn [from_opt mbind result_bind]. unfold is_u64.
  rewrite (proj2 (Z.leb_le 0 v)) by done. by destruct (v <=? maxU64).
Qed.

End Decimal.

Lemma pad6_FormatUint q : 0 <= q < 1000000 -> String.length (pad_left 6 (FormatUint q)) = 6%nat.
Proof.
  intros H. apply pad_left_length, FormatUint_length; [|lia].
  change (10 ^ Z.of_nat 6) with 1000000. lia.
Qed.

(** ** Claims on amounts *)

(** A decimal amount, digits with an optional point followed by at most six
    digits, converts to exactly its value in millionths, and to the overflow
    error when that value does not fit in 64 bits; nothing is rounded. *)
Theorem HumanToQuantums_value (i f : bytes) (n m : Z) (hasFrac : bool)
    (Hi : parse_nat i = Some n) (Hf : parse_digits f = Some m)
    (Hlen : (List.length f <= 6)%nat) (Hnf : hasFrac = false -> f = []) :
  let s := if hasFrac then str (i ++ "."%char :: f) else str i in
  let v := n * 10 ^ 6 + m * 10 ^ (6 - Z.of_nat (List.length f)) in
  HumanToQuantums s
  = if v <=? maxU64 then Ok v else Err (Errorf "usdc amount overflows uint64: %s" [FStr s]).
Proof. exact (HumanToQuantums_digits i f n m hasFrac Hi Hf Hlen Hnf). Qed.

Lemma HumanToQuantums_value_witness :
  HumanToQuantums "12.34" = Ok 12340000.
Proof.
  exact (HumanToQuantums_value (chars "12") (chars "34") 12 34 true eq_refl eq_refl
           ltac:(simpl; lia) ltac:(discriminate)).
Defined.

(** [QuantumsToHuman] is inverted by [HumanToQuantums] on every uint64. *)
Theorem quantums_roundtrip (q : Z) (Hq : 0 <= q <= maxU64) :
  HumanToQuantums (QuantumsToHuman q) = Ok q.
Proof.
  pose proof (Z.mod_pos_bound q quantumsPerUSDC ltac:(done)) as Hr.
  pose proof (Z.div_pos q quantumsPerUSDC ltac:(lia) ltac:(done)) as Hd.
  unfold quantumsPerUSDC in *.
  pose proof (HumanToQuantums_digits (chars (FormatUint (q / 1000000)))
    (chars (pad_left 6 (FormatUint (q mod 1000000)))) _ _ true
    (parse_nat_FormatUint _ Hd) (pad_left_parse 6 (q mod 1000000) (proj1 Hr))) as H.
  rewrite length_chars, pad6_FormatUint in H by done. specialize (H ltac:(lia) ltac:(done)).
  cbv zeta in H. rewrite str_app in H. cbn [string_of_list_ascii] in H.
  rewrite !str_chars in H. unfold QuantumsToHuman, quantumsPerUSDC. rewrite H.
  change (10 ^ 6) with 1000000. change (10 ^ (6 - Z.of_nat 6)) with 1.
  replace (q / 1000000 * 1000000 + q mod 1000000 * 1) with q
    by (pose proof (Z.div_mod q 1000000); lia).
  by rewrite (proj2 (Z.leb_le q maxU64)) by lia.
Qed.

Lemma quantums_roundtrip_witness :
  HumanToQuantums (QuantumsToHuman 1500000) = Ok 1500000.
Proof. exact (quantums_roundtrip 1500000 ltac:(split; [lia|vm_compute; discriminate])). Defined.

(** ** Lemmas on the caps *)

(** The field of the configuration that caps a tool. *)
Definition toolCapUSDC (cfg : Config) (tool : string) : option Z :=
  if String.eqb tool ToolDeposit then Some (DepositMaxUSDC cfg)
  else if String.eqb tool ToolWithdraw then Some (WithdrawMaxUSDC cfg)
  else if String.eqb tool ToolTransfer then Some (TransferMaxUSDC cfg)
  else None.

Lemma cap_guard c :
  0 <= c ->
  (if c =? 0 then None else if maxU64 / quantumsPerUSDC <? c then None
   else Some (u64 (c * quantumsPerUSDC)))
  = if (0 <? c) && (c * quantumsPerUSDC <=? maxU64) then Some (c * quantumsPerUSDC) else None.
Proof.
  intros Hc. unfold quantumsPerUSDC, u64.
  destruct (Z.eqb_spec c 0) as [->|H0]; [done|].
  rewrite (proj2 (Z.ltb_lt 0 c)) by lia. simpl.
  destruct (Z.ltb_spec (maxU64 / 1000000) c) as [H|H], (Z.leb_spec (c * 1000000) maxU64) as [H'|H'];
    try done.
  - pose proof (Z.div_le_lower_bound maxU64 1000000 c ltac:(lia) ltac:(lia)). lia.
  - rewrite Z.mod_small; [done|]. unfold maxU64 in H'. lia.
  - pose proof (Z.mul_div_le maxU64 1000000 ltac:(lia)). nia.
Qed.

Lemma perToolCap_eq cfg tool c :
  toolCapUSDC cfg tool = Some c -> 0 <= c ->
  perToolCapQuantums cfg tool
  = if (0 <? c) && (c * quantumsPerUSDC <=? maxU64) then Some (c * quantumsPerUSDC) else None.
Proof.
  unfold toolCapUSDC, perToolCapQuantums. intros H Hc. rewrite <- (cap_guard c Hc).
  destruct (String.eqb tool ToolDeposit); [by simplify_eq|].
  destruct (String.eqb tool ToolWithdraw); [by simplify_eq|].
  destruct (String.eqb tool ToolTransfer); [by simplify_eq|done].
Qed.

(** A single operation on a capped tool is refused exactly when it exceeds
    the cap in quantums; the scaling by 10^6 never wraps around, and a cap of
    zero or one too large for 64 bits disables the check. *)
Lemma CheckPerTx_spec (cfg : Config) (tool : string) (c q : Z)
    (Ht : toolCapUSDC cfg tool = Some c) (Hc : 0 <= c) :
  CheckPerTx cfg tool q
  = if (0 <? c) && (c * quantumsPerUSDC <=? maxU64) && (c * quantumsPerUSDC <? q)
    then Err (ErrCapExceeded "per_tx" tool (QuantumsToHuman (c * quantumsPerUSDC))
                (QuantumsToHuman q) "")
    else Ok tt.
Proof.
  unfold CheckPerTx. rewrite (perToolCap_eq _ _ _ Ht Hc).
  destruct ((0 <? c) && _); [|done]. simpl. by destruct (_ <? q).
Qed.

Lemma dailyCap_eq cfg :
  0 <= DailyWithdrawCapUSDC cfg ->
  let c := DailyWithdrawCapUSDC cfg in
  dailyCapQuantums cfg
  = if (0 <? c) && (c * quantumsPerUSDC <=? maxU64) then Some (c * quantumsPerUSDC) else None.
Proof. intros H. unfold dailyCapQuantums. by apply cap_guard. Qed.

(** ** The in-memory ledger keeps the interface's promises *)

Definition mem_spent (l : MemoryLedger) (now : Time) (t : string) : Z :=
  if String.eqb (day l) (day_key now) then used_of l t else 0.

Definition mem_ok (l : MemoryLedger) : Prop :=
  0 <= capQuantums l <= maxU64 /\ map_Forall (fun _ v => 0 <= v <= maxU64) (used l).

Lemma rollover_day now l : day (rolloverLocked now l) = day_key now.
Proof. unfold rolloverLocked. by destruct (String.eqb_spec (day l) (day_key now)). Qed.

Lemma rollover_cap now l : capQuantums (rolloverLocked now l) = capQuantums l.
Proof. unfold rolloverLocked. by destruct (String.eqb _ _). Qed.

Lemma rollover_used now l t : used_of (rolloverLocked now l) t = mem_spent l now t.
Proof.
  unfold rolloverLocked, mem_spent, used_of. destruct (String.eqb _ _); [done|].
  simpl. by rewrite lookup_empty.
Qed.

Lemma rollover_ok now l : mem_ok l -> mem_ok (rolloverLocked now l).
Proof.
  unfold rolloverLocked. destruct (String.eqb _ _); [done|]. intros [H _].
  split; [done|]. apply map_Forall_empty.
Qed.

Lemma used_of_range l t : mem_ok l -> 0 <= used_of l t <= maxU64.
Proof.
  intros [_ H]. unfold used_of. destruct (used l !! t) eqn:E; simpl; [by apply (H t)|].
  unfold maxU64. lia.
Qed.

Lemma mem_spent_range l now t : mem_ok l -> 0 <= mem_spent l now t <= maxU64.
Proof. intros H. rewrite <- rollover_used. by apply used_of_range, rollover_ok. Qed.

Lemma rollover_spent now l now' t :
  mem_spent (rolloverLocked now l) now' t
  = if utc_day now' =? utc_day now then mem_spent l now' t else 0.
Proof.
  unfold mem_spent at 1. rewrite rollover_day, day_key_eqb, rollover_used, Z.eqb_sym.
  destruct (Z.eqb_spec (utc_day now') (utc_day now)) as [E|]; [|done].
  unfold mem_spent. by rewrite (proj2 (day_key_iff now' now) E).
Qed.

(** The 64-bit addition of [Record], clamped on wrap-around, saturates. *)
Lemma clamped_add cur q :
  0 <= cur <= maxU64 -> 0 <= q <= maxU64 ->
  (if u64 (cur + q) <? cur then maxU64 else u64 (cur + q)) = Z.min maxU64 (cur + q).
Proof.
  unfold u64, maxU64. intros Hc Hq. destruct (Z.leb_spec (cur + q) (2 ^ 64 - 1)).
  - rewrite Z.mod_small by lia. destruct (Z.ltb_spec (cur + q) cur); lia.
  - replace ((cur + q) mod 2 ^ 64) with (cur + q - 2 ^ 64).
    + destruct (Z.ltb_spec (cur + q - 2 ^ 64) cur); lia.
    + apply (Z.mod_unique_pos _ _ 1); lia.
Qed.

#[export] Program Instance MemoryLedger_laws : WithdrawLedgerLaws MemoryLedger := {|
  ledger_cap := capQuantums;
  spent := mem_spent;
  ledger_ok := mem_ok;
|}.
Next Obligation.
  intros l now now' t E. unfold mem_spent. by rewrite (proj2 (day_key_iff now now') E).
Qed.
Next Obligation. intros. by apply mem_spent_range. Qed.
Next Obligation. intros l [H _]. done. Qed.
Next Obligation.
  intros now t l Hl. simpl. unfold MemRemaining. simpl.
  rewrite rollover_used, rollover_cap.
  destruct (Z.leb_spec (capQuantums l) (mem_spent l now t)); lia.
Qed.
Next Obligation.
  intros now t l Hl. simpl. split_and!.
  - by apply rollover_ok.
  - apply rollover_cap.
  - intros. apply rollover_spent.
Qed.
Next Obligation.
  intros now t q l Hl Hq. simpl. unfold MemRecord. cbv zeta.
  pose proof (rollover_ok now l Hl) as Hr. pose proof (mem_spent_range l now t Hl) as Hs.
  rewrite rollover_used, clamped_add by done.
  split_and!; cbn [capQuantums used day].
  - split; [apply Hr|]. cbn [used]. apply map_Forall_insert_2; [unfold maxU64 in *; lia|apply Hr].
  - apply rollover_cap.
  - intros now' t'. unfold mem_spent at 1. cbn [day]. rewrite rollover_day, day_key_eqb, Z.eqb_sym.
    destruct (Z.eqb_spec (utc_day now') (utc_day now)) as [E|]; [|done].
    assert (mem_spent l now t = mem_spent l now' t) as Est
      by (unfold mem_spent; by rewrite (proj2 (day_key_iff now' now) E)).
    unfold used_of. cbn [used]. rewrite lookup_insert.
    destruct (String.eqb_spec t' t) as [->|Hne].
    + by rewrite decide_True, Est.
    + rewrite decide_False by done. fold (used_of (rolloverLocked now l) t').
      rewrite rollover_used. unfold mem_spent. by rewrite (proj2 (day_key_iff now' now) E).
Qed.

(** What a withdrawal within the caps is, on the day of an instant: at most the
    cap per transaction, and together with what the tenant has spent that day at
    most the cap of the ledger.  A cap of zero, and one whose quantums do not fit
    64 bits, is no cap. *)
Definition enabled (capUSDC : Z) : bool := negb (capUSDC =? 0) && (capUSDC <=? maxU64 / quantumsPerUSDC).

Definition per_tx (capUSDC q : Z) : Prop := enabled capUSDC = true -> q <= u64 (capUSDC * quantumsPerUSDC).

Definition withdrawable (cfg : Config) (t : Time) (tenantID : string) (q : Z) (ledger : option MemoryLedger) : Prop :=
  per_tx (WithdrawMaxUSDC cfg) q
  /\ (forall l, ledger = Some l -> enabled (DailyWithdrawCapUSDC cfg) = true -> mem_spent l t tenantID + q <= capQuantums l).

Lemma CheckPerTx_within cfg q :
  (CheckPerTx cfg ToolDeposit q = Ok tt -> per_tx (DepositMaxUSDC cfg) q)
  /\ (CheckPerTx cfg ToolWithdraw q = Ok tt -> per_tx (WithdrawMaxUSDC cfg) q)
  /\ (CheckPerTx cfg ToolTransfer q = Ok tt -> per_tx (TransferMaxUSDC cfg) q).
Proof.
  assert (forall cap tool, match (if cap =? 0 then None else if maxU64 / quantumsPerUSDC <? cap then None
      else Some (u64 (cap * quantumsPerUSDC))) with None => Ok tt | Some capQ => if capQ <? q then
        Err (ErrCapExceeded "per_tx" tool (QuantumsToHuman capQ) (QuantumsToHuman q) "") else Ok tt end = Ok tt -> per_tx cap q) as H.
  { intros cap tool. unfold per_tx, enabled. rewrite Z.leb_antisym. destruct (cap =? 0); [done|]. destruct (_ <? cap); [done|].
    case Z.ltb_spec; [done|]. intros. lia. }
  unfold CheckPerTx, perToolCapQuantums. split_and!; cbn [String.eqb ToolWithdraw ToolDeposit ToolTransfer Ascii.eqb Bool.eqb]; apply H.
Qed.

Lemma Enforce_within cfg t tenantID q ledger :
  0 < q -> fst (Enforce cfg t tenantID ToolWithdraw q ledger) = Ok tt -> withdrawable cfg t tenantID q ledger.
Proof.
  intros Hq H. unfold Enforce in H. destruct (CheckPerTx cfg ToolWithdraw q) as [[]|] eqn:Ec; [|done].
  split; [by apply CheckPerTx_within|].
  intros l -> Hd. change (negb (String.eqb ToolWithdraw ToolWithdraw)) with false in H. unfold dailyCapQuantums in H.
  unfold enabled in Hd. rewrite Z.leb_antisym in Hd.
  destruct (DailyWithdrawCapUSDC cfg =? 0); [done|]. destruct (_ <? DailyWithdrawCapUSDC cfg); [done|].
  cbn [Remaining MemoryLedger_WithdrawLedger] in H. unfold MemRemaining in H. rewrite rollover_used, rollover_cap in H.
  revert H. case Z.leb_spec; case Z.ltb_spec; cbn [fst]; try done; lia.
Qed.

(** ** Clients of the interface *)

Section Ledger.
Context {L : Type} `{WithdrawLedgerLaws L}.
Implicit Types (l : L) (w : withdraw).

Lemma Enforce_withdraw cfg now t q l capQ :
  ledger_ok l -> dailyCapQuantums cfg = Some capQ ->
  Enforce cfg now t ToolWithdraw q (Some l)
  = match CheckPerTx cfg ToolWithdraw q with
    | Err e => (Err e, Some l)
    | Ok _ =>
        let rem := Z.max 0 (ledger_cap l - spent l now t) in
        (if rem <? q then
           Err (ErrCapExceeded "daily" ToolWithdraw (QuantumsToHuman capQ) (QuantumsToHuman q)
                  (QuantumsToHuman (u64 (capQ - rem))))
         else Ok tt, Some (snd (Remaining now t l)))
    end.
Proof.
  intros Hl Hd. unfold Enforce. destruct (CheckPerTx _ _ _); [|done]. simpl. rewrite Hd.
  rewrite <- Remaining_value by done. destruct (Remaining now t l) as [r l']. simpl.
  by destruct (r <? q).
Qed.

Definition under_cap (l : L) : Prop :=
  ledger_ok l /\ forall now t, spent l now t <= ledger_cap l.

Lemma remaining_under_cap now t l : under_cap l -> under_cap (snd (Remaining now t l)).
Proof.
  intros [Hl Hs]. destruct (Remaining_state now t l Hl) as (Hl' & Hc & Hsp).
  split; [done|]. intros now' t'. rewrite Hsp, Hc.
  destruct (_ =? _); [apply Hs|]. apply cap_range; done.
Qed.

(** Room for a spend on whatever day; a passed [Enforce] establishes it and
    [RecordSpend] consumes it. *)
Definition spend_room (l : L) (t : string) (q : Z) : Prop :=
  forall now, spent l now t + q <= ledger_cap l.

Lemma enforce_room cfg now t q l :
  dailyCapQuantums cfg = Some (ledger_cap l) -> 0 <= q -> under_cap l ->
  exists l', snd (Enforce cfg now t ToolWithdraw q (Some l)) = Some l' /\ under_cap l' /\ ledger_cap l' = ledger_cap l
  /\ (fst (Enforce cfg now t ToolWithdraw q (Some l)) = Ok tt -> spend_room l' t q).
Proof.
  intros Hd Hq Hu. destruct Hu as [Hl Hs] eqn:E. clear E. rewrite (Enforce_withdraw _ _ _ _ _ _ Hl Hd).
  destruct (CheckPerTx _ _ _); [|by exists l]. cbn [fst snd].
  destruct (Remaining_state now t l Hl) as (Hl' & Hc & Hsp). eexists.
  split_and!; [done|by apply remaining_under_cap|done|].
  destruct (Z.ltb_spec (Z.max 0 (ledger_cap l - spent l now t)) q); [done|]. intros _ now'.
  rewrite Hsp, Hc. pose proof (Hs now t). pose proof (spent_range l now t Hl).
  destruct (Z.eqb_spec (utc_day now') (utc_day now)) as [E|]; [|lia]. rewrite (spent_day l now' now) by done. lia.
Qed.

Lemma record_under_cap now t q l :
  under_cap l -> 0 <= q <= maxU64 -> spend_room l t q ->
  under_cap (RecordSpend now t q l) /\ ledger_cap (RecordSpend now t q l) = ledger_cap l.
Proof.
  intros [Hl Hs] Hq Hr. destruct (Record_state now t q l Hl Hq) as (Hl' & Hc & Hsp). split; [split|]; [done| |done].
  intros now' t'. rewrite Hsp, Hc. pose proof (cap_range l Hl). specialize (Hr now'). specialize (Hs now' t').
  destruct (_ =? _); [|lia]. destruct (String.eqb_spec t' t) as [->|]; lia.
Qed.

(** Room for a spend of one tenant survives what is done for another, and any
    check. *)
Lemma enforce_keeps_room cfg now t q l l' t' q' :
  dailyCapQuantums cfg = Some (ledger_cap l) -> under_cap l -> spend_room l t' q' ->
  snd (Enforce cfg now t ToolWithdraw q (Some l)) = Some l' -> spend_room l' t' q'.
Proof.
  intros Hd [Hl _] Hr E. rewrite (Enforce_withdraw _ _ _ _ _ _ Hl Hd) in E.
  destruct (CheckPerTx _ _ _); [|by injection E as <-]. injection E as <-. intros now'.
  destruct (Remaining_state now t l Hl) as (_ & Hc & Hsp). rewrite Hsp, Hc.
  pose proof (Hr now'). pose proof (spent_range l now' t' Hl). destruct (_ =? _); lia.
Qed.

Lemma record_keeps_room now t q l t' q' :
  under_cap l -> 0 <= q <= maxU64 -> t' <> t -> spend_room l t' q' -> spend_room (RecordSpend now t q l) t' q'.
Proof.
  intros [Hl _] Hq Hne Hr now'. destruct (Record_state now t q l Hl Hq) as (_ & Hc & Hsp). rewrite Hsp, Hc.
  rewrite (proj2 (String.eqb_neq _ _) Hne). pose proof (Hr now'). pose proof (spent_range l now' t' Hl).
  destruct (_ =? _); lia.
Qed.

Lemma withdraw_step_under_cap cfg w l :
  dailyCapQuantums cfg = Some (ledger_cap l) -> 0 <= w_quantums w <= maxU64 ->
  under_cap l ->
  under_cap (withdraw_step cfg w l) /\ ledger_cap (withdraw_step cfg w l) = ledger_cap l.
Proof.
  intros Hd Hq Hu. unfold withdraw_step.
  destruct (enforce_room cfg (w_check w) (w_tenant w) (w_quantums w) l Hd ltac:(lia) Hu) as (l' & E & Hu' & Hc & Hr).
  destruct (Enforce cfg (w_check w) (w_tenant w) ToolWithdraw (w_quantums w) (Some l)) as [[[]|e] l1];
    cbn [fst snd] in E, Hr; subst l1; [|done].
  destruct (w_accepted w); [|done]. rewrite <- Hc. apply record_under_cap; [done|lia|by apply Hr].
Qed.

Lemma withdraw_run_under_cap cfg ws l :
  dailyCapQuantums cfg = Some (ledger_cap l) ->
  Forall (fun w => 0 <= w_quantums w <= maxU64) ws ->
  under_cap l -> under_cap (withdraw_run cfg ws l) /\ ledger_cap (withdraw_run cfg ws l) = ledger_cap l.
Proof.
  unfold withdraw_run. revert l. induction ws as [|w ws IH]; intros l Hd Hq Hu; [done|].
  apply Forall_cons in Hq as [Hw Hq]. simpl.
  destruct (withdraw_step_under_cap cfg w l Hd Hw Hu) as [Hu' Hc].
  rewrite <- Hc in Hd |- *. by apply IH.
Qed.

End Ledger.

Lemma NewMemoryLedger_under_cap cfg :
  0 < DailyWithdrawCapUSDC cfg -> DailyWithdrawCapUSDC cfg * quantumsPerUSDC <= maxU64 ->
  under_cap (NewMemoryLedger (DailyWithdrawCapUSDC cfg))
  /\ capQuantums (NewMemoryLedger (DailyWithdrawCapUSDC cfg))
     = DailyWithdrawCapUSDC cfg * quantumsPerUSDC
  /\ dailyCapQuantums cfg = Some (DailyWithdrawCapUSDC cfg * quantumsPerUSDC).
Proof.
  set (c := DailyWithdrawCapUSDC cfg). intros H0 H1.
  assert (capQuantums (NewMemoryLedger c) = c * quantumsPerUSDC) as E.
  { unfold NewMemoryLedger. simpl. unfold quantumsPerUSDC in *.
    rewrite (proj2 (Z.ltb_lt 0 c)) by done.
    rewrite (proj2 (Z.leb_le c (maxU64 / 1000000)))
      by (apply Z.div_le_lower_bound; lia).
    simpl. unfold u64. apply Z.mod_small. unfold maxU64 in *. lia. }
  split_and!; [|done|].
  - split.
    + split; [rewrite E; unfold quantumsPerUSDC in *; lia|apply map_Forall_empty].
    + intros now t. change (mem_spent (NewMemoryLedger c) now t <= capQuantums (NewMemoryLedger c)).
      rewrite E. unfold mem_spent, used_of. cbn [day used NewMemoryLedger].
      rewrite lookup_empty. simpl. unfold quantumsPerUSDC in *. case_match; lia.
  - rewrite dailyCap_eq by lia. fold c.
    by rewrite (proj2 (Z.ltb_lt 0 c)), (proj2 (Z.leb_le _ maxU64)).
Qed.

(** ** Claims on the daily cap *)

(** On a ledger that meets the interface's laws and has not exceeded its
    cap, a positive withdraw passes [Enforce] exactly when it passes the
    per-transaction cap and what the tenant spent that UTC day plus the request
    stays within the daily cap. *)
Theorem Enforce_withdraw_iff {L} `{WithdrawLedgerLaws L} (cfg : Config) (now : Time)
    (t : string) (q : Z) (l : L)
    (Hl : ledger_ok l) (Hq : 0 < q) (Hd : dailyCapQuantums cfg = Some (ledger_cap l)) :
  fst (Enforce cfg now t ToolWithdraw q (Some l)) = Ok tt
  <-> CheckPerTx cfg ToolWithdraw q = Ok tt /\ spent l now t + q <= ledger_cap l.
Proof.
  rewrite (Enforce_withdraw _ _ _ _ _ _ Hl Hd). destruct (CheckPerTx _ _ _) as [[]|e]; [|naive_solver].
  cbv zeta. cbn [fst]. destruct (Z.ltb_spec (Z.max 0 (ledger_cap l - spent l now t)) q).
  - split; [done|]. intros [_ ?]. lia.
  - split; [|done]. intros _. split; [done|lia].
Qed.

Lemma Enforce_withdraw_iff_witness :
  fst (Enforce (Build_Config 0 0 0 10) 0 "t" ToolWithdraw 10000000 (Some (NewMemoryLedger 10)))
  = Ok tt.
Proof.
  apply (Enforce_withdraw_iff (Build_Config 0 0 0 10) 0 "t" 10000000 (NewMemoryLedger 10)).
  - split; [vm_compute; split; discriminate|apply map_Forall_empty].
  - lia.
  - reflexivity.
  - split; [reflexivity|]. vm_compute. discriminate.
Defined.

(** Whatever sequence of withdraws goes through the check-then-record
    protocol of broadcast_signed_tx one after the other, at whatever clock
    readings, no tenant's spend on any UTC day exceeds the configured cap. *)
Theorem daily_cap_never_exceeded (cfg : Config) (ws : list withdraw) (now : Time) (t : string)
    (H0 : 0 < DailyWithdrawCapUSDC cfg)
    (H1 : DailyWithdrawCapUSDC cfg * quantumsPerUSDC <= maxU64)
    (Hw : Forall (fun w => 0 <= w_quantums w <= maxU64) ws) :
  spent (withdraw_run cfg ws (NewMemoryLedger (DailyWithdrawCapUSDC cfg))) now t
  <= DailyWithdrawCapUSDC cfg * quantumsPerUSDC.
Proof.
  destruct (NewMemoryLedger_under_cap cfg H0 H1) as (Hu & Hc & Hd).
  rewrite <- Hc in Hd. rewrite <- Hc.
  change (capQuantums (NewMemoryLedger (DailyWithdrawCapUSDC cfg)))
    with (ledger_cap (NewMemoryLedger (DailyWithdrawCapUSDC cfg))) in *.
  destruct (withdraw_run_under_cap cfg ws _ Hd Hw Hu) as [[_ Hs] Hc'].
  specialize (Hs now t). rewrite Hc' in Hs. exact Hs.
Qed.

Definition two_withdraws : list withdraw :=
  [{| w_tenant := "t"; w_quantums := 6000000; w_check := 0; w_record := 1; w_accepted := true |};
   {| w_tenant := "t"; w_quantums := 6000000; w_check := 2; w_record := 3; w_accepted := true |}].

Lemma daily_cap_never_exceeded_witness :
  spent (withdraw_run (Build_Config 0 0 0 10) two_withdraws (NewMemoryLedger 10)) 4 "t" <= 10000000.
Proof.
  apply (daily_cap_never_exceeded (Build_Config 0 0 0 10) two_withdraws 4 "t").
  - reflexivity.
  - vm_compute. discriminate.
  - repeat constructor; vm_compute; discriminate.
Defined.
