(* ===== verification/TransferOut.v ===== *)
(** * Per-symbol daily transfer-out caps: lib/mcp/limits/transferout.go

    The store of caps and of today's usage, keyed by owner wallet and symbol,
    and its write-through JSON file.  A file holds either a snapshot document
    or bytes that do not parse; the fields of the document are the strings the
    code writes ([encoding/json] is abstracted to the identity on the snapshot
    struct).  Every operating-system call has its outcome as an argument. *)

From S2P Require Import Prelude GoStrings GoNum GoTime.

Record SymbolCap := mkSymbolCap {
  Symbol : string;
  Decimals : Z;
  CapBase : option Z;          (* *big.Int; None is nil *)
}.

(** [caps] and [used] are maps of maps; the code only ever stores a non-nil
    [*big.Int] in [used]. *)
Record store := mkStore {
  path : string;
  s_day : string;
  caps : gmap string (gmap string SymbolCap);
  s_used : gmap string (gmap string Z);
}.

Definition NewMemoryTransferOutStore : store := mkStore "" "" ∅ ∅.

(** The two-level lookup [m[owner][symbol]] of a map whose inner map may be
    missing. *)
Definition at2 {A} (m : gmap string (gmap string A)) (owner symbol : string) : option A :=
  m !! owner ≫= lookup symbol.

(** ** The file *)

Record persistedSymbolCap := mkPersistedSymbolCap {
  p_symbol : string; p_decimals : Z; p_cap_base : string;
}.

Record persistedTransferOut := mkPersisted {
  p_day : string;
  p_caps : gmap string (gmap string persistedSymbolCap);
  p_used : gmap string (gmap string string);
}.

Inductive content :=
| Doc (snap : persistedTransferOut)
| Garbage.

Abbreviation disk := (gmap string content).

(** Outcome of one run of the write-then-rename sequence. *)
Inductive io :=
| IOok
| WriteFails (e : goerr)     (* the temporary file may be left truncated *)
| RenameFails (e : goerr).

Definition persist_cap (c : SymbolCap) : persistedSymbolCap :=
  let capStr := match CapBase c with Some z => FormatInt z | None => "0"%string end in
  mkPersistedSymbolCap (Symbol c) (Decimals c) capStr.

(** Owners whose inner map is empty are left out. *)
Definition drop_empty {A} (m : gmap string (gmap string A)) : gmap string (gmap string A) :=
  filter (fun kv => snd kv <> ∅) m.

Definition fmap2 {A B} (f : A -> B) (m : gmap string (gmap string A))
  : gmap string (gmap string B) := (fun inner : gmap string A => f <$> inner) <$> m.

Definition snapshot (s : store) : persistedTransferOut :=
  mkPersisted (s_day s)
    (fmap2 persist_cap (drop_empty (caps s)))
    (fmap2 FormatInt (drop_empty (s_used s))).

(** [persistLocked]: the new disk and the error handed to [onErr], if any. *)
Definition persistLocked (o : io) (s : store) (d : disk) : disk * option goerr :=
  if String.eqb (path s) "" then (d, None)
  else
    let tmp := (path s +:+ ".tmp")%string in
    match o with
    | WriteFails e =>
        (<[tmp := Garbage]> d,
         Some (Errorf "write transfer-out cap file %s: %w" [FStr tmp; FErr e]))
    | RenameFails e =>
        (<[tmp := Doc (snapshot s)]> d,
         Some (Errorf "rename transfer-out cap file into place %s: %w" [FStr (path s); FErr e]))
    | IOok => (<[path s := Doc (snapshot s)]> (delete tmp d), None)
    end.

(** ** Loading *)

Definition load_cap (path owner : string) (kv : string * persistedSymbolCap)
  : result (string * SymbolCap) :=
  let '(sym, pc) := kv in
  match BigSetString10 (p_cap_base pc) with
  | None => Err (Errorf "transfer-out cap file %s: owner %s symbol %s: bad cap_base %q"
                   [FStr path; FStr owner; FStr sym; FStr (p_cap_base pc)])
  | Some capBase => Ok (sym, mkSymbolCap (p_symbol pc) (p_decimals pc) (Some capBase))
  end.

Definition load_used (path owner : string) (kv : string * string) : result (string * Z) :=
  let '(sym, amt) := kv in
  match BigSetString10 amt with
  | None => Err (Errorf "transfer-out cap file %s: owner %s symbol %s: bad used amount %q"
                   [FStr path; FStr owner; FStr sym; FStr amt])
  | Some v => Ok (sym, v)
  end.

(** A [for k, v := range m] loop that inserts into a two-level map, stopping at
    the first error.  Go leaves the iteration order open; the order here is
    that of [map_to_list], and only the choice of the error reported when
    several entries are bad depends on it. *)
Fixpoint load_inner {A B} (f : string * A -> result (string * B)) (owner : string)
    (l : list (string * A)) (acc : gmap string (gmap string B))
  : result (gmap string (gmap string B)) :=
  match l with
  | [] => Ok acc
  | kv :: l' =>
      '(sym, b) ← f kv;
      load_inner f owner l' (<[owner := <[sym := b]> (default ∅ (acc !! owner))]> acc)
  end.

Fixpoint load_outer {A B} (f : string -> string * A -> result (string * B))
    (l : list (string * gmap string A)) (acc : gmap string (gmap string B))
  : result (gmap string (gmap string B)) :=
  match l with
  | [] => Ok acc
  | (owner, bySym) :: l' =>
      acc' ← load_inner (f owner) owner (map_to_list bySym) acc;
      load_outer f l' acc'
  end.

(** Outcome of [os.ReadFile]: [None] means the call itself failed for a reason
    other than a missing file. *)
Definition LoadMemoryTransferOutStore (p : string) (read : option goerr) (d : disk) : result store :=
  let s := mkStore p "" ∅ ∅ in
  if String.eqb p "" then Ok s
  else match read with
  | Some e => Err (Errorf "read transfer-out cap file %s: %w" [FStr p; FErr e])
  | None =>
      match d !! p with
      | None => Ok s
      | Some Garbage => Err (Errorf "parse transfer-out cap file %s: %w"
                               [FStr p; FErr (ErrNew "invalid JSON")])
      | Some (Doc snap) =>
          cs ← load_outer (load_cap p) (map_to_list (p_caps snap)) ∅;
          us ← load_outer (load_used p) (map_to_list (p_used snap)) ∅;
          Ok (mkStore p (p_day snap) cs us)
      end
  end.

(** ** Operations with the lock held

    Each takes the non-nil receiver; the exported methods below first return
    on a nil store. *)

Definition setCapLocked (o : io) (owner : string) (c : SymbolCap) (s : store) (d : disk)
  : store * disk :=
  let bySym := default ∅ (caps s !! owner) in
  let s' := mkStore (path s) (s_day s) (<[owner := <[Symbol c := c]> bySym]> (caps s)) (s_used s) in
  (s', fst (persistLocked o s' d)).

(** [delete] on a missing (nil) inner map does nothing. *)
Definition setUnlimitedLocked (o : io) (owner symbol : string) (s : store) (d : disk) : store * disk :=
  let s' := mkStore (path s) (s_day s) (alter (delete symbol) owner (caps s)) (s_used s) in
  (s', fst (persistLocked o s' d)).

Definition rolloverLocked (now : Time) (o : io) (s : store) (d : disk) : store * disk :=
  let today := day_key now in
  if String.eqb (s_day s) today then (s, d)
  else let s' := mkStore (path s) today (caps s) ∅ in
       (s', fst (persistLocked o s' d)).

Definition usedLocked (now : Time) (o : io) (owner symbol : string) (s : store) (d : disk)
  : Z * (store * disk) :=
  let '(s, d) := rolloverLocked now o s d in
  (default 0 (at2 (s_used s) owner symbol), (s, d)).

(** [amt] is a [*big.Int]: [None] is nil.  The first outcome is for the write
    of the rollover, the second for the write of the operation itself. *)
Definition recordLocked (now : Time) (o1 o2 : io) (owner symbol : string) (amt : option Z)
    (s : store) (d : disk) : store * disk :=
  match amt with
  | None => (s, d)
  | Some a =>
      if a <=? 0 then (s, d)
      else
        let '(s, d) := rolloverLocked now o1 s d in
        let bySym := default ∅ (s_used s !! owner) in
        let cur := default 0 (bySym !! symbol) in
        let s' := mkStore (path s) (s_day s) (caps s)
                    (<[owner := <[symbol := cur + a]> bySym]> (s_used s)) in
        (s', fst (persistLocked o2 s' d))
  end.

(** ** Rendering *)

(** [for int64(len(fracStr)) < decimals { fracStr = "0" + fracStr }] *)
Fixpoint pad_zeros (fuel : nat) (decimals : Z) (fracStr : string) : string :=
  match fuel with
  | O => fracStr
  | S f => if len fracStr <? decimals then pad_zeros f decimals (String "0" fracStr) else fracStr
  end.

Definition baseToHuman (base : option Z) (decimals : Z) : string :=
  match base with
  | None => "0"%string
  | Some base =>
      if decimals <=? 0 then FormatInt base
      else
        let neg := base <? 0 in
        let abs := Z.abs base in
        let divisor := 10 ^ decimals in
        let whole := abs / divisor in
        let frac := abs mod divisor in
        let out := FormatInt whole in
        let out :=
          if 0 <? frac then
            let fracStr := pad_zeros (Z.to_nat decimals) decimals (FormatInt frac) in
            let fracStr := TrimRight1 fracStr "0" in
            (out +:+ String "." fracStr)%string
          else out in
        if neg then String "-" out else out
  end.

Definition checkLocked (now : Time) (o : io) (owner symbol : string) (amt : option Z)
    (s : store) (d : disk) : error * (store * disk) :=
  match amt with
  | None => (Ok tt, (s, d))
  | Some a =>
      if a <=? 0 then (Ok tt, (s, d))
      else
        let '(s, d) := rolloverLocked now o s d in
        match at2 (caps s) owner symbol with
        | None => (Ok tt, (s, d))
        | Some c =>
            match CapBase c with
            | None => (Ok tt, (s, d))
            | Some capBase =>
                let used := default 0 (at2 (s_used s) owner symbol) in
                if capBase <? used + a then
                  (Err (ErrSymbolCapExceeded (Symbol c) (baseToHuman (CapBase c) (Decimals c))
                          (baseToHuman (Some a) (Decimals c)) (baseToHuman (Some used) (Decimals c))),
                   (s, d))
                else (Ok tt, (s, d))
            end
        end
  end.

(** ** The exported methods: a nil store is inert. *)

Definition nilsafe (f : store -> disk -> store * disk) (s : option store) (d : disk)
  : option store * disk :=
  match s with
  | None => (None, d)
  | Some s => let '(s', d') := f s d in (Some s', d')
  end.

Definition SetCap (o : io) (owner : string) (c : SymbolCap) : option store -> disk -> option store * disk :=
  nilsafe (setCapLocked o owner c).

Definition SetUnlimited (o : io) (owner symbol : string) : option store -> disk -> option store * disk :=
  nilsafe (setUnlimitedLocked o owner symbol).

Definition RecordOut (now : Time) (o1 o2 : io) (owner symbol : string) (amt : option Z)
  : option store -> disk -> option store * disk :=
  nilsafe (recordLocked now o1 o2 owner symbol amt).

Definition Cap (owner symbol : string) (s : option store) : option SymbolCap :=
  match s with None => None | Some s => at2 (caps s) owner symbol end.

Definition Used (now : Time) (o : io) (owner symbol : string) (s : option store) (d : disk)
  : Z * (option store * disk) :=
  match s with
  | None => (0, (None, d))
  | Some s => let '(v, (s', d')) := usedLocked now o owner symbol s d in (v, (Some s', d'))
  end.

Definition Check (now : Time) (o : io) (owner symbol : string) (amt : option Z)
    (s : option store) (d : disk) : error * (option store * disk) :=
  match s with
  | None => (Ok tt, (None, d))
  | Some s => let '(r, (s', d')) := checkLocked now o owner symbol amt s d in (r, (Some s', d'))
  end.

(** One transfer through the check-then-record protocol of the broadcast
    handlers, with the outcome of every file write. *)
Record transfer := mkTransfer {
  t_owner : string; t_symbol : string; t_amt : Z;
  t_check : Time; t_record : Time; t_accepted : bool;
  t_io1 : io; t_io2 : io; t_io3 : io;
}.

Definition transfer_step (t : transfer) (sd : store * disk) : store * disk :=
  match checkLocked (t_check t) (t_io1 t) (t_owner t) (t_symbol t) (Some (t_amt t)) (fst sd) (snd sd) with
  | (Ok _, (s, d)) =>
      if t_accepted t then
        recordLocked (t_record t) (t_io2 t) (t_io3 t) (t_owner t) (t_symbol t) (Some (t_amt t)) s d
      else (s, d)
  | (Err _, sd') => sd'
  end.

Definition transfer_run (ts : list transfer) (sd : store * disk) : store * disk :=
  foldl (fun sd t => transfer_step t sd) sd ts.

(** What an owner moved out of a symbol on the UTC day of [now]. *)
Definition moved (s : store) (now : Time) (owner symbol : string) : Z :=
  if String.eqb (s_day s) (day_key now) then default 0 (at2 (s_used s) owner symbol) else 0.

(** Observational equality of stores: the same day and the same two-level
    lookups (an owner with an empty inner map is an owner without one). *)
Definition store_equiv (s1 s2 : store) : Prop :=
  path s1 = path s2 /\ s_day s1 = s_day s2
  /\ (forall o k, at2 (caps s1) o k = at2 (caps s2) o k)
  /\ (forall o k, at2 (s_used s1) o k = at2 (s_used s2) o k).

#[export] Instance store_equiv_equivalence : Equivalence store_equiv.
Proof.
  split.
  - intros s. by unfold store_equiv.
  - intros s1 s2 (?&?&?&?). by unfold store_equiv.
  - intros s1 s2 s3 (?&?&H1&H2) (?&?&H3&H4). unfold store_equiv.
    split_and!; congruence.
Qed.

(** Every cap of the store has a base amount: what [SetCap] is called with. *)
Definition caps_set (s : store) : Prop :=
  forall o k c, at2 (caps s) o k = Some c -> is_Some (CapBase c).

(** ** Two-level maps *)

Lemma at2_empty {A} o k : at2 (A:=A) ∅ o k = None.
Proof. unfold at2. by rewrite lookup_empty. Qed.

Lemma at2_insert {A} (m : gmap string (gmap string A)) o k a o' k' :
  at2 (<[o := <[k := a]> (default ∅ (m !! o))]> m) o' k'
  = if decide (o = o' /\ k = k') then Some a else at2 m o' k'.
Proof.
  unfold at2. destruct (decide (o = o')) as [->|Ho].
  - rewrite lookup_insert_eq. simpl. rewrite lookup_insert.
    destruct (decide (k = k')) as [->|Hk].
    + by rewrite decide_True.
    + rewrite decide_False by naive_solver. destruct (m !! o'); simpl; [done|].
      by rewrite lookup_empty.
  - rewrite lookup_insert_ne by done. by rewrite decide_False by naive_solver.
Qed.

Lemma at2_delete {A} (m : gmap string (gmap string A)) o k o' k' :
  at2 (alter (delete k) o m) o' k'
  = if decide (o = o' /\ k = k') then None else at2 m o' k'.
Proof.
  unfold at2. rewrite lookup_alter. destruct (decide (o = o')) as [->|Ho].
  - destruct (m !! o') as [inner|] eqn:E; cbn [fmap option_fmap option_map mbind option_bind];
      [|by destruct (decide (_ /\ _))].
    rewrite lookup_delete. destruct (decide (k = k')).
    + by rewrite decide_True.
    + by rewrite decide_False by naive_solver.
  - by rewrite decide_False by naive_solver.
Qed.

Lemma at2_fmap2 {A B} (f : A -> B) m o k :
  at2 (fmap2 f (drop_empty m)) o k = f <$> at2 m o k.
Proof.
  unfold at2, fmap2, drop_empty. rewrite lookup_fmap, map_lookup_filter.
  destruct (m !! o) as [inner|]; simpl; [|done].
  case_guard as H; simpl; [by rewrite lookup_fmap|].
  assert (inner = ∅) as -> by (destruct (decide (inner = ∅)); naive_solver).
  by rewrite lookup_empty.
Qed.

Lemma load_inner_spec {A B} (f : string * A -> result (string * B)) (g : A -> B) owner l acc :
  NoDup l.*1 -> (forall kv, kv ∈ l -> f kv = Ok (fst kv, g (snd kv))) ->
  exists acc', load_inner f owner l acc = Ok acc'
  /\ forall o k, at2 acc' o k
     = if decide (o = owner) then
         match (list_to_map l : gmap string A) !! k with Some a => Some (g a) | None => at2 acc o k end
       else at2 acc o k.
Proof.
  revert acc. induction l as [|[k a] l IH]; intros acc Hnd Hf.
  - exists acc. split; [done|]. intros o k. simpl. rewrite lookup_empty. by destruct (decide _).
  - simpl. rewrite (Hf (k, a)) by set_solver. simpl.
    inversion Hnd as [|? ? Hni Hnd']; subst.
    destruct (IH (<[owner:=<[k:=g a]> (default ∅ (acc !! owner))]> acc) Hnd') as (acc' & E & Hacc).
    { intros kv Hkv. apply Hf. set_solver. }
    exists acc'. split; [done|]. intros o k'. rewrite Hacc, at2_insert.
    destruct (decide (o = owner)) as [->|Ho]; [|by rewrite decide_False by naive_solver].
    rewrite lookup_insert. destruct (decide (k = k')) as [->|Hk].
    + rewrite decide_True by done. by rewrite not_elem_of_list_to_map_1.
    + rewrite decide_False by naive_solver. done.
Qed.

Lemma load_outer_spec {A B} (f : string -> string * A -> result (string * B)) (g : A -> B) l acc :
  NoDup l.*1 ->
  (forall o inner kv, (o, inner) ∈ l -> kv ∈ map_to_list inner -> f o kv = Ok (fst kv, g (snd kv))) ->
  exists acc', load_outer f l acc = Ok acc'
  /\ forall o k, at2 acc' o k
     = match (list_to_map l : gmap string (gmap string A)) !! o ≫= lookup k with
       | Some a => Some (g a) | None => at2 acc o k end.
Proof.
  revert acc. induction l as [|[owner inner] l IH]; intros acc Hnd Hf.
  - exists acc. split; [done|]. intros o k. simpl. by rewrite lookup_empty.
  - simpl. inversion Hnd as [|? ? Hni Hnd']; subst.
    destruct (load_inner_spec (f owner) g owner (map_to_list inner) acc) as (acc1 & E1 & H1).
    { apply NoDup_fst_map_to_list. }
    { intros kv Hkv. apply (Hf owner inner); set_solver. }
    rewrite E1. simpl. destruct (IH acc1 Hnd') as (acc' & E & Hacc).
    { intros o i kv Ho Hkv. apply (Hf o i); set_solver. }
    exists acc'. split; [done|]. intros o k. rewrite Hacc, H1, lookup_insert.
    rewrite list_to_map_to_list.
    destruct (decide (owner = o)) as [->|Ho].
    + rewrite decide_True by done. by rewrite not_elem_of_list_to_map_1.
    + by rewrite decide_False by done.
Qed.

Lemma load_map {A B} (f : string -> string * A -> result (string * B)) (g : A -> B) m :
  (forall o k a, at2 m o k = Some a -> f o (k, a) = Ok (k, g a)) ->
  exists acc, load_outer f (map_to_list m) ∅ = Ok acc
  /\ forall o k, at2 acc o k = g <$> at2 m o k.
Proof.
  intros Hf. destruct (load_outer_spec f g (map_to_list m) ∅) as (acc & E & H).
  - apply NoDup_fst_map_to_list.
  - intros o inner [k a] Ho%elem_of_map_to_list Hk%elem_of_map_to_list.
    apply Hf. unfold at2. by rewrite Ho.
  - exists acc. split; [done|]. intros o k. rewrite H, list_to_map_to_list.
    unfold at2. destruct (m !! o ≫= lookup k); [done|]. by rewrite lookup_empty.
Qed.

(** ** The in-memory effect of the operations *)

Lemma rollover_store now o s d :
  fst (rolloverLocked now o s d)
  = if String.eqb (s_day s) (day_key now) then s else mkStore (path s) (day_key now) (caps s) ∅.
Proof. unfold rolloverLocked. by destruct (String.eqb _ _). Qed.

Lemma rollover_facts now o s d (s' := fst (rolloverLocked now o s d)) :
  s_day s' = day_key now /\ caps s' = caps s /\ path s' = path s
  /\ forall ow k, default 0 (at2 (s_used s') ow k) = moved s now ow k.
Proof.
  subst s'. rewrite rollover_store. unfold moved.
  destruct (String.eqb_spec (s_day s) (day_key now)); simpl; [done|].
  by split_and!.
Qed.

Lemma moved_rollover now o s d now' ow k :
  moved (fst (rolloverLocked now o s d)) now' ow k
  = if utc_day now' =? utc_day now then moved s now' ow k else 0.
Proof.
  destruct (rollover_facts now o s d) as (Hd & _ & _ & Hu).
  unfold moved at 1. rewrite Hd, Hu, day_key_eqb, Z.eqb_sym.
  destruct (Z.eqb_spec (utc_day now') (utc_day now)) as [E|]; [|done].
  unfold moved. by rewrite (proj2 (day_key_iff now' now) E).
Qed.

Lemma checkLocked_eq now o ow k a s d :
  checkLocked now o ow k (Some a) s d
  = if a <=? 0 then (Ok tt, (s, d))
    else (match at2 (caps s) ow k ≫= (fun c => b ← CapBase c; Some (c, b)) with
          | Some (c, b) =>
              if b <? moved s now ow k + a then
                Err (ErrSymbolCapExceeded (Symbol c) (baseToHuman (CapBase c) (Decimals c))
                       (baseToHuman (Some a) (Decimals c))
                       (baseToHuman (Some (moved s now ow k)) (Decimals c)))
              else Ok tt
          | None => Ok tt
          end, rolloverLocked now o s d).
Proof.
  unfold checkLocked. destruct (a <=? 0); [done|].
  destruct (rollover_facts now o s d) as (_ & Hc & _ & Hu).
  destruct (rolloverLocked now o s d) as [s' d'] eqn:E. simpl in Hc, Hu.
  rewrite Hc, Hu. destruct (at2 (caps s) ow k) as [c|]; [|done].
  cbn [mbind option_bind]. destruct (CapBase c) as [b|] eqn:Eb; cbn -[baseToHuman]; [|done].
  rewrite Eb.   by destruct (b <? moved s now ow k + a).
Qed.

Lemma recordLocked_moved now o1 o2 ow k a s d now' ow' k' :
  0 < a ->
  moved (fst (recordLocked now o1 o2 ow k (Some a) s d)) now' ow' k'
  = if utc_day now' =? utc_day now then
      moved s now' ow' k' + (if decide (ow = ow' /\ k = k') then a else 0)
    else 0.
Proof.
  intros Ha. unfold recordLocked. rewrite (proj2 (Z.leb_gt a 0)) by done.
  destruct (rollover_facts now o1 s d) as (Hd & _ & _ & Hu).
  pose proof (moved_rollover now o1 s d now' ow' k') as Hm.
  destruct (rolloverLocked now o1 s d) as [s' d']. cbn [fst] in Hd, Hu, Hm |- *.
  unfold moved at 1 in Hm. unfold moved at 1. cbn [s_day s_used]. rewrite Hd in Hm |- *.
  rewrite day_key_eqb, Z.eqb_sym in Hm |- *.
  destruct (utc_day now' =? utc_day now); [|done]. rewrite at2_insert.
  destruct (decide (ow = ow' /\ k = k')) as [[-> ->]|]; [|rewrite Hm; lia].
  simpl. f_equal. rewrite <- Hm. unfold at2. by destruct (s_used s' !! ow').
Qed.

Lemma recordLocked_caps now o1 o2 ow k amt s d :
  caps (fst (recordLocked now o1 o2 ow k amt s d)) = caps s.
Proof.
  unfold recordLocked. destruct amt as [a|]; [|done]. destruct (a <=? 0); [done|].
  pose proof (rollover_facts now o1 s d) as (_ & Hc & _ & _).
  by destruct (rolloverLocked now o1 s d).
Qed.

(** ** Room under a cap

    [room s ow k a]: whatever the day, adding [a] to what the owner moved keeps
    within the cap of the symbol, if it has one.  [Check] establishes it, every
    operation on other entries keeps it, and [Record] consumes it. *)

Definition room (s : store) (ow k : string) (a : Z) : Prop :=
  forall c b, at2 (caps s) ow k = Some c -> CapBase c = Some b ->
  forall now, moved s now ow k + Z.max 0 a <= b.

Definition within_caps (s : store) : Prop :=
  forall ow k c b, at2 (caps s) ow k = Some c -> CapBase c = Some b ->
  forall now, 0 <= moved s now ow k <= b.

Lemma rollover_room now o s d ow k a (s' := fst (rolloverLocked now o s d)) :
  within_caps s -> room s ow k a -> room s' ow k a.
Proof.
  intros Hw Hr c b Hc Hb t. subst s'. destruct (rollover_facts now o s d) as (_ & Ec & _ & _).
  rewrite Ec in Hc. rewrite moved_rollover. specialize (Hr c b Hc Hb t). specialize (Hw ow k c b Hc Hb t).
  case_match; lia.
Qed.

Lemma rollover_within now o s d :
  within_caps s -> within_caps (fst (rolloverLocked now o s d)).
Proof.
  intros Hw ow k c b Hc Hb t. destruct (rollover_facts now o s d) as (_ & Ec & _ & _).
  rewrite Ec in Hc. rewrite moved_rollover. specialize (Hw ow k c b Hc Hb t). case_match; lia.
Qed.

Lemma check_room now o ow k a s d (s' := fst (snd (checkLocked now o ow k (Some a) s d))) :
  within_caps s ->
  within_caps s' /\ (forall ow' k' a', room s ow' k' a' -> room s' ow' k' a')
  /\ (fst (checkLocked now o ow k (Some a) s d) = Ok tt -> room s' ow k a).
Proof.
  intros Hw. subst s'. rewrite checkLocked_eq. destruct (Z.leb_spec a 0) as [Ha|Ha]; cbn [fst snd].
  { split_and!; [done..|]. intros _ c b Hc Hb t. specialize (Hw ow k c b Hc Hb t). lia. }
  split_and!; [by apply rollover_within|intros; by apply rollover_room|].
  intros H c b Hc Hb t. destruct (rollover_facts now o s d) as (_ & Ec & _ & _). rewrite Ec in Hc.
  rewrite Hc in H. cbn [mbind option_bind] in H. rewrite Hb in H. cbn [mbind option_bind] in H.
  destruct (Z.ltb_spec b (moved s now ow k + a)) as [|Hle]; [done|].
  pose proof (Hw ow k c b Hc Hb now). rewrite moved_rollover.
  destruct (Z.eqb_spec (utc_day t) (utc_day now)) as [E|]; [|lia].
  assert (moved s t ow k = moved s now ow k) as -> by (unfold moved; by rewrite (proj2 (day_key_iff _ _) E)).
  lia.
Qed.

Lemma record_room now o1 o2 ow k a s d (s' := fst (recordLocked now o1 o2 ow k (Some a) s d)) :
  within_caps s -> room s ow k a ->
  within_caps s' /\ forall ow' k' a', (ow', k') <> (ow, k) -> room s ow' k' a' -> room s' ow' k' a'.
Proof.
  intros Hw Hr. subst s'. destruct (Z.le_gt_cases a 0) as [Ha|Ha].
  { unfold recordLocked. by rewrite (proj2 (Z.leb_le a 0)). }
  split.
  - intros ow' k' c b Hc Hb t. rewrite recordLocked_caps in Hc. rewrite recordLocked_moved by done.
    specialize (Hw ow' k' c b Hc Hb t). destruct (_ =? _); [|lia].
    destruct (decide _) as [[-> ->]|]; [|lia]. specialize (Hr c b Hc Hb t). lia.
  - intros ow' k' a' Hne Hr' c b Hc Hb t. rewrite recordLocked_caps in Hc. rewrite recordLocked_moved by done.
    specialize (Hr' c b Hc Hb t). specialize (Hw ow' k' c b Hc Hb t). destruct (_ =? _); [|lia].
    rewrite decide_False by (intros [-> ->]; by apply Hne). lia.
Qed.

(** ** Claims *)

(** A positive transfer-out passes [Check] exactly when the owner has no
    finite cap on the symbol or what was moved that UTC day plus the amount
    stays within it; [Check] itself never changes a cap or today's usage. *)
Theorem Check_iff (now : Time) (o : io) (ow k : string) (a : Z) (s : store) (d : disk)
    (Ha : 0 < a) :
  (fst (checkLocked now o ow k (Some a) s d) = Ok tt
   <-> forall c b, at2 (caps s) ow k = Some c -> CapBase c = Some b -> moved s now ow k + a <= b)
  /\ caps (fst (snd (checkLocked now o ow k (Some a) s d))) = caps s
  /\ forall ow' k', moved (fst (snd (checkLocked now o ow k (Some a) s d))) now ow' k' = moved s now ow' k'.
Proof.
  rewrite checkLocked_eq, (proj2 (Z.leb_gt a 0)) by done. cbn [fst snd].
  destruct (rollover_facts now o s d) as (_ & Hc & _ & _). split_and!; [|done|].
  - destruct (at2 (caps s) ow k) as [c|]; simpl; [|naive_solver].
    destruct (CapBase c) as [b|] eqn:Eb; simpl; [|naive_solver].
    destruct (Z.ltb_spec b (moved s now ow k + a)).
    + split; [done|]. intros Hall. specialize (Hall c b eq_refl Eb). lia.
    + split; [|done]. intros _ c' b' [= <-] Eb'. rewrite Eb in Eb'. simplify_eq. lia.
  - intros. by rewrite moved_rollover, Z.eqb_refl.
Qed.

Definition demo_store : store :=
  fst (setCapLocked IOok "svp1a" (mkSymbolCap "usdc" 6 (Some 1000)) NewMemoryTransferOutStore ∅).

Lemma Check_iff_witness : fst (checkLocked 0 IOok "svp1a" "usdc" (Some 1000) demo_store ∅) = Ok tt.
Proof.
  apply (proj2 (proj1 (Check_iff 0 IOok "svp1a" "usdc" 1000 demo_store ∅ ltac:(lia)))).
  intros c b Hc Hb. vm_compute in Hc. simplify_eq. vm_compute in Hb. simplify_eq.
  vm_compute. discriminate.
Defined.

Lemma transfer_step_bounded t s d ow k c b :
  at2 (caps s) ow k = Some c -> CapBase c = Some b -> 0 <= b ->
  (forall now, 0 <= moved s now ow k <= b) ->
  let s' := fst (transfer_step t (s, d)) in
  at2 (caps s') ow k = Some c /\ forall now, 0 <= moved s' now ow k <= b.
Proof.
  intros Hc Hb H0 Hm. unfold transfer_step. cbn [fst snd]. rewrite checkLocked_eq.
  destruct (Z.leb_spec (t_amt t) 0) as [Ha|Ha].
  { unfold recordLocked. rewrite (proj2 (Z.leb_le (t_amt t) 0)) by done.
    by destruct (t_accepted t). }
  destruct (rollover_facts (t_check t) (t_io1 t) s d) as (_ & Hrc & _ & _).
  pose proof (fun now => moved_rollover (t_check t) (t_io1 t) s d now ow k) as Hrm.
  destruct (rolloverLocked (t_check t) (t_io1 t) s d) as [s1 d1]. cbn [fst] in Hrc, Hrm.
  assert (at2 (caps s1) ow k = Some c /\ forall now, 0 <= moved s1 now ow k <= b) as [Hc1 Hm1].
  { rewrite Hrc. split; [done|]. intros now. rewrite Hrm. specialize (Hm now). case_match; lia. }
  destruct (_ : result unit) eqn:Er; [|done]. destruct (t_accepted t); [|done].
  split; [by rewrite recordLocked_caps|]. intros now. rewrite recordLocked_moved by done.
  specialize (Hm1 now). destruct (utc_day now =? utc_day (t_record t)); [|lia].
  destruct (decide _) as [[Eo Ek]|]; [|lia]. rewrite Eo, Ek, Hc in Er. simpl in Er.
  rewrite Hb in Er. simpl in Er. destruct (Z.ltb_spec b (moved s (t_check t) ow k + t_amt t)); [done|].
  rewrite Hrm in Hm1 |- *. destruct (Z.eqb_spec (utc_day now) (utc_day (t_check t))) as [E|].
  - assert (moved s now ow k = moved s (t_check t) ow k) as Em; [|lia].
    unfold moved. by rewrite (proj2 (day_key_iff _ _) E).
  - specialize (Hm (t_check t)). lia.
Qed.

(** However many transfers-out of a capped symbol go through the
    check-then-record protocol one after the other, on either rail, with
    whatever file-write failures, the amount moved on any UTC day stays within
    the cap. *)
Theorem transfer_out_cap_never_exceeded (ts : list transfer) (s : store) (d : disk)
    (ow k : string) (c : SymbolCap) (b : Z)
    (Hc : at2 (caps s) ow k = Some c) (Hb : CapBase c = Some b) (H0 : 0 <= b)
    (Hm : forall now, 0 <= moved s now ow k <= b) (now : Time) :
  0 <= moved (fst (transfer_run ts (s, d))) now ow k <= b.
Proof.
  unfold transfer_run. revert s d Hc Hm. induction ts as [|t ts IH]; intros s d Hc Hm; [apply Hm|].
  destruct (transfer_step_bounded t s d ow k c b Hc Hb H0 Hm) as [Hc' Hm'].
  simpl. destruct (transfer_step t (s, d)) as [s' d']. by apply IH.
Qed.

Lemma transfer_out_cap_never_exceeded_witness :
  0 <= moved (fst (transfer_run
      [mkTransfer "svp1a" "usdc" 600 0 1 true IOok IOok IOok;
       mkTransfer "svp1a" "usdc" 600 2 3 true IOok IOok IOok] (demo_store, ∅))) 5 "svp1a" "usdc"
  <= 1000.
Proof.
  apply (transfer_out_cap_never_exceeded _ demo_store ∅ "svp1a" "usdc"
           (mkSymbolCap "usdc" 6 (Some 1000)) 1000).
  - vm_compute. reflexivity.
  - reflexivity.
  - lia.
  - intros now. unfold moved. simpl. case_match; vm_compute; split; discriminate.
Defined.

(** ** Persistence *)

Lemma tmp_ne (p : string) : (p +:+ ".tmp")%string <> p.
Proof.
  intros E. apply (f_equal (fun s => List.length (chars s))) in E.
  rewrite chars_app, length_app in E. simpl in E. lia.
Qed.

(** The file is replaced atomically.  Whatever the outcome of the write and
    of the rename, the cap file afterwards is either untouched or the complete
    snapshot of the store, and it is the snapshot when both calls succeed. *)
Theorem persist_atomic (o : io) (s : store) (d : disk) :
  let d' := fst (persistLocked o s d) in
  (d' !! path s = d !! path s \/ d' !! path s = Some (Doc (snapshot s)))
  /\ (path s <> ""%string -> o = IOok -> d' !! path s = Some (Doc (snapshot s))).
Proof.
  unfold persistLocked. destruct (String.eqb_spec (path s) "") as [E|E]; [naive_solver|].
  pose proof (tmp_ne (path s)). destruct o; cbn [fst].
  - rewrite lookup_insert_eq. naive_solver.
  - rewrite lookup_insert_ne by done. naive_solver.
  - rewrite lookup_insert_ne by done. naive_solver.
Qed.

Lemma load_cap_persist p o k c b :
  CapBase c = Some b -> load_cap p o (k, persist_cap c) = Ok (k, c).
Proof.
  intros Hb. unfold load_cap, persist_cap. rewrite Hb. cbn [p_cap_base p_symbol p_decimals].
  rewrite BigSetString10_FormatInt. destruct c; simpl in *. by subst.
Qed.

(** Reading a persisted cap back yields the cap when its base is set. *)
Definition unpersist (pc : persistedSymbolCap) : SymbolCap :=
  mkSymbolCap (p_symbol pc) (p_decimals pc) (BigSetString10 (p_cap_base pc)).

Lemma reload_snapshot s d :
  path s <> ""%string -> caps_set s -> d !! path s = Some (Doc (snapshot s)) ->
  exists s', LoadMemoryTransferOutStore (path s) None d = Ok s' /\ store_equiv s' s.
Proof.
  intros Hp Hcs Hd. unfold LoadMemoryTransferOutStore.
  rewrite (proj2 (String.eqb_neq _ _) Hp), Hd. cbn [snapshot p_caps p_used p_day].
  destruct (load_map (load_cap (path s)) unpersist (fmap2 persist_cap (drop_empty (caps s))))
    as (cs & Ec & Hc).
  { intros o k pc H. rewrite at2_fmap2 in H. destruct (at2 (caps s) o k) as [c|] eqn:E; [|done].
    simplify_eq/=. destruct (Hcs _ _ _ E) as [b Hb].
    rewrite Hb, BigSetString10_FormatInt. unfold unpersist. simpl.
    by rewrite Hb, BigSetString10_FormatInt. }
  destruct (load_map (load_used (path s)) (default 0 ∘ BigSetString10)
              (fmap2 FormatInt (drop_empty (s_used s)))) as (us & Eu & Hu).
  { intros o k v H. rewrite at2_fmap2 in H. destruct (at2 (s_used s) o k) as [z|]; [|done].
    simplify_eq/=. by rewrite BigSetString10_FormatInt. }
  rewrite Ec. simpl. rewrite Eu. simpl. eexists. split; [done|].
  unfold store_equiv. cbn [path s_day caps s_used]. split_and!; try done; intros o k.
  - rewrite Hc, at2_fmap2. destruct (at2 (caps s) o k) as [c|] eqn:E; [|done]. simpl. f_equal.
    destruct (Hcs _ _ _ E) as [b Hb]. unfold unpersist, persist_cap. rewrite Hb. simpl.
    rewrite BigSetString10_FormatInt. destruct c; simpl in *. by subst.
  - rewrite Hu, at2_fmap2. destruct (at2 (s_used s) o k); [|done]. simpl.
    by rewrite BigSetString10_FormatInt.
Qed.

#[export] Instance moved_proper : Proper (store_equiv ==> eq ==> eq ==> eq ==> eq) moved.
Proof.
  intros s1 s2 (_ & Hd & _ & Hu) ? now -> ? ow -> ? k ->. unfold moved. by rewrite Hd, Hu.
Qed.

(** [Check] answers the same on equivalent stores. *)
Lemma check_equiv s1 s2 now o ow k amt d1 d2 :
  store_equiv s1 s2 ->
  fst (checkLocked now o ow k amt s1 d1) = fst (checkLocked now o ow k amt s2 d2).
Proof.
  intros E. destruct amt as [a|]; [|done]. rewrite !checkLocked_eq.
  destruct (a <=? 0); [done|]. cbn [fst].
  assert (moved s1 now ow k = moved s2 now ow k) as -> by (by rewrite E).
  destruct E as (_ & _ & Hc & _). by rewrite Hc.
Qed.

(** A restart is not observable.  A store whose last write succeeded,
    reloaded from its file, has the same caps and the same usage, so every
    later [Check] answers as it would have without the restart. *)
Theorem restart_unobservable (s : store) (d : disk)
    (Hp : path s <> ""%string) (Hc : caps_set s) :
  let d' := fst (persistLocked IOok s d) in
  exists s', LoadMemoryTransferOutStore (path s) None d' = Ok s' /\ store_equiv s' s
  /\ forall now o ow k amt d1 d2,
       fst (checkLocked now o ow k amt s' d1) = fst (checkLocked now o ow k amt s d2).
Proof.
  intros d'. assert (d' !! path s = Some (Doc (snapshot s))) as Hd.
  { subst d'. unfold persistLocked. rewrite (proj2 (String.eqb_neq _ _) Hp). cbn [fst].
    apply lookup_insert_eq. }
  destruct (reload_snapshot s d' Hp Hc Hd) as (s' & El & Eq).
  exists s'. split_and!; [done|done|]. intros. by apply check_equiv.
Qed.

Definition demo_file_store : store :=
  mkStore "caps.json" "2024-02-29" (caps demo_store) {["svp1a" := {["usdc" := 250]}]}.

Lemma restart_unobservable_witness :
  exists s', LoadMemoryTransferOutStore "caps.json" None
               (fst (persistLocked IOok demo_file_store ∅)) = Ok s' /\ store_equiv s' demo_file_store.
Proof.
  destruct (restart_unobservable demo_file_store ∅) as (s' & H1 & H2 & _).
  - discriminate.
  - intros o k c H. unfold at2 in H. simpl in H.
    destruct (decide (o = "svp1a")) as [->|Ho].
    + vm_compute in H. destruct (decide (k = "usdc")) as [->|Hk].
      * change (Some (mkSymbolCap "usdc" 6 (Some 1000)) = Some c) in H. injection H as <-. eexists; reflexivity.
      * exfalso. change ((<["usdc" := mkSymbolCap "usdc" 6 (Some 1000)]> (∅ : gmap string SymbolCap)) !! k = Some c) in H.
        rewrite lookup_insert_ne in H by congruence. by rewrite lookup_empty in H.
    + rewrite lookup_insert_ne in H by congruence. by rewrite lookup_empty in H.
  - exists s'. split; assumption.
Defined.

(** ** Rendering of base units *)

Lemma pad_zeros_eq f dec s :
  0 <= dec -> (Z.to_nat dec - String.length s <= f)%nat ->
  pad_zeros f dec s = str (zeros (Z.to_nat dec - String.length s) ++ chars s).
Proof.
  intros Hd. revert s. induction f as [|f IH]; intros s Hf; unfold pad_zeros; fold pad_zeros.
  - replace (Z.to_nat dec - String.length s)%nat with O by lia. simpl. by rewrite str_chars.
  - unfold len. destruct (Z.ltb_spec (Z.of_nat (String.length s)) dec).
    + rewrite IH by (simpl; lia). cbn [String.length list_ascii_of_string].
      f_equal. replace (Z.to_nat dec - String.length s)%nat
        with (S (Z.to_nat dec - S (String.length s))) by lia.
      unfold zeros. cbn [repeat]. rewrite repeat_cons, <- app_assoc. done.
    + replace (Z.to_nat dec - String.length s)%nat with O by lia. simpl. by rewrite str_chars.
Qed.

Lemma drop_while_spec c l :
  exists k, l = repeat c k ++ drop_while c l
  /\ match drop_while c l with a :: _ => a <> c | [] => True end.
Proof.
  induction l as [|a l (k & E & H)]; [by exists O|]. simpl.
  destruct (Ascii.eqb_spec a c) as [->|Hne].
  - exists (S k). simpl. by rewrite <- E.
  - by exists O.
Qed.

Lemma TrimRight1_spec c l :
  exists t k, TrimRight1 (str l) c = str t /\ l = t ++ repeat c k
  /\ (forall t', t <> t' ++ [c]).
Proof.
  unfold TrimRight1. rewrite chars_str.
  destruct (drop_while_spec c (rev l)) as (k & E & H).
  exists (rev (drop_while c (rev l))), k. split_and!; [done| |].
  - apply (f_equal (@rev ascii)) in E. rewrite rev_involutive, rev_app_distr, rev_repeat in E. done.
  - intros t' Et. apply (f_equal (@rev ascii)) in Et.
    rewrite rev_involutive, rev_app_distr in Et. rewrite Et in H. simpl in H. done.
Qed.

(** The fraction part: padded to [dec] digits, then stripped of its zeros. *)
Lemma frac_text r dec :
  0 < dec -> 0 < r < 10 ^ dec ->
  exists t m,
    TrimRight1 (pad_zeros (Z.to_nat dec) dec (FormatInt r)) "0" = str t
    /\ t <> [] /\ parse_digits t = Some m /\ Z.of_nat (List.length t) <= dec
    /\ m * 10 ^ (dec - Z.of_nat (List.length t)) = r
    /\ forall t', t <> t' ++ ["0"%char].
Proof.
  intros Hd Hr.
  assert (FormatInt r = FormatUint r) as ->
    by (unfold FormatInt; by rewrite (proj2 (Z.ltb_ge r 0)) by lia).
  assert (String.length (FormatUint r) <= Z.to_nat dec)%nat as Hlen.
  { apply FormatUint_length; [rewrite Z2Nat.id by lia; lia|lia]. }
  rewrite pad_zeros_eq by lia.
  set (l := zeros (Z.to_nat dec - String.length (FormatUint r)) ++ chars (FormatUint r)).
  assert (parse_digits l = Some r) as Hl
    by (apply parse_digits_zeros_l, parse_digits_FormatUint; lia).
  assert (List.length l = Z.to_nat dec) as Hll.
  { unfold l, zeros. rewrite length_app, repeat_length, length_chars. lia. }
  destruct (TrimRight1_spec "0"%char l) as (t & k & -> & El & Hnz).
  assert (Z.of_nat k = dec - Z.of_nat (List.length t)) as Hk.
  { rewrite El, length_app, repeat_length in Hll. lia. }
  change (repeat "0"%char k) with (zeros k) in El.
  destruct (parse_digits_Some t) as (m & Hm & _).
  { apply parse_digits_all_digit in Hl. rewrite El in Hl. by apply Forall_app in Hl as [? _]. }
  rewrite El, (parse_digits_zeros_r t m k Hm) in Hl.
  assert (m * 10 ^ Z.of_nat k = r) as Hv by congruence.
  exists t, m. rewrite <- Hk. split_and!; try done; [|lia].
  intros ->. unfold parse_digits in Hm. simpl in Hm. simplify_eq. lia.
Qed.

(** The human rendering of a non-negative base amount is exact: the digits
    before the point and after it denote the amount, at most [decimals] digits
    follow the point, there is a point only when there are such digits, and the
    last of them is not a zero. *)
Theorem baseToHuman_exact (base dec : Z) (Hb : 0 <= base) (Hd : 0 < dec) :
  exists (i f : bytes) (n m : Z),
    baseToHuman (Some base) dec
      = (match f with [] => str i | _ => str (i ++ "."%char :: f) end)
    /\ parse_nat i = Some n /\ parse_digits f = Some m
    /\ Z.of_nat (List.length f) <= dec
    /\ n * 10 ^ dec + m * 10 ^ (dec - Z.of_nat (List.length f)) = base
    /\ forall f', f <> f' ++ ["0"%char].
Proof.
  unfold baseToHuman. rewrite (proj2 (Z.leb_gt dec 0)), (proj2 (Z.ltb_ge base 0)), Z.abs_eq by lia.
  pose proof (Z.pow_pos_nonneg 10 dec ltac:(lia) ltac:(lia)) as Hp.
  pose proof (Z.mod_pos_bound base (10 ^ dec) Hp) as Hr.
  pose proof (Z.div_mod base (10 ^ dec) ltac:(lia)) as Hdm.
  pose proof (Z.div_pos base (10 ^ dec) Hb Hp) as Hq.
  set (w := base / 10 ^ dec) in *. set (r := base mod 10 ^ dec) in *.
  assert (FormatInt w = FormatUint w) as ->
    by (unfold FormatInt; by rewrite (proj2 (Z.ltb_ge w 0)) by lia).
  destruct (Z.ltb_spec 0 r) as [Hr0|Hr0]; cbv zeta.
  - destruct (frac_text r dec Hd ltac:(lia)) as (t & m & -> & Ht & Hm & Hl & Hv & Hz).
    exists (chars (FormatUint w)), t, w, m. rewrite parse_nat_FormatUint, Hv by done.
    split_and!; try done; [|lia]. destruct t; [done|].
    rewrite str_app. cbn [string_of_list_ascii]. by rewrite str_chars.
  - exists (chars (FormatUint w)), [], w, 0. rewrite str_chars, parse_nat_FormatUint by done.
    split_and!; try done; [simpl; lia|lia|]. intros f' E. by apply app_cons_not_nil in E.
Qed.

Lemma baseToHuman_exact_witness :
  exists (i f : bytes) (n m : Z),
    baseToHuman (Some 1500000) 6 = (match f with [] => str i | _ => str (i ++ "."%char :: f) end)
    /\ parse_nat i = Some n /\ parse_digits f = Some m
    /\ n * 10 ^ 6 + m * 10 ^ (6 - Z.of_nat (List.length f)) = 1500000.
Proof.
  destruct (baseToHuman_exact 1500000 6 ltac:(lia) ltac:(lia)) as (i & f & n & m & H1 & H2 & H3 & _ & H4 & _).
  exists i, f, n, m. repeat split; assumption.
Defined.

Lemma persist_atomic_witness :
  fst (persistLocked IOok demo_file_store ∅) !! "caps.json" = Some (Doc (snapshot demo_file_store)).
Proof. exact (proj2 (persist_atomic IOok demo_file_store ∅) ltac:(discriminate) eq_refl). Defined.
