(* ===== verification/GoEncoding.v ===== *)
(** * Text encodings of bytes: encoding/hex and encoding/base64

    [hex.EncodeToString] and [hex.DecodeString], and the standard padded base64
    alphabet with Go's decoder (line breaks are skipped, trailing bits of the
    last group are not checked, anything after the padding is an error). *)

From S2P Require Import Prelude GoStrings.

(** ** Hexadecimal *)

Definition hex_char (v : Z) : ascii := if v <? 10 then chr (48 + v) else chr (87 + v).

Definition hex_val (c : ascii) : option Z :=
  let n := code c in
  if (48 <=? n) && (n <=? 57) then Some (n - 48)
  else if (97 <=? n) && (n <=? 102) then Some (n - 87)
  else if (65 <=? n) && (n <=? 70) then Some (n - 55)
  else None.

Fixpoint hex_enc (l : bytes) : bytes :=
  match l with
  | [] => []
  | b :: l' => hex_char (code b / 16) :: hex_char (code b mod 16) :: hex_enc l'
  end.

Definition HexEncode (l : bytes) : string := str (hex_enc l).

(** [None] stands for [InvalidByteError] or [ErrLength]. *)
Fixpoint hex_dec (l : bytes) : option bytes :=
  match l with
  | [] => Some []
  | [_] => None
  | a :: b :: l' =>
      match hex_val a, hex_val b with
      | Some x, Some y => match hex_dec l' with Some r => Some (chr (16 * x + y) :: r) | None => None end
      | _, _ => None
      end
  end.

Definition HexDecode (s : string) : option bytes := hex_dec (chars s).

(** ** Base64 *)

Definition b64_alphabet : bytes :=
  chars "ABCDEFGHIJKLMNOPQRSTUVWXYZabcdefghijklmnopqrstuvwxyz0123456789+/".

Definition b64_char (v : Z) : ascii := nth (Z.to_nat v) b64_alphabet "A"%char.

Definition b64_val (c : ascii) : option Z :=
  let n := code c in
  if (65 <=? n) && (n <=? 90) then Some (n - 65)
  else if (97 <=? n) && (n <=? 122) then Some (n - 71)
  else if (48 <=? n) && (n <=? 57) then Some (n + 4)
  else if n =? 43 then Some 62
  else if n =? 47 then Some 63
  else None.

Fixpoint b64_enc (l : bytes) : bytes :=
  match l with
  | [] => []
  | [a] =>
      let a := code a in [b64_char (a / 4); b64_char (a mod 4 * 16); "="%char; "="%char]
  | [a; b] =>
      let a := code a in let b := code b in
      [b64_char (a / 4); b64_char (a mod 4 * 16 + b / 16); b64_char (b mod 16 * 4); "="%char]
  | a :: b :: c :: l' =>
      let a := code a in let b := code b in let c := code c in
      b64_char (a / 4) :: b64_char (a mod 4 * 16 + b / 16)
      :: b64_char (b mod 16 * 4 + c / 64) :: b64_char (c mod 64) :: b64_enc l'
  end.

(** [base64.StdEncoding.EncodeToString] *)
Definition Base64Encode (l : bytes) : string := str (b64_enc l).

Fixpoint b64_dec (l : bytes) : option bytes :=
  match l with
  | [] => Some []
  | a :: b :: c :: d :: l' =>
      match b64_val a, b64_val b with
      | Some a, Some b =>
          if Ascii.eqb c "=" then
            match l' with
            | [] => if Ascii.eqb d "=" then Some [chr (a * 4 + b / 16)] else None
            | _ => None
            end
          else match b64_val c with
          | None => None
          | Some c =>
              if Ascii.eqb d "=" then
                match l' with
                | [] => Some [chr (a * 4 + b / 16); chr (b mod 16 * 16 + c / 4)]
                | _ => None
                end
              else match b64_val d with
              | None => None
              | Some d =>
                  match b64_dec l' with
                  | Some r => Some (chr (a * 4 + b / 16) :: chr (b mod 16 * 16 + c / 4)
                                    :: chr (c mod 4 * 64 + d) :: r)
                  | None => None
                  end
              end
          end
      | _, _ => None
      end
  | _ => None
  end.

Definition is_newline (c : ascii) : bool := (code c =? 10) || (code c =? 13).

(** [base64.StdEncoding.DecodeString] *)
Definition Base64Decode (s : string) : result bytes :=
  from_opt (b64_dec (List.filter (fun c => negb (is_newline c)) (chars s)))
    (ErrNew "illegal base64 data").

(** ** Round trips *)

Lemma hex_val_char v : 0 <= v < 16 -> hex_val (hex_char v) = Some v.
Proof.
  intros H. assert (forallb (fun k => bool_decide (hex_val (hex_char (Z.of_nat k)) = Some (Z.of_nat k)))
    (seq 0 16) = true) as F by (vm_compute; reflexivity).
  rewrite forallb_forall in F. specialize (F (Z.to_nat v)).
  rewrite in_seq, Z2Nat.id in F by lia. specialize (F ltac:(lia)).
  by apply bool_decide_eq_true in F.
Qed.

Lemma hex_roundtrip l : HexDecode (HexEncode l) = Some l.
Proof.
  unfold HexDecode, HexEncode. rewrite chars_str. induction l as [|b l IH]; [done|].
  cbn [hex_enc hex_dec]. pose proof (code_bound b).
  rewrite !hex_val_char, IH by (Z.div_mod_to_equations; lia).
  rewrite <- Z.div_mod by lia. by rewrite chr_code.
Qed.

Lemma hex_char_alnum v : 0 <= v < 16 -> (48 <=? code (hex_char v)) && (code (hex_char v) <=? 102) = true.
Proof.
  intros H. unfold hex_char. destruct (Z.ltb_spec v 10); rewrite code_chr by lia;
    rewrite andb_true_iff, !Z.leb_le; lia.
Qed.

(** Hexadecimal text contains no byte below 0 or above f: in particular no
    colon-free separator such as [|]. *)
Lemma hex_enc_range l : Forall (fun c => 48 <= code c <= 57 \/ 97 <= code c <= 102) (hex_enc l).
Proof.
  induction l as [|b l IH]; [constructor|]. cbn [hex_enc].
  pose proof (code_bound b).
  assert (forall v, 0 <= v < 16 -> 48 <= code (hex_char v) <= 57 \/ 97 <= code (hex_char v) <= 102) as A.
  { intros v Hv. unfold hex_char. destruct (Z.ltb_spec v 10); rewrite code_chr by lia; lia. }
  constructor; [apply A|constructor; [apply A|done]]; Z.div_mod_to_equations; lia.
Qed.

Lemma hex_enc_length l : List.length (hex_enc l) = (2 * List.length l)%nat.
Proof. induction l as [|b l IH]; [done|]. cbn [hex_enc List.length]. rewrite IH. lia. Qed.

Lemma HexEncode_inj l k : HexEncode l = HexEncode k -> l = k.
Proof. intros E. apply (f_equal HexDecode) in E. rewrite !hex_roundtrip in E. by simplify_eq. Qed.

Lemma b64_char_ok v :
  0 <= v < 64 ->
  b64_val (b64_char v) = Some v /\ Ascii.eqb (b64_char v) "=" = false /\ is_newline (b64_char v) = false.
Proof.
  intros H. assert (forallb (fun k => let c := b64_char (Z.of_nat k) in
    bool_decide (b64_val c = Some (Z.of_nat k)) && negb (Ascii.eqb c "=") && negb (is_newline c))
    (seq 0 64) = true) as F by (vm_compute; reflexivity).
  rewrite forallb_forall in F. specialize (F (Z.to_nat v)).
  rewrite in_seq, Z2Nat.id in F by lia. specialize (F ltac:(lia)). cbv zeta in F.
  rewrite !andb_true_iff, !negb_true_iff, bool_decide_eq_true in F. naive_solver.
Qed.

(** Induction three bytes at a time. *)
Lemma bytes_ind3 (P : bytes -> Prop) :
  P [] -> (forall a, P [a]) -> (forall a b, P [a; b]) ->
  (forall a b c l, P l -> P (a :: b :: c :: l)) -> forall l, P l.
Proof.
  intros H0 H1 H2 H3 l. enough (P l /\ (forall a, P (a :: l)) /\ forall a b, P (a :: b :: l)) by tauto.
  induction l as [|c l (IH0 & IH1 & IH2)]; [done|]. split_and!; auto.
Qed.

Ltac b64_chars :=
  repeat match goal with x : ascii |- _ =>
    lazymatch goal with _ : 0 <= code x < 256 |- _ => fail | _ => pose proof (code_bound x) end end;
  repeat match goal with |- context [b64_char ?v] =>
    lazymatch goal with
    | _ : b64_val (b64_char v) = _ /\ _ |- _ => fail
    | _ => let A := fresh "A" in
           assert (b64_val (b64_char v) = Some v /\ Ascii.eqb (b64_char v) "=" = false
                   /\ is_newline (b64_char v) = false) as A
             by (apply b64_char_ok; repeat match goal with x : ascii |- _ => revert x end; intros; Z.div_mod_to_equations; lia);
           generalize dependent (b64_char v); intros
    end end.

Lemma b64_enc_no_newline l : List.filter (fun c => negb (is_newline c)) (b64_enc l) = b64_enc l.
Proof.
  induction l as [|a|a b|a b c l IH] using bytes_ind3; [done| | |]; cbn [b64_enc]; cbv zeta.
  all: b64_chars; cbn [List.filter]; destruct_and?;
    repeat match goal with H : is_newline ?c = false |- _ => rewrite H; clear H end;
    cbn [negb]; rewrite ?IH; done.
Qed.

Lemma chr_eq c v : v = code c -> chr v = c.
Proof. intros ->. apply chr_code. Qed.

Lemma b64_dec_enc l : b64_dec (b64_enc l) = Some l.
Proof.
  induction l as [|a|a b|a b c l IH] using bytes_ind3; [done| | |]; cbn [b64_enc]; cbv zeta.
  all: b64_chars; cbn [b64_dec]; destruct_and?;
    repeat match goal with H : b64_val ?c = Some _ |- _ => rewrite H; clear H end;
    repeat match goal with H : Ascii.eqb ?c _ = false |- _ => rewrite H; clear H end;
    rewrite ?IH; cbn [Ascii.eqb Bool.eqb].
  all: repeat (f_equal; try (apply chr_eq; Z.div_mod_to_equations; lia)).
Qed.

Lemma base64_roundtrip l : Base64Decode (Base64Encode l) = Ok l.
Proof. unfold Base64Decode, Base64Encode. by rewrite chars_str, b64_enc_no_newline, b64_dec_enc. Qed.
