(* ===== verification/Http.v ===== *)
(** * HTTP requests and query strings (net/http, net/url)

    What the two HTTP clients of the program use of the standard library: a
    request, and [url.Values] with [Set] and [Encode].  [ParseQuery] is the
    reading of a query string on the other side; it inverts [Encode] on every
    set of parameters, whatever bytes they hold, so no parameter can introduce,
    hide or change another one. *)

From S2P Require Import Prelude GoStrings GoEncoding.

(** A request as it leaves the process; the body is the JSON object of the two
    fields the faucet client writes. *)
Record HttpRequest : Type := mkHttpRequest {
  hr_Method : string;
  hr_URL : string;
  hr_Header : list (string * string);
  hr_Body : option (list (string * string));
}.

Definition StatusNotFound : Z := 404.
Definition StatusTooManyRequests : Z := 429.

(** ** url.Values

    A map with one value per key, kept in the order of its keys, which is the
    order [Encode] writes. *)
Abbreviation Values := (list (string * string)) (only parsing).

Fixpoint Set_ (k v : string) (q : Values) : Values :=
  match q with
  | [] => [(k, v)]
  | (k', v') :: q' =>
      if String.eqb k k' then (k, v) :: q'
      else if String.ltb k k' then (k, v) :: (k', v') :: q'
      else (k', v') :: Set_ k v q'
  end.

(** The characters [shouldEscape] leaves alone in a query component. *)
Definition unreserved (c : ascii) : bool :=
  let n := code c in
  ((48 <=? n) && (n <=? 57)) || ((65 <=? n) && (n <=? 90)) || ((97 <=? n) && (n <=? 122))
  || (n =? 45) || (n =? 95) || (n =? 46) || (n =? 126).

Definition upper_hex (v : Z) : ascii := if v <? 10 then chr (48 + v) else chr (55 + v).

Definition escape_char (c : ascii) : bytes :=
  if Ascii.eqb c " " then ["+"%char]
  else if unreserved c then [c]
  else ["%"%char; upper_hex (code c / 16); upper_hex (code c mod 16)].

Definition escape (l : bytes) : bytes := List.concat (map escape_char l).

Definition encode_pair (kv : string * string) : bytes := escape (chars (fst kv)) ++ "="%char :: escape (chars (snd kv)).

Fixpoint join_amp (l : list bytes) : bytes :=
  match l with
  | [] => []
  | [x] => x
  | x :: l' => x ++ "&"%char :: join_amp l'
  end.

Definition Encode (q : Values) : string := str (join_amp (map encode_pair q)).

(** ** Reading a query string *)

Fixpoint unescape (l : bytes) : option bytes :=
  match l with
  | [] => Some []
  | c :: l' =>
      if Ascii.eqb c "%" then
        match l' with
        | a :: b :: l'' =>
            match hex_val a, hex_val b with
            | Some x, Some y => match unescape l'' with Some r => Some (chr (16 * x + y) :: r) | None => None end
            | _, _ => None
            end
        | _ => None
        end
      else match unescape l' with Some r => Some ((if Ascii.eqb c "+" then " "%char else c) :: r) | None => None end
  end.

Definition parse_pair (l : bytes) : option (string * string) :=
  let '(k, v) := cut_l "=" l in
  match unescape k, unescape (default [] v) with Some k, Some v => Some (str k, str v) | _, _ => None end.

(** The fuel is the number of pieces left, at most one per byte. *)
Fixpoint parse_pairs (fuel : nat) (l : bytes) : option (list (string * string)) :=
  match fuel with
  | O => None
  | S f =>
      match cut_l "&" l with
      | (x, rest) =>
          match (if bool_decide (x = []) then Some [] else match parse_pair x with Some p => Some [p] | None => None end),
                match rest with Some r => parse_pairs f r | None => Some [] end with
          | Some p, Some k => Some (p ++ k)
          | _, _ => None
          end
      end
  end.

(** The form decoding of a query string. *)
Definition ParseQuery (s : string) : option (list (string * string)) := parse_pairs (S (String.length s)) (chars s).

(** ** The round trip *)

(** A statement about one byte holds when it holds for all 256. *)
Lemma all_bytes (P : ascii -> bool) : forallb (fun n => P (ascii_of_nat n)) (seq 0 256) = true -> forall c, P c = true.
Proof.
  intros H c. rewrite forallb_forall in H. rewrite <- (ascii_nat_embedding c). apply H.
  apply in_seq. pose proof (nat_ascii_bounded c). lia.
Qed.

Definition clean (c : ascii) : bool := negb (Ascii.eqb c "&") && negb (Ascii.eqb c "=").

Lemma escape_char_clean c : forallb clean (escape_char c) = true.
Proof. revert c. apply all_bytes. vm_compute. reflexivity. Qed.

Lemma escape_char_read c : match escape_char c with
  | [x] => negb (Ascii.eqb x "%") && Ascii.eqb (if Ascii.eqb x "+" then " "%char else x) c
  | [p; a; b] => Ascii.eqb p "%" && match hex_val a, hex_val b with
                                    | Some x, Some y => Ascii.eqb (chr (16 * x + y)) c | _, _ => false end
  | _ => false
  end = true.
Proof. revert c. apply (all_bytes (fun c => match escape_char c with
  | [x] => negb (Ascii.eqb x "%") && Ascii.eqb (if Ascii.eqb x "+" then " "%char else x) c
  | [p; a; b] => Ascii.eqb p "%" && match hex_val a, hex_val b with
                                    | Some x, Some y => Ascii.eqb (chr (16 * x + y)) c | _, _ => false end
  | _ => false end)). vm_compute. reflexivity. Qed.

Lemma unescape_escape l : unescape (escape l) = Some l.
Proof.
  induction l as [|c l IH]; [done|]. unfold escape. cbn [map List.concat]. fold (escape l).
  pose proof (escape_char_read c) as Hc. destruct (escape_char c) as [|x [|a [|b [|]]]]; try done; cbn [app unescape].
  - apply andb_true_iff in Hc as [Hx%negb_true_iff Hc%Ascii.eqb_eq]. rewrite Hx, IH. by rewrite Hc.
  - apply andb_true_iff in Hc as [Hx Hc]. rewrite Hx, IH.
    destruct (hex_val a), (hex_val b); try done. by apply Ascii.eqb_eq in Hc as ->.
Qed.

Lemma escape_clean l : Forall (fun c => clean c = true) (escape l).
Proof.
  induction l as [|c l IH]; [constructor|]. unfold escape. cbn [map List.concat]. apply Forall_app. split; [|exact IH].
  apply Forall_forall. intros x Hx. pose proof (escape_char_clean c) as Hc. rewrite forallb_forall in Hc.
  by apply Hc, list_elem_of_In.
Qed.

Lemma escape_not c l : clean c = false -> c ∉ escape l.
Proof.
  intros Hc Hin. pose proof (escape_clean l) as Hl. rewrite Forall_forall in Hl. by rewrite (Hl c Hin) in Hc.
Qed.

Lemma parse_encode_pair kv : parse_pair (encode_pair kv) = Some kv.
Proof.
  unfold parse_pair, encode_pair. rewrite cut_l_app by (by apply escape_not).
  cbn [default id]. rewrite !unescape_escape, !str_chars. by destruct kv.
Qed.

Lemma encode_pair_no_amp kv : "&"%char ∉ encode_pair kv.
Proof.
  unfold encode_pair. rewrite elem_of_app, elem_of_cons. intros [H|[H|H]]; [|discriminate|]; by apply escape_not in H.
Qed.

Lemma encode_pair_nonempty kv : encode_pair kv <> [].
Proof. unfold encode_pair. by destruct (escape (chars (fst kv))). Qed.

Lemma cut_l_none c l : c ∉ l -> cut_l c l = (l, None).
Proof.
  induction l as [|a l IH]; intros H; [done|]. cbn [cut_l]. apply not_elem_of_cons in H as [Ha Hl].
  rewrite (proj2 (Ascii.eqb_neq a c)) by congruence. by rewrite IH.
Qed.

Lemma parse_joined q : forall fuel, (List.length (join_amp (map encode_pair q)) < fuel)%nat -> q <> [] ->
  parse_pairs fuel (join_amp (map encode_pair q)) = Some q.
Proof.
  induction q as [|kv q IH]; intros fuel Hf Hq; [done|]. destruct fuel as [|fuel]; [lia|].
  cbn [map join_amp] in *. destruct q as [|kv' q].
  - cbn [map] in *. cbn [parse_pairs]. rewrite cut_l_none by apply encode_pair_no_amp.
    rewrite bool_decide_eq_false_2 by apply encode_pair_nonempty. by rewrite parse_encode_pair.
  - cbn [map] in Hf |- *. cbn [parse_pairs]. rewrite cut_l_app by apply encode_pair_no_amp.
    rewrite bool_decide_eq_false_2 by apply encode_pair_nonempty. rewrite parse_encode_pair.
    rewrite length_app in Hf. cbn [List.length] in Hf.
    change (encode_pair kv' :: map encode_pair q) with (map encode_pair (kv' :: q)) in Hf |- *.
    by rewrite (IH fuel) by (done || lia).
Qed.

Lemma query_roundtrip q : ParseQuery (Encode q) = Some q.
Proof.
  destruct q as [|kv q]; [done|]. unfold ParseQuery, Encode. rewrite chars_str.
  apply parse_joined; [|done]. rewrite <- (chars_str (join_amp _)) at 1. rewrite length_chars. lia.
Qed.

(** Looking a parameter up after a [Set]. *)
Definition param (k : string) (q : Values) : option string := snd <$> List.find (fun kv => String.eqb k (fst kv)) q.

Lemma param_Set k v q : param k (Set_ k v q) = Some v.
Proof.
  unfold param. induction q as [|[k' v'] q IH]; cbn [Set_ List.find fst]; [by rewrite String.eqb_refl|].
  destruct (String.eqb_spec k k') as [->|Hk]; cbn [List.find fst]; [by rewrite String.eqb_refl|].
  destruct (String.ltb k k'); cbn [List.find fst]; [by rewrite String.eqb_refl|].
  by rewrite (proj2 (String.eqb_neq k k') Hk).
Qed.

Lemma param_Set_ne k k1 v q : k <> k1 -> param k (Set_ k1 v q) = param k q.
Proof.
  intros Hne. unfold param. induction q as [|[k' v'] q IH]; cbn [Set_ List.find fst].
  - by rewrite (proj2 (String.eqb_neq k k1) Hne).
  - destruct (String.eqb_spec k1 k') as [<-|Hk]; cbn [List.find fst].
    + by rewrite (proj2 (String.eqb_neq k k1) Hne).
    + destruct (String.ltb k1 k'); cbn [List.find fst].
      * by rewrite (proj2 (String.eqb_neq k k1) Hne).
      * destruct (String.eqb k k'); [done|exact IH].
Qed.
