(* ===== verification/Challenge.v ===== *)
(** * The challenge text of the self-service login (auth/challenge.go)

    [BuildChallenge] and [ParseChallenge] on byte strings, and that parsing
    inverts building. *)

From S2P Require Import Prelude GoStrings GoNum GoTime.

Definition ChallengePrefix : string := "svpchain-mcp-auth-v1:".

Definition BuildChallenge (chainID nonceHex : string) (expiresAt : Time) : string :=
  (ChallengePrefix +:+ chainID +:+ ":" +:+ nonceHex +:+ ":" +:+ FormatInt (Unix expiresAt))%string.

Record ParsedChallenge : Type := mkParsedChallenge {
  pc_ChainID : string;
  pc_NonceHex : string;
  pc_ExpiresAt : Time;
}.

Definition ParseChallenge (text : string) : result ParsedChallenge :=
  if negb (HasPrefix text ChallengePrefix) then
    Err (Errorf "challenge must start with %q" [FStr ChallengePrefix])
  else match SplitN text ":" 4 with
  | [_; chainID; nonceHex; exp] =>
      expiresUnix ← wrap (fun e => Errorf "parse expires_at %q: %w" [FStr exp; FErr e]) (ParseInt exp);
      if String.eqb chainID "" then Err (Errorf "challenge chain_id is empty" [])
      else if String.eqb nonceHex "" then Err (Errorf "challenge nonce is empty" [])
      else Ok (mkParsedChallenge chainID nonceHex (TimeUnix expiresUnix))
  | _ => Err (Errorf "challenge malformed: expected %s<chain_id>:<nonce>:<expires_at>"
                [FStr ChallengePrefix])
  end.

(** A field that keeps the text unambiguous: non-empty and free of colons. *)
Definition field_ok (s : string) : bool :=
  negb (String.eqb s "") && forallb (fun c => negb (Ascii.eqb c ":")) (chars s).

Lemma field_ok_spec s : field_ok s = true -> s <> EmptyString /\ ":"%char ∉ chars s.
Proof.
  unfold field_ok. rewrite andb_true_iff, negb_true_iff, String.eqb_neq, forallb_forall.
  intros [H1 H2]. split; [done|]. intros Hin%list_elem_of_In. specialize (H2 _ Hin).
  by rewrite Ascii.eqb_refl in H2.
Qed.

Lemma build_split chainID nonceHex e :
  ":"%char ∉ chars chainID -> ":"%char ∉ chars nonceHex ->
  SplitN (BuildChallenge chainID nonceHex e) ":" 4
  = ["svpchain-mcp-auth-v1"%string; chainID; nonceHex; FormatInt (Unix e)].
Proof.
  intros Hc Hn. unfold SplitN, BuildChallenge, ChallengePrefix.
  change "svpchain-mcp-auth-v1:"%string with ("svpchain-mcp-auth-v1" +:+ ":")%string.
  rewrite !chars_app. cbn [SplitN_l]. rewrite <- app_assoc.
  change (chars ":") with [":"%char]. cbn [app].
  rewrite cut_l_app by (vm_compute; intros HH; set_solver).
  rewrite cut_l_app by done. rewrite cut_l_app by done.
  cbn [map]. by rewrite !str_chars.
Qed.

(** Parsing inverts building, to the second: for a chain id and a nonce that
    are non-empty and contain no colon, [ParseChallenge] of the built text
    returns both unchanged and the expiry truncated to whole seconds. *)
Theorem challenge_roundtrip (chainID nonceHex : string) (e : Time)
    (Hc : field_ok chainID = true) (Hn : field_ok nonceHex = true) (He : is_i64 (Unix e) = true) :
  ParseChallenge (BuildChallenge chainID nonceHex e)
  = Ok (mkParsedChallenge chainID nonceHex (e - e mod Second)).
Proof.
  apply field_ok_spec in Hc as [Hc0 Hc]. apply field_ok_spec in Hn as [Hn0 Hn].
  unfold ParseChallenge. rewrite (build_split _ _ _ Hc Hn). unfold BuildChallenge.
  rewrite HasPrefix_app. cbn [negb].
  rewrite ParseInt_FormatInt by done. cbn [wrap mbind result_bind].
  rewrite (proj2 (String.eqb_neq _ _) Hc0), (proj2 (String.eqb_neq _ _) Hn0).
  do 2 f_equal. unfold TimeUnix, Unix. pose proof (Z.div_mod e Second). 
  assert (Second <> 0) by (vm_compute; discriminate). lia.
Qed.

Lemma challenge_roundtrip_witness :
  ParseChallenge (BuildChallenge "svp-2517-1" "00ff" 1700000000999999999)
  = Ok (mkParsedChallenge "svp-2517-1" "00ff" 1700000000000000000).
Proof.
  exact (challenge_roundtrip "svp-2517-1" "00ff" 1700000000999999999
           eq_refl eq_refl eq_refl).
Defined.
