(* ===== verification/NonceStore.v ===== *)
(** * Single-use challenge nonces (auth/nonce_store.go)

    The store is a map from the hexadecimal nonce to its owner and expiry.
    Every operation takes the reading of the clock it makes ([now]); [Issue]
    also takes the outcome of [crypto/rand.Read] ([rnd]).  The specification is
    the history of the operations: [live] is the issue of a nonce that no
    later operation consumed. *)

From S2P Require Import Prelude GoStrings GoTime GoEncoding.

Definition DefaultChallengeTTL : Duration := 5 * Minute.
Definition nonceLen : nat := 16.
Definition ErrNonceNotFound : goerr := ErrNew "nonce not found or already consumed".
Definition ErrNonceExpired : goerr := ErrNew "nonce expired".

Record nonceEntry : Type := mkNonceEntry { ne_owner : string; ne_expiresAt : Time }.

#[export] Instance nonceEntry_eq_dec : EqDecision nonceEntry.
Proof. solve_decision. Defined.

Record NonceStore : Type := mkNonceStore {
  ns_ttl : Duration;
  ns_entries : gmap string nonceEntry;
}.

Definition NewNonceStore (ttl : Duration) : NonceStore := mkNonceStore ttl ∅.

Definition Issue (owner : string) (rnd : result bytes) (now : Time) : M NonceStore (string * Time) :=
  fun s =>
    if String.eqb owner "" then (Err (Errorf "owner is required to issue a nonce" []), s)
    else match rnd with
    | Err e => (Err (Errorf "generate nonce: %w" [FErr e]), s)
    | Ok buf =>
        let nonceHex := HexEncode buf in
        let expiresAt := now + ns_ttl s in
        (Ok (nonceHex, expiresAt),
         mkNonceStore (ns_ttl s) (<[nonceHex := mkNonceEntry owner expiresAt]> (ns_entries s)))
    end.

Definition Consume (nonceHex : string) (now : Time) : M NonceStore (string * Time) :=
  fun s =>
    match ns_entries s !! nonceHex with
    | None => (Err ErrNonceNotFound, s)
    | Some entry =>
        let s' := mkNonceStore (ns_ttl s) (delete nonceHex (ns_entries s)) in
        if negb (Before now (ne_expiresAt entry)) then (Err ErrNonceExpired, s')
        else (Ok (ne_owner entry, ne_expiresAt entry), s')
    end.

(** The loop deletes an entry when it reaches it and decides each entry alone:
    whatever the order of the iteration, the others stay. *)
Definition Sweep (now : Time) (s : NonceStore) : NonceStore :=
  mkNonceStore (ns_ttl s) (filter (fun kv => Before now (ne_expiresAt kv.2) = true) (ns_entries s)).

Definition Len (s : NonceStore) : Z := Z.of_nat (size (ns_entries s)).

(** ** Histories *)

Inductive nonce_op : Type :=
| NIssue (owner : string) (rnd : result bytes)
| NConsume (nonceHex : string)
| NSweep.

Definition nonce_step (e : Time * nonce_op) (s : NonceStore) : NonceStore :=
  match e.2 with
  | NIssue owner rnd => snd (Issue owner rnd e.1 s)
  | NConsume n => snd (Consume n e.1 s)
  | NSweep => Sweep e.1 s
  end.

Definition nonce_run (h : list (Time * nonce_op)) (s : NonceStore) : NonceStore :=
  foldl (fun s e => nonce_step e s) s h.

(** The nonce an operation issues, when it succeeds. *)
Definition issues (ttl : Duration) (e : Time * nonce_op) : option (string * nonceEntry) :=
  match e.2 with
  | NIssue owner (Ok buf) =>
      if String.eqb owner "" then None else Some (HexEncode buf, mkNonceEntry owner (e.1 + ttl))
  | _ => None
  end.

(** The specification: the last issue of the nonce after which nobody asked to
    consume it. *)
Definition live_step (ttl : Duration) (n : string) (l : option nonceEntry) (e : Time * nonce_op)
  : option nonceEntry :=
  match issues ttl e with
  | Some (n', v) => if String.eqb n' n then Some v else l
  | None => match e.2 with
            | NConsume n' => if String.eqb n' n then None else l
            | _ => l
            end
  end.

Definition live (ttl : Duration) (h : list (Time * nonce_op)) (n : string) : option nonceEntry :=
  foldl (live_step ttl n) None h.

(** The clock never runs backwards along the history. *)
Fixpoint clock_ok {A} (t : Time) (h : list (Time * A)) : bool :=
  match h with
  | [] => true
  | (t', _) :: h' => (t <=? t') && clock_ok t' h'
  end.

Definition last_time {A} (t : Time) (h : list (Time * A)) : Time := foldl (fun _ e => e.1) t h.

(** ** Lemmas *)

Lemma nonce_step_ttl e s : ns_ttl (nonce_step e s) = ns_ttl s.
Proof.
  destruct e as [t [o rnd|n|]]; unfold nonce_step; cbn [fst snd]; [| |done].
  - unfold Issue. destruct (String.eqb o ""); [done|]. by destruct rnd.
  - unfold Consume. destruct (_ !! _); [|done]. by destruct (negb _).
Qed.

(** One operation: what it does to the entry of one nonce. *)
Lemma nonce_step_entry e s n :
  ns_entries (nonce_step e s) !! n
  = match issues (ns_ttl s) e with
    | Some (n', v) => if String.eqb n' n then Some v else ns_entries s !! n
    | None => match e.2 with
              | NConsume n' => if String.eqb n' n then None else ns_entries s !! n
              | NSweep => v ← ns_entries s !! n; if Before e.1 (ne_expiresAt v) then Some v else None
              | _ => ns_entries s !! n
              end
    end.
Proof.
  destruct e as [t [o rnd|n'|]]; unfold nonce_step, issues; cbn [fst snd].
  - unfold Issue. destruct (String.eqb o ""); [by destruct rnd|]. destruct rnd as [buf|]; [|done]. simpl.
    rewrite lookup_insert. destruct (decide (HexEncode buf = n)) as [->|H].
    + by rewrite String.eqb_refl.
    + by rewrite (proj2 (String.eqb_neq _ _) H).
  - unfold Consume. destruct (String.eqb_spec n' n) as [->|H].
    + destruct (ns_entries s !! n) eqn:E; [|done]. destruct (negb _); simpl; by rewrite lookup_delete_eq.
    + destruct (ns_entries s !! n') eqn:E; [|done]. destruct (negb _); simpl; by rewrite lookup_delete_ne.
  - simpl. rewrite map_lookup_filter. destruct (ns_entries s !! n) as [v|]; simpl; [|done].
    by case_guard as H; destruct (Before t (ne_expiresAt v)); naive_solver.
Qed.

(** The store against the history: it holds live issues only, and the live
    issues it no longer holds have expired. *)
Definition agrees (now : Time) (st sp : option nonceEntry) : Prop :=
  st = sp \/ st = None /\ exists v, sp = Some v /\ ne_expiresAt v <= now.

Lemma nonce_step_agrees now e s n sp :
  now <= e.1 -> agrees now (ns_entries s !! n) sp ->
  agrees e.1 (ns_entries (nonce_step e s) !! n) (live_step (ns_ttl s) n sp e).
Proof.
  intros Hle HA. rewrite nonce_step_entry. unfold live_step.
  assert (agrees e.1 (ns_entries s !! n) sp) as HA'.
  { destruct HA as [?|(? & v & ? & ?)]; [by left|right; split; [done|]; exists v; split; [done|lia]]. }
  destruct (issues (ns_ttl s) e) as [[n' v]|]; [destruct (String.eqb n' n); [by left|done]|].
  destruct e as [t [o r|n'|]]; cbn [fst snd] in *; [done| |].
  - destruct (String.eqb n' n); [by left|done].
  - destruct HA' as [<-|(-> & HA')]; [|by right; split].
    destruct (ns_entries s !! n) as [v|] eqn:E; cbn [mbind option_bind]; [|by left].
    unfold Before. destruct (Z.ltb_spec t (ne_expiresAt v)); [by left|].
    right. split; [done|]. eauto.
Qed.

Lemma nonce_run_agrees h : forall now s n sp,
  clock_ok now h = true -> agrees now (ns_entries s !! n) sp ->
  agrees (last_time now h) (ns_entries (nonce_run h s) !! n) (foldl (live_step (ns_ttl s) n) sp h).
Proof.
  induction h as [|[t o] h IH]; intros now s n sp Hc HA; [done|].
  cbn [clock_ok] in Hc. apply andb_true_iff in Hc as [Hle Hc]. apply Z.leb_le in Hle.
  cbn [nonce_run foldl last_time fst]. rewrite <- (nonce_step_ttl (t, o) s).
  apply IH; [done|]. rewrite nonce_step_ttl. by apply (nonce_step_agrees now (t, o)).
Qed.

Lemma nonce_run_absent h : forall s n,
  ns_entries s !! n = None ->
  (forall e v, e ∈ h -> issues (ns_ttl s) e <> Some (n, v)) ->
  ns_entries (nonce_run h s) !! n = None.
Proof.
  induction h as [|e h IH]; intros s n Hn Hh; [done|]. cbn [nonce_run foldl].
  apply IH; [|rewrite nonce_step_ttl; set_solver].
  rewrite nonce_step_entry, Hn. destruct (issues (ns_ttl s) e) as [[n' v]|] eqn:E.
  - destruct (String.eqb_spec n' n) as [->|]; [|done]. exfalso. apply (Hh e v); set_solver.
  - destruct (e.2); try done. by destruct (String.eqb _ _).
Qed.

(** ** Claims *)

(** C23: under a clock that does not run backwards and for every interleaving of
    issues, consumptions and sweeps, [Consume] accepts a nonce exactly when the
    history holds an unconsumed issue of it whose expiry lies in the future, and
    it returns the owner and the expiry of that issue. *)
Theorem Consume_iff_live (ttl : Duration) (t0 now : Time) (h : list (Time * nonce_op))
    (n owner : string) (e : Time)
    (Hclock : clock_ok t0 h = true) (Hnow : last_time t0 h <= now) :
  fst (Consume n now (nonce_run h (NewNonceStore ttl))) = Ok (owner, e)
  <-> live ttl h n = Some (mkNonceEntry owner e) /\ now < e.
Proof.
  pose proof (nonce_run_agrees h t0 (NewNonceStore ttl) n None Hclock) as HA.
  cbn [NewNonceStore ns_entries ns_ttl] in HA. specialize (HA ltac:(left; by rewrite lookup_empty)).
  fold (live ttl h n) in HA. fold (NewNonceStore ttl) in HA. unfold Consume.
  destruct HA as [->|(-> & v & -> & Hv)].
  - destruct (live ttl h n) as [[o' e']|]; simpl; [|naive_solver].
    unfold Before. destruct (Z.ltb_spec now e'); simpl; split; intros; destruct_and?; simplify_eq; [done|done|lia].
  - split; [done|]. intros [[= ->] Hlt]. simpl in Hv. lia.
Qed.

Definition demo_nonce_history : list (Time * nonce_op) :=
  [(0, NIssue "svp1a" (Ok (chars "abcdefghijklmnop"))); (5, NSweep); (6, NConsume "00")].

Lemma Consume_iff_live_witness :
  fst (Consume (HexEncode (chars "abcdefghijklmnop")) 10
         (nonce_run demo_nonce_history (NewNonceStore DefaultChallengeTTL)))
  = Ok ("svp1a"%string, 300000000000).
Proof.
  apply (proj2 (Consume_iff_live DefaultChallengeTTL 0 10 demo_nonce_history
    (HexEncode (chars "abcdefghijklmnop")) "svp1a" 300000000000 eq_refl
    ltac:(vm_compute; discriminate))).
  split; [vm_compute; reflexivity|lia].
Defined.

(** A nonce is single-use, whatever the clock does: once [Consume] has been
    called on it, successfully or not, every later [Consume] of it answers
    not-found until it is issued again, whatever other operations happen in
    between. *)
Theorem nonce_single_use (s : NonceStore) (n : string) (t t' : Time) (h : list (Time * nonce_op))
    (Hfresh : forall e v, e ∈ h -> issues (ns_ttl s) e <> Some (n, v)) :
  fst (Consume n t' (nonce_run h (snd (Consume n t s)))) = Err ErrNonceNotFound.
Proof.
  change (snd (Consume n t s)) with (nonce_step (t, NConsume n) s).
  unfold Consume. rewrite nonce_run_absent; [done| |by rewrite nonce_step_ttl].
  rewrite nonce_step_entry. unfold issues. cbn [snd]. by rewrite String.eqb_refl.
Qed.

Lemma nonce_single_use_witness :
  fst (Consume "6162" 7 (nonce_run [(5, NIssue "svp1b" (Ok (chars "zz"))); (6, NSweep)]
    (snd (Consume "6162" 4 (snd (Issue "svp1a" (Ok (chars "ab")) 0 (NewNonceStore 100)))))))
  = Err ErrNonceNotFound.
Proof.
  apply (nonce_single_use (snd (Issue "svp1a" (Ok (chars "ab")) 0 (NewNonceStore 100))) "6162" 4 7
    [(5, NIssue "svp1b" (Ok (chars "zz"))); (6, NSweep)]).
  intros e v He. rewrite !elem_of_cons in He. destruct He as [->|[->|He]];
    [vm_compute; discriminate|vm_compute; discriminate|inversion He].
Defined.
