(* ===== verification/IPRateLimiter.v ===== *)
(** * The per-IP limiter of auth_challenge (auth/ip_rate_limiter.go)

    A fixed-window counter per address.  [Allow] and [Sweep] take the reading
    of the clock they make.  The entries are reached only through the map, so
    the pointers of the source are values here. *)

From S2P Require Import Prelude GoStrings GoTime.

Definition DefaultIPChallengeRate : Z := 10.
Definition DefaultIPChallengeWindow : Duration := Minute.

Record ipEntry : Type := mkIpEntry { ie_count : Z; ie_windowStart : Time }.

Record IPRateLimiter : Type := mkIPRateLimiter {
  il_max : Z;
  il_window : Duration;
  il_entries : gmap string ipEntry;
}.

Definition NewIPRateLimiter (max : Z) (window : Duration) : IPRateLimiter :=
  mkIPRateLimiter max window ∅.

Definition set_ip (ip : string) (e : ipEntry) (l : IPRateLimiter) : IPRateLimiter :=
  mkIPRateLimiter (il_max l) (il_window l) (<[ip := e]> (il_entries l)).

Definition Allow (ip : string) (now : Time) (l : IPRateLimiter) : bool * IPRateLimiter :=
  if String.eqb ip "" then (true, l)
  else match il_entries l !! ip with
  | None => (true, set_ip ip (mkIpEntry 1 now) l)
  | Some e =>
      if il_window l <=? Sub now (ie_windowStart e) then (true, set_ip ip (mkIpEntry 1 now) l)
      else
        let count := ie_count e + 1 in
        (count <=? il_max l, set_ip ip (mkIpEntry count (ie_windowStart e)) l)
  end.

Definition Sweep (now : Time) (l : IPRateLimiter) : IPRateLimiter :=
  mkIPRateLimiter (il_max l) (il_window l)
    (filter (fun kv => (il_window l <=? Sub now (ie_windowStart kv.2)) = false) (il_entries l)).

Definition Len (l : IPRateLimiter) : Z := Z.of_nat (size (il_entries l)).

(** ** Runs *)

Inductive ip_op : Type := IAllow (ip : string) | ISweep.

Definition ip_step (e : Time * ip_op) (l : IPRateLimiter) : IPRateLimiter :=
  match e.2 with IAllow ip => snd (Allow ip e.1 l) | ISweep => Sweep e.1 l end.

Definition ip_run (h : list (Time * ip_op)) (l : IPRateLimiter) : IPRateLimiter :=
  foldl (fun l e => ip_step e l) l h.

Definition is_call (ip : string) (e : Time * ip_op) : bool :=
  match e.2 with IAllow ip' => String.eqb ip' ip | ISweep => false end.

(** How many calls of [ip] the run makes, and how many of them are allowed. *)
Fixpoint calls (ip : string) (h : list (Time * ip_op)) : Z :=
  match h with [] => 0 | e :: h' => (if is_call ip e then 1 else 0) + calls ip h' end.

Fixpoint allowed (ip : string) (h : list (Time * ip_op)) (l : IPRateLimiter) : Z :=
  match h with
  | [] => 0
  | e :: h' =>
      (if is_call ip e && fst (Allow ip e.1 l) then 1 else 0) + allowed ip h' (ip_step e l)
  end.

(** Every operation of the run happens in [[a, a + w)]. *)
Definition within (a : Time) (w : Duration) (h : list (Time * ip_op)) : bool :=
  forallb (fun e => (a <=? e.1) && (e.1 <? a + w)) h.

(** ** Lemmas *)

Definition counts_ok (l : IPRateLimiter) : Prop :=
  forall ip e, il_entries l !! ip = Some e -> 1 <= ie_count e.

Definition params_ok (l : IPRateLimiter) : Prop := 1 <= il_max l /\ 0 < il_window l <= maxDuration.

Lemma calls_nonneg ip h : 0 <= calls ip h.
Proof. induction h as [|e h IH]; simpl; [lia|]. destruct (is_call ip e); lia. Qed.

Lemma ip_step_params e l : il_max (ip_step e l) = il_max l /\ il_window (ip_step e l) = il_window l.
Proof.
  destruct e as [t [ip|]]; unfold ip_step; cbn [fst snd]; [|done]. unfold Allow.
  destruct (String.eqb ip ""); [done|]. destruct (_ !! ip); [|done]. by destruct (_ <=? _).
Qed.

Lemma window_test l t ws :
  params_ok l -> (il_window l <=? Sub t ws) = (il_window l <=? t - ws).
Proof. intros [_ H]. apply Sub_ge. unfold minDuration. lia. Qed.

(** One operation, seen from one address. *)
Lemma ip_step_entry e l ip :
  ip <> EmptyString -> params_ok l ->
  il_entries (ip_step e l) !! ip
  = match e.2 with
    | IAllow ip' =>
        if String.eqb ip' ip then
          match il_entries l !! ip with
          | Some v => if il_window l <=? e.1 - ie_windowStart v then Some (mkIpEntry 1 e.1)
                      else Some (mkIpEntry (ie_count v + 1) (ie_windowStart v))
          | None => Some (mkIpEntry 1 e.1)
          end
        else il_entries l !! ip
    | ISweep => v ← il_entries l !! ip;
                if il_window l <=? e.1 - ie_windowStart v then None else Some v
    end.
Proof.
  intros Hne Hp. destruct e as [t [ip'|]]; unfold ip_step; cbn [fst snd].
  - unfold Allow. destruct (String.eqb_spec ip' ip) as [->|Hd].
    + rewrite (proj2 (String.eqb_neq _ _) Hne). destruct (il_entries l !! ip) as [v|]; simpl.
      * rewrite window_test by done. case_match; simpl; by rewrite lookup_insert_eq.
      * by rewrite lookup_insert_eq.
    + destruct (String.eqb ip' ""); [done|]. destruct (il_entries l !! ip'); simpl.
      * case_match; simpl; by rewrite lookup_insert_ne.
      * by rewrite lookup_insert_ne.
  - simpl. rewrite map_lookup_filter. destruct (il_entries l !! ip) as [v|]; simpl; [|done].
    rewrite window_test by done.
    case_guard as H; simpl; destruct (il_window l <=? _); naive_solver.
Qed.

Lemma Allow_fst ip t l :
  ip <> EmptyString -> params_ok l ->
  fst (Allow ip t l) = match il_entries l !! ip with
                       | Some v => (il_window l <=? t - ie_windowStart v) || (ie_count v + 1 <=? il_max l)
                       | None => true
                       end.
Proof.
  intros Hne Hp. unfold Allow. rewrite (proj2 (String.eqb_neq _ _) Hne).
  destruct (il_entries l !! ip) as [v|]; [|done]. rewrite window_test by done. by case_match.
Qed.

Lemma ip_step_ok e l : params_ok l -> params_ok (ip_step e l).
Proof. unfold params_ok. by destruct (ip_step_params e l) as [-> ->]. Qed.

Lemma within_cons a w e h :
  within a w (e :: h) = true -> a <= e.1 < a + w /\ within a w h = true.
Proof. unfold within. simpl. rewrite !andb_true_iff, Z.leb_le, Z.ltb_lt. naive_solver. Qed.

Lemma is_call_true ip e : is_call ip e = true -> e.2 = IAllow ip.
Proof. unfold is_call. destruct e.2; [|done]. by intros ->%String.eqb_eq. Qed.

Lemma is_call_false ip e l :
  ip <> EmptyString -> params_ok l -> is_call ip e = false ->
  il_entries (ip_step e l) !! ip = il_entries l !! ip
  \/ exists v, il_entries l !! ip = Some v /\ il_window l <= e.1 - ie_windowStart v
     /\ il_entries (ip_step e l) !! ip = None.
Proof.
  intros Hne Hp. rewrite (ip_step_entry e l ip Hne Hp). unfold is_call.
  destruct e.2; [by intros ->; left|]. intros _.
  destruct (il_entries l !! ip) as [v|]; simpl; [|by left].
  destruct (Z.leb_spec (il_window l) (e.1 - ie_windowStart v)); [right|left]; eauto.
Qed.

(** Inside the current window of an address, exactly the calls that fit in the
    rest of the quota are allowed. *)
Lemma allowed_in_window ip h : forall l v a,
  ip <> EmptyString -> params_ok l -> il_entries l !! ip = Some v -> 1 <= ie_count v ->
  within a (il_window l) h = true -> a <= ie_windowStart v ->
  allowed ip h l = Z.max 0 (Z.min (calls ip h) (il_max l - ie_count v)).
Proof.
  induction h as [|e h IH]; intros l v a Hne Hp Hv Hc Hw Ha; cbn [allowed calls]; [lia|].
  apply within_cons in Hw as [Ht Hw]. pose proof (ip_step_params e l) as [Em Ew].
  pose proof (calls_nonneg ip h).
  assert ((il_window l <=? e.1 - ie_windowStart v) = false) as Hin by lia.
  destruct (is_call ip e) eqn:Ec; simpl.
  - pose proof (ip_step_entry e l ip Hne Hp) as He. rewrite (is_call_true _ _ Ec), String.eqb_refl, Hv, Hin in He.
    rewrite Allow_fst, Hv, Hin by done. simpl.
    rewrite (IH _ _ a Hne (ip_step_ok _ _ Hp) He); simpl; rewrite ?Em, ?Ew; [|lia|done|done].
    destruct (Z.leb_spec (ie_count v + 1) (il_max l)); lia.
  - destruct (is_call_false ip e l Hne Hp Ec) as [He|(v' & Hv' & Hge & _)]; [|simplify_eq; lia].
    rewrite Hv in He. rewrite (IH _ _ a Hne (ip_step_ok _ _ Hp) He); rewrite ?Em, ?Ew; [lia|done..].
Qed.

(** Without a window open, a burst within one window length opens one. *)
Lemma allowed_fresh ip h : forall l a,
  ip <> EmptyString -> params_ok l -> il_entries l !! ip = None ->
  within a (il_window l) h = true -> allowed ip h l = Z.min (calls ip h) (il_max l).
Proof.
  induction h as [|e h IH]; intros l a Hne Hp Hv Hw; cbn [allowed calls]; [destruct Hp; lia|].
  apply within_cons in Hw as [Ht Hw]. pose proof (ip_step_params e l) as [Em Ew].
  pose proof (calls_nonneg ip h).
  destruct (is_call ip e) eqn:Ec; simpl.
  - pose proof (ip_step_entry e l ip Hne Hp) as He. rewrite (is_call_true _ _ Ec), String.eqb_refl, Hv in He.
    rewrite Allow_fst, Hv by done.
    rewrite (allowed_in_window ip h _ _ a Hne (ip_step_ok _ _ Hp) He); simpl; rewrite ?Em, ?Ew; [|lia|done|lia].
    destruct Hp. lia.
  - destruct (is_call_false ip e l Hne Hp Ec) as [He|(v' & Hv' & _)]; [|simplify_eq].
    rewrite Hv in He. rewrite (IH _ a Hne (ip_step_ok _ _ Hp) He); rewrite ?Em, ?Ew; [lia|done].
Qed.

Lemma counts_ok_step e l : params_ok l -> counts_ok l -> counts_ok (ip_step e l).
Proof.
  intros Hp Hok.
  intros ip' v' Hv'. destruct (decide (ip' = EmptyString)) as [->|Hne'].
  - apply (Hok EmptyString). destruct e as [t [i|]]; unfold ip_step in Hv'; cbn [fst snd] in Hv'.
    + unfold Allow in Hv'. destruct (String.eqb_spec i ""); [done|].
      destruct (il_entries l !! i); [case_match|]; simpl in Hv'; by rewrite lookup_insert_ne in Hv'.
    + simpl in Hv'. by apply map_lookup_filter_Some in Hv' as [? _].
  - rewrite (ip_step_entry e l ip' Hne' Hp) in Hv'. pose proof (Hok ip') as Hk.
    destruct (e.2), (il_entries l !! ip') as [w|]; repeat case_match; simplify_eq/=; try done;
      repeat case_match; simplify_eq/=; try specialize (Hk _ eq_refl); lia || eauto.
Qed.

Lemma allowed_any ip h : forall l a,
  ip <> EmptyString -> params_ok l -> counts_ok l -> within a (il_window l) h = true ->
  allowed ip h l <= il_max l
    + match il_entries l !! ip with Some v => Z.max 0 (il_max l - ie_count v) | None => 0 end.
Proof.
  induction h as [|e h IH]; intros l a Hne Hp Hok Hw; cbn [allowed].
  { destruct Hp. case_match; lia. }
  destruct (il_entries l !! ip) as [v|] eqn:Hv; cycle 1.
  { change (allowed ip (e :: h) l <= il_max l + 0).
    rewrite (allowed_fresh ip (e :: h) l a Hne Hp Hv Hw). lia. }
  apply within_cons in Hw as [Ht Hw]. pose proof (ip_step_params e l) as [Em Ew].
  pose proof (ip_step_entry e l ip Hne Hp) as He. pose proof (ip_step_ok e l Hp) as Hp'.
  pose proof (counts_ok_step e l Hp Hok) as Hok'.
  specialize (Hok ip v Hv).
  destruct (is_call ip e) eqn:Ec; simpl.
  - rewrite (is_call_true _ _ Ec), String.eqb_refl, Hv in He. rewrite Allow_fst, Hv by done.
    destruct (Z.leb_spec (il_window l) (e.1 - ie_windowStart v)).
    + rewrite (allowed_in_window ip h _ _ a Hne Hp' He); simpl; rewrite ?Em, ?Ew; [|lia|done|lia].
      destruct Hp. lia.
    + specialize (IH (ip_step e l) a Hne Hp' Hok'). rewrite Ew, Em, He in IH. specialize (IH Hw). simpl in IH |- *.
      destruct (Z.leb_spec (ie_count v + 1) (il_max l)); lia.
  - specialize (IH (ip_step e l) a Hne Hp' Hok'). rewrite Ew, Em in IH. specialize (IH Hw).
    destruct (is_call_false ip e l Hne Hp Ec) as [He'|(v' & _ & _ & He')]; rewrite He' in IH; [by rewrite Hv in IH|lia].
Qed.

Lemma ip_run_ok h : forall l,
  params_ok l -> counts_ok l ->
  params_ok (ip_run h l) /\ counts_ok (ip_run h l)
  /\ il_max (ip_run h l) = il_max l /\ il_window (ip_run h l) = il_window l.
Proof.
  induction h as [|e h IH]; intros l Hp Hc; [done|]. cbn [ip_run foldl].
  destruct (ip_step_params e l) as [Em Ew].
  rewrite <- Em, <- Ew. apply (IH (ip_step e l)); [by apply ip_step_ok|by apply counts_ok_step].
Qed.

(** ** Claims *)

(** The limiter bounds every address: after any history, in any stretch of
    time as long as the window at most twice the limit of an address' calls are
    allowed, and a burst that finds no open window gets exactly the limit (or all
    of its calls, if fewer), however the calls of other addresses and the sweeps
    are interleaved. *)
Theorem allowed_bounded (max : Z) (window : Duration) (h0 h : list (Time * ip_op)) (ip : string)
    (a : Time) (Hmax : 1 <= max) (Hwin : 0 < window <= maxDuration) (Hip : ip <> EmptyString)
    (Hh : within a window h = true) :
  let l := ip_run h0 (NewIPRateLimiter max window) in
  allowed ip h l <= 2 * max
  /\ (il_entries l !! ip = None -> allowed ip h l = Z.min (calls ip h) max).
Proof.
  intros l. destruct (ip_run_ok h0 (NewIPRateLimiter max window)) as (Hp & Hc & Em & Ew).
  { done. } { intros ? ? E. simpl in E. by rewrite lookup_empty in E. }
  fold l in Hp, Hc, Em, Ew. simpl in Em, Ew. rewrite <- Ew in Hh. split.
  - pose proof (allowed_any ip h l a Hip Hp Hc Hh) as H. rewrite Em in H.
    destruct (il_entries l !! ip) as [v|] eqn:Ev; [|lia]. specialize (Hc ip v Ev). lia.
  - intros Hn. rewrite (allowed_fresh ip h l a Hip Hp Hn Hh). by rewrite Em.
Qed.

Lemma allowed_bounded_witness :
  allowed "10.0.0.1" [(60, IAllow "10.0.0.1"); (61, IAllow "10.0.0.2"); (62, IAllow "10.0.0.1");
                      (63, IAllow "10.0.0.1"); (64, ISweep)]
    (ip_run [(0, IAllow "10.0.0.2")] (NewIPRateLimiter 2 60)) = 2.
Proof.
  apply (proj2 (allowed_bounded 2 60 [(0, IAllow "10.0.0.2")]
    [(60, IAllow "10.0.0.1"); (61, IAllow "10.0.0.2"); (62, IAllow "10.0.0.1");
     (63, IAllow "10.0.0.1"); (64, ISweep)] "10.0.0.1" 60
    ltac:(lia) ltac:(unfold maxDuration; lia) ltac:(discriminate) eq_refl)).
  reflexivity.
Defined.
