(* ===== verification/SessionBearers.v ===== *)
(** * Session-bound bearers (auth/session_bearers.go)

    The bearer issued by auth_verify is bound to the MCP session, so that later
    requests of the session resolve to the tenant without an Authorization
    header. *)

From S2P Require Import Prelude GoStrings GoTime.

Record sessionEntry : Type := mkSessionEntry { se_bearer : string; se_expiresAt : Time }.

Record SessionBearers : Type := mkSessionBearers {
  sb_ttl : Duration;
  sb_entries : gmap string sessionEntry;
}.

Definition NewSessionBearers (ttl : Duration) : SessionBearers := mkSessionBearers ttl ∅.

Definition Bind (sessionID bearer : string) (now : Time) (s : SessionBearers) : SessionBearers :=
  if String.eqb sessionID "" || String.eqb bearer "" then s
  else mkSessionBearers (sb_ttl s)
         (<[sessionID := mkSessionEntry bearer (now + sb_ttl s)]> (sb_entries s)).

Definition Lookup (sessionID : string) (now : Time) (s : SessionBearers) : string :=
  if String.eqb sessionID "" then ""
  else match sb_entries s !! sessionID with
  | None => ""
  | Some e => if negb (Before now (se_expiresAt e)) then "" else se_bearer e
  end.

Definition Sweep (now : Time) (s : SessionBearers) : SessionBearers :=
  mkSessionBearers (sb_ttl s)
    (filter (fun kv => Before now (se_expiresAt kv.2) = true) (sb_entries s)).

Definition Len (s : SessionBearers) : Z := Z.of_nat (size (sb_entries s)).

(** A session bound to a bearer, the binding still alive at an instant. *)
Definition bound_to (sid : string) (t : Time) (bearer : string) (s : SessionBearers) : Prop :=
  sid <> EmptyString /\ exists e, sb_entries s !! sid = Some e /\ se_bearer e = bearer /\ t < se_expiresAt e.

Lemma Lookup_bound sid t s bearer : bearer <> EmptyString -> Lookup sid t s = bearer <-> bound_to sid t bearer s.
Proof.
  intros Hb. unfold Lookup, bound_to, Before. destruct (String.eqb_spec sid "") as [->|Hs]; [split; [by intros <-|by intros [? _]]|].
  split.
  - destruct (sb_entries s !! sid) as [e|]; [|by intros <-]. destruct (Z.ltb_spec t (se_expiresAt e)); cbn [negb]; [eauto|by intros <-].
  - intros (_ & e & -> & He & Ht). by rewrite (proj2 (Z.ltb_lt _ _) Ht).
Qed.

(** ** Histories *)

Inductive session_op : Type := SBind (sessionID bearer : string) | SSweep.

Definition session_step (e : Time * session_op) (s : SessionBearers) : SessionBearers :=
  match e.2 with SBind sid b => Bind sid b e.1 s | SSweep => Sweep e.1 s end.

Definition session_run (h : list (Time * session_op)) (s : SessionBearers) : SessionBearers :=
  foldl (fun s e => session_step e s) s h.

(** The specification: the last effective binding of a session wins and holds
    for the time to live; a later binding revives an expired session. *)
Fixpoint bound (ttl : Duration) (h : list (Time * session_op)) (sid : string) (now : Time) : string :=
  match h with
  | [] => ""
  | (t, SBind sid' b) :: h' =>
      if String.eqb sid' sid && negb (String.eqb b "") then
        (if now <? t + ttl then b else "")
      else bound ttl h' sid now
  | (_, SSweep) :: h' => bound ttl h' sid now
  end.

(** Every operation of a history (newest first) happens no later than [now]. *)
Definition past (now : Time) {A} (h : list (Time * A)) : bool := forallb (fun e => e.1 <=? now) h.

Lemma session_run_ttl h s : sb_ttl (session_run h s) = sb_ttl s.
Proof.
  revert s. induction h as [|[t [sid b|]] h IH]; intros s; [done| |]; cbn [session_run foldl];
    unfold session_run in IH; rewrite IH; unfold session_step; cbn [fst snd]; [|done].
  unfold Bind. by destruct (_ || _).
Qed.

Lemma session_run_snoc h e s : session_run (h ++ [e]) s = session_step e (session_run h s).
Proof. unfold session_run. by rewrite foldl_app. Qed.

Lemma Lookup_Sweep sid t now s : t <= now -> Lookup sid now (Sweep t s) = Lookup sid now s.
Proof.
  intros Ht. unfold Lookup, Sweep, Before. simpl. destruct (String.eqb sid ""); [done|].
  rewrite map_lookup_filter. destruct (sb_entries s !! sid) as [e|]; simpl; [|done].
  case_guard as Hg; [done|]. rewrite Z.ltb_lt in Hg. by rewrite (proj2 (Z.ltb_ge now (se_expiresAt e))) by lia.
Qed.

Lemma Lookup_Bind sid sid' b t now s :
  sid <> EmptyString ->
  Lookup sid now (Bind sid' b t s)
  = if String.eqb sid' sid && negb (String.eqb b "") then (if now <? t + sb_ttl s then b else "")
    else Lookup sid now s.
Proof.
  intros Hs. unfold Bind. destruct (String.eqb_spec b ""); simpl; [by rewrite orb_true_r, andb_false_r|].
  rewrite orb_false_r, andb_true_r. destruct (String.eqb_spec sid' ""); simpl.
  - subst. by rewrite (proj2 (String.eqb_neq "" sid)) by done.
  - unfold Lookup, Before. rewrite (proj2 (String.eqb_neq sid "")) by done. simpl.
    destruct (String.eqb_spec sid' sid) as [->|].
    + rewrite lookup_insert_eq. simpl. by destruct (now <? _).
    + by rewrite lookup_insert_ne.
Qed.

(** At any time not before the operations made so far, looking a session up
    returns the bearer of its last binding while that binding is younger than
    the time to live and the empty string otherwise; sweeping is never
    observable, and neither are the bindings of other sessions. *)
Theorem Lookup_last_binding (ttl : Duration) (h : list (Time * session_op)) (sid : string) (now : Time)
    (Hs : sid <> EmptyString) (Hp : past now h = true) :
  Lookup sid now (session_run (rev h) (NewSessionBearers ttl)) = bound ttl h sid now.
Proof.
  induction h as [|[t o] h IH]; cbn [rev].
  - unfold Lookup. simpl. rewrite lookup_empty. by destruct (String.eqb sid "").
  - cbn [past forallb fst] in Hp. apply andb_true_iff in Hp as [Ht Hp]. apply Z.leb_le in Ht.
    rewrite session_run_snoc. unfold session_step. cbn [fst snd].
    destruct o as [sid' b|]; cbn [bound].
    + rewrite Lookup_Bind, session_run_ttl by done. by rewrite (IH Hp).
    + rewrite Lookup_Sweep by done. by apply IH.
Qed.

Lemma Lookup_last_binding_witness :
  Lookup "sess" 50 (session_run [(0, SBind "sess" "tok1"); (10, SBind "other" "tok2"); (20, SBind "sess" "tok3"); (45, SSweep)]
    (NewSessionBearers 40)) = "tok3"%string.
Proof.
  exact (Lookup_last_binding 40
    [(45, SSweep); (20, SBind "sess" "tok3"); (10, SBind "other" "tok2"); (0, SBind "sess" "tok1")] "sess" 50
    ltac:(discriminate) eq_refl).
Defined.
