(* ===== verification/DynamicTenants.v ===== *)
(** * Self-service tenants (auth/dynamic_tenants.go)

    Two maps, bearer to tenant id and tenant id to record.  [Mint] takes the
    outcomes of its two [crypto/rand.Read] calls and the clock reading;
    [Sweep] takes the order in which Go's map iteration visits the bearers,
    which the language leaves open. *)

From S2P Require Import Prelude GoStrings GoTime GoEncoding NonceStore.

Definition DefaultBearerTTL : Duration := 24 * Hour.
Definition bearerLen : nat := 32.
Definition ErrBearerNotFound : goerr := ErrNew "bearer not found".
Definition ErrBearerExpired : goerr := ErrNew "bearer expired".

Record TenantRecord : Type := mkTenantRecord {
  tr_TenantID : string;
  tr_Owner : string;
  tr_AllowedSubaccounts : gset Z;
  tr_KillSwitch : bool;
  tr_ExpiresAt : Time;
}.

Record DynamicTenantStore : Type := mkDynamicTenantStore {
  dt_ttl : Duration;
  dt_defaultAllowedSubaccounts : gset Z;
  dt_byBearer : gmap string string;
  dt_byTenant : gmap string TenantRecord;
}.

Record DynamicTenantStoreConfig : Type := mkDynamicTenantStoreConfig {
  dc_BearerTTL : Duration;
  dc_DefaultAllowedSubaccounts : list Z;
}.

Definition NewDynamicTenantStore (cfg : DynamicTenantStoreConfig) : DynamicTenantStore :=
  mkDynamicTenantStore (dc_BearerTTL cfg) (list_to_set (dc_DefaultAllowedSubaccounts cfg)) ∅ ∅.

Definition cloneAllowed (s : DynamicTenantStore) : gset Z := dt_defaultAllowedSubaccounts s.

Definition with_maps (s : DynamicTenantStore) (b : gmap string string) (t : gmap string TenantRecord)
  : DynamicTenantStore := mkDynamicTenantStore (dt_ttl s) (dt_defaultAllowedSubaccounts s) b t.

Definition Mint (owner : string) (brnd trnd : result bytes) (now : Time)
  : M DynamicTenantStore (string * string * Time) :=
  fun s =>
    if String.eqb owner "" then (Err (Errorf "owner is required to mint a tenant" []), s)
    else match brnd with
    | Err e => (Err (Errorf "generate bearer: %w" [FErr e]), s)
    | Ok bbuf =>
        match trnd with
        | Err e => (Err (Errorf "generate tenant id: %w" [FErr e]), s)
        | Ok tbuf =>
            let bearer := HexEncode bbuf in
            let tenantID := ("auto-" +:+ HexEncode tbuf)%string in
            let expiresAt := now + dt_ttl s in
            let rec := mkTenantRecord tenantID owner (cloneAllowed s) false expiresAt in
            (Ok (bearer, tenantID, expiresAt),
             with_maps s (<[bearer := tenantID]> (dt_byBearer s)) (<[tenantID := rec]> (dt_byTenant s)))
        end
    end.

Definition LookupByTenantID (tenantID : string) (now : Time) (s : DynamicTenantStore)
  : result TenantRecord :=
  match dt_byTenant s !! tenantID with
  | None => Err ErrBearerNotFound
  | Some rec => if negb (Before now (tr_ExpiresAt rec)) then Err ErrBearerExpired else Ok rec
  end.

Definition LookupByBearer (bearer : string) (now : Time) (s : DynamicTenantStore) : result TenantRecord :=
  match dt_byBearer s !! bearer with
  | None => Err ErrBearerNotFound
  | Some tenantID =>
      match dt_byTenant s !! tenantID with
      | None => Err ErrBearerNotFound
      | Some rec => if negb (Before now (tr_ExpiresAt rec)) then Err ErrBearerExpired else Ok rec
      end
  end.

(** The body of the loop of [Sweep], for one bearer. *)
Definition sweep_one (now : Time) (s : DynamicTenantStore) (bearer : string) : DynamicTenantStore :=
  match dt_byBearer s !! bearer with
  | None => s
  | Some tenantID =>
      match dt_byTenant s !! tenantID with
      | Some rec =>
          if negb (Before now (tr_ExpiresAt rec)) then
            with_maps s (delete bearer (dt_byBearer s)) (delete tenantID (dt_byTenant s))
          else s
      | None => with_maps s (delete bearer (dt_byBearer s)) (delete tenantID (dt_byTenant s))
      end
  end.

Definition Sweep (now : Time) (order : list string) (s : DynamicTenantStore) : DynamicTenantStore :=
  foldl (sweep_one now) s order.

Definition Len (s : DynamicTenantStore) : Z := Z.of_nat (size (dt_byTenant s)).

(** A record in force at an instant: stored under its bearer, its expiry still
    ahead. *)
Definition bears (bearer : string) (t : Time) (rec : TenantRecord) (s : DynamicTenantStore) : Prop :=
  exists tid, dt_byBearer s !! bearer = Some tid /\ dt_byTenant s !! tid = Some rec /\ t < tr_ExpiresAt rec.

Lemma LookupByBearer_bears bearer t s rec : LookupByBearer bearer t s = Ok rec <-> bears bearer t rec s.
Proof.
  unfold LookupByBearer, bears, Before. split.
  - destruct (dt_byBearer s !! bearer) as [tid|]; [|done]. destruct (dt_byTenant s !! tid) as [r|] eqn:Er; [|done].
    destruct (Z.ltb_spec t (tr_ExpiresAt r)); [|done]. intros [= <-]. eauto.
  - intros (tid & -> & -> & H). by rewrite (proj2 (Z.ltb_lt _ _) H).
Qed.

Lemma bears_fun bearer t t' rec rec' s : bears bearer t rec s -> bears bearer t' rec' s -> rec = rec'.
Proof. intros (tid & H1 & H2 & _) (tid' & H1' & H2' & _). congruence. Qed.

(** ** Histories *)

Inductive tenant_op : Type :=
| TMint (owner : string) (brnd trnd : result bytes)
| TSweep (order : list string).

Definition tenant_step (e : Time * tenant_op) (s : DynamicTenantStore) : DynamicTenantStore :=
  match e.2 with
  | TMint owner brnd trnd => snd (Mint owner brnd trnd e.1 s)
  | TSweep order => Sweep e.1 order s
  end.

Definition tenant_run (h : list (Time * tenant_op)) (s : DynamicTenantStore) : DynamicTenantStore :=
  foldl (fun s e => tenant_step e s) s h.

(** The bearer and the record a successful [Mint] hands out. *)
Definition mints (cfg : DynamicTenantStoreConfig) (e : Time * tenant_op) : option (string * TenantRecord) :=
  match e.2 with
  | TMint owner (Ok bbuf) (Ok tbuf) =>
      if String.eqb owner "" then None
      else Some (HexEncode bbuf,
                 mkTenantRecord ("auto-" +:+ HexEncode tbuf)%string owner
                   (list_to_set (dc_DefaultAllowedSubaccounts cfg)) false (e.1 + dc_BearerTTL cfg))
  | _ => None
  end.

Definition minted (cfg : DynamicTenantStoreConfig) (h : list (Time * tenant_op))
  : list (string * TenantRecord) := omap (mints cfg) h.

(** ** Sweeping *)

(** What sweeping at [now] may do: forget expired tenants with their bearers
    and bearers without a tenant, and nothing else. *)
Record swept (now : Time) (s s' : DynamicTenantStore) : Prop := mkSwept {
  swept_cfg : dt_ttl s' = dt_ttl s /\ dt_defaultAllowedSubaccounts s' = dt_defaultAllowedSubaccounts s;
  swept_tenant : dt_byTenant s' ⊆ dt_byTenant s;
  swept_bearer : dt_byBearer s' ⊆ dt_byBearer s;
  swept_live : forall tid rec, dt_byTenant s !! tid = Some rec -> now < tr_ExpiresAt rec ->
    dt_byTenant s' !! tid = Some rec;
  swept_pair : forall b tid rec, dt_byBearer s !! b = Some tid -> dt_byTenant s' !! tid = Some rec ->
    dt_byBearer s' !! b = Some tid;
}.

Lemma swept_refl now s : swept now s s.
Proof. by constructor. Qed.

Lemma swept_trans now s1 s2 s3 : swept now s1 s2 -> swept now s2 s3 -> swept now s1 s3.
Proof.
  intros [[A1 A1'] B1 C1 D1 E1] [[A2 A2'] B2 C2 D2 E2]. constructor.
  - split; congruence.
  - by transitivity (dt_byTenant s2).
  - by transitivity (dt_byBearer s2).
  - eauto.
  - intros b tid rec Hb Ht. eapply E2; [|done]. eapply E1; [done|]. by eapply lookup_weaken.
Qed.

Lemma swept_drop now s b tid :
  dt_byBearer s !! b = Some tid ->
  (forall rec, dt_byTenant s !! tid = Some rec -> tr_ExpiresAt rec <= now) ->
  swept now s (with_maps s (delete b (dt_byBearer s)) (delete tid (dt_byTenant s))).
Proof.
  intros Hb Hexp. constructor; simpl; [done|apply delete_subseteq..| |].
  - intros tid' rec Ht Hlt. rewrite lookup_delete_ne; [done|]. intros ->. specialize (Hexp _ Ht). lia.
  - intros b' tid' rec Hb' Ht. apply lookup_delete_Some in Ht as [Hne _].
    rewrite lookup_delete_ne; [done|]. intros ->. simplify_eq.
Qed.

Lemma sweep_one_swept now s b : swept now s (sweep_one now s b).
Proof.
  unfold sweep_one. destruct (dt_byBearer s !! b) as [tid|] eqn:Hb; [|apply swept_refl].
  destruct (dt_byTenant s !! tid) as [rec|] eqn:Ht.
  - unfold Before. destruct (Z.ltb_spec now (tr_ExpiresAt rec)); simpl; [apply swept_refl|].
    apply swept_drop; [done|]. intros; by simplify_eq.
  - apply swept_drop; [done|]. intros; by simplify_eq.
Qed.

Lemma Sweep_swept now order s : swept now s (Sweep now order s).
Proof.
  revert s. induction order as [|b order IH]; intros s; [apply swept_refl|].
  eapply swept_trans; [apply sweep_one_swept|apply IH].
Qed.

(** A bearer the loop has visited is gone or points at a live tenant. *)
Definition visited_ok (now : Time) (s : DynamicTenantStore) (b : string) : Prop :=
  forall tid, dt_byBearer s !! b = Some tid ->
    exists rec, dt_byTenant s !! tid = Some rec /\ now < tr_ExpiresAt rec.

Lemma visited_ok_swept now s s' b : swept now s s' -> visited_ok now s b -> visited_ok now s' b.
Proof.
  intros Hs Hv tid Hb. destruct (Hv tid) as (rec & Ht & Hl).
  - by eapply lookup_weaken; [|apply Hs].
  - exists rec. split; [by eapply swept_live|done].
Qed.

Lemma sweep_one_visited now s b : visited_ok now (sweep_one now s b) b.
Proof.
  unfold visited_ok, sweep_one. destruct (dt_byBearer s !! b) as [tid|] eqn:Hb; [|congruence].
  destruct (dt_byTenant s !! tid) as [rec|] eqn:Ht; [|by intros ?; simpl; rewrite lookup_delete_eq].
  unfold Before. destruct (Z.ltb_spec now (tr_ExpiresAt rec)); simpl.
  - intros tid' ?. simplify_eq. eauto.
  - by intros ?; rewrite lookup_delete_eq.
Qed.

Lemma Sweep_visited now order : forall s b, b ∈ order -> visited_ok now (Sweep now order s) b.
Proof.
  induction order as [|b0 order IH]; intros s b Hb; [by apply elem_of_nil in Hb|].
  cbn [Sweep foldl]. apply elem_of_cons in Hb as [->|Hb]; [|by apply IH].
  eapply visited_ok_swept; [apply Sweep_swept|apply sweep_one_visited].
Qed.

(** The tenants whose record survives are decided by the bearers, too. *)
Lemma Sweep_tenant_dropped now order : forall s tid rec,
  dt_byTenant s !! tid = Some rec -> dt_byTenant (Sweep now order s) !! tid = None ->
  exists b, dt_byBearer s !! b = Some tid /\ b ∈ order.
Proof.
  induction order as [|b0 order IH]; intros s tid rec Ht Hn; [simpl in Hn; congruence|].
  cbn [Sweep foldl] in Hn.
  destruct (dt_byTenant (sweep_one now s b0) !! tid) as [rec'|] eqn:E.
  - destruct (IH _ _ _ E Hn) as (b & Hb & Hin). exists b. split; [|set_solver].
    by eapply lookup_weaken; [|apply sweep_one_swept].
  - exists b0. split; [|set_solver]. unfold sweep_one in E.
    destruct (dt_byBearer s !! b0) as [tid0|]; [|congruence].
    assert (forall m, (delete tid0 (dt_byTenant s) = m -> m !! tid = None -> tid0 = tid)) as Hd.
    { intros m <- Hm%lookup_delete_None. naive_solver. }
    destruct (dt_byTenant s !! tid0); [destruct (negb _); [|congruence]|]; f_equal; by eapply Hd.
Qed.

(** ** The maps against the history of mints *)

Section Authentic.
Context (cfg : DynamicTenantStoreConfig).

Record tracks (now : Time) (ms : list (string * TenantRecord)) (s : DynamicTenantStore) : Prop := mkTracks {
  tracks_ttl : dt_ttl s = dc_BearerTTL cfg;
  tracks_allowed : dt_defaultAllowedSubaccounts s = list_to_set (dc_DefaultAllowedSubaccounts cfg);
  tracks_bearer : forall b tid, dt_byBearer s !! b = Some tid ->
    exists rec, (b, rec) ∈ ms /\ tr_TenantID rec = tid;
  tracks_tenant : forall tid rec, dt_byTenant s !! tid = Some rec ->
    tr_TenantID rec = tid /\ exists b, (b, rec) ∈ ms;
  tracks_minted : forall b rec, (b, rec) ∈ ms ->
    (dt_byTenant s !! tr_TenantID rec = Some rec /\ dt_byBearer s !! b = Some (tr_TenantID rec))
    \/ (dt_byTenant s !! tr_TenantID rec = None /\ tr_ExpiresAt rec <= now);
}.

Lemma tracks_sweep now ms s s' : swept now s s' -> tracks now ms s -> tracks now ms s'.
Proof.
  intros Hs [A A' B C D]. destruct (swept_cfg _ _ _ Hs) as [E1 E2]. constructor; [congruence..| | |].
  - intros b tid Hb. apply B. by eapply lookup_weaken; [|apply Hs].
  - intros tid rec Ht. apply C. by eapply lookup_weaken; [|apply Hs].
  - intros b rec Hin. destruct (D b rec Hin) as [[Ht Hb]|[Hn He]].
    + destruct (dt_byTenant s' !! tr_TenantID rec) as [rec'|] eqn:E.
      * left. pose proof (lookup_weaken _ _ _ _ E (swept_tenant _ _ _ Hs)). simplify_eq.
        split; [done|]. by eapply swept_pair.
      * right. split; [done|]. destruct (Z.le_gt_cases (tr_ExpiresAt rec) now); [done|].
        pose proof (swept_live _ _ _ Hs _ _ Ht). naive_solver lia.
    + right. split; [|done]. by eapply lookup_weaken_None; [|apply Hs].
Qed.

Lemma tracks_later now now' ms s : now <= now' -> tracks now ms s -> tracks now' ms s.
Proof.
  intros Hle [A A' B C D]. constructor; [done..|]. intros b rec Hin.
  destruct (D b rec Hin) as [?|[? ?]]; [by left|right; split; [done|lia]].
Qed.

Lemma tracks_mint now ms s b rec :
  tracks now ms s -> b ∉ ms.*1 -> tr_TenantID rec ∉ (tr_TenantID ∘ snd <$> ms) ->
  tracks now ((b, rec) :: ms)
    (with_maps s (<[b := tr_TenantID rec]> (dt_byBearer s)) (<[tr_TenantID rec := rec]> (dt_byTenant s))).
Proof.
  intros [A A' B C D] Hb Ht. constructor; simpl; [done..| | |].
  - intros b' tid [[-> <-]|[Hne Hb']]%lookup_insert_Some; [exists rec; set_solver|].
    destruct (B _ _ Hb') as (r & ? & ?). exists r. set_solver.
  - intros tid r [[<- <-]|[Hne Hr]]%lookup_insert_Some; [split; [done|exists b; set_solver]|].
    destruct (C _ _ Hr) as (? & b' & ?). split; [done|]. exists b'. set_solver.
  - intros b' r [E|Hin]%elem_of_cons.
    + simplify_eq. left. by rewrite !lookup_insert_eq.
    + assert (b <> b') by (intros ->; apply Hb, list_elem_of_fmap; exists (b', r); done).
      assert (tr_TenantID rec <> tr_TenantID r).
      { intros E. apply Ht. rewrite E. apply list_elem_of_fmap. by exists (b', r). }
      rewrite !lookup_insert_ne by done. by apply D.
Qed.

Lemma tenant_step_tracks e now ms s :
  now <= e.1 -> tracks now ms s ->
  (forall b rec, mints cfg e = Some (b, rec) ->
    b ∉ ms.*1 /\ tr_TenantID rec ∉ (tr_TenantID ∘ snd <$> ms)) ->
  tracks e.1 (match mints cfg e with Some m => m :: ms | None => ms end) (tenant_step e s).
Proof.
  intros Hle HT Hfresh. apply (tracks_later _ _ _ _ Hle) in HT.
  destruct e as [t [owner br tr|order]]; unfold tenant_step; cbn [fst snd] in *.
  - unfold mints in *. cbn [fst snd] in *. unfold Mint.
    destruct (String.eqb owner "") eqn:Eo; [by destruct br, tr|].
    destruct br as [bb|]; [|done]. destruct tr as [tb|]; [|done]. cbn [snd].
    destruct HT as [A A' ? ? ?]. unfold cloneAllowed. rewrite A, A'.
    destruct (Hfresh _ _ eq_refl). by apply (tracks_mint t ms s _ (mkTenantRecord _ _ _ _ _)).
  - unfold mints. cbn [snd]. eapply tracks_sweep; [apply Sweep_swept|done].
Qed.

Lemma tenant_run_tracks h : forall now ms s,
  clock_ok now h = true -> tracks now ms s ->
  NoDup (rev (minted cfg h) ++ ms).*1 -> NoDup (tr_TenantID ∘ snd <$> (rev (minted cfg h) ++ ms)) ->
  tracks (last_time now h) (rev (minted cfg h) ++ ms) (tenant_run h s).
Proof.
  induction h as [|[t o] h IH]; intros now ms s Hc HT N1 N2; [done|].
  cbn [clock_ok] in Hc. apply andb_true_iff in Hc as [Hle%Z.leb_le Hc].
  cbn [tenant_run foldl last_time fst].
  set (ms' := match mints cfg (t, o) with Some m => m :: ms | None => ms end).
  assert (rev (minted cfg ((t, o) :: h)) ++ ms = rev (minted cfg h) ++ ms') as E.
  { subst ms'. unfold minted. cbn [omap list_omap]. destruct (mints cfg (t, o)); [|done].
    cbn [rev]. by rewrite <- app_assoc. }
  rewrite E in *. apply IH; [done| |done..].
  apply (tenant_step_tracks (t, o) now); [done..|]. intros b rec Em. subst ms'. rewrite Em in N1, N2.
  rewrite fmap_app in N1, N2. apply NoDup_app in N1 as (_ & _ & N1). apply NoDup_app in N2 as (_ & _ & N2).
  cbn [fmap list_fmap] in N1, N2. apply NoDup_cons in N1 as [? _]. by apply NoDup_cons in N2 as [? _].
Qed.

End Authentic.

(** ** Claims *)

(** Bearers are authentic.  Along any history of mints and sweeps, in any
    iteration order and under a clock that does not run backwards, and provided
    the random generator never repeats a bearer or a tenant id, a bearer
    resolves to a tenant record exactly when that very record was minted with
    that bearer and has not expired; the same for the lookup by tenant id. *)
Theorem bearer_authentic (cfg : DynamicTenantStoreConfig) (t0 now : Time)
    (h : list (Time * tenant_op)) (rec : TenantRecord)
    (Hclock : clock_ok t0 h = true) (Hnow : last_time t0 h <= now)
    (Hb : NoDup (minted cfg h).*1) (Ht : NoDup (tr_TenantID ∘ snd <$> minted cfg h)) :
  let s := tenant_run h (NewDynamicTenantStore cfg) in
  (forall b, LookupByBearer b now s = Ok rec <-> (b, rec) ∈ minted cfg h /\ now < tr_ExpiresAt rec)
  /\ (forall tid, LookupByTenantID tid now s = Ok rec
      <-> tr_TenantID rec = tid /\ rec ∈ (minted cfg h).*2 /\ now < tr_ExpiresAt rec).
Proof.
  intros s. assert (rev (minted cfg h) ≡ₚ minted cfg h) as P by (symmetry; apply Permutation_rev).
  assert (tracks cfg now (rev (minted cfg h)) s) as [_ _ B C D].
  { apply (tracks_later cfg _ _ _ _ Hnow). rewrite <- (app_nil_r (rev _)).
    apply tenant_run_tracks; rewrite ?app_nil_r; [done| |by rewrite P..].
    constructor; [done..| | |]; simpl; intros ? ? Hin; [by rewrite lookup_empty in Hin..|].
    by apply elem_of_nil in Hin. }
  unfold LookupByBearer, LookupByTenantID, Before. split; intros k.
  - rewrite <- (elem_of_Permutation_proper _ _ _ P). split.
    + destruct (dt_byBearer s !! k) as [tid|] eqn:Ek; [|done].
      destruct (dt_byTenant s !! tid) as [r|] eqn:Et; [|done].
      destruct (Z.ltb_spec now (tr_ExpiresAt r)); simpl; [|done]. intros [= ->]. split; [|done].
      destruct (B _ _ Ek) as (r' & Hin & <-). by destruct (D _ _ Hin) as [[? ?]|[? ?]]; simplify_eq.
    + intros [Hin Hlt]. destruct (D _ _ Hin) as [[Et Ek]|[_ ?]]; [|lia].
      by rewrite Ek, Et, (proj2 (Z.ltb_lt _ _) Hlt).
  - rewrite <- (elem_of_Permutation_proper _ _ _ (fmap_Permutation snd _ _ P)). split.
    + destruct (dt_byTenant s !! k) as [r|] eqn:Et; [|done].
      destruct (Z.ltb_spec now (tr_ExpiresAt r)); simpl; [|done]. intros [= ->].
      destruct (C _ _ Et) as (? & b & Hin). split_and!; [done| |done]. apply list_elem_of_fmap. by exists (b, rec).
    + intros (<- & ((b & r) & -> & Hin)%list_elem_of_fmap & Hlt).
      cbn [snd] in *. destruct (D _ _ Hin) as [[Et _]|[_ ?]]; [|lia].
      by rewrite Et, (proj2 (Z.ltb_lt _ _) Hlt).
Qed.

Definition demo_cfg : DynamicTenantStoreConfig := mkDynamicTenantStoreConfig DefaultBearerTTL [0; 1].

Lemma bearer_authentic_witness :
  LookupByBearer "6162" 10 (tenant_run
    [(0, TMint "svp1a" (Ok (chars "ab")) (Ok (chars "t"))); (5, TSweep ["6162"%string]);
     (6, TMint "svp1b" (Ok (chars "cd")) (Ok (chars "u")))] (NewDynamicTenantStore demo_cfg))
  = Ok (mkTenantRecord "auto-74" "svp1a" {[0; 1]} false DefaultBearerTTL).
Proof.
  apply (bearer_authentic demo_cfg 0 10
    [(0, TMint "svp1a" (Ok (chars "ab")) (Ok (chars "t"))); (5, TSweep ["6162"%string]);
     (6, TMint "svp1b" (Ok (chars "cd")) (Ok (chars "u")))]
    (mkTenantRecord "auto-74" "svp1a" {[0; 1]} false DefaultBearerTTL) eq_refl
    ltac:(vm_compute; discriminate)
    ltac:(apply (bool_decide_unpack _); vm_compute; exact I)
    ltac:(apply (bool_decide_unpack _); vm_compute; exact I)).
  split; [left|reflexivity].
Defined.

(** One pass of [Sweep] keeps exactly the bearers that point at a live
    tenant and drops exactly the expired tenants that some bearer points at;
    the order in which the map is iterated has no influence. *)
Theorem Sweep_exact (now : Time) (order : list string) (s : DynamicTenantStore)
    (Horder : forall b, b ∈ order <-> is_Some (dt_byBearer s !! b)) :
  (forall b tid, dt_byBearer (Sweep now order s) !! b = Some tid
     <-> dt_byBearer s !! b = Some tid
         /\ exists rec, dt_byTenant s !! tid = Some rec /\ now < tr_ExpiresAt rec)
  /\ (forall tid rec, dt_byTenant (Sweep now order s) !! tid = Some rec
     <-> dt_byTenant s !! tid = Some rec
         /\ (now < tr_ExpiresAt rec \/ forall b, dt_byBearer s !! b <> Some tid)).
Proof.
  pose proof (Sweep_swept now order s) as Hs.
  assert (forall b tid, dt_byBearer s !! b = Some tid -> visited_ok now (Sweep now order s) b) as V.
  { intros b tid Hb. apply Sweep_visited, Horder. eauto. }
  split; [intros b tid|intros tid rec]; split.
  - intros Hb. pose proof (lookup_weaken _ _ _ _ Hb (swept_bearer _ _ _ Hs)) as Hb'.
    split; [done|]. destruct (V _ _ Hb' _ Hb) as (rec & Ht & Hl). exists rec. split; [|done].
    by eapply lookup_weaken; [|apply Hs].
  - intros [Hb (rec & Ht & Hl)]. eapply swept_pair; [done..|]. by eapply swept_live.
  - intros Ht. pose proof (lookup_weaken _ _ _ _ Ht (swept_tenant _ _ _ Hs)). split; [done|].
    destruct (Z.lt_ge_cases now (tr_ExpiresAt rec)); [by left|right]. intros b Hb.
    destruct (V _ _ Hb tid) as (rec' & Ht' & Hl); [by eapply swept_pair|]. simplify_eq. lia.
  - intros [Ht [Hl|Hn]]; [by eapply swept_live|].
    destruct (dt_byTenant (Sweep now order s) !! tid) as [rec'|] eqn:E.
    + pose proof (lookup_weaken _ _ _ _ E (swept_tenant _ _ _ Hs)). by simplify_eq.
    + destruct (Sweep_tenant_dropped _ _ _ _ _ Ht E) as (b & Hb & _). by destruct (Hn b).
Qed.

Definition demo_tenants : DynamicTenantStore :=
  tenant_run [(0, TMint "svp1a" (Ok (chars "ab")) (Ok (chars "t")));
              (60, TMint "svp1b" (Ok (chars "cd")) (Ok (chars "u")))]
    (NewDynamicTenantStore (mkDynamicTenantStoreConfig 100 [0])).

Lemma Sweep_exact_witness :
  dt_byBearer (Sweep 120 ["6364"; "6162"]%string demo_tenants) !! "6364"%string = Some "auto-75"%string.
Proof.
  apply (proj2 (proj1 (Sweep_exact 120 ["6364"; "6162"]%string demo_tenants
    ltac:(intros b; change (dt_byBearer demo_tenants) with (<["6364" := "auto-75"]> (<["6162" := "auto-74"]> ∅) : gmap string string);
          rewrite !lookup_insert_is_Some, lookup_empty, !elem_of_cons, elem_of_nil;
          pose proof (@is_Some_None string); destruct (decide (b = "6364"%string)), (decide (b = "6162"%string)); naive_solver)) "6364" "auto-75")).
  split; [reflexivity|]. exists (mkTenantRecord "auto-75" "svp1b" {[0]} false 160). by split.
Defined.
