(* ===== verification/Policy.v ===== *)
(** * The guardrail layer (policy/policy.go, idempotency.go, rate.go, audit.go)

    The policy engine with its static table and the optional dynamic source,
    the broadcast-idempotency table, the per-key token buckets and the audit
    log.  [DynamicSource] is the interface the engine consults; its
    implementation over the self-service tenant store is the adapter of
    cmd/mcp-server/wire.go. *)

From S2P Require Import Prelude GoStrings GoTime NonceStore DynamicTenants.

(** ** The engine *)

Record TenantPolicy : Type := mkTenantPolicy {
  tp_TenantID : string;
  tp_Owner : string;
  tp_AllowedSubaccounts : gset Z;
  tp_KillSwitch : bool;
}.

(** The interface [DynamicSource]; an implementation may read the clock. *)
Class DynamicSource (D : Type) : Type :=
  LookupTenantPolicy : string -> Time -> D -> option TenantPolicy.

Record Engine (D : Type) : Type := mkEngine {
  perTenant : gmap string TenantPolicy;
  dynamic : option D;
}.
Arguments mkEngine {D} _ _.
Arguments perTenant {D} _.
Arguments dynamic {D} _.

Definition NewEngine {D} (tenants : list TenantPolicy) : Engine D :=
  mkEngine (foldl (fun m t => <[tp_TenantID t := t]> m) ∅ tenants) None.

Definition SetDynamicSource {D} (src : D) (e : Engine D) : Engine D := mkEngine (perTenant e) (Some src).

Definition Tenant {D} `{DynamicSource D} (tenantID : string) (now : Time) (e : Engine D) : result TenantPolicy :=
  match perTenant e !! tenantID with
  | Some tp => Ok tp
  | None =>
      match d ← dynamic e; LookupTenantPolicy tenantID now d with
      | Some tp => Ok tp
      | None => Err (Errorf "unknown tenant %q" [FStr tenantID])
      end
  end.

Definition CheckTenant {D} `{DynamicSource D} (tenantID : string) (now : Time) (e : Engine D) : error :=
  tp ← Tenant tenantID now e;
  check (tp_KillSwitch tp) (Errorf "kill switch active for tenant %s" [FStr tenantID]).

Definition CheckOwner {D} `{DynamicSource D} (tenantID requestedOwner : string) (now : Time) (e : Engine D)
  : error :=
  tp ← Tenant tenantID now e;
  check (negb (String.eqb requestedOwner "") && negb (String.eqb requestedOwner (tp_Owner tp)))
    (Errorf "owner %s not allowed for tenant %s (allowed: %s)"
       [FStr requestedOwner; FStr tenantID; FStr (tp_Owner tp)]).

Definition CheckSubaccount {D} `{DynamicSource D} (tenantID : string) (subaccount : Z) (now : Time)
    (e : Engine D) : error :=
  tp ← Tenant tenantID now e;
  check (negb (bool_decide (subaccount ∈ tp_AllowedSubaccounts tp)))
    (Errorf "subaccount %d not allowed for tenant %s" [FInt subaccount; FStr tenantID]).

(** ** The adapter of cmd/mcp-server/wire.go *)

Definition policy_of_record (rec : TenantRecord) : TenantPolicy :=
  mkTenantPolicy (tr_TenantID rec) (tr_Owner rec) (tr_AllowedSubaccounts rec) (tr_KillSwitch rec).

#[export] Instance dynamicTenantAdapter : DynamicSource DynamicTenantStore :=
  fun tenantID now store =>
    match LookupByTenantID tenantID now store with
    | Err _ => None
    | Ok rec => Some (policy_of_record rec)
    end.

(** The policy in force for a tenant at an instant: a static one, or that of a
    self-service record whose expiry is still ahead. *)
Definition in_force (id : string) (t : Time) (tp : TenantPolicy) (e : Engine DynamicTenantStore) : Prop :=
  perTenant e !! id = Some tp
  \/ perTenant e !! id = None
     /\ exists st rec, dynamic e = Some st /\ dt_byTenant st !! id = Some rec /\ t < tr_ExpiresAt rec /\ tp = policy_of_record rec.

Lemma Tenant_in_force id t e tp : Tenant id t e = Ok tp <-> in_force id t tp e.
Proof.
  unfold Tenant, in_force, LookupTenantPolicy, dynamicTenantAdapter, LookupByTenantID, Before.
  destruct (perTenant e !! id) as [tp'|]; [naive_solver|]. destruct (dynamic e) as [st|]; cbn [mbind option_bind]; [|naive_solver].
  destruct (dt_byTenant st !! id) as [rec|] eqn:Er; [|naive_solver].
  destruct (Z.ltb_spec t (tr_ExpiresAt rec)); cbn [negb].
  - split; [|naive_solver]. intros [= <-]. right. split; [done|]. by exists st, rec.
  - split; [done|]. intros [|(_ & st' & rec' & [= <-] & H1 & H2 & _)]; [done|]. rewrite Er in H1. simplify_eq. lia.
Qed.

(** A policy does not change while it is in force. *)
Lemma in_force_fun id t t' tp tp' e : in_force id t tp e -> in_force id t' tp' e -> tp = tp'.
Proof. unfold in_force. naive_solver. Qed.

Lemma CheckTenant_ok id t e : CheckTenant id t e = Ok tt -> exists tp, in_force id t tp e /\ tp_KillSwitch tp = false.
Proof.
  unfold CheckTenant. destruct (Tenant id t e) as [tp|] eqn:Et; [|done]. cbn [mbind result_bind]. intros H.
  exists tp. split; [by apply Tenant_in_force|]. by destruct (tp_KillSwitch tp).
Qed.

Lemma CheckSubaccount_ok id n t e :
  CheckSubaccount id n t e = Ok tt -> exists tp, in_force id t tp e /\ n ∈ tp_AllowedSubaccounts tp.
Proof.
  unfold CheckSubaccount. destruct (Tenant id t e) as [tp|] eqn:Et; [|done]. cbn [mbind result_bind]. intros H.
  exists tp. split; [by apply Tenant_in_force|]. by destruct (bool_decide_reflect (n ∈ tp_AllowedSubaccounts tp)).
Qed.

Lemma CheckOwner_ok id ow t e :
  CheckOwner id ow t e = Ok tt -> exists tp, in_force id t tp e /\ (ow <> EmptyString -> ow = tp_Owner tp).
Proof.
  unfold CheckOwner. destruct (Tenant id t e) as [tp|] eqn:Et; [|done]. cbn [mbind result_bind]. intros H.
  exists tp. split; [by apply Tenant_in_force|]. intros Hne. destruct (String.eqb_spec ow ""); [done|].
  by destruct (String.eqb_spec ow (tp_Owner tp)).
Qed.

(** ** Broadcast idempotency *)

Definition DefaultIdempotencyTTL : Duration := 10 * Minute.

Record Idempotency : Type := mkIdempotency { id_ttl : Duration; id_seen : gmap string Time }.

Definition NewIdempotency (ttl : Duration) : Idempotency :=
  mkIdempotency (if ttl =? 0 then DefaultIdempotencyTTL else ttl) ∅.

Definition claim_key (tenantID clientID : string) : string := (tenantID +:+ "|" +:+ clientID)%string.

Definition Claim (tenantID clientID : string) (now : Time) : M Idempotency unit :=
  fun i =>
    if String.eqb clientID "" then (Err (Errorf "missing client_id" []), i)
    else
      let key := claim_key tenantID clientID in
      let claim := (Ok tt, mkIdempotency (id_ttl i) (<[key := now + id_ttl i]> (id_seen i))) in
      match id_seen i !! key with
      | Some exp =>
          if After exp now then
            (Err (Errorf "duplicate broadcast: client_id %s already used for tenant %s"
                    [FStr clientID; FStr tenantID]), i)
          else claim
      | None => claim
      end.

(** A client id nobody holds at an instant: never granted, or past its time to
    live. *)
Definition unclaimed (tenantID clientID : string) (t : Time) (i : Idempotency) : Prop :=
  clientID <> EmptyString /\ forall exp, id_seen i !! claim_key tenantID clientID = Some exp -> exp <= t.

Lemma Claim_unclaimed tenantID clientID t i : fst (Claim tenantID clientID t i) = Ok tt <-> unclaimed tenantID clientID t i.
Proof.
  unfold Claim, unclaimed, After. destruct (String.eqb_spec clientID ""); [naive_solver|].
  destruct (id_seen i !! claim_key tenantID clientID) as [exp|]; [|naive_solver].
  destruct (Z.ltb_spec t exp); cbn [fst]; split; try done; [|intros _; split; [done|by intros ? [= <-]]].
  intros [_ H1]. specialize (H1 exp eq_refl). lia.
Qed.

(** ** Rate limiting

    golang.org/x/time/rate is a library: its limiter, its constructor and its
    [Allow] at a clock reading are parameters. *)

Class RateLib : Type := {
  rate_Limit : Type;                (* rate.Limit / float64 *)
  rate_is_zero : rate_Limit -> bool;
  rate_zero : rate_Limit;            (* the untyped constant 0 *)
  rate_ten : rate_Limit;
  rate_Limiter : Type;
  rate_NewLimiter : rate_Limit -> Z -> rate_Limiter;
  rate_Allow : Time -> rate_Limiter -> bool * rate_Limiter;
}.

Section Rate.
Context {RL : RateLib}.

Record RateLimiter : Type := mkRateLimiter {
  rl_rps : rate_Limit;
  rl_burst : Z;
  rl_perKey : gmap string rate_Limiter;
}.

Definition NewRateLimiter (rps : rate_Limit) (burst : Z) : RateLimiter :=
  mkRateLimiter (if rate_is_zero rps then rate_ten else rps) (if burst =? 0 then 5 else burst) ∅.

Definition AllowKey (key : string) (now : Time) (r : RateLimiter) : bool * RateLimiter :=
  let lim := default (rate_NewLimiter (rl_rps r) (rl_burst r)) (rl_perKey r !! key) in
  let '(ok, lim') := rate_Allow now lim in
  (ok, mkRateLimiter (rl_rps r) (rl_burst r) (<[key := lim']> (rl_perKey r))).

End Rate.

(** ** The audit log *)

(** Go's zero [time.Time], 0001-01-01 00:00 UTC. *)
Definition zeroTime : Time := - 62135596800 * Second.

Record AuditEntry : Type := mkAuditEntry {
  ae_Time : Time;
  ae_TenantID : string;
  ae_Owner : string;
  ae_Tool : string;
  ae_ClientID : string;
  ae_TxHash : string;
  ae_MsgType : string;
  ae_Subaccount : Z;
  ae_NotionalUSD : string;
  ae_Code : Z;
  ae_Outcome : string;
  ae_Reason : string;
}.

(** The rows written so far, oldest first: one JSON line each. *)
Abbreviation Auditor := (list AuditEntry) (only parsing).

(** [json.Marshal] of an entry fails only for a year outside [0, 9999]. *)
Definition marshal_ok (e : AuditEntry) : bool :=
  let y := fst (civil (ae_Time e)) in (0 <=? y) && (y <=? 9999).

(** [w] is the outcome of the write; a failed write leaves no row. *)
Definition Append (e : AuditEntry) (now : Time) (w : result unit) : M Auditor unit :=
  fun log =>
    let e' := if ae_Time e =? zeroTime
              then mkAuditEntry now (ae_TenantID e) (ae_Owner e) (ae_Tool e) (ae_ClientID e) (ae_TxHash e)
                     (ae_MsgType e) (ae_Subaccount e) (ae_NotionalUSD e) (ae_Code e) (ae_Outcome e) (ae_Reason e)
              else e in
    if negb (marshal_ok e') then
      (Err (Errorf "marshal audit entry: %w" [FErr (ErrNew "Time.MarshalJSON: year outside of range [0,9999]")]), log)
    else match w with
    | Err x => (Err x, log)
    | Ok _ => (Ok tt, log ++ [e'])
    end.

(** ** Histories of claims *)

Record claim_ev : Type := mkClaimEv { ce_tenant : string; ce_client : string }.

Definition claim_step (e : Time * claim_ev) (i : Idempotency) : Idempotency :=
  snd (Claim (ce_tenant e.2) (ce_client e.2) e.1 i).

Definition claim_run (h : list (Time * claim_ev)) (i : Idempotency) : Idempotency :=
  foldl (fun i e => claim_step e i) i h.

(** The claims of a history that were granted. *)
Fixpoint granted (h : list (Time * claim_ev)) (i : Idempotency) : list (Time * claim_ev) :=
  match h with
  | [] => []
  | e :: h' => (if is_ok (fst (Claim (ce_tenant e.2) (ce_client e.2) e.1 i)) then [e] else [])
               ++ granted h' (claim_step e i)
  end.

(** Tenant ids of the self-service store contain no separator. *)
Definition no_bar (s : string) : bool := forallb (fun c => negb (Ascii.eqb c "|")) (chars s).

Lemma no_bar_spec s : no_bar s = true -> "|"%char ∉ chars s.
Proof.
  unfold no_bar. rewrite forallb_forall. intros H Hin%list_elem_of_In. specialize (H _ Hin).
  by rewrite Ascii.eqb_refl in H.
Qed.

Lemma claim_key_inj t c t' c' :
  no_bar t = true -> no_bar t' = true -> claim_key t c = claim_key t' c' -> t = t' /\ c = c'.
Proof.
  intros H%no_bar_spec H'%no_bar_spec E. apply (f_equal (fun s => Cut s "|")) in E.
  unfold claim_key in E.
  change ("|" +:+ c)%string with (String "|" c) in E. change ("|" +:+ c')%string with (String "|" c') in E.
  rewrite !Cut_app in E by done. by simplify_eq.
Qed.

(** The table entry of one pair is the youngest granted claim of the pair. *)
Definition claims_inv (t c : string) (now : Time) (G : list (Time * claim_ev)) (i : Idempotency) : Prop :=
  match id_seen i !! claim_key t c with
  | None => forall t', (t', mkClaimEv t c) ∉ G
  | Some exp => (exp - id_ttl i, mkClaimEv t c) ∈ G /\ exp - id_ttl i <= now
                /\ forall t', (t', mkClaimEv t c) ∈ G -> t' + id_ttl i <= exp
  end.

Lemma Claim_cases t c now i :
  (Claim t c now i).2 = i /\ is_ok (Claim t c now i).1 = false
  \/ Claim t c now i = (Ok tt, mkIdempotency (id_ttl i) (<[claim_key t c := now + id_ttl i]> (id_seen i))).
Proof.
  unfold Claim. destruct (String.eqb c ""); [by left|].
  destruct (id_seen i !! claim_key t c); [|by right]. destruct (After _ _); [by left|by right].
Qed.

Lemma claim_step_inv t c now G e i :
  no_bar t = true -> no_bar (ce_tenant e.2) = true -> now <= e.1 ->
  claims_inv t c now G i ->
  claims_inv t c e.1
    (G ++ if is_ok (fst (Claim (ce_tenant e.2) (ce_client e.2) e.1 i)) then [e] else []) (claim_step e i)
  /\ id_ttl (claim_step e i) = id_ttl i.
Proof.
  intros Ht Hb Hle HI. destruct e as [s [t' c']]. cbn [fst snd ce_tenant ce_client] in *. unfold claim_step.
  cbn [fst snd ce_tenant ce_client].
  destruct (Claim_cases t' c' s i) as [[-> ->]| ->].
  - rewrite app_nil_r. split; [|done]. unfold claims_inv in *.
    destruct (id_seen i !! claim_key t c); [|done]. destruct HI as (? & ? & ?). split_and!; [done|lia|done].
  - cbn [snd fst is_ok id_ttl]. split; [|done]. unfold claims_inv in *. cbn [id_ttl id_seen].
    destruct (decide (t' = t /\ c' = c)) as [[-> ->]|Hne].
    + rewrite lookup_insert_eq. replace (s + id_ttl i - id_ttl i) with s by lia.
      split_and!; [set_solver|lia|]. intros u [Hu|Hu]%elem_of_app.
      * destruct (id_seen i !! claim_key t c) as [exp|]; [|by apply HI in Hu].
        destruct HI as (_ & ? & HI). specialize (HI _ Hu). lia.
      * apply list_elem_of_singleton in Hu. simplify_eq. lia.
    + assert (claim_key t' c' <> claim_key t c).
      { intros E. apply claim_key_inj in E; [by apply Hne|done..]. }
      rewrite lookup_insert_ne by done.
      destruct (id_seen i !! claim_key t c).
      * destruct HI as (? & ? & HI). split_and!; [set_solver|lia|]. intros u [Hu|Hu]%elem_of_app; [by apply HI|].
        apply list_elem_of_singleton in Hu. naive_solver.
      * intros u [Hu|Hu]%elem_of_app; [by apply HI in Hu|]. apply list_elem_of_singleton in Hu. naive_solver.
Qed.

Lemma claim_run_inv t c h : forall now G i,
  no_bar t = true -> forallb (fun e => no_bar (ce_tenant e.2)) h = true -> clock_ok now h = true ->
  claims_inv t c now G i ->
  claims_inv t c (last_time now h) (G ++ granted h i) (claim_run h i)
  /\ id_ttl (claim_run h i) = id_ttl i.
Proof.
  induction h as [|e h IH]; intros now G i Ht Hb Hc HI; [by rewrite app_nil_r|].
  cbn [forallb] in Hb. apply andb_true_iff in Hb as [Hb1 Hb]. destruct e as [s ev].
  cbn [clock_ok] in Hc. apply andb_true_iff in Hc as [Hle%Z.leb_le Hc].
  destruct (claim_step_inv t c now G (s, ev) i Ht Hb1 Hle HI) as [HI' Ettl].
  cbn [claim_run foldl last_time fst granted]. rewrite (app_assoc G), <- Ettl.
  apply IH; [done..|]. exact HI'.
Qed.

(** ** Claims *)


