(* ===== verification/GoBig.v ===== *)
(** * math/big.Rat

    [RatSetString] is [new(big.Rat).SetString(s)]: a fraction [a/b] of two
    integers, or a decimal, hexadecimal, octal or binary mantissa with an
    optional radix point, underscores between digits, and a decimal or binary
    exponent.  The scanner [nat_scan] is [nat.scan] with base 0.  A [rat] is a
    normalised numerator and positive denominator. *)

From S2P Require Import Prelude GoStrings GoNum.

Record rat : Type := mkRat { Num : Z; Denom : Z }.

(** [z.norm()] *)
Definition rat_norm (a b : Z) : rat := let g := Z.gcd a b in mkRat (a / g) (b / g).

(** What the scanner saw last: a separator, a digit, or anything else. *)
Inductive prevch : Type := PSep | PDigit | POther.

Definition alnum_val (c : ascii) : option Z :=
  let n := code c in
  if (48 <=? n) && (n <=? 57) then Some (n - 48)
  else if (97 <=? n) && (n <=? 122) then Some (n - 87)
  else if (65 <=? n) && (n <=? 90) then Some (n - 55)
  else None.

Record scan_st : Type := mkScan {
  sc_val : Z;          (* the digits so far *)
  sc_count : Z;        (* how many digits *)
  sc_dp : option Z;    (* digits before the radix point, once seen *)
  sc_prev : prevch;
  sc_inval : bool;     (* a misplaced separator was seen *)
}.

(** The digit loop: the state at the first byte that does not belong to the
    number, and the rest of the input. *)
Fixpoint scan_loop (b : Z) (fracOk : bool) (st : scan_st) (s : bytes) : scan_st * bytes :=
  match s with
  | [] => (st, [])
  | ch :: s' =>
      if Ascii.eqb ch "." && fracOk then
        scan_loop b false
          (mkScan (sc_val st) (sc_count st) (Some (sc_count st)) POther
             (sc_inval st || match sc_prev st with PSep => true | _ => false end)) s'
      else if Ascii.eqb ch "_" then
        scan_loop b fracOk
          (mkScan (sc_val st) (sc_count st) (sc_dp st) PSep
             (sc_inval st || match sc_prev st with PDigit => false | _ => true end)) s'
      else match alnum_val ch with
      | Some d =>
          if d <? b then
            scan_loop b fracOk
              (mkScan (sc_val st * b + d) (sc_count st + 1) (sc_dp st) PDigit (sc_inval st)) s'
          else (st, s)
      | None => (st, s)
      end
  end.

(** The base prefix: base, whether the prefix is the bare octal [0], the initial
    count and previous character, and the rest. *)
Definition scan_prefix (fracOk : bool) (s : bytes) : Z * bool * Z * prevch * bytes :=
  match s with
  | ch :: s' =>
      if Ascii.eqb ch "0" then
        match s' with
        | [] => (10, false, 1, PDigit, [])
        | c2 :: s'' =>
            if Ascii.eqb c2 "b" || Ascii.eqb c2 "B" then (2, false, 0, PDigit, s'')
            else if Ascii.eqb c2 "o" || Ascii.eqb c2 "O" then (8, false, 0, PDigit, s'')
            else if Ascii.eqb c2 "x" || Ascii.eqb c2 "X" then (16, false, 0, PDigit, s'')
            else if fracOk then (10, false, 1, PDigit, s')
            else (8, true, 0, PDigit, s')
        end
      else (10, false, 0, POther, s)
  | [] => (10, false, 0, POther, [])
  end.

(** [z.scan(r, 0, fracOk)]: the value, the base, the digit count (minus the
    number of fraction digits when there is a radix point), the rest. *)
Definition nat_scan (fracOk : bool) (s : bytes) : option (Z * Z * Z * bytes) :=
  let '(b, octal0, count, prev, s1) := scan_prefix fracOk s in
  let '(st, rest) := scan_loop b fracOk (mkScan 0 count None prev false) s1 in
  if sc_inval st || match sc_prev st with PSep => true | _ => false end then None
  else if sc_count st =? 0 then (if octal0 then Some (0, 10, 1, rest) else None)
  else Some (sc_val st, b,
             match sc_dp st with Some dp => dp - sc_count st | None => sc_count st end, rest).

(** [scanSign]: fails on empty input. *)
Definition scan_sign (s : bytes) : option (bool * bytes) :=
  match s with
  | [] => None
  | c :: s' => if Ascii.eqb c "-" then Some (true, s')
               else if Ascii.eqb c "+" then Some (false, s') else Some (false, s)
  end.

(** [new(big.Int).SetString(s, 0)] *)
Definition BigSetString0 (s : bytes) : option Z :=
  match scan_sign s with
  | None => None
  | Some (neg, s1) =>
      match nat_scan false s1 with
      | Some (v, _, _, []) => Some (if neg then - v else v)
      | _ => None
      end
  end.

(** The digits of an exponent: digits, whether the separators are well placed. *)
Fixpoint exp_loop (prev : prevch) (inval : bool) (acc : bytes) (s : bytes) : bytes * prevch * bool * bytes :=
  match s with
  | ch :: s' =>
      if is_digit ch then exp_loop PDigit inval (acc ++ [ch]) s'
      else if Ascii.eqb ch "_" then
        exp_loop PSep (inval || match prev with PDigit => false | _ => true end) acc s'
      else (acc, prev, inval, s)
  | [] => (acc, prev, inval, [])
  end.

(** [scanExponent(r, true, true)]: exponent, its base, the rest. *)
Definition scan_exponent (s : bytes) : option (Z * Z * bytes) :=
  let with_base (base : Z) (s : bytes) :=
    let '(sgn, s1) :=
      match s with
      | c :: s' => if Ascii.eqb c "-" then (["-"%char], s')
                   else if Ascii.eqb c "+" then ([], s') else ([], s)
      | [] => ([], s)
      end in
    let '(ds, prev, inval, rest) := exp_loop POther false [] s1 in
    match ds with
    | [] => None
    | _ => match ParseInt (str (sgn ++ ds)) with
           | Err _ => None
           | Ok e => if inval || match prev with PSep => true | _ => false end then None
                     else Some (e, base, rest)
           end
    end in
  match s with
  | [] => Some (0, 10, [])
  | c :: s' =>
      if Ascii.eqb c "e" || Ascii.eqb c "E" then with_base 10 s'
      else if Ascii.eqb c "p" || Ascii.eqb c "P" then with_base 2 s'
      else Some (0, 10, s)
  end.

(** The powers of five and two of a mantissa with [fcount] and exponent. *)
Definition rat_exps (base fcount exp ebase : Z) : Z * Z :=
  let '(exp2, exp5) :=
    if fcount <? 0 then
      (if base =? 10 then (fcount, fcount)
       else if base =? 2 then (fcount, 0)
       else if base =? 8 then (fcount * 3, 0)
       else (fcount * 4, 0))
    else (0, 0) in
  if ebase =? 10 then (exp2 + exp, exp5 + exp) else (exp2 + exp, exp5).

Definition rat_scale (neg : bool) (m exp2 exp5 : Z) : option rat :=
  if 1000000 <? Z.abs exp5 then None
  else if (exp2 <? - 10000000) || (10000000 <? exp2) then None
  else
    let a := m * 5 ^ Z.max 0 exp5 * 2 ^ Z.max 0 exp2 in
    let b := 5 ^ Z.max 0 (- exp5) * 2 ^ Z.max 0 (- exp2) in
    Some (rat_norm (if neg then - a else a) b).

(** [new(big.Rat).SetString(s)] *)
Definition RatSetString (s : string) : option rat :=
  match cut_l "/" (chars s) with
  | (a, Some b) =>
      match BigSetString0 a with
      | None => None
      | Some n =>
          match nat_scan false b with
          | Some (d, _, _, []) => if d =? 0 then None else Some (rat_norm n d)
          | _ => None
          end
      end
  | (l, None) =>
      match scan_sign l with
      | None => None
      | Some (neg, s1) =>
          match nat_scan true s1 with
          | None => None
          | Some (m, base, fcount, s2) =>
              match scan_exponent s2 with
              | Some (exp, ebase, []) =>
                  if m =? 0 then Some (mkRat 0 1)
                  else let '(exp2, exp5) := rat_exps base fcount exp ebase in rat_scale neg m exp2 exp5
              | _ => None
              end
          end
      end
  end.

(** ** Operations on rationals *)

Definition rat_frac (a b : Z) : rat := rat_norm a b.
Definition rat_mul (x y : rat) : rat := rat_norm (Num x * Num y) (Denom x * Denom y).

(** ** Decimal numbers *)

Definition rat_ok (r : rat) : Prop := 0 < Denom r /\ Z.gcd (Num r) (Denom r) = 1.

(** [r] is the number [n/d]. *)
Definition rat_is (r : rat) (n d : Z) : Prop := Num r * d = n * Denom r.

(** The normal form, by the cofactors of the greatest common divisor. *)
Lemma rat_norm_cofactors a b :
  0 < b -> exists p q g, 0 < g /\ 0 < q /\ a = p * g /\ b = q * g /\ rat_norm a b = mkRat p q.
Proof.
  intros Hb. pose proof (Z.gcd_nonneg a b). assert (Z.gcd a b <> 0) by (rewrite Z.gcd_eq_0; lia).
  destruct (Z.gcd_divide_r a b) as [q Hq], (Z.gcd_divide_l a b) as [p Hp].
  exists p, q, (Z.gcd a b). split_and!; [lia|apply (Z.mul_pos_cancel_r q (Z.gcd a b)); lia|done|done|]. unfold rat_norm. cbv zeta.
  set (g := Z.gcd a b) in *. f_equal; [rewrite Hp|rewrite Hq]; by rewrite Z.div_mul.
Qed.

Lemma rat_norm_ok a b : 0 < b -> rat_ok (rat_norm a b).
Proof.
  intros Hb. split.
  - destruct (rat_norm_cofactors a b Hb) as (p & q & g & ? & ? & ? & ? & ->). done.
  - unfold rat_norm. cbn [Num Denom]. apply Z.gcd_div_gcd; [|done]. rewrite Z.gcd_eq_0. lia.
Qed.

Lemma rat_norm_is a b : 0 < b -> rat_is (rat_norm a b) a b.
Proof.
  intros Hb. destruct (rat_norm_cofactors a b Hb) as (p & q & g & ? & ? & Ea & Eb & ->).
  unfold rat_is. cbn [Num Denom]. subst. lia.
Qed.

Lemma rat_mul_ok x y : rat_ok x -> rat_ok y -> rat_ok (rat_mul x y).
Proof. intros [] []. apply rat_norm_ok. nia. Qed.

(** Truncated division of a scaled numerator does not see the normalisation. *)
Lemma rat_is_quot r n d k :
  0 < Denom r -> 0 < d -> rat_is r n d -> Z.quot (Num r * k) (Denom r) = Z.quot (n * k) d.
Proof.
  unfold rat_is. intros Hr Hd E.
  rewrite <- (Z.quot_mul_cancel_r (Num r * k) (Denom r) d), <- (Z.quot_mul_cancel_r (n * k) d (Denom r)) by lia.
  f_equal; [|lia]. replace (Num r * k * d) with (Num r * d * k) by lia. rewrite E. lia.
Qed.

Lemma digit_alnum c : is_digit c = true -> alnum_val c = digit_val c /\ Ascii.eqb c "_" = false /\ Ascii.eqb c "." = false.
Proof.
  intros (d & Hd & ->)%is_digit_ex. assert (0 <= d <= 9) as Hd' by done. rewrite digit_val_char by done.
  unfold digit_char. assert (d = 0 \/ d = 1 \/ d = 2 \/ d = 3 \/ d = 4 \/ d = 5 \/ d = 6 \/ d = 7 \/ d = 8 \/ d = 9)
    as Hc by lia. by repeat destruct Hc as [->|Hc]; [..|subst].
Qed.

Lemma scan_loop_digits l : forall st fr v rest,
  Forall (fun c => is_digit c = true) l -> parse_digits_acc (sc_val st) l = Some v ->
  scan_loop 10 fr st (l ++ rest)
  = scan_loop 10 fr (mkScan v (sc_count st + Z.of_nat (List.length l)) (sc_dp st)
                       (match l with [] => sc_prev st | _ => PDigit end) (sc_inval st)) rest.
Proof.
  induction l as [|c l IH]; intros st fr v rest Hl Hv.
  - cbn in Hv. simplify_eq. cbn [app List.length]. rewrite Z.add_0_r. by destruct st.
  - apply Forall_cons in Hl as [Hc Hl]. destruct (digit_alnum c Hc) as (Ea & Eu & Ep).
    cbn [app scan_loop]. rewrite Ep, Eu, Ea. cbn [andb].
    cbn [parse_digits_acc] in Hv. pose proof (is_digit_ex c Hc) as (d & Hd & ->).
    rewrite digit_val_char in Hv |- * by done. rewrite (proj2 (Z.ltb_lt d 10)) by lia.
    rewrite (IH (mkScan (sc_val st * 10 + d) (sc_count st + 1) (sc_dp st) PDigit (sc_inval st)) fr v rest Hl Hv).
    cbn [sc_count sc_dp sc_inval sc_prev List.length]. rewrite Nat2Z.inj_succ. do 2 f_equal; [lia|by destruct l].
Qed.

(** A leading zero that starts no base prefix is a digit like the others. *)
Lemma scan_prefix_decimal c l :
  is_digit c = true ->
  match l with c2 :: _ => is_digit c2 || Ascii.eqb c2 "." | [] => true end = true ->
  exists cnt prev s1, scan_prefix true (c :: l) = (10, false, cnt, prev, s1)
  /\ scan_loop 10 true (mkScan 0 cnt None prev false) s1
     = scan_loop 10 true (mkScan 0 0 None POther false) (c :: l).
Proof.
  intros Hc Hl. cbn [scan_prefix]. destruct (Ascii.eqb_spec c "0") as [->|_].
  - destruct l as [|c2 l]; [by eexists _, _, _|].
    assert (forall x, is_digit x || Ascii.eqb x "." = false -> Ascii.eqb c2 x = false) as Hx.
    { intros x Hx. destruct (Ascii.eqb_spec c2 x); [subst|done]. congruence. }
    rewrite !Hx by reflexivity. by eexists _, _, _.
  - by eexists _, _, _.
Qed.

Lemma nat_scan_decimal i f m :
  i <> [] -> Forall (fun c => is_digit c = true) i -> Forall (fun c => is_digit c = true) f ->
  parse_digits (i ++ f) = Some m ->
  nat_scan true (i ++ "."%char :: f) = Some (m, 10, - Z.of_nat (List.length f), []).
Proof.
  intros Hne Hi Hf Hm. destruct i as [|c i]; [done|]. unfold nat_scan.
  destruct (scan_prefix_decimal c (i ++ "."%char :: f)) as (cnt & prev & s1 & E1 & E2).
  { by apply Forall_cons in Hi as [? _]. }
  { destruct i as [|c2 i]; [done|]. cbn [app].
    apply Forall_cons in Hi as [_ Hi]. apply Forall_cons in Hi as [-> _]. done. }
  change ((c :: i) ++ "."%char :: f) with (c :: i ++ "."%char :: f).
  rewrite E1. cbv iota beta. rewrite E2. change (c :: i ++ "."%char :: f) with ((c :: i) ++ "."%char :: f).
  unfold parse_digits in Hm. rewrite parse_digits_acc_app in Hm.
  destruct (parse_digits_acc 0 (c :: i)) as [v|] eqn:Ev; [|done].
  rewrite (scan_loop_digits (c :: i) _ true v) by done.
  cbn [scan_loop Ascii.eqb Bool.eqb andb sc_inval sc_val sc_count sc_dp sc_prev orb].
  rewrite <- (app_nil_r f). rewrite (scan_loop_digits f _ false m) by done.
  cbn [scan_loop sc_inval sc_val sc_count sc_dp sc_prev]. rewrite app_nil_r.
  rewrite (proj2 (Z.eqb_neq _ 0)) by (cbn [List.length]; lia).
  replace (match match f with [] => POther | _ => PDigit end with PSep => true | _ => false end) with false
    by (by destruct f). cbn [orb]. repeat f_equal. lia.
Qed.

Lemma pow_10_split k : 0 <= k -> 10 ^ k = 5 ^ k * 2 ^ k.
Proof. intros H. by rewrite <- Z.pow_mul_l. Qed.

Lemma rat_scale_decimal m (k : nat) :
  (Z.of_nat k <= 1000000) ->
  rat_scale false m (- Z.of_nat k) (- Z.of_nat k) = Some (rat_norm m (10 ^ Z.of_nat k)).
Proof.
  intros Hk. unfold rat_scale. rewrite (proj2 (Z.ltb_ge _ _)) by lia.
  rewrite (proj2 (Z.ltb_ge _ _)), (proj2 (Z.ltb_ge _ (- Z.of_nat k))) by lia. cbn [orb].
  rewrite !Z.max_l, !Z.max_r, Z.opp_involutive by lia.
  rewrite !Z.pow_0_r, !Z.mul_1_r. by rewrite pow_10_split by lia.
Qed.

Lemma scan_sign_digit c l : is_digit c = true -> scan_sign (c :: l) = Some (false, c :: l).
Proof.
  intros Hc. cbn [scan_sign].
  by rewrite !(digit_neq c) by done.
Qed.

(** A decimal number, with a fraction part that may be empty, is read exactly. *)
Lemma RatSetString_decimal i f m :
  i <> [] -> Forall (fun c => is_digit c = true) i -> Forall (fun c => is_digit c = true) f ->
  parse_digits (i ++ f) = Some m -> Z.of_nat (List.length f) <= 1000000 ->
  RatSetString (str (i ++ "."%char :: f)) = Some (rat_norm m (10 ^ Z.of_nat (List.length f))).
Proof.
  intros Hne Hi Hf Hm Hk. unfold RatSetString. rewrite chars_str, cut_l_notin.
  2: { rewrite elem_of_app, elem_of_cons. intros [H|[H|H]]; [|done|].
       - by apply (not_elem_digits "/" i) in H.
       - by apply (not_elem_digits "/" f) in H. }
  pose proof (nat_scan_decimal i f m Hne Hi Hf Hm) as Hn.
  destruct i as [|c i]; [done|]. apply Forall_cons in Hi as [Hc Hi].
  change ((c :: i) ++ "."%char :: f) with (c :: i ++ "."%char :: f) in Hn |- *.
  rewrite scan_sign_digit by done. rewrite Hn. cbn [scan_exponent].
  destruct (Z.eqb_spec m 0) as [->|_].
  - unfold rat_norm. rewrite Z.gcd_0_l, Z.div_0_l by (pose proof (Z.pow_pos_nonneg 10 (Z.of_nat (List.length f))); lia).
    rewrite Z.abs_eq, Z.div_same by (pose proof (Z.pow_pos_nonneg 10 (Z.of_nat (List.length f))); lia). done.
  - unfold rat_exps. cbn [Z.eqb Pos.eqb]. rewrite <- (rat_scale_decimal m) by done.
    destruct (Z.ltb_spec (- Z.of_nat (List.length f)) 0); rewrite ?Z.add_0_r; [done|].
    replace (Z.of_nat (List.length f)) with 0 by lia. done.
Qed.
