(* ===== verification/Markets.v ===== *)
(** * The market cache (markets/cache.go)

    [Refresh] joins the chain's clob pairs with its perpetuals and swaps the
    table in; the two queries' answers are arguments.  The records of the chain
    carry the fields the join reads. *)

From S2P Require Import Prelude GoStrings GoTime.

(** clobtypes.ClobPair; [cp_perpetual] is [GetPerpetualClobMetadata().PerpetualId],
    [None] for a pair without perpetual metadata. *)
Record ClobPair : Type := mkClobPair {
  cp_Id : Z;
  cp_perpetual : option Z;
  cp_QuantumConversionExponent : Z;
  cp_StepBaseQuantums : Z;
  cp_SubticksPerTick : Z;
}.

(** perptypes.Perpetual, the fields of its [Params]. *)
Record Perpetual : Type := mkPerpetual { pp_Id : Z; pp_Ticker : string; pp_AtomicResolution : Z }.

Record MarketMeta : Type := mkMarketMeta {
  mm_Ticker : string;
  mm_ClobPairID : Z;
  mm_AtomicResolution : Z;
  mm_QuantumConversionExponent : Z;
  mm_StepBaseQuantums : Z;
  mm_SubticksPerTick : Z;
}.

Record perpMeta : Type := mkPerpMeta { pm_ticker : string; pm_atomicResolution : Z }.

Record Cache : Type := mkCache { refreshEvery : Duration; byTicker : gmap string MarketMeta }.

Definition NewCache (refresh : Duration) : Cache :=
  mkCache (if refresh =? 0 then 60 * Second else refresh) ∅.

Definition perp_index (perps : list Perpetual) : gmap Z perpMeta :=
  foldl (fun m p => <[pp_Id p := mkPerpMeta (pp_Ticker p) (pp_AtomicResolution p)]> m) ∅ perps.

(** The body of the join loop: the table so far and the dropped pair ids. *)
Definition join_step (perpByID : gmap Z perpMeta) (acc : gmap string MarketMeta * list Z) (cp : ClobPair)
  : gmap string MarketMeta * list Z :=
  let '(next, dropped) := acc in
  match cp_perpetual cp with
  | None => (next, dropped ++ [cp_Id cp])
  | Some perpetualId =>
      match perpByID !! perpetualId with
      | None => (next, dropped ++ [cp_Id cp])
      | Some perp =>
          (<[pm_ticker perp :=
              mkMarketMeta (pm_ticker perp) (cp_Id cp) (pm_atomicResolution perp)
                (cp_QuantumConversionExponent cp) (cp_StepBaseQuantums cp) (cp_SubticksPerTick cp)]> next,
           dropped)
      end
  end.

Definition Refresh (clobPairAll : result (list ClobPair)) (allPerpetuals : result (list Perpetual))
  : M Cache unit :=
  fun c =>
    match clobPairAll with
    | Err e => (Err (Errorf "clob.Query/ClobPairAll: %w" [FErr e]), c)
    | Ok clobPairs =>
        match allPerpetuals with
        | Err e => (Err (Errorf "perpetuals.Query/AllPerpetuals: %w" [FErr e]), c)
        | Ok perps =>
            let '(next, _) := foldl (join_step (perp_index perps)) (∅, []) clobPairs in
            (Ok tt, mkCache (refreshEvery c) next)
        end
    end.

(** [Run] until its context is done: the initial refresh and the ticks that
    fired, each with the answers of its two queries. *)
Definition Run (initial : result (list ClobPair) * result (list Perpetual))
    (ticks : list (result (list ClobPair) * result (list Perpetual))) : M Cache unit :=
  fun c =>
    match Refresh initial.1 initial.2 c with
    | (Err e, c') => (Err (Errorf "initial market cache refresh: %w" [FErr e]), c')
    | (Ok _, c') => (Ok tt, foldl (fun c t => snd (Refresh t.1 t.2 c)) c' ticks)
    end.

Definition ResolveTicker (ticker : string) (c : Cache) : option MarketMeta := byTicker c !! ticker.

Definition Size (c : Cache) : Z := Z.of_nat (size (byTicker c)).

(** ** The join *)

Definition market_of (cp : ClobPair) (p : Perpetual) : MarketMeta :=
  mkMarketMeta (pp_Ticker p) (cp_Id cp) (pp_AtomicResolution p)
    (cp_QuantumConversionExponent cp) (cp_StepBaseQuantums cp) (cp_SubticksPerTick cp).

(** The specification: the pairs of the two query results that belong together. *)
Definition joins (cps : list ClobPair) (perps : list Perpetual) (m : MarketMeta) : Prop :=
  exists cp p, cp ∈ cps /\ p ∈ perps /\ cp_perpetual cp = Some (pp_Id p) /\ m = market_of cp p.

Lemma perp_index_lookup perps id :
  NoDup (pp_Id <$> perps) -> forall v,
  perp_index perps !! id = Some v
  <-> exists p, p ∈ perps /\ pp_Id p = id /\ v = mkPerpMeta (pp_Ticker p) (pp_AtomicResolution p).
Proof.
  unfold perp_index. induction perps as [|p perps IH] using rev_ind; intros Hnd v.
  - cbn. rewrite lookup_empty. split; [done|]. intros (p & Hp & _). by apply elem_of_nil in Hp.
  - rewrite fmap_app in Hnd. apply NoDup_app in Hnd as (Hnd & Hd & _). specialize (IH Hnd).
    rewrite foldl_app. cbn [foldl]. rewrite lookup_insert. destruct (decide (pp_Id p = id)) as [<-|Hne].
    + split.
      * intros [= <-]. exists p. set_solver.
      * intros (q & [Hq|Hq]%elem_of_app & E & ->); [|by apply list_elem_of_singleton in Hq as ->].
        exfalso. apply (Hd (pp_Id q)); [by apply list_elem_of_fmap_2|rewrite E; set_solver].
    + rewrite IH. set_solver.
Qed.

Section Join.
Context (perps : list Perpetual) (Hperps : NoDup (pp_Id <$> perps)).

Lemma join_step_lookup acc cp t m :
  fst (join_step (perp_index perps) acc cp) !! t = Some m
  <-> (exists p, p ∈ perps /\ cp_perpetual cp = Some (pp_Id p) /\ pp_Ticker p = t /\ m = market_of cp p)
      \/ (fst acc !! t = Some m
          /\ forall p, p ∈ perps -> cp_perpetual cp = Some (pp_Id p) -> pp_Ticker p <> t).
Proof.
  destruct acc as [next dropped]. unfold join_step.
  destruct (cp_perpetual cp) as [pid|] eqn:Ep; [|cbn [fst]; naive_solver].
  destruct (perp_index perps !! pid) as [v|] eqn:Ev; cbn [fst].
  - apply perp_index_lookup in Ev as (p & Hp & <- & ->); [|done]. cbn [pm_ticker pm_atomicResolution].
    assert (forall q, q ∈ perps -> Some (pp_Id p) = Some (pp_Id q) -> q = p) as U.
    { intros q Hq [= E]. apply list_elem_of_lookup in Hq as [i Hi]. apply list_elem_of_lookup in Hp as [j Hj].
      assert (i = j) as ->; [|congruence].
      eapply (NoDup_lookup (pp_Id <$> perps)); [done|..]; rewrite list_lookup_fmap; [by rewrite Hi|rewrite Hj; simpl; by f_equal]. }
    rewrite lookup_insert. destruct (decide (pp_Ticker p = t)) as [<-|Hne].
    + split.
      * intros [= <-]. left. by exists p.
      * intros [(q & Hq & E & Et & ->)|[_ H]]; [by rewrite (U q Hq E)|by destruct (H p Hp eq_refl)].
    + split.
      * intros H. right. split; [done|]. intros q Hq E. by rewrite (U q Hq E).
      * intros [(q & Hq & E & Et & ->)|[H _]]; [|done]. by rewrite (U q Hq E) in Et.
  - assert (forall q, q ∈ perps -> pp_Id q <> pid) as Hn.
    { intros q Hq <-. assert (exists v, perp_index perps !! pp_Id q = Some v) as [v Hv].
      { eexists. apply perp_index_lookup; [done|]. by exists q. } congruence. }
    split; [intros H; right; split; [done|]; intros q Hq [= E]; by destruct (Hn q Hq)|].
    intros [(q & Hq & [= E] & _)|[H _]]; [by destruct (Hn q Hq)|done].
Qed.

End Join.

(** Two matched pairs never compete for one ticker. *)
Definition tickers_unique (cps : list ClobPair) (perps : list Perpetual) : Prop :=
  forall m m', joins cps perps m -> joins cps perps m' -> mm_Ticker m = mm_Ticker m' -> m = m'.

Lemma join_fold_lookup perps (Hp : NoDup (pp_Id <$> perps)) cps t m :
  tickers_unique cps perps ->
  fst (foldl (join_step (perp_index perps)) (∅, []) cps) !! t = Some m
  <-> joins cps perps m /\ mm_Ticker m = t.
Proof.
  induction cps as [|cp cps IH] using rev_ind; intros Hu.
  - cbn. rewrite lookup_empty. split; [done|]. intros [(cp & p & Hc & _) _]. by apply elem_of_nil in Hc.
  - assert (forall m, joins cps perps m -> joins (cps ++ [cp]) perps m) as Hin.
    { intros m' (c & p & ? & ?). exists c, p. set_solver. }
    rewrite foldl_app. cbn [foldl]. rewrite join_step_lookup, IH by (done || intros ? ? ? ?; apply Hu; auto). split.
    + intros [(p & Hpp & E & <- & ->)|[[Hj <-] _]].
      * split; [|done]. exists cp, p. set_solver.
      * split; [by apply Hin|done].
    + intros [Hj <-]. assert (Hj' := Hj). destruct Hj as (c & p & [Hc|Hc]%elem_of_app & Hpp & E & ->).
      * destruct (decide (Exists (fun q => cp_perpetual cp = Some (pp_Id q) /\ pp_Ticker q = pp_Ticker p) perps))
          as [Hd|Hd]; rewrite Exists_exists in Hd.
        -- destruct Hd as (q & Hq & Eq & Et). left. exists q. split_and!; [done..|].
           apply Hu; [done| |by symmetry]. exists cp, q. set_solver.
        -- right. split; [split; [by exists c, p|done]|]. intros q Hq Eq Et. apply Hd. by exists q.
      * apply list_elem_of_singleton in Hc as ->. left. by exists p.
Qed.

(** ** Claims *)

(** A successful refresh publishes exactly the join of the two queries: a
    ticker resolves to a market if and only if some clob pair of the chain links
    to a perpetual with that ticker, with the constants of both records, and a
    failed refresh leaves the cache as it was. *)
Theorem Refresh_join (cps : list ClobPair) (perps : list Perpetual) (c : Cache)
    (Hp : NoDup (pp_Id <$> perps)) (Hu : tickers_unique cps perps) :
  (forall t m, ResolveTicker t (snd (Refresh (Ok cps) (Ok perps) c)) = Some m
     <-> joins cps perps m /\ mm_Ticker m = t)
  /\ (forall e r, snd (Refresh (Err e) r c) = c /\ snd (Refresh (Ok cps) (Err e) c) = c).
Proof.
  split; [|done]. intros t m. rewrite <- join_fold_lookup by done. unfold Refresh, ResolveTicker.
  by destruct (foldl _ _ cps).
Qed.

Definition demo_cps : list ClobPair :=
  [mkClobPair 0 (Some 7) (-8) 1000000 100000; mkClobPair 1 None 0 1 1; mkClobPair 2 (Some 9) 0 1 1].
Definition demo_perps : list Perpetual := [mkPerpetual 7 "BTC-USD" (-10)].

Lemma demo_tickers_unique : tickers_unique demo_cps demo_perps.
Proof.
  intros m m' (c & p & Hc & Hp & E & ->) (c' & p' & Hc' & Hp' & E' & ->) _.
  unfold demo_perps, demo_cps in *. rewrite ?elem_of_cons, ?elem_of_nil in *.
  destruct Hp as [->|[]], Hp' as [->|[]].
  destruct Hc as [->|[->|[->|[]]]]; try done; destruct Hc' as [->|[->|[->|[]]]]; done.
Qed.

Lemma Refresh_join_witness :
  ResolveTicker "BTC-USD" (snd (Refresh (Ok demo_cps) (Ok demo_perps) (NewCache 0)))
  = Some (mkMarketMeta "BTC-USD" 0 (-10) (-8) 1000000 100000).
Proof.
  apply (proj1 (Refresh_join demo_cps demo_perps (NewCache 0)
    ltac:(apply NoDup_singleton) demo_tickers_unique)).
  split; [|reflexivity]. exists (mkClobPair 0 (Some 7) (-8) 1000000 100000), (mkPerpetual 7 "BTC-USD" (-10)).
  split_and!; [by left|by left|reflexivity|reflexivity].
Defined.
