(* ===== verification/Units.v ===== *)
(** * Human amounts to quantums and subticks (units/units.go, units/market_order.go)

    The scaling [lib.BigIntMulPow10] and the quote resolution come from the
    chain's library, so they are parameters ([DydxLib]) with their documented
    meaning ([DydxLibLaws]): [val * 10^exponent], rounded down when the exponent
    is negative and [roundUp] is off.  Exponents are 32-bit integers and wrap. *)

From S2P Require Import Prelude GoStrings GoNum GoBig Markets.

Class DydxLib : Type := {
  BigIntMulPow10 : Z -> Z -> bool -> Z;
  QuoteCurrencyAtomicResolution : Z;
}.

Class DydxLibLaws (DL : DydxLib) : Prop := {
  pow10_up : forall v e r, 0 <= e -> BigIntMulPow10 v e r = v * 10 ^ e;
  pow10_down : forall v e, e < 0 -> BigIntMulPow10 v e false = v / 10 ^ (- e);
  quote_resolution : QuoteCurrencyAtomicResolution = -6;
}.

(** [result.Sign() < 0 || !result.IsUint64()] *)
Definition out_of_u64 (z : Z) : bool := (z <? 0) || negb (is_u64 z).

Section Units.
Context {DL : DydxLib}.

Definition SizeToQuantums (humanSize : string) (meta : MarketMeta) : result Z :=
  match RatSetString humanSize with
  | None => Err (Errorf "invalid size %q" [FStr humanSize])
  | Some rat =>
      let result := BigIntMulPow10 (Num rat) (i32 (- mm_AtomicResolution meta)) false in
      let result := Z.quot result (Denom rat) in
      if out_of_u64 result then
        Err (Errorf "size %q out of uint64 range after conversion" [FStr humanSize])
      else if (0 <? mm_StepBaseQuantums meta) && negb (result mod mm_StepBaseQuantums meta =? 0) then
        Err (Errorf "size %q (%d quantums) is not a multiple of StepBaseQuantums (%d)"
               [FStr humanSize; FInt result; FInt (mm_StepBaseQuantums meta)])
      else Ok result
  end.

(** [-meta.QuantumConversionExponent + meta.AtomicResolution - lib.QuoteCurrencyAtomicResolution] *)
Definition price_exponent (meta : MarketMeta) : Z :=
  i32 (i32 (i32 (- mm_QuantumConversionExponent meta) + mm_AtomicResolution meta)
       - QuoteCurrencyAtomicResolution).

Definition PriceToSubticks (humanPrice : string) (meta : MarketMeta) : result Z :=
  match RatSetString humanPrice with
  | None => Err (Errorf "invalid price %q" [FStr humanPrice])
  | Some rat =>
      let result := BigIntMulPow10 (Num rat) (price_exponent meta) false in
      let result := Z.quot result (Denom rat) in
      if out_of_u64 result then
        Err (Errorf "price %q out of uint64 range after conversion" [FStr humanPrice])
      else if (0 <? mm_SubticksPerTick meta) && negb (result mod mm_SubticksPerTick meta =? 0) then
        Err (Errorf "price %q (%d subticks) is not a multiple of SubticksPerTick (%d)"
               [FStr humanPrice; FInt result; FInt (mm_SubticksPerTick meta)])
      else Ok result
  end.

Definition bpsDenom : Z := 10000.

(** The slippage factor of a market order. *)
Definition slippage_factor (side : string) (slippageBps : Z) : result rat :=
  if String.eqb side "BUY" then Ok (rat_frac (bpsDenom + slippageBps) bpsDenom)
  else if bpsDenom <=? slippageBps then
    Err (Errorf "slippage_bps %d would push worst price negative for SELL" [FInt slippageBps])
  else Ok (rat_frac (bpsDenom - slippageBps) bpsDenom).

(** Down to a multiple of the tick for a buy, up for a sell; [+=] wraps. *)
Definition snap (side : string) (tick subticks : Z) : Z :=
  if 0 <? tick then
    (if String.eqb side "BUY" then subticks / tick * tick
     else
       let rem := subticks mod tick in
       if negb (rem =? 0) then u64 (subticks + (tick - rem)) else subticks)
  else subticks.

Definition AggressiveSubticks (side oraclePx : string) (slippageBps : Z) (meta : MarketMeta) : result Z :=
  if negb (String.eqb side "BUY") && negb (String.eqb side "SELL") then
    Err (Errorf "invalid side %q (want BUY or SELL)" [FStr side])
  else match RatSetString oraclePx with
  | None => Err (Errorf "invalid oracle price %q" [FStr oraclePx])
  | Some rat =>
      factor ← slippage_factor side slippageBps;
      let worst := rat_mul rat factor in
      let num := BigIntMulPow10 (Num worst) (price_exponent meta) false in
      let num := Z.quot num (Denom worst) in
      if out_of_u64 num then
        Err (Errorf "aggressive subticks out of uint64 range for oracle=%q slippage=%d bps"
               [FStr oraclePx; FInt slippageBps])
      else
        let subticks := snap side (mm_SubticksPerTick meta) num in
        if subticks =? 0 then
          Err (Errorf "aggressive subticks rounded to 0 (oracle=%q slippage=%d bps too small relative to SubticksPerTick=%d)"
                 [FStr oraclePx; FInt slippageBps; FInt (mm_SubticksPerTick meta)])
        else Ok subticks
  end.

End Units.

(** The instance used in concrete evaluations. *)
Definition dydx_lib : DydxLib :=
  {| BigIntMulPow10 := fun v e r =>
       if 0 <=? e then v * 10 ^ e
       else if r then - (- v / 10 ^ (- e)) else v / 10 ^ (- e);
     QuoteCurrencyAtomicResolution := -6 |}.

Lemma dydx_lib_laws : DydxLibLaws dydx_lib.
Proof.
  constructor; cbn; [| |done].
  - intros v e r H. by rewrite (proj2 (Z.leb_le 0 e)).
  - intros v e H. by rewrite (proj2 (Z.leb_gt 0 e)).
Qed.

(** ** Lemmas *)

(** A decimal string with integer digits [i] and fraction digits [f]. *)
Definition decimal (i f : bytes) : string := str (i ++ "."%char :: f).

Definition digits_ok (i f : bytes) : bool :=
  negb (bool_decide (i = [])) && forallb is_digit i && forallb is_digit f
  && (Z.of_nat (List.length f) <=? 1000000).

Lemma RatSetString_decimal_spec i f m :
  digits_ok i f = true -> parse_digits (i ++ f) = Some m ->
  exists r, RatSetString (decimal i f) = Some r /\ 0 < Denom r /\ rat_is r m (10 ^ Z.of_nat (List.length f)).
Proof.
  unfold digits_ok. rewrite !andb_true_iff, negb_true_iff, bool_decide_eq_false, Z.leb_le.
  intros [[[H0 H1] H2] H3] Hm. rewrite forallb_forall in H1, H2.
  assert (0 < 10 ^ Z.of_nat (List.length f)) by (apply Z.pow_pos_nonneg; lia).
  eexists. split; [apply RatSetString_decimal; [done| | |done..]|].
  - apply Forall_forall. intros x Hx. apply H1. by apply list_elem_of_In.
  - apply Forall_forall. intros x Hx. apply H2. by apply list_elem_of_In.
  - split; [by apply rat_norm_ok|by apply rat_norm_is].
Qed.

Lemma i32_id z : - 2 ^ 31 <= z < 2 ^ 31 -> i32 z = z.
Proof. unfold i32. intros H. rewrite Z.mod_small; lia. Qed.

(** Scaling up and truncating a decimal with no more fraction digits than the
    exponent is exact. *)
Lemma scale_exact r m k e :
  0 < Denom r -> 0 <= k <= e -> rat_is r m (10 ^ k) ->
  Z.quot (Num r * 10 ^ e) (Denom r) = m * 10 ^ (e - k).
Proof.
  intros Hd Hk Hr. assert (0 < 10 ^ k) by (apply Z.pow_pos_nonneg; lia).
  rewrite (rat_is_quot r m (10 ^ k)) by done.
  replace (10 ^ e) with (10 ^ (e - k) * 10 ^ k) by (rewrite <- Z.pow_add_r by lia; f_equal; lia).
  rewrite Z.mul_assoc. apply Z.quot_mul. lia.
Qed.

Lemma in_u64 z : out_of_u64 z = false <-> 0 <= z <= maxU64.
Proof. unfold out_of_u64, is_u64. rewrite orb_false_iff, negb_false_iff, andb_true_iff. lia. Qed.

Lemma parse_digits_nonneg l : forall a m, 0 <= a -> parse_digits_acc a l = Some m -> 0 <= m.
Proof.
  induction l as [|c l IH]; intros a m Ha; cbn; [by intros [= <-]|].
  unfold digit_val at 1. destruct (_ && _) eqn:E; [|done].
  apply IH. rewrite andb_true_iff, !Z.leb_le in E. lia.
Qed.

(** The truncated, possibly scaled-down price lies at most one unit below the
    exact one and never above it. *)
Lemma scale_floor {DL : DydxLib} {LL : DydxLibLaws DL} n d e :
  0 <= n -> 0 < d ->
  let q := Z.quot (BigIntMulPow10 n e false) d in
  0 <= q /\ q * d * 10 ^ Z.max 0 (- e) <= n * 10 ^ Z.max 0 e < (q + 1) * d * 10 ^ Z.max 0 (- e).
Proof.
  intros Hn Hd q. subst q. destruct (Z.le_gt_cases 0 e) as [He|He].
  - rewrite pow10_up by done. rewrite (Z.max_r 0 e), (Z.max_l 0 (- e)) by lia.
    assert (0 < 10 ^ e) by (apply Z.pow_pos_nonneg; lia).
    rewrite Z.quot_div_nonneg by nia. rewrite Z.pow_0_r.
    pose proof (Z.mul_div_le (n * 10 ^ e) d). pose proof (Z.mul_succ_div_gt (n * 10 ^ e) d).
    pose proof (Z.div_pos (n * 10 ^ e) d). nia.
  - rewrite pow10_down by done. rewrite (Z.max_l 0 e), (Z.max_r 0 (- e)) by lia.
    assert (0 < 10 ^ (- e)) by (apply Z.pow_pos_nonneg; lia).
    rewrite Z.quot_div_nonneg by (try apply Z.div_pos; lia).
    rewrite Z.div_div, Z.pow_0_r by lia.
    pose proof (Z.mul_div_le n (10 ^ (- e) * d)). pose proof (Z.mul_succ_div_gt n (10 ^ (- e) * d)).
    pose proof (Z.div_pos n (10 ^ (- e) * d)). nia.
Qed.

(** The range and alignment checks accept a non-negative amount unchanged or not
    at all. *)
Lemma quantise_iff v step q e1 e2 :
  0 <= v ->
  (if out_of_u64 v then Err e1
   else if (0 <? step) && negb (v mod step =? 0) then Err e2 else Ok v) = Ok q
  <-> q = v /\ q <= maxU64 /\ (0 < step -> q mod step = 0).
Proof.
  intros Hv. destruct (out_of_u64 v) eqn:Eo.
  - split; [done|]. intros (-> & Hq & _). assert (out_of_u64 v = false) by (apply in_u64; lia). congruence.
  - apply in_u64 in Eo. destruct (Z.ltb_spec 0 step) as [Hs|Hs]; cbn [andb].
    + destruct (Z.eqb_spec (v mod step) 0); cbn [negb].
      * split; [intros [= <-]; split_and!; [done|lia|done]|intros (-> & _); done].
      * split; [done|]. intros (-> & _ & H'). by specialize (H' Hs).
    + split; [intros [= <-]; split_and!; [done|lia|lia]|intros (-> & _); done].
Qed.

(** The worst price of a market order in subticks, exactly: [worst_num/worst_den]. *)
Definition slippage_num (side : string) (bps : Z) : Z :=
  if String.eqb side "BUY" then bpsDenom + bps else bpsDenom - bps.

Definition worst_num {DL : DydxLib} (side : string) (r : rat) (bps : Z) (meta : MarketMeta) : Z :=
  Num r * slippage_num side bps * 10 ^ Z.max 0 (price_exponent meta).

Definition worst_den {DL : DydxLib} (r : rat) (meta : MarketMeta) : Z :=
  Denom r * bpsDenom * 10 ^ Z.max 0 (- price_exponent meta).

Lemma rat_mul_frac r a b :
  0 < Denom r -> 0 < b ->
  let w := rat_mul r (rat_frac a b) in 0 < Denom w /\ rat_is w (Num r * a) (Denom r * b).
Proof.
  intros Hr Hb w. subst w. unfold rat_frac, rat_mul.
  destruct (rat_norm_cofactors a b Hb) as (p & q & g & Hg & Hq & Ea & Eb & ->). cbn [Num Denom].
  assert (0 < Denom r * q) as Hd by nia.
  split; [by apply rat_norm_ok|]. pose proof (rat_norm_is (Num r * p) (Denom r * q) Hd) as E.
  unfold rat_is in *. subst a b.
  transitivity (Num (rat_norm (Num r * p) (Denom r * q)) * (Denom r * q) * g); [lia|]. rewrite E. lia.
Qed.

(** The truncated worst price against the exact one. *)
Lemma worst_floor {DL : DydxLib} {LL : DydxLibLaws DL} side r bps meta w :
  0 <= Num r -> 0 < Denom r -> 0 <= slippage_num side bps ->
  w = rat_mul r (rat_frac (slippage_num side bps) bpsDenom) ->
  let q := Z.quot (BigIntMulPow10 (Num w) (price_exponent meta) false) (Denom w) in
  0 < worst_den r meta /\ 0 <= q
  /\ q * worst_den r meta <= worst_num side r bps meta < (q + 1) * worst_den r meta.
Proof.
  intros Hn Hd Hs Ew q. assert (0 < bpsDenom) as Hbd by done.
  destruct (rat_mul_frac r (slippage_num side bps) bpsDenom Hd Hbd) as [Hwd Hw]. rewrite <- Ew in Hwd, Hw.
  assert (0 <= Num w) as Hwn. { unfold rat_is in Hw. assert (0 <= Num r * slippage_num side bps) by nia.
    assert (0 < Denom r * bpsDenom) by nia. nia. }
  destruct (scale_floor (Num w) (Denom w) (price_exponent meta) Hwn Hwd) as [Hq Hb]. fold q in Hq, Hb.
  unfold worst_num, worst_den. unfold rat_is in Hw.
  set (A := 10 ^ Z.max 0 (price_exponent meta)) in *. set (B := 10 ^ Z.max 0 (- price_exponent meta)) in *.
  assert (0 < A) by (apply Z.pow_pos_nonneg; lia). assert (0 < B) by (apply Z.pow_pos_nonneg; lia).
  set (N := Num r * slippage_num side bps) in *. set (D := Denom r * bpsDenom) in *.
  assert (0 < D) by (subst D; nia).
  assert (0 < D * B) by nia. split_and!; [done|done| |].
  - apply (Z.mul_le_mono_pos_r _ _ (Denom w)); [done|].
    replace (N * A * Denom w) with (Num w * A * D) by (rewrite (Z.mul_comm (N * A)), Z.mul_assoc, (Z.mul_comm (Denom w)), <- Hw; lia). nia.
  - apply (Z.mul_lt_mono_pos_r (Denom w)); [done|].
    replace (N * A * Denom w) with (Num w * A * D) by (rewrite (Z.mul_comm (N * A)), Z.mul_assoc, (Z.mul_comm (Denom w)), <- Hw; lia). nia.
Qed.

Lemma worst_den_pos {DL : DydxLib} r meta : 0 < Denom r -> 0 < worst_den r meta.
Proof.
  intros Hd. unfold worst_den, bpsDenom. assert (0 < 10 ^ Z.max 0 (- price_exponent meta)) by (apply Z.pow_pos_nonneg; lia). nia.
Qed.

Lemma snap_buy tick W : 0 < tick -> snap "BUY" tick W = W / tick * tick.
Proof. intros Ht. unfold snap. by rewrite (proj2 (Z.ltb_lt 0 tick)). Qed.

Lemma snap_sell tick W : 0 < tick -> snap "SELL" tick W = if W mod tick =? 0 then W else u64 ((W / tick + 1) * tick).
Proof.
  intros Ht. unfold snap. rewrite (proj2 (Z.ltb_lt 0 tick)) by done. cbn [String.eqb Ascii.eqb Bool.eqb].
  destruct (Z.eqb_spec (W mod tick) 0); cbn [negb]; [done|]. f_equal. pose proof (Z.div_mod W tick). lia.
Qed.

(** The two refusals after the truncation. *)
Lemma snapped_iff side tick q e1 e2 s (P : Prop) :
  0 <= q -> P ->
  (if out_of_u64 q then Err e1 else if snap side tick q =? 0 then Err e2 else Ok (snap side tick q)) = Ok s
  <-> q <= maxU64 /\ s = snap side tick q /\ s <> 0 /\ P.
Proof.
  intros Hq HP. destruct (out_of_u64 q) eqn:Eo.
  - split; [done|]. intros [Hm _]. unfold out_of_u64, is_u64 in Eo. exfalso. unfold maxU64 in *. lia.
  - apply in_u64 in Eo. destruct (Z.eqb_spec (snap side tick q) 0); split; try done.
    + by intros (_ & -> & Hz & _).
    + intros [= <-]. split_and!; lia || done.
    + by intros (_ & -> & _).
Qed.

Lemma sell_bounds num den tick :
  let W := num / den in
  let s := if W mod tick =? 0 then W else u64 ((W / tick + 1) * tick) in
  0 < den -> 0 < tick -> 0 <= W -> W + tick <= maxU64 ->
  s mod tick = 0 /\ W <= s < W + tick /\ (s * den < num <-> W mod tick = 0 /\ num mod den <> 0) /\ num < (s + 1) * den.
Proof.
  intros W s Hd Ht HW Hroom. pose proof (Z.div_mod num den) as Hn. pose proof (Z.mod_pos_bound num den Hd). fold W in Hn.
  pose proof (Z.div_mod W tick) as Hw. pose proof (Z.mod_pos_bound W tick Ht).
  assert (num < (W + 1) * den) by lia. subst s. specialize (Hn ltac:(lia)). specialize (Hw ltac:(lia)). clearbody W.
  destruct (Z.eqb_spec (W mod tick) 0) as [E0|E0].
  - split_and!; [done|lia|lia| |done]. split; [intros; split; [done|]|intros [_ ?]]; nia.
  - assert ((W / tick + 1) * tick = W + (tick - W mod tick)) as -> by lia.
    unfold u64. rewrite (Z.mod_small _ (2 ^ 64)) by (unfold maxU64 in *; lia).
    split_and!; [|lia|lia|split; [nia|by intros [? _]]|nia].
    replace (W + (tick - W mod tick)) with ((W / tick + 1) * tick) by lia. apply Z.mod_mul. lia.
Qed.

(** ** Claims *)

(** A decimal size with no more fraction digits than the market's atomic
    resolution converts to exactly its value in quantums, and the conversion
    succeeds exactly when that value fits in 64 bits and is a multiple of the
    market's step. *)
Theorem SizeToQuantums_exact {DL : DydxLib} {LL : DydxLibLaws DL} (i f : bytes) (m q : Z) (meta : MarketMeta)
    (Hdec : digits_ok i f = true) (Hm : parse_digits (i ++ f) = Some m)
    (Hres : Z.of_nat (List.length f) <= - mm_AtomicResolution meta < 2 ^ 31) :
  SizeToQuantums (decimal i f) meta = Ok q
  <-> q = m * 10 ^ (- mm_AtomicResolution meta - Z.of_nat (List.length f))
      /\ q <= maxU64 /\ (0 < mm_StepBaseQuantums meta -> q mod mm_StepBaseQuantums meta = 0).
Proof.
  destruct (RatSetString_decimal_spec i f m Hdec Hm) as (r & Er & Hd & Hr).
  unfold SizeToQuantums. rewrite Er, i32_id by lia. rewrite pow10_up by lia.
  rewrite (scale_exact r m (Z.of_nat (List.length f))) by lia || done.
  assert (0 <= m) as Hm0 by (eapply parse_digits_nonneg; [|exact Hm]; lia).
  set (v := m * _). assert (0 <= v) by (apply Z.mul_nonneg_nonneg; [done|apply Z.pow_nonneg; lia]).
  by apply quantise_iff.
Qed.

Definition demo_meta : MarketMeta := mkMarketMeta "BTC-USD" 0 (-10) (-9) 1000000 10000.

Lemma SizeToQuantums_exact_witness :
  @SizeToQuantums dydx_lib "0.05" demo_meta = Ok 500000000.
Proof.
  change "0.05"%string with (decimal (chars "0") (chars "05")).
  apply (@SizeToQuantums_exact dydx_lib dydx_lib_laws (chars "0") (chars "05") 5 500000000 demo_meta
    eq_refl eq_refl ltac:(cbn; lia)).
  vm_compute. split_and!; [reflexivity|discriminate|reflexivity].
Defined.

(** The same for prices: with no more fraction digits than the price
    exponent of the market a decimal price converts to exactly its value in
    subticks, and the conversion succeeds exactly when that value fits in 64
    bits and is a multiple of the tick. *)
Theorem PriceToSubticks_exact {DL : DydxLib} {LL : DydxLibLaws DL} (i f : bytes) (m q : Z) (meta : MarketMeta)
    (Hdec : digits_ok i f = true) (Hm : parse_digits (i ++ f) = Some m)
    (Hexp : Z.of_nat (List.length f) <= price_exponent meta) :
  PriceToSubticks (decimal i f) meta = Ok q
  <-> q = m * 10 ^ (price_exponent meta - Z.of_nat (List.length f))
      /\ q <= maxU64 /\ (0 < mm_SubticksPerTick meta -> q mod mm_SubticksPerTick meta = 0).
Proof.
  destruct (RatSetString_decimal_spec i f m Hdec Hm) as (r & Er & Hd & Hr).
  unfold PriceToSubticks. rewrite Er, pow10_up by lia.
  rewrite (scale_exact r m (Z.of_nat (List.length f))) by lia || done.
  assert (0 <= m) as Hm0 by (eapply parse_digits_nonneg; [|exact Hm]; lia).
  set (v := m * _). assert (0 <= v) by (apply Z.mul_nonneg_nonneg; [done|apply Z.pow_nonneg; lia]).
  by apply quantise_iff.
Qed.

Lemma PriceToSubticks_exact_witness : @PriceToSubticks dydx_lib "65000.5" demo_meta = Ok 6500050000.
Proof.
  change "65000.5"%string with (decimal (chars "65000") (chars "5")).
  apply (@PriceToSubticks_exact dydx_lib dydx_lib_laws (chars "65000") (chars "5") 650005 6500050000 demo_meta
    eq_refl eq_refl ltac:(vm_compute; discriminate)).
  vm_compute. split_and!; [reflexivity|discriminate|reflexivity].
Defined.

Lemma worst_quot {DL : DydxLib} {LL : DydxLibLaws DL} side r bps meta :
  0 <= Num r -> 0 < Denom r -> 0 <= slippage_num side bps ->
  let w := rat_mul r (rat_frac (slippage_num side bps) bpsDenom) in
  Z.quot (BigIntMulPow10 (Num w) (price_exponent meta) false) (Denom w) = worst_num side r bps meta / worst_den r meta
  /\ 0 < worst_den r meta /\ 0 <= worst_num side r bps meta / worst_den r meta.
Proof.
  intros Hn Hd Hsl w. destruct (worst_floor side r bps meta w Hn Hd Hsl eq_refl) as (HD & Hq & Hlo & Hhi).
  assert (worst_num side r bps meta / worst_den r meta = Z.quot (BigIntMulPow10 (Num w) (price_exponent meta) false) (Denom w))
    as -> by (symmetry; apply (Z.div_unique_pos _ _ _ (worst_num side r bps meta - worst_den r meta
      * Z.quot (BigIntMulPow10 (Num w) (price_exponent meta) false) (Denom w))); nia).
  done.
Qed.

(** The limit, exactly: the truncated worst price, snapped. *)
Lemma AggressiveSubticks_iff {DL : DydxLib} {LL : DydxLibLaws DL} side px bps s meta r :
  RatSetString px = Some r -> 0 <= Num r -> 0 < Denom r -> 0 <= bps -> 0 < mm_SubticksPerTick meta ->
  let W := worst_num side r bps meta / worst_den r meta in
  AggressiveSubticks side px bps meta = Ok s <->
  W <= maxU64 /\ s = snap side (mm_SubticksPerTick meta) W /\ s <> 0
  /\ (side = "BUY"%string \/ side = "SELL"%string /\ bps < bpsDenom).
Proof.
  intros Hr Hn Hd Hb Ht W. unfold AggressiveSubticks. rewrite Hr.
  destruct (String.eqb_spec side "BUY") as [HB|HB], (String.eqb_spec side "SELL") as [HS|HS]; cbn [negb andb];
    try (split; [done|]; naive_solver).
  - subst side. done.
  - assert (slippage_factor side bps = Ok (rat_frac (slippage_num side bps) bpsDenom) /\ 0 <= slippage_num side bps)
      as [-> Hsl] by (subst side; unfold slippage_factor, slippage_num, bpsDenom; cbn; split; [done|lia]).
    cbn [mbind result_bind]. destruct (worst_quot side r bps meta Hn Hd Hsl) as (-> & HD & Hq). fold W in Hq |- *.
    apply snapped_iff; naive_solver.
  - destruct (Z.leb_spec bpsDenom bps) as [Hle|Hlt].
    { unfold slippage_factor. subst side. rewrite (proj2 (Z.leb_le bpsDenom bps)) by done. cbn.
      split; [done|]. intros (_ & _ & _ & [?|[_ ?]]); [done|lia]. }
    assert (slippage_factor side bps = Ok (rat_frac (slippage_num side bps) bpsDenom) /\ 0 <= slippage_num side bps)
      as [-> Hsl].
    { subst side. unfold slippage_factor, slippage_num. rewrite (proj2 (Z.leb_gt bpsDenom bps)) by done.
      unfold bpsDenom in *. cbn. split; [done|lia]. }
    cbn [mbind result_bind]. destruct (worst_quot side r bps meta Hn Hd Hsl) as (-> & HD & Hq). fold W in Hq |- *.
    apply snapped_iff; naive_solver.
Qed.

(** C37: the limit of a market order is exactly the slippage bound on the grid of
    ticks.  Let the tick be positive and the worst price be the oracle price (not negative) moved by the
    basis points, in subticks, and W its whole part.  A limit is returned exactly
    when the side is BUY, or SELL with less than 10000 basis points, W fits 64
    bits and the limit is not zero; it is for a buy the greatest multiple of the
    tick up to W, and for a sell the least one from W on (modulo 2^64).  So a buy
    never pays more than the worst price and is less than a tick below it; a
    sell, with room for a tick above W, is aligned and less than a tick above W,
    and it undercuts the worst price, by less than one subtick, exactly when W is
    itself a multiple of the tick and was truncated. *)
Theorem AggressiveSubticks_bound {DL : DydxLib} {LL : DydxLibLaws DL} (side px : string) (bps s : Z)
    (meta : MarketMeta) (r : rat)
    (Hr : RatSetString px = Some r) (Hpos : 0 <= Num r /\ 0 < Denom r) (Hbps : 0 <= bps)
    (Htick : 0 < mm_SubticksPerTick meta) :
  let tick := mm_SubticksPerTick meta in
  let num := worst_num side r bps meta in
  let den := worst_den r meta in
  let W := num / den in
  (AggressiveSubticks side px bps meta = Ok s <->
     W <= maxU64 /\ s <> 0
     /\ ((side = "BUY"%string /\ s = W / tick * tick)
         \/ (side = "SELL"%string /\ bps < 10000 /\ s = if W mod tick =? 0 then W else u64 ((W / tick + 1) * tick))))
  /\ (AggressiveSubticks side px bps meta = Ok s -> side = "BUY"%string ->
      s mod tick = 0 /\ s * den <= num < (s + tick) * den)
  /\ (AggressiveSubticks side px bps meta = Ok s -> side = "SELL"%string -> W + tick <= maxU64 ->
      s mod tick = 0 /\ W <= s < W + tick /\ (s * den < num <-> W mod tick = 0 /\ num mod den <> 0)
      /\ num < (s + 1) * den).
Proof.
  intros tick num den W. destruct Hpos as [Hn Hd].
  pose proof (AggressiveSubticks_iff side px bps s meta r Hr Hn Hd Hbps Htick) as Hiff. cbv zeta in Hiff.
  fold num den tick W in Hiff. fold tick in Htick. split_and!.
  - rewrite Hiff. split.
    + intros (H1 & -> & H2 & [-> |[-> H3]]); (split_and!; [done..|]); [left|right]; split_and?; try done.
      * by rewrite snap_buy. * by rewrite snap_sell.
    + intros (H1 & H2 & [(-> & ->)|(-> & H3 & ->)]); rewrite ?snap_buy, ?snap_sell by done; auto 6.
  - intros (H1 & -> & H2 & _)%Hiff ->. rewrite snap_buy by done. assert (0 < den) by (by apply worst_den_pos).
    pose proof (Z.mul_div_le W tick Htick). pose proof (Z.mul_succ_div_gt W tick Htick).
    pose proof (Z.mul_div_le num den ltac:(done)). pose proof (Z.mul_succ_div_gt num den ltac:(done)). fold W in H4, H5.
    split; [by apply Z.mod_mul; lia|]. nia.
  - intros (H1 & -> & H2 & Hside)%Hiff -> Hroom. rewrite snap_sell by done. assert (0 < den) by (by apply worst_den_pos).
    apply sell_bounds; try done. destruct Hside as [?|[_ Hb]]; [done|].
    apply (worst_quot "SELL" r bps meta Hn Hd). unfold slippage_num. cbn. lia.
Qed.

Lemma AggressiveSubticks_bound_witness :
  @AggressiveSubticks dydx_lib "SELL" "65000" 100 demo_meta = Ok 6435000000 /\ 6435000000 mod 10000 = 0
  /\ ~ 6435000000 * @worst_den dydx_lib (mkRat 65000 1) demo_meta < @worst_num dydx_lib "SELL" (mkRat 65000 1) 100 demo_meta.
Proof.
  destruct (@AggressiveSubticks_bound dydx_lib dydx_lib_laws "SELL" "65000" 100 6435000000 demo_meta
    (mkRat 65000 1) eq_refl ltac:(cbn; lia) ltac:(lia) ltac:(cbn; lia)) as (H1 & _ & H3).
  assert (@AggressiveSubticks dydx_lib "SELL" "65000" 100 demo_meta = Ok 6435000000) as Hs.
  { apply H1. split; [vm_compute; discriminate|]. split; [discriminate|]. right. vm_compute. by split_and!. }
  split; [exact Hs|]. destruct (H3 Hs eq_refl ltac:(vm_compute; discriminate)) as (H4 & _ & H5 & _).
  split; [exact H4|]. intros [_ H6]%H5. apply H6. vm_compute. reflexivity.
Defined.

(** A sell below the oracle price by no slippage at all: the truncated price is
    on the grid, and the limit is below the price asked for. *)
Example sell_undercuts :
  @AggressiveSubticks dydx_lib "SELL" "65000.000001" 0 demo_meta = Ok 6500000000
  /\ 6500000000 * @worst_den dydx_lib (mkRat 65000000001 1000000) demo_meta
     < @worst_num dydx_lib "SELL" (mkRat 65000000001 1000000) 0 demo_meta.
Proof. split; vm_compute; reflexivity. Qed.
