(* ===== verification/ChainLib.v ===== *)
(** * The libraries of the chain

    The Cosmos SDK, the protocol's message types, protobuf and go-ethereum are
    not part of the repository: their functions are the fields of [ChainLib],
    and the message types carry the fields the source reads and writes.
    [ChainLibLaws] states the documented behaviour the theorems rely on. *)

From S2P Require Import Prelude GoStrings GoNum GoEncoding.

(** ** Messages *)

Record SubaccountId : Type := mkSubaccountId { sa_Owner : string; sa_Number : Z }.

Inductive Order_Side : Type := SIDE_UNSPECIFIED | SIDE_BUY | SIDE_SELL.
Inductive Order_TimeInForce : Type := TIME_IN_FORCE_UNSPECIFIED | TIME_IN_FORCE_IOC | TIME_IN_FORCE_POST_ONLY.
Inductive Order_ConditionType : Type :=
  CONDITION_TYPE_UNSPECIFIED | CONDITION_TYPE_STOP_LOSS | CONDITION_TYPE_TAKE_PROFIT.

Record OrderId : Type := mkOrderId {
  oid_SubaccountId : SubaccountId;
  oid_ClientId : Z;
  oid_OrderFlags : Z;
  oid_ClobPairId : Z;
}.

(** The [GoodTilOneof] of orders and cancels. *)
Inductive GoodTil : Type := GoodTilBlock (b : Z) | GoodTilBlockTime (t : Z).

Record Order : Type := mkOrder {
  o_OrderId : OrderId;
  o_Side : Order_Side;
  o_Quantums : Z;
  o_Subticks : Z;
  o_TimeInForce : Order_TimeInForce;
  o_ReduceOnly : bool;
  o_ConditionType : Order_ConditionType;
  o_ConditionalOrderTriggerSubticks : Z;
  o_GoodTilOneof : GoodTil;
}.

Record OrderBatch : Type := mkOrderBatch { ob_ClobPairId : Z; ob_ClientIds : list Z }.

(** sdk.Coin; [None] is the nil [math.Int] of a coin decoded without an amount. *)
Record Coin : Type := mkCoin { coin_Denom : string; coin_Amount : option Z }.

Record Transfer : Type := mkTransfer {
  t_Sender : SubaccountId;
  t_Recipient : SubaccountId;
  t_AssetId : Z;
  t_Amount : Z;
}.

Inductive Msg : Type :=
| MsgPlaceOrder (order : Order)
| MsgCancelOrder (orderId : OrderId) (goodTil : GoodTil)
| MsgBatchCancel (subaccountId : SubaccountId) (shortTermCancels : list OrderBatch) (goodTilBlock : Z)
| MsgDepositToSubaccount (sender : string) (recipient : SubaccountId) (assetId quantums : Z)
| MsgWithdrawFromSubaccount (sender : SubaccountId) (recipient : string) (assetId quantums : Z)
| MsgCreateTransfer (transfer : Transfer)
| MsgSend (from to : string) (amount : list Coin)
| MsgOther (typeURL : string) (value : bytes).

(** ** Transactions *)

Record AnyMsg : Type := mkAny { any_TypeUrl : string; any_Value : bytes }.

Record TxRaw : Type := mkTxRaw { tx_BodyBytes : bytes; tx_AuthInfoBytes : bytes; tx_Signatures : list bytes }.

Record SignerInfo : Type := mkSignerInfo { si_PublicKey : option AnyMsg }.

Record SignDoc : Type := mkSignDoc {
  sd_BodyBytes : bytes;
  sd_AuthInfoBytes : bytes;
  sd_ChainId : string;
  sd_AccountNumber : Z;
}.

(** common.Address: its twenty bytes. *)
Abbreviation Address := bytes (only parsing).

(** A decoded Ethereum transaction. *)
Record EthTx : Type := mkEthTx {
  etx_To : option Address;
  etx_Value : Z;
  etx_Data : bytes;
  etx_ChainId : Z;
  etx_Hash : string;
}.

(** ** Library functions *)

Class ChainLib : Type := {
  (* x/assets, x/clob, x/sending *)
  AssetUsdc_Id : Z;
  UusdcDenom : string;
  OrderIdFlags_ShortTerm : Z;
  OrderIdFlags_Conditional : Z;
  OrderIdFlags_LongTerm : Z;
  IsShortTermOrder : OrderId -> bool;
  ValidateBasic : Msg -> error;
  (* codec and protobuf *)
  NewAnyWithValue : Msg -> result AnyMsg;
  MarshalTxBody : list AnyMsg -> result bytes;
  MarshalSignDoc : SignDoc -> result bytes;
  UnmarshalTxRaw : bytes -> result TxRaw;
  UnmarshalTxBody : bytes -> result (list AnyMsg);
  UnmarshalAuthInfo : bytes -> result (list SignerInfo);
  UnpackMsg : AnyMsg -> result (option Msg);       (* None: nil interface *)
  PubKey : Type;
  UnpackPubKey : AnyMsg -> result (option PubKey);
  PubKey_Address : PubKey -> bytes;
  (* sdk.AccAddress *)
  AccAddress_String : bytes -> string;
  AccAddressFromBech32 : string -> result bytes;
  ValidateDenom : string -> error;
  Coin_IsValid : Coin -> bool;
  Coin_IsPositive : Coin -> bool;
  NewCoins : list Coin -> list Coin;
  (* go-ethereum *)
  Keccak256 : bytes -> bytes;
  EthPubKey : Type;
  SigToPub : bytes -> bytes -> result EthPubKey;
  PubkeyToAddress : EthPubKey -> Address;
  BytesToAddress : bytes -> Address;
  IsHexAddress : string -> bool;
  HexToAddress : string -> Address;
  Address_Hex : Address -> string;
  hexutil_Decode : string -> result bytes;
  hexutil_Encode : bytes -> string;
  EthTx_UnmarshalBinary : bytes -> result EthTx;
  EthTx_Sender : EthTx -> result Address;
}.

Class ChainLibLaws (L : ChainLib) : Prop := {
  flags_values : OrderIdFlags_ShortTerm = 0 /\ OrderIdFlags_Conditional = 32 /\ OrderIdFlags_LongTerm = 64;
  coin_positive : forall c, Coin_IsPositive c = true -> exists a, coin_Amount c = Some a /\ 0 < a;
  new_coins_one : forall c, Coin_IsValid c = true -> Coin_IsPositive c = true -> NewCoins [c] = [c];
  hex_to_address : forall h a, HexDecode h = Some a -> List.length a = 20%nat ->
    HexToAddress ("0x" +:+ h)%string = a;
  bytes_to_address : forall a, List.length a = 20%nat -> BytesToAddress a = a;
  hex_address_length : forall s, IsHexAddress s = true -> List.length (HexToAddress s) = 20%nat;
  address_hex_lower : forall a, List.length a = 20%nat ->
    is_ascii_str (Address_Hex a) = true
    /\ map lower_ascii (chars (Address_Hex a)) = chars ("0x" +:+ HexEncode a);
  hexutil_roundtrip : forall b, hexutil_Decode (hexutil_Encode b) = Ok b;
  short_term_flag : forall o, IsShortTermOrder o = (oid_OrderFlags o =? OrderIdFlags_ShortTerm);
}.

(** ** A concrete instance for evaluations

    A raw transaction of digits is a USDC withdrawal of that many quantums; one
    that starts with [s] is a bank send of that much of the native denom.  Every
    key belongs to the account [svp1a]. *)
Definition demo_unpack (a : AnyMsg) : result (option Msg) :=
  match any_Value a with
  | c :: v =>
      if Ascii.eqb c "s" then
        Ok (Some (MsgSend "svp1a" "svp1z" [mkCoin "asvp" (parse_nat v)]))
      else match parse_nat (c :: v) with
           | Some q => Ok (Some (MsgWithdrawFromSubaccount (mkSubaccountId "svp1a" 0) "svp1a" 0 q))
           | None => Err (ErrNew "unknown message")
           end
  | [] => Ok None
  end.

Definition demo_lib : ChainLib := {|
  AssetUsdc_Id := 0;
  UusdcDenom := "erc20/usdc";
  OrderIdFlags_ShortTerm := 0;
  OrderIdFlags_Conditional := 32;
  OrderIdFlags_LongTerm := 64;
  IsShortTermOrder := fun o => oid_OrderFlags o =? 0;
  ValidateBasic := fun _ => Ok tt;
  NewAnyWithValue := fun _ => Ok (mkAny "/msg" (chars "1000"));
  MarshalTxBody := fun l => Ok (List.concat (map any_Value l));
  MarshalSignDoc := fun d => Ok (sd_BodyBytes d);
  UnmarshalTxRaw := fun b => Ok (mkTxRaw b [] []);
  UnmarshalTxBody := fun b => Ok [mkAny "/msg" b];
  UnmarshalAuthInfo := fun _ => Ok [mkSignerInfo (Some (mkAny "/pk" []))];
  UnpackMsg := demo_unpack;
  PubKey := unit;
  UnpackPubKey := fun _ => Ok (Some tt);
  PubKey_Address := fun _ => chars "a";
  AccAddress_String := fun b => ("svp1" +:+ str b)%string;
  AccAddressFromBech32 := fun s =>
    match CutPrefix s "svp1" with (r, true) => Ok (chars r) | _ => Err (ErrNew "bad prefix") end;
  ValidateDenom := fun d => check (String.eqb d "") (ErrNew "invalid denom");
  Coin_IsValid := fun c => match coin_Amount c with Some a => 0 <=? a | None => false end;
  Coin_IsPositive := fun c => match coin_Amount c with Some a => 0 <? a | None => false end;
  NewCoins := fun l => List.filter (fun c => match coin_Amount c with Some a => 0 <? a | None => false end) l;
  Keccak256 := fun b => b;
  EthPubKey := unit;
  SigToPub := fun _ _ => Ok tt;
  PubkeyToAddress := fun _ => chars "a";
  BytesToAddress := fun b => b;
  IsHexAddress := fun s =>
    match HexDecode (TrimPrefix s "0x") with Some a => Nat.eqb (List.length a) 20 | None => false end;
  HexToAddress := fun s => default [] (HexDecode (TrimPrefix s "0x"));
  Address_Hex := fun a => ("0x" +:+ HexEncode a)%string;
  hexutil_Decode := fun s => from_opt (HexDecode (TrimPrefix s "0x")) (ErrNew "invalid hex string");
  hexutil_Encode := fun b => ("0x" +:+ HexEncode b)%string;
  EthTx_UnmarshalBinary := fun b => Ok (mkEthTx (Some (chars "b")) (default 0 (parse_nat b)) [] 262144 "0xhash");
  EthTx_Sender := fun _ => Ok (chars "a");
|}.

Lemma demo_lib_laws : ChainLibLaws demo_lib.
Proof.
  constructor; [done| | | |done| | | |done].
  - intros [d [a|]]; cbn; [|done]. intros H%Z.ltb_lt. eauto.
  - intros [d [a|]]; cbn; [|done]. by intros _ ->.
  - intros h a H _. cbn [HexToAddress demo_lib]. unfold TrimPrefix, CutPrefix.
    rewrite chars_app, strip_prefix_app. cbn [fst]. by rewrite str_chars, H.
  - intros s. cbn [IsHexAddress HexToAddress demo_lib]. destruct (HexDecode _) as [a|]; [|done]. apply Nat.eqb_eq.
  - intros a _. cbn [Address_Hex demo_lib]. unfold HexEncode, is_ascii_str. rewrite chars_app, chars_str.
    pose proof (hex_enc_range a) as Hr. split.
    + rewrite forallb_app. apply andb_true_iff. split; [done|]. apply List.forallb_forall.
      intros c Hc%list_elem_of_In. apply Z.ltb_lt. rewrite Forall_forall in Hr. specialize (Hr c Hc). lia.
    + rewrite map_app. f_equal. induction Hr as [|c l Hc _ IH]; [done|]. cbn [map]. rewrite IH. f_equal.
      unfold lower_ascii. destruct (Z.leb_spec 65 (code c)), (Z.leb_spec (code c) 90); try done. lia.
  - intros b. cbn [hexutil_Decode hexutil_Encode demo_lib]. unfold TrimPrefix, CutPrefix.
    rewrite chars_app, strip_prefix_app. cbn [fst]. by rewrite str_chars, hex_roundtrip.
Qed.
