(* ===== verification/Payload.v ===== *)
(** * The wire records (payload/payload.go, payload/sign_bytes.go) *)

From S2P Require Import Prelude GoStrings GoTime ChainLib.

Definition CurrentVersion : Z := 1.

Record PCoin : Type := mkPCoin { pc_Denom : string; pc_Amount : string }.

Record Fee : Type := mkFee { fee_GasLimit : string; fee_Amount : list PCoin }.

Record SubaccountRef : Type := mkSubaccountRef { sr_Owner : string; sr_Number : Z }.

Record Summary : Type := mkSummary {
  su_ToolName : string;
  su_MsgTypeURL : string;
  su_Subaccount : SubaccountRef;
  su_Ticker : string;
  su_Side : string;
  su_SizeHuman : string;
  su_PriceHuman : string;
  su_NotionalUSD : string;
  su_GoodTil : string;
  su_ReduceOnly : bool;
  su_OrderClientID : Z;
  su_AssetID : Z;
  su_AmountHuman : string;
  su_RecipientOwner : string;
  su_RecipientNum : Z;
  su_Denom : string;
}.

Record TxPayload : Type := mkTxPayload {
  p_Version : Z;
  p_ClientID : string;
  p_ChainID : string;
  p_SignerAddress : string;
  p_AccountNumber : string;
  p_Sequence : string;
  p_IsShortTermCLOB : bool;
  p_TxBodyBytesB64 : string;
  p_AuthInfoBytesB64 : string;
  p_SignBytesB64 : string;
  p_Fee : Fee;
  p_Summary : Summary;
  p_ExpiresAt : Time;
}.

Record SignedTx : Type := mkSignedTx {
  st_TxRawBytesB64 : string;
  st_SignatureB64 : string;
  st_PubKeyB64 : string;
}.

Record BroadcastResult : Type := mkBroadcastResult { br_TxHash : string; br_Code : Z; br_RawLog : string }.

Definition EVMTxTypeEIP1559 : string := "eip1559".
Definition EVMTxTypeLegacy : string := "legacy".

Record EVMSummary : Type := mkEVMSummary { es_ToolName : string; es_Description : string }.

Record EVMTxPayload : Type := mkEVMTxPayload {
  ep_Version : Z;
  ep_ClientID : string;
  ep_EVMChainID : string;
  ep_SignerAddress : string;
  ep_TxType : string;
  ep_To : string;
  ep_Nonce : string;
  ep_Gas : string;
  ep_MaxFeePerGas : string;
  ep_MaxPriorityFeePerGas : string;
  ep_Value : string;
  ep_Data : string;
  ep_ExpiresAt : Time;
  ep_Summary : EVMSummary;
}.

Record EVMSignedTx : Type := mkEVMSignedTx { ev_RawTxHex : string; ev_TxHash : string }.

(** The bytes a signer signs in SIGN_MODE_DIRECT. *)
Definition DirectSignBytes {L : ChainLib} (bodyBytes authInfoBytes : bytes) (chainID : string)
    (accountNumber : Z) : result bytes :=
  wrap (fun e => Errorf "marshal SignDoc: %w" [FErr e])
    (MarshalSignDoc (mkSignDoc bodyBytes authInfoBytes chainID accountNumber)).
