(* ===== verification/Assembler.v ===== *)
(** * From messages to a payload (builder/tx.go, builder/seq.go) *)

From S2P Require Import Prelude GoStrings GoNum GoTime GoEncoding ChainLib Payload.

Definition ClobGasLimit : Z := 1000000.
Definition DefaultPayloadTTL : Duration := 30 * Second.

Record Assembler : Type := mkAssembler {
  a_chainID : string;
  a_feeDenom : string;
  a_feeAmount : string;
  a_gasLimit : Z;
}.

Definition NewAssembler (chainID feeDenom feeAmount : string) (gasLimit : Z) : Assembler :=
  mkAssembler chainID feeDenom feeAmount (if gasLimit =? 0 then ClobGasLimit else gasLimit).

Record Args : Type := mkArgs {
  Msgs : list Msg;
  SignerAddress : string;
  AccountNumber : Z;
  Sequence : Z;
  ClientID : string;
  ASummary : Summary;
}.

Section Assemble.
Context {L : ChainLib}.

Definition IsShortTermClobMsgs (msgs : list Msg) : bool :=
  match msgs with
  | [m] =>
      match m with
      | MsgPlaceOrder order => IsShortTermOrder (o_OrderId order)
      | MsgCancelOrder orderId _ => IsShortTermOrder orderId
      | MsgBatchCancel _ _ _ => true
      | _ => false
      end
  | _ => false
  end.

Fixpoint wrap_msgs (i : Z) (msgs : list Msg) : result (list AnyMsg) :=
  match msgs with
  | [] => Ok []
  | m :: ms =>
      anyMsg ← wrap (fun e => Errorf "wrap msg %d in Any: %w" [FInt i; FErr e]) (NewAnyWithValue m);
      rest ← wrap_msgs (i + 1) ms;
      Ok (anyMsg :: rest)
  end.

Definition encodeTxBody (msgs : list Msg) : result bytes :=
  anyMsgs ← wrap_msgs 0 msgs;
  wrap (fun e => Errorf "marshal TxBody: %w" [FErr e]) (MarshalTxBody anyMsgs).

Definition Assemble (a : Assembler) (args : Args) (now : Time) : result TxPayload :=
  bodyBytes ← encodeTxBody (Msgs args);
  let isShortTermCLOB := IsShortTermClobMsgs (Msgs args) in
  let feeAmount := if negb isShortTermCLOB then [mkPCoin (a_feeDenom a) (a_feeAmount a)] else [] in
  Ok {| p_Version := CurrentVersion;
        p_ClientID := ClientID args;
        p_ChainID := a_chainID a;
        p_SignerAddress := SignerAddress args;
        p_AccountNumber := FormatUint (AccountNumber args);
        p_Sequence := FormatUint (Sequence args);
        p_IsShortTermCLOB := isShortTermCLOB;
        p_TxBodyBytesB64 := Base64Encode bodyBytes;
        p_AuthInfoBytesB64 := "";
        p_SignBytesB64 := "";
        p_Fee := mkFee (FormatUint (a_gasLimit a)) feeAmount;
        p_Summary := ASummary args;
        p_ExpiresAt := now + DefaultPayloadTTL |}.

(** ** What a payload says about the message it was built for *)

Record carries (a : Assembler) (msg : Msg) (owner clientID : string) (acct seq : Z) (now : Time)
    (p : TxPayload) : Prop := mkCarries {
  carries_body : exists any body, NewAnyWithValue msg = Ok any /\ MarshalTxBody [any] = Ok body
                 /\ Base64Decode (p_TxBodyBytesB64 p) = Ok body;
  carries_signer : p_SignerAddress p = owner;
  carries_client : p_ClientID p = clientID;
  carries_chain : p_ChainID p = a_chainID a;
  carries_acct : 0 <= acct <= maxU64 -> ParseUint (p_AccountNumber p) = Ok acct;
  carries_seq : 0 <= seq <= maxU64 -> ParseUint (p_Sequence p) = Ok seq;
  carries_short : p_IsShortTermCLOB p = IsShortTermClobMsgs [msg];
  carries_fee : fee_Amount (p_Fee p)
                = if IsShortTermClobMsgs [msg] then [] else [mkPCoin (a_feeDenom a) (a_feeAmount a)];
  carries_expiry : p_ExpiresAt p = now + DefaultPayloadTTL;
}.

Lemma Assemble_carries a msg owner acct seq cid sum now p :
  Assemble a (mkArgs [msg] owner acct seq cid sum) now = Ok p ->
  carries a msg owner cid acct seq now p /\ p_Summary p = sum.
Proof.
  unfold Assemble. destruct (encodeTxBody _) as [body|] eqn:E; cbn [mbind result_bind]; [|done].
  intros [= <-]. split; [|done]. constructor;
    cbn [p_TxBodyBytesB64 p_SignerAddress p_ClientID p_ChainID p_AccountNumber p_Sequence
         p_IsShortTermCLOB p_Fee fee_Amount p_ExpiresAt SignerAddress ClientID AccountNumber Sequence Msgs];
    try done.
  - unfold encodeTxBody in E. cbn in E. destruct (NewAnyWithValue msg) as [any|] eqn:Ea; cbn in E; [|done].
    destruct (MarshalTxBody [any]) as [b|] eqn:Eb; [|done]. cbn in E. simplify_eq.
    exists any, body. split_and!; [done..|]. apply base64_roundtrip.
  - intros. by apply ParseUint_FormatUint.
  - intros. by apply ParseUint_FormatUint.
  - unfold IsShortTermClobMsgs. by destruct (match msg with MsgPlaceOrder _ => _ | _ => _ end).
Qed.

(** The builders report an assembler failure as [assemble: ...]. *)
Definition assemble_msg (a : Assembler) (msg : Msg) (owner : string) (acct seq : Z) (cid : string)
    (sum : Summary) (now : Time) : result (Msg * TxPayload) :=
  txPayload ← wrap (fun e => Errorf "assemble: %w" [FErr e]) (Assemble a (mkArgs [msg] owner acct seq cid sum) now);
  Ok (msg, txPayload).

Lemma assemble_msg_ok a msg owner acct seq cid sum now m p :
  assemble_msg a msg owner acct seq cid sum now = Ok (m, p) ->
  m = msg /\ carries a msg owner cid acct seq now p /\ p_Summary p = sum.
Proof.
  unfold assemble_msg. destruct (Assemble _ _ _) eqn:E; cbn; [|done]. intros [= <- <-].
  split; [done|]. by apply Assemble_carries.
Qed.

End Assemble.
