(* ===== verification/Cancels.v ===== *)
(** * Cancel builders (builder/cancels.go) *)

From S2P Require Import Prelude GoStrings GoNum GoTime ChainLib Payload Assembler.

Record CancelOrderInput : Type := mkCancelOrderInput {
  co_Owner : string;
  co_SubaccountNum : Z;
  co_ClobPairID : Z;
  co_OrderClientID : Z;
  co_OrderFlags : Z;
  co_GoodTilBlock : Z;
  co_GoodTilBlockTime : Z;
  co_PayloadClientID : string;
}.

Record OrderBatchInput : Type := mkOrderBatchInput { obi_ClobPairID : Z; obi_ClientIDs : list Z }.

Record BatchCancelOrdersInput : Type := mkBatchCancelOrdersInput {
  bc_Owner : string;
  bc_SubaccountNum : Z;
  bc_Batches : list OrderBatchInput;
  bc_GoodTilBlock : Z;
  bc_PayloadClientID : string;
}.

Definition describeGoodTil (block blockTime : Z) : string :=
  if 0 <? block then ("block:" +:+ FormatInt block)%string else ("time:" +:+ FormatInt blockTime)%string.

Section Cancels.
Context {L : ChainLib}.

Definition validateCancelFlags (flags goodTilBlock goodTilTime : Z) : error :=
  if flags =? OrderIdFlags_ShortTerm then
    if goodTilBlock =? 0 then Err (Errorf "short-term cancel (order_flags=0) requires good_til_block" [])
    else if negb (goodTilTime =? 0) then Err (Errorf "short-term cancel must not set good_til_block_time" [])
    else Ok tt
  else if (flags =? OrderIdFlags_Conditional) || (flags =? OrderIdFlags_LongTerm) then
    if goodTilTime =? 0 then
      Err (Errorf "stateful cancel (order_flags=%d) requires good_til_block_time" [FInt flags])
    else if negb (goodTilBlock =? 0) then Err (Errorf "stateful cancel must not set good_til_block" [])
    else Ok tt
  else Err (Errorf "invalid order_flags %d (want 0=ShortTerm, 32=Conditional, 64=LongTerm)" [FInt flags]).

Definition BuildCancelOrder (inp : CancelOrderInput) (asm : Assembler) (accountNumber sequence : Z)
    (now : Time) : result (Msg * TxPayload) :=
  _ ← validateCancelFlags (co_OrderFlags inp) (co_GoodTilBlock inp) (co_GoodTilBlockTime inp);
  let msg :=
    MsgCancelOrder
      (mkOrderId (mkSubaccountId (co_Owner inp) (co_SubaccountNum inp)) (co_OrderClientID inp)
         (co_OrderFlags inp) (co_ClobPairID inp))
      (if 0 <? co_GoodTilBlock inp then GoodTilBlock (co_GoodTilBlock inp)
       else GoodTilBlockTime (co_GoodTilBlockTime inp)) in
  _ ← wrap (fun e => Errorf "MsgCancelOrder.ValidateBasic: %w" [FErr e]) (ValidateBasic msg);
  let summary :=
    {| su_ToolName := "build_cancel_order";
       su_MsgTypeURL := "/dydxprotocol.clob.MsgCancelOrder";
       su_Subaccount := mkSubaccountRef (co_Owner inp) (co_SubaccountNum inp);
       su_Ticker := ""; su_Side := ""; su_SizeHuman := ""; su_PriceHuman := ""; su_NotionalUSD := "";
       su_GoodTil := describeGoodTil (co_GoodTilBlock inp) (co_GoodTilBlockTime inp);
       su_ReduceOnly := false; su_OrderClientID := co_OrderClientID inp;
       su_AssetID := 0; su_AmountHuman := ""; su_RecipientOwner := ""; su_RecipientNum := 0; su_Denom := "" |} in
  assemble_msg asm msg (co_Owner inp) accountNumber sequence (co_PayloadClientID inp) summary now.

(** The loop over the batches: the order batches and the total of client ids. *)
Fixpoint order_batches (i : Z) (bs : list OrderBatchInput) : result (list OrderBatch * Z) :=
  match bs with
  | [] => Ok ([], 0)
  | b :: bs' =>
      _ ← check (bool_decide (obi_ClientIDs b = []))
            (Errorf "batches[%d] (clob_pair_id=%d) has no client_ids" [FInt i; FInt (obi_ClobPairID b)]);
      '(rest, total) ← order_batches (i + 1) bs';
      Ok (mkOrderBatch (obi_ClobPairID b) (obi_ClientIDs b) :: rest,
          Z.of_nat (List.length (obi_ClientIDs b)) + total)
  end.

Definition BuildBatchCancelOrders (inp : BatchCancelOrdersInput) (asm : Assembler)
    (accountNumber sequence : Z) (now : Time) : result (Msg * TxPayload) :=
  _ ← check (bool_decide (bc_Batches inp = []))
        (Errorf "batch cancel requires at least one (clob_pair_id, client_ids) tuple" []);
  _ ← check (bc_GoodTilBlock inp =? 0)
        (Errorf "good_til_block is required (batch cancel is short-term only)" []);
  '(orderBatches, totalIDs) ← order_batches 0 (bc_Batches inp);
  let msg :=
    MsgBatchCancel (mkSubaccountId (bc_Owner inp) (bc_SubaccountNum inp)) orderBatches (bc_GoodTilBlock inp) in
  _ ← wrap (fun e => Errorf "MsgBatchCancel.ValidateBasic: %w" [FErr e]) (ValidateBasic msg);
  let summary :=
    {| su_ToolName := "build_batch_cancel_orders";
       su_MsgTypeURL := "/dydxprotocol.clob.MsgBatchCancel";
       su_Subaccount := mkSubaccountRef (bc_Owner inp) (bc_SubaccountNum inp);
       su_Ticker := ""; su_Side := ""; su_SizeHuman := ""; su_PriceHuman := ""; su_NotionalUSD := "";
       su_GoodTil := ("block:" +:+ FormatInt (bc_GoodTilBlock inp))%string;
       su_ReduceOnly := false; su_OrderClientID := u32 totalIDs;
       su_AssetID := 0; su_AmountHuman := ""; su_RecipientOwner := ""; su_RecipientNum := 0; su_Denom := "" |} in
  assemble_msg asm msg (bc_Owner inp) accountNumber sequence (bc_PayloadClientID inp) summary now.

End Cancels.
