(* ===== verification/Orders.v ===== *)
(** * Order builders (builder/orders.go) *)

From S2P Require Import Prelude GoStrings GoNum GoTime Markets Units ChainLib Payload Assembler.

Record PlaceLimitOrderInput : Type := mkPlaceLimitOrderInput {
  lo_Owner : string;
  lo_SubaccountNum : Z;
  lo_Ticker : string;
  lo_Side : string;
  lo_HumanSize : string;
  lo_HumanPrice : string;
  lo_TimeInForce : string;
  lo_ReduceOnly : bool;
  lo_GoodTilBlock : Z;
  lo_OrderClientID : Z;
  lo_PayloadClientID : string;
}.

Record PlaceMarketOrderInput : Type := mkPlaceMarketOrderInput {
  mo_Owner : string;
  mo_SubaccountNum : Z;
  mo_Ticker : string;
  mo_Side : string;
  mo_HumanSize : string;
  mo_WorstPrice : string;
  mo_OraclePrice : string;
  mo_SlippageBps : Z;
  mo_ReduceOnly : bool;
  mo_GoodTilBlock : Z;
  mo_OrderClientID : Z;
  mo_PayloadClientID : string;
}.

Record PlaceConditionalOrderInput : Type := mkPlaceConditionalOrderInput {
  cd_Owner : string;
  cd_SubaccountNum : Z;
  cd_Ticker : string;
  cd_Side : string;
  cd_HumanSize : string;
  cd_HumanPrice : string;
  cd_ConditionType : string;
  cd_TriggerPrice : string;
  cd_TimeInForce : string;
  cd_ReduceOnly : bool;
  cd_GoodTilBlockTime : Z;
  cd_OrderClientID : Z;
  cd_PayloadClientID : string;
}.

Definition parseConditionType (s : string) : result Order_ConditionType :=
  if String.eqb s "STOP_LOSS" then Ok CONDITION_TYPE_STOP_LOSS
  else if String.eqb s "TAKE_PROFIT" then Ok CONDITION_TYPE_TAKE_PROFIT
  else Err (Errorf "invalid condition_type %q (want STOP_LOSS or TAKE_PROFIT)" [FStr s]).

Definition parseSide (s : string) : result Order_Side :=
  if String.eqb s "BUY" then Ok SIDE_BUY
  else if String.eqb s "SELL" then Ok SIDE_SELL
  else Err (Errorf "invalid side %q (want BUY or SELL)" [FStr s]).

Definition parseTimeInForce (s : string) : result Order_TimeInForce :=
  if String.eqb s "" || String.eqb s "UNSPECIFIED" then Ok TIME_IN_FORCE_UNSPECIFIED
  else if String.eqb s "IOC" then Ok TIME_IN_FORCE_IOC
  else if String.eqb s "POST_ONLY" then Ok TIME_IN_FORCE_POST_ONLY
  else Err (Errorf "invalid time_in_force %q" [FStr s]).

(** The summary of the three order tools. *)
Definition order_summary (tool owner : string) (sub : Z) (ticker side size price goodTil : string)
    (reduceOnly : bool) (orderClientID : Z) : Summary :=
  {| su_ToolName := tool;
     su_MsgTypeURL := "/dydxprotocol.clob.MsgPlaceOrder";
     su_Subaccount := mkSubaccountRef owner sub;
     su_Ticker := ticker; su_Side := side; su_SizeHuman := size; su_PriceHuman := price;
     su_NotionalUSD := ""; su_GoodTil := goodTil; su_ReduceOnly := reduceOnly;
     su_OrderClientID := orderClientID;
     su_AssetID := 0; su_AmountHuman := ""; su_RecipientOwner := ""; su_RecipientNum := 0; su_Denom := "" |}.

Definition validate_order (msg : Msg) {L : ChainLib} : error :=
  wrap (fun e => Errorf "MsgPlaceOrder.ValidateBasic: %w" [FErr e]) (ValidateBasic msg).

Section Orders.
Context {L : ChainLib} {DL : DydxLib}.

Definition BuildPlaceLimitOrder (inp : PlaceLimitOrderInput) (cache : Cache) (asm : Assembler)
    (accountNumber sequence : Z) (now : Time) : result (Msg * TxPayload) :=
  meta ← from_opt (ResolveTicker (lo_Ticker inp) cache)
           (Errorf "unknown ticker %q (markets cache not populated?)" [FStr (lo_Ticker inp)]);
  quantums ← wrap (fun e => Errorf "size: %w" [FErr e]) (SizeToQuantums (lo_HumanSize inp) meta);
  subticks ← wrap (fun e => Errorf "price: %w" [FErr e]) (PriceToSubticks (lo_HumanPrice inp) meta);
  side ← parseSide (lo_Side inp);
  tif ← parseTimeInForce (lo_TimeInForce inp);
  _ ← check (lo_GoodTilBlock inp =? 0) (Errorf "good_til_block is required for short-term orders" []);
  let msg := MsgPlaceOrder
    {| o_OrderId := mkOrderId (mkSubaccountId (lo_Owner inp) (lo_SubaccountNum inp)) (lo_OrderClientID inp)
                      OrderIdFlags_ShortTerm (mm_ClobPairID meta);
       o_Side := side; o_Quantums := quantums; o_Subticks := subticks; o_TimeInForce := tif;
       o_ReduceOnly := lo_ReduceOnly inp;
       o_ConditionType := CONDITION_TYPE_UNSPECIFIED; o_ConditionalOrderTriggerSubticks := 0;
       o_GoodTilOneof := GoodTilBlock (lo_GoodTilBlock inp) |} in
  _ ← validate_order msg;
  let summary :=
    order_summary "build_place_limit_order" (lo_Owner inp) (lo_SubaccountNum inp) (lo_Ticker inp) (lo_Side inp)
      (lo_HumanSize inp) (lo_HumanPrice inp) ("block:" +:+ FormatInt (lo_GoodTilBlock inp))%string
      (lo_ReduceOnly inp) (lo_OrderClientID inp) in
  assemble_msg asm msg (lo_Owner inp) accountNumber sequence (lo_PayloadClientID inp) summary now.

(** The price strategy of a market order: its subticks and its description. *)
Definition market_price (inp : PlaceMarketOrderInput) (meta : MarketMeta) : result (Z * string) :=
  if negb (String.eqb (mo_WorstPrice inp) "") then
    subticks ← wrap (fun e => Errorf "worst_price: %w" [FErr e]) (PriceToSubticks (mo_WorstPrice inp) meta);
    Ok (subticks, mo_WorstPrice inp)
  else if negb (String.eqb (mo_OraclePrice inp) "") && (0 <? mo_SlippageBps inp) then
    subticks ← wrap (fun e => Errorf "aggressive subticks: %w" [FErr e])
                 (AggressiveSubticks (mo_Side inp) (mo_OraclePrice inp) (mo_SlippageBps inp) meta);
    Ok (subticks, ("oracle=" +:+ mo_OraclePrice inp +:+ " slip=" +:+ FormatInt (mo_SlippageBps inp) +:+ "bps")%string)
  else Err (Errorf "market order requires either worst_price or (oracle_price + slippage_bps)" []).

Definition BuildPlaceMarketOrder (inp : PlaceMarketOrderInput) (cache : Cache) (asm : Assembler)
    (accountNumber sequence : Z) (now : Time) : result (Msg * TxPayload) :=
  meta ← from_opt (ResolveTicker (mo_Ticker inp) cache)
           (Errorf "unknown ticker %q (markets cache not populated?)" [FStr (mo_Ticker inp)]);
  quantums ← wrap (fun e => Errorf "size: %w" [FErr e]) (SizeToQuantums (mo_HumanSize inp) meta);
  side ← parseSide (mo_Side inp);
  '(subticks, worstHuman) ← market_price inp meta;
  _ ← check (mo_GoodTilBlock inp =? 0) (Errorf "good_til_block is required for short-term orders" []);
  let msg := MsgPlaceOrder
    {| o_OrderId := mkOrderId (mkSubaccountId (mo_Owner inp) (mo_SubaccountNum inp)) (mo_OrderClientID inp)
                      OrderIdFlags_ShortTerm (mm_ClobPairID meta);
       o_Side := side; o_Quantums := quantums; o_Subticks := subticks; o_TimeInForce := TIME_IN_FORCE_IOC;
       o_ReduceOnly := mo_ReduceOnly inp;
       o_ConditionType := CONDITION_TYPE_UNSPECIFIED; o_ConditionalOrderTriggerSubticks := 0;
       o_GoodTilOneof := GoodTilBlock (mo_GoodTilBlock inp) |} in
  _ ← validate_order msg;
  let summary :=
    order_summary "build_place_market_order" (mo_Owner inp) (mo_SubaccountNum inp) (mo_Ticker inp) (mo_Side inp)
      (mo_HumanSize inp) worstHuman ("block:" +:+ FormatInt (mo_GoodTilBlock inp))%string
      (mo_ReduceOnly inp) (mo_OrderClientID inp) in
  assemble_msg asm msg (mo_Owner inp) accountNumber sequence (mo_PayloadClientID inp) summary now.

Definition BuildPlaceConditionalOrder (inp : PlaceConditionalOrderInput) (cache : Cache) (asm : Assembler)
    (accountNumber sequence : Z) (now : Time) : result (Msg * TxPayload) :=
  meta ← from_opt (ResolveTicker (cd_Ticker inp) cache) (Errorf "unknown ticker %q" [FStr (cd_Ticker inp)]);
  quantums ← wrap (fun e => Errorf "size: %w" [FErr e]) (SizeToQuantums (cd_HumanSize inp) meta);
  subticks ← wrap (fun e => Errorf "price: %w" [FErr e]) (PriceToSubticks (cd_HumanPrice inp) meta);
  triggerSubticks ← wrap (fun e => Errorf "trigger_price: %w" [FErr e]) (PriceToSubticks (cd_TriggerPrice inp) meta);
  side ← parseSide (cd_Side inp);
  tif ← parseTimeInForce (cd_TimeInForce inp);
  cond ← parseConditionType (cd_ConditionType inp);
  _ ← check (cd_GoodTilBlockTime inp =? 0)
        (Errorf "good_til_block_time is required for stateful (conditional) orders" []);
  let msg := MsgPlaceOrder
    {| o_OrderId := mkOrderId (mkSubaccountId (cd_Owner inp) (cd_SubaccountNum inp)) (cd_OrderClientID inp)
                      OrderIdFlags_Conditional (mm_ClobPairID meta);
       o_Side := side; o_Quantums := quantums; o_Subticks := subticks; o_TimeInForce := tif;
       o_ReduceOnly := cd_ReduceOnly inp;
       o_ConditionType := cond; o_ConditionalOrderTriggerSubticks := triggerSubticks;
       o_GoodTilOneof := GoodTilBlockTime (cd_GoodTilBlockTime inp) |} in
  _ ← validate_order msg;
  let summary :=
    order_summary "build_place_conditional_order" (cd_Owner inp) (cd_SubaccountNum inp) (cd_Ticker inp)
      (cd_Side inp) (cd_HumanSize inp)
      (cd_HumanPrice inp +:+ " (" +:+ cd_ConditionType inp +:+ " @ trigger " +:+ cd_TriggerPrice inp +:+ ")")%string
      ("time:" +:+ FormatInt (cd_GoodTilBlockTime inp))%string (cd_ReduceOnly inp) (cd_OrderClientID inp) in
  assemble_msg asm msg (cd_Owner inp) accountNumber sequence (cd_PayloadClientID inp) summary now.

End Orders.
