(* ===== verification/FundsBuilder.v ===== *)
(** * Fund-movement builders (builder/funds.go) *)

From S2P Require Import Prelude GoStrings GoNum GoTime Limits ChainLib Payload Assembler.

Record DepositToSubaccountInput : Type := mkDepositToSubaccountInput {
  dp_Owner : string;
  dp_SubaccountNum : Z;
  dp_HumanUSDC : string;
  dp_PayloadClientID : string;
}.

Record TransferBetweenSubaccountsInput : Type := mkTransferBetweenSubaccountsInput {
  tb_Owner : string;
  tb_SenderSubaccountNum : Z;
  tb_RecipientSubaccountNum : Z;
  tb_HumanUSDC : string;
  tb_PayloadClientID : string;
}.

Record BankSendInput : Type := mkBankSendInput {
  bk_Owner : string;
  bk_Recipient : string;
  bk_Amount : Coin;
  bk_AmountHuman : string;
  bk_PayloadClientID : string;
}.

Record WithdrawFromSubaccountInput : Type := mkWithdrawFromSubaccountInput {
  wd_Owner : string;
  wd_SubaccountNum : Z;
  wd_HumanUSDC : string;
  wd_PayloadClientID : string;
}.

(** The summary of the four funds tools. *)
Definition funds_summary (tool url : string) (sub : SubaccountRef) (assetID : Z) (amountHuman recipientOwner : string)
    (recipientNum : Z) (denom : string) : Summary :=
  {| su_ToolName := tool; su_MsgTypeURL := url; su_Subaccount := sub;
     su_Ticker := ""; su_Side := ""; su_SizeHuman := ""; su_PriceHuman := ""; su_NotionalUSD := "";
     su_GoodTil := ""; su_ReduceOnly := false; su_OrderClientID := 0;
     su_AssetID := assetID; su_AmountHuman := amountHuman; su_RecipientOwner := recipientOwner;
     su_RecipientNum := recipientNum; su_Denom := denom |}.

(** A positive USDC amount in quantums. *)
Definition positive_usdc (humanUSDC : string) : result Z :=
  quantums ← wrap (fun e => Errorf "human_usdc: %w" [FErr e]) (HumanToQuantums humanUSDC);
  _ ← check (quantums =? 0) (Errorf "human_usdc must be > 0" []);
  Ok quantums.

Section Funds.
Context {L : ChainLib}.

Definition BuildDepositToSubaccount (inp : DepositToSubaccountInput) (asm : Assembler)
    (accountNumber sequence : Z) (now : Time) : result (Msg * TxPayload) :=
  quantums ← positive_usdc (dp_HumanUSDC inp);
  let msg := MsgDepositToSubaccount (dp_Owner inp) (mkSubaccountId (dp_Owner inp) (dp_SubaccountNum inp))
               AssetUsdc_Id quantums in
  _ ← wrap (fun e => Errorf "MsgDepositToSubaccount.ValidateBasic: %w" [FErr e]) (ValidateBasic msg);
  let summary := funds_summary "build_deposit_to_subaccount" "/dydxprotocol.sending.MsgDepositToSubaccount"
                   (mkSubaccountRef (dp_Owner inp) (dp_SubaccountNum inp)) AssetUsdc_Id (dp_HumanUSDC inp) "" 0 "" in
  assemble_msg asm msg (dp_Owner inp) accountNumber sequence (dp_PayloadClientID inp) summary now.

Definition BuildTransferBetweenSubaccounts (inp : TransferBetweenSubaccountsInput) (asm : Assembler)
    (accountNumber sequence : Z) (now : Time) : result (Msg * TxPayload) :=
  _ ← check (tb_SenderSubaccountNum inp =? tb_RecipientSubaccountNum inp)
        (Errorf "sender_subaccount_number must differ from recipient_subaccount_number" []);
  quantums ← positive_usdc (tb_HumanUSDC inp);
  let msg := MsgCreateTransfer
    (mkTransfer (mkSubaccountId (tb_Owner inp) (tb_SenderSubaccountNum inp))
       (mkSubaccountId (tb_Owner inp) (tb_RecipientSubaccountNum inp)) AssetUsdc_Id quantums) in
  _ ← wrap (fun e => Errorf "MsgCreateTransfer.ValidateBasic: %w" [FErr e]) (ValidateBasic msg);
  let summary := funds_summary "build_transfer_between_subaccounts" "/dydxprotocol.sending.MsgCreateTransfer"
                   (mkSubaccountRef (tb_Owner inp) (tb_SenderSubaccountNum inp)) AssetUsdc_Id (tb_HumanUSDC inp)
                   (tb_Owner inp) (tb_RecipientSubaccountNum inp) "" in
  assemble_msg asm msg (tb_Owner inp) accountNumber sequence (tb_PayloadClientID inp) summary now.

Definition BuildBankSend (inp : BankSendInput) (asm : Assembler)
    (accountNumber sequence : Z) (now : Time) : result (Msg * TxPayload) :=
  _ ← check (negb (Coin_IsValid (bk_Amount inp)) || negb (Coin_IsPositive (bk_Amount inp)))
        (Errorf "amount must be a positive coin" []);
  _ ← wrap (fun e => Errorf "owner: %w" [FErr e]) (AccAddressFromBech32 (bk_Owner inp));
  _ ← wrap (fun e => Errorf "recipient: %w" [FErr e]) (AccAddressFromBech32 (bk_Recipient inp));
  let msg := MsgSend (bk_Owner inp) (bk_Recipient inp) (NewCoins [bk_Amount inp]) in
  let summary := funds_summary "build_bank_send" "/cosmos.bank.v1beta1.MsgSend" (mkSubaccountRef "" 0) 0
                   (bk_AmountHuman inp) (bk_Recipient inp) 0 (coin_Denom (bk_Amount inp)) in
  assemble_msg asm msg (bk_Owner inp) accountNumber sequence (bk_PayloadClientID inp) summary now.

Definition BuildWithdrawFromSubaccount (inp : WithdrawFromSubaccountInput) (asm : Assembler)
    (accountNumber sequence : Z) (now : Time) : result (Msg * TxPayload) :=
  quantums ← positive_usdc (wd_HumanUSDC inp);
  let msg := MsgWithdrawFromSubaccount (mkSubaccountId (wd_Owner inp) (wd_SubaccountNum inp)) (wd_Owner inp)
               AssetUsdc_Id quantums in
  _ ← wrap (fun e => Errorf "MsgWithdrawFromSubaccount.ValidateBasic: %w" [FErr e]) (ValidateBasic msg);
  let summary := funds_summary "build_withdraw_from_subaccount" "/dydxprotocol.sending.MsgWithdrawFromSubaccount"
                   (mkSubaccountRef (wd_Owner inp) (wd_SubaccountNum inp)) AssetUsdc_Id (wd_HumanUSDC inp) "" 0 "" in
  assemble_msg asm msg (wd_Owner inp) accountNumber sequence (wd_PayloadClientID inp) summary now.

End Funds.
