(* ===== verification/Builders.v ===== *)
(** * What every builder guarantees

    The nine Cosmos builders behind one type of calls, and the theorems about
    all of them: the payload carries exactly the returned message, the message
    acts with the owner's own authority, its fee and sequence class is the one
    the chain expects, and amounts are the human amounts. *)

From S2P Require Import Prelude GoStrings GoNum GoTime Limits Markets Units ChainLib Payload Assembler Cancels.
From S2P Require Import Orders FundsBuilder.

Inductive build_call : Type :=
| CLimit (inp : PlaceLimitOrderInput) (cache : Cache)
| CMarket (inp : PlaceMarketOrderInput) (cache : Cache)
| CConditional (inp : PlaceConditionalOrderInput) (cache : Cache)
| CCancel (inp : CancelOrderInput)
| CBatch (inp : BatchCancelOrdersInput)
| CDeposit (inp : DepositToSubaccountInput)
| CTransfer (inp : TransferBetweenSubaccountsInput)
| CBankSend (inp : BankSendInput)
| CWithdraw (inp : WithdrawFromSubaccountInput).

Definition owner_of (c : build_call) : string :=
  match c with
  | CLimit i _ => lo_Owner i | CMarket i _ => mo_Owner i | CConditional i _ => cd_Owner i
  | CCancel i => co_Owner i | CBatch i => bc_Owner i | CDeposit i => dp_Owner i
  | CTransfer i => tb_Owner i | CBankSend i => bk_Owner i | CWithdraw i => wd_Owner i
  end.

Definition client_of (c : build_call) : string :=
  match c with
  | CLimit i _ => lo_PayloadClientID i | CMarket i _ => mo_PayloadClientID i
  | CConditional i _ => cd_PayloadClientID i | CCancel i => co_PayloadClientID i
  | CBatch i => bc_PayloadClientID i | CDeposit i => dp_PayloadClientID i
  | CTransfer i => tb_PayloadClientID i | CBankSend i => bk_PayloadClientID i
  | CWithdraw i => wd_PayloadClientID i
  end.

(** The account whose authority a message uses, and where the message moves
    USDC or coins to, if anywhere. *)
Definition spender (m : Msg) : option string :=
  match m with
  | MsgPlaceOrder o => Some (sa_Owner (oid_SubaccountId (o_OrderId o)))
  | MsgCancelOrder oid _ => Some (sa_Owner (oid_SubaccountId oid))
  | MsgBatchCancel sid _ _ => Some (sa_Owner sid)
  | MsgDepositToSubaccount sender _ _ _ => Some sender
  | MsgWithdrawFromSubaccount sender _ _ _ => Some (sa_Owner sender)
  | MsgCreateTransfer t => Some (sa_Owner (t_Sender t))
  | MsgSend from _ _ => Some from
  | MsgOther _ _ => None
  end.

Definition beneficiary (m : Msg) : option string :=
  match m with
  | MsgDepositToSubaccount _ recipient _ _ => Some (sa_Owner recipient)
  | MsgWithdrawFromSubaccount _ recipient _ _ => Some recipient
  | MsgCreateTransfer t => Some (sa_Owner (t_Recipient t))
  | MsgSend _ to _ => Some to
  | _ => None
  end.

(** Who may receive what a call moves: the owner, except for a bank send. *)
Definition destination (c : build_call) : option string :=
  match c with
  | CDeposit i => Some (dp_Owner i) | CTransfer i => Some (tb_Owner i) | CWithdraw i => Some (wd_Owner i)
  | CBankSend i => Some (bk_Recipient i)
  | _ => None
  end.

Definition good_til (m : Msg) : option GoodTil :=
  match m with
  | MsgPlaceOrder o => Some (o_GoodTilOneof o)
  | MsgCancelOrder _ g => Some g
  | MsgBatchCancel _ _ b => Some (GoodTilBlock b)
  | _ => None
  end.

(** The USDC quantums a message moves, and the human amount of the call. *)
Definition usdc_moved {L : ChainLib} (m : Msg) : option Z :=
  match m with
  | MsgDepositToSubaccount _ _ a q => if a =? AssetUsdc_Id then Some q else None
  | MsgWithdrawFromSubaccount _ _ a q => if a =? AssetUsdc_Id then Some q else None
  | MsgCreateTransfer t => if t_AssetId t =? AssetUsdc_Id then Some (t_Amount t) else None
  | _ => None
  end.

Definition human_usdc (c : build_call) : option string :=
  match c with
  | CDeposit i => Some (dp_HumanUSDC i) | CTransfer i => Some (tb_HumanUSDC i)
  | CWithdraw i => Some (wd_HumanUSDC i)
  | _ => None
  end.

Section Builders.
Context {L : ChainLib} {DL : DydxLib}.

Definition build (c : build_call) (asm : Assembler) (acct seq : Z) (now : Time) : result (Msg * TxPayload) :=
  match c with
  | CLimit i cache => BuildPlaceLimitOrder i cache asm acct seq now
  | CMarket i cache => BuildPlaceMarketOrder i cache asm acct seq now
  | CConditional i cache => BuildPlaceConditionalOrder i cache asm acct seq now
  | CCancel i => BuildCancelOrder i asm acct seq now
  | CBatch i => BuildBatchCancelOrders i asm acct seq now
  | CDeposit i => BuildDepositToSubaccount i asm acct seq now
  | CTransfer i => BuildTransferBetweenSubaccounts i asm acct seq now
  | CBankSend i => BuildBankSend i asm acct seq now
  | CWithdraw i => BuildWithdrawFromSubaccount i asm acct seq now
  end.

(** The calls whose transaction the chain treats as short-term: free of gas, and
    not consuming the account sequence. *)
Definition short_class (c : build_call) : bool :=
  match c with
  | CLimit _ _ | CMarket _ _ | CBatch _ => true
  | CCancel i => co_OrderFlags i =? OrderIdFlags_ShortTerm
  | _ => false
  end.

End Builders.

(** Walk a chain of binds that ended in [Ok]. *)
Ltac bind_inv H :=
  repeat (cbn [mbind result_bind] in H;
    match type of H with
    | mbind _ ?m = Ok _ =>
        let E := fresh "E" in destruct m as [?|?] eqn:E; cbn [mbind result_bind] in H; [|done]
    | context [match ?m with Ok _ => _ | Err _ => _ end] =>
        let E := fresh "E" in destruct m as [?|?] eqn:E; cbn [mbind result_bind] in H; [|done]
    | (let '(_, _) := ?x in _) = Ok _ => destruct x
    end).

Lemma check_ok b e : check b e = Ok () -> b = false.
Proof. by destruct b. Qed.

Lemma HumanToQuantums_range human q : HumanToQuantums human = Ok q -> 0 <= q <= maxU64.
Proof.
  unfold HumanToQuantums. destruct (Cut _ _) as [[i f] has]. intros H. bind_inv H. simplify_eq.
  match goal with Hc : check (negb (is_u64 _)) _ = Ok ?u |- _ => destruct u; apply check_ok in Hc; rename Hc into Hu end.
  apply negb_false_iff, andb_true_iff in Hu as [H1%Z.leb_le H2%Z.leb_le]. done.
Qed.

Section Theorems.
Context {L : ChainLib} {DL : DydxLib}.

(** Every successful call ends in [assemble_msg] on the message it returns. *)
Lemma build_assembled c asm acct seq now m p :
  build c asm acct seq now = Ok (m, p) ->
  exists sum, assemble_msg asm m (owner_of c) acct seq (client_of c) sum now = Ok (m, p)
  /\ spender m = Some (owner_of c) /\ beneficiary m = destination c.
Proof.
  intros H. destruct c; cbn [build] in H;
    unfold BuildPlaceLimitOrder, BuildPlaceMarketOrder, BuildPlaceConditionalOrder, BuildCancelOrder,
      BuildBatchCancelOrders, BuildDepositToSubaccount, BuildTransferBetweenSubaccounts, BuildBankSend,
      BuildWithdrawFromSubaccount in H; bind_inv H.
  all: pose proof (assemble_msg_ok _ _ _ _ _ _ _ _ _ _ H) as [-> _]; eexists; split; [exact H|]; by split.
Qed.

Lemma build_funds c asm acct seq now m p h :
  build c asm acct seq now = Ok (m, p) -> human_usdc c = Some h ->
  exists q, HumanToQuantums h = Ok q /\ q <> 0 /\ usdc_moved m = Some q.
Proof.
  intros H Hh. destruct c; cbn [human_usdc] in Hh; simplify_eq; cbn [build] in H;
    unfold BuildDepositToSubaccount, BuildTransferBetweenSubaccounts, BuildWithdrawFromSubaccount, positive_usdc in H;
    bind_inv H.
  all: pose proof (assemble_msg_ok _ _ _ _ _ _ _ _ _ _ H) as [-> _]; cbn [usdc_moved t_AssetId t_Amount];
    rewrite Z.eqb_refl.
  all: repeat match goal with
       | E : wrap _ ?r = Ok _ |- _ => destruct r eqn:?; cbn [wrap] in E; simplify_eq
       | E : check _ _ = Ok ?u |- _ => destruct u; apply check_ok in E
       | E : mbind _ (wrap _ ?r) = Ok _ |- _ => bind_inv E
       end.
  all: simplify_eq; eexists; split_and!; [done|by apply Z.eqb_neq|done].
Qed.

Context {LL : ChainLibLaws L}.

Lemma build_short c asm acct seq now m p :
  build c asm acct seq now = Ok (m, p) -> IsShortTermClobMsgs [m] = short_class c.
Proof.
  destruct flags_values as (E0 & E1 & E2).
  intros H. destruct c; cbn [build] in H;
    unfold BuildPlaceLimitOrder, BuildPlaceMarketOrder, BuildPlaceConditionalOrder, BuildCancelOrder,
      BuildBatchCancelOrders, BuildDepositToSubaccount, BuildTransferBetweenSubaccounts, BuildBankSend,
      BuildWithdrawFromSubaccount in H; bind_inv H.
  all: pose proof (assemble_msg_ok _ _ _ _ _ _ _ _ _ _ H) as [-> _]; cbn [IsShortTermClobMsgs short_class o_OrderId];
    rewrite ?short_term_flag; cbn [oid_OrderFlags]; rewrite ?E0, ?E1; done.
Qed.

Lemma validateCancelFlags_ok flags b t :
  validateCancelFlags flags b t = Ok tt -> 0 <= b ->
  (0 <? b) = (flags =? OrderIdFlags_ShortTerm).
Proof.
  unfold validateCancelFlags. intros H Hb. destruct (flags =? OrderIdFlags_ShortTerm).
  - destruct (Z.eqb_spec b 0); [done|]. apply Z.ltb_lt. lia.
  - destruct (_ || _); [|done]. destruct (t =? 0); [done|]. destruct (Z.eqb_spec b 0); [|done]. by subst.
Qed.

Definition uses_block (g : GoodTil) : bool := match g with GoodTilBlock _ => true | GoodTilBlockTime _ => false end.

(** The good-til field of a CLOB message is a block exactly for the short-term class. *)
Lemma build_good_til c asm acct seq now m p g :
  build c asm acct seq now = Ok (m, p) -> good_til m = Some g ->
  (forall i, c = CCancel i -> 0 <= co_GoodTilBlock i) ->
  uses_block g = short_class c.
Proof.
  intros H Hg Hi. destruct c; cbn [build] in H;
    unfold BuildPlaceLimitOrder, BuildPlaceMarketOrder, BuildPlaceConditionalOrder, BuildCancelOrder,
      BuildBatchCancelOrders, BuildDepositToSubaccount, BuildTransferBetweenSubaccounts, BuildBankSend,
      BuildWithdrawFromSubaccount in H; bind_inv H.
  all: pose proof (assemble_msg_ok _ _ _ _ _ _ _ _ _ _ H) as [-> _]; cbn in Hg; simplify_eq; try done.
  cbn [short_class]. match goal with E : validateCancelFlags _ _ _ = Ok ?u |- _ => destruct u;
    rewrite <- (validateCancelFlags_ok _ _ _ E) by (by apply Hi) end. by destruct (0 <? _).
Qed.

End Theorems.

(** ** Claims *)

(** C35: what is signed is what was asked.  A payload returned by any of the nine
    builders carries, base64 and protobuf undone, exactly the one message the
    builder returned, is addressed to be signed by the owner, keeps the
    idempotency key, states account number and sequence that parse back, and
    expires after the payload time to live; the message acts with the owner's
    authority only, and what it moves goes to the owner, or for a bank send to
    the recipient of the request. *)
Theorem build_faithful {L : ChainLib} {DL : DydxLib} (c : build_call) (asm : Assembler) (acct seq : Z)
    (now : Time) (m : Msg) (p : TxPayload) (H : build c asm acct seq now = Ok (m, p)) :
  carries asm m (owner_of c) (client_of c) acct seq now p
  /\ spender m = Some (owner_of c) /\ beneficiary m = destination c.
Proof.
  destruct (build_assembled c asm acct seq now m p H) as (sum & Ha & Hs & Hb).
  by apply assemble_msg_ok in Ha as (_ & Hc & _).
Qed.

(** The fee and sequence class of a payload is the one the chain applies: a
    limit order, a market order, a batch cancel and a cancel with short-term
    flags are marked short-term and carry no fee, everything else carries the
    configured fee; and the good-til field of an order or cancel is a block
    height exactly for the short-term class, a time otherwise. *)
Theorem build_class {L : ChainLib} {LL : ChainLibLaws L} {DL : DydxLib} (c : build_call) (asm : Assembler)
    (acct seq : Z) (now : Time) (m : Msg) (p : TxPayload)
    (H : build c asm acct seq now = Ok (m, p))
    (Hb : forall i, c = CCancel i -> 0 <= co_GoodTilBlock i) :
  p_IsShortTermCLOB p = short_class c
  /\ fee_Amount (p_Fee p) = (if short_class c then [] else [mkPCoin (a_feeDenom asm) (a_feeAmount asm)])
  /\ forall g, good_til m = Some g -> uses_block g = short_class c.
Proof.
  destruct (build_assembled c asm acct seq now m p H) as (sum & Ha & _).
  apply assemble_msg_ok in Ha as (_ & [] & _).
  rewrite <- (build_short c asm acct seq now m p H). split_and!; [done..|].
  intros g Hg. rewrite (build_short c asm acct seq now m p H). by eapply build_good_til.
Qed.

(** A deposit, withdrawal or internal transfer moves exactly the USDC amount
    of the request, and never zero. *)
Theorem build_funds_amount {L : ChainLib} {DL : DydxLib} (c : build_call) (asm : Assembler) (acct seq : Z)
    (now : Time) (m : Msg) (p : TxPayload) (h : string)
    (H : build c asm acct seq now = Ok (m, p)) (Hh : human_usdc c = Some h) :
  exists q, HumanToQuantums h = Ok q /\ q <> 0 /\ usdc_moved m = Some q.
Proof. by eapply build_funds. Qed.

Definition demo_asm : Assembler := NewAssembler "svp-2517-1" "asvp" "5000" 0.
Definition demo_cancel : CancelOrderInput := mkCancelOrderInput "svp1a" 0 1 7 32 0 1700000000 "uuid".
Definition demo_withdraw : WithdrawFromSubaccountInput := mkWithdrawFromSubaccountInput "svp1a" 0 "1.5" "uuid".

Lemma build_faithful_witness :
  exists m p, @build demo_lib dydx_lib (CWithdraw demo_withdraw) demo_asm 3 9 0 = Ok (m, p)
  /\ p_SignerAddress p = "svp1a"%string /\ beneficiary m = Some "svp1a"%string.
Proof.
  eexists _, _. split; [vm_compute; reflexivity|].
  destruct (@build_faithful demo_lib dydx_lib (CWithdraw demo_withdraw) demo_asm 3 9 0 _ _ eq_refl) as (H & _ & Hb).
  split; [exact (carries_signer _ _ _ _ _ _ _ _ H)|exact Hb].
Defined.

Lemma build_class_witness :
  exists m p, @build demo_lib dydx_lib (CCancel demo_cancel) demo_asm 3 9 0 = Ok (m, p)
  /\ p_IsShortTermCLOB p = false.
Proof.
  eexists _, _. split; [vm_compute; reflexivity|].
  exact (proj1 (@build_class demo_lib demo_lib_laws dydx_lib (CCancel demo_cancel) demo_asm 3 9 0 _ _ eq_refl
    ltac:(intros i [= <-]; cbn; lia))).
Defined.

Lemma build_funds_amount_witness :
  exists m p q, @build demo_lib dydx_lib (CWithdraw demo_withdraw) demo_asm 3 9 0 = Ok (m, p)
  /\ HumanToQuantums "1.5" = Ok q /\ @usdc_moved demo_lib m = Some q.
Proof.
  destruct (@build demo_lib dydx_lib (CWithdraw demo_withdraw) demo_asm 3 9 0) as [[m p]|e] eqn:E;
    [|vm_compute in E; discriminate].
  destruct (@build_funds_amount demo_lib dydx_lib (CWithdraw demo_withdraw) demo_asm 3 9 0 m p "1.5" E eq_refl)
    as (q & Hq & _ & Hm).
  exists m, p, q. split_and!; [reflexivity|exact Hq|exact Hm].
Defined.
