(* ===== verification/Assets.v ===== *)
(** * Transfer-out assets and amounts (tools/assets.go, tools/account.go, tools/funds.go)

    The registry of capped symbols with the identifiers they can leave a wallet
    through, and the conversion of human amounts.  The SDK's fixed-point
    decimals are a library ([DecLib]): a decimal is its value times 10^18, an
    operation that overflows panics. *)

From S2P Require Import Prelude GoStrings GoNum GoEncoding ChainLib.

Definition dec_one : Z := 10 ^ 18.

Class DecLib : Type := {
  LegacyNewDecFromStr : string -> result Z;
  dec_MulInt : Z -> Z -> result Z;
  dec_TruncateDec : Z -> Z;
  dec_TruncateInt : Z -> Z;
  NewIntWithDecimal : Z -> Z -> Z;
  NewIntFromString : string -> option Z;
  dec_FromIntWithPrec_String : Z -> Z -> string;   (* LegacyNewDecFromIntWithPrec(a, prec).String() *)
}.

Class DecLibLaws (D : DecLib) : Prop := {
  mul_int_ok : forall v n r, dec_MulInt v n = Ok r -> r = v * n;
  truncate_dec : forall v, dec_TruncateDec v = Z.quot v dec_one * dec_one;
  truncate_int : forall v, dec_TruncateInt v = Z.quot v dec_one;
  int_with_decimal : forall n d, 0 <= d -> NewIntWithDecimal n d = n * 10 ^ d;
}.

(** ** Tokens and symbols *)

Definition zero_address : Address := repeat (chr 0) 20.

Record knownToken : Type := mkKnownToken { kt_address : Address; kt_bankLinked : bool }.

Definition addr_eqb (a b : Address) : bool := bool_decide (a = b).

Definition nativeBankDenom : string := "asvp".

Record assetSymbol : Type := mkAssetSymbol {
  as_symbol : string;
  as_bankDenom : string;
  as_erc20 : Address;
  as_native : bool;
  as_decimals : Z;
}.

Section Assets.
Context {L : ChainLib}.

(** The map literal, in the order of the source. *)
Definition knownSwapTokens : list (string * knownToken) :=
  [("usdv"%string, mkKnownToken (HexToAddress "0x013a61E622e6ABFCaB64F52D274C3Fc0aA37f951") false);
   ("usdc"%string, mkKnownToken (HexToAddress "0x732F6Ea7AfD5EdC02e7ba052075dd0780e285489") true)].

Definition token_address (sym : string) : Address :=
  match list_find (fun kv => kv.1 = sym) knownSwapTokens with
  | Some (_, (_, kt)) => kt_address kt
  | None => zero_address
  end.

Definition transferOutAssets : list assetSymbol :=
  [mkAssetSymbol "svp" nativeBankDenom zero_address true 18;
   mkAssetSymbol "usdc" UusdcDenom (token_address "usdc") false 6;
   mkAssetSymbol "usdv" "" (token_address "usdv") false 6].

Definition assetForSymbol `{Unicode} (symbol : string) : option assetSymbol :=
  let key := ToLower (TrimSpace symbol) in
  List.find (fun a => String.eqb (as_symbol a) key) transferOutAssets.

Definition symbolForDenom (denom : string) : option string :=
  as_symbol <$> List.find (fun a => negb (String.eqb (as_bankDenom a) "") && String.eqb (as_bankDenom a) denom)
                 transferOutAssets.

Definition symbolForToken (addr : Address) : option string :=
  as_symbol <$> List.find (fun a => negb (addr_eqb (as_erc20 a) zero_address) && addr_eqb (as_erc20 a) addr)
                 transferOutAssets.

Definition symbolForNative : option string := as_symbol <$> List.find as_native transferOutAssets.

(** [knownDenoms]: symbol and decimals of a bank denom. *)
Definition knownDenoms (denom : string) : option (string * Z) :=
  if String.eqb denom UusdcDenom then Some ("USDC"%string, 6)
  else if String.eqb denom "asvp" then Some ("SVP"%string, 18)
  else None.

Definition ownerEthAddress (owner : string) : result Address :=
  acc ← wrap (fun e => Errorf "parse owner %q: %w" [FStr owner; FErr e]) (AccAddressFromBech32 owner);
  Ok (BytesToAddress acc).

End Assets.

(** ** Amounts *)

Section Amounts.
Context {L : ChainLib} {D : DecLib}.

Definition humanAmount (amount decimals : Z) : string :=
  let s := dec_FromIntWithPrec_String amount decimals in
  if bool_decide ("."%char ∈ chars s) then TrimRight1 (TrimRight1 s "0") "." else s.

Definition humanToBaseUnits (human : string) (decimals : Z) : result Z :=
  dec ← wrap (fun e => Errorf "invalid amount %q: %w" [FStr human; FErr e]) (LegacyNewDecFromStr human);
  _ ← check (dec <=? 0) (Errorf "amount must be > 0" []);
  scaled ← dec_MulInt dec (NewIntWithDecimal 1 decimals);
  _ ← check (negb (scaled =? dec_TruncateDec scaled))
        (Errorf "amount %q has more precision than %d decimals allow" [FStr human; FInt decimals]);
  Ok (dec_TruncateInt scaled).

Definition resolveSendAmount (denom amount : string) : result (Coin * string) :=
  _ ← wrap (fun e => Errorf "invalid denom %q: %w" [FStr denom; FErr e]) (ValidateDenom denom);
  match knownDenoms denom with
  | Some (symbol, decimals) =>
      amt ← humanToBaseUnits amount decimals;
      Ok (mkCoin denom (Some amt), (amount +:+ " " +:+ symbol)%string)
  | None =>
      amt ← from_opt (NewIntFromString amount)
              (Errorf "unknown denom %q: amount must be a base-unit integer (no decimal point)" [FStr denom]);
      _ ← check (amt <=? 0) (Errorf "amount must be > 0" []);
      Ok (mkCoin denom (Some amt), (amount +:+ " " +:+ denom)%string)
  end.

End Amounts.

(** ** Lemmas *)

(** The instance used in concrete evaluations reads plain decimals only. *)
Definition demo_dec_from_str (s : string) : result Z :=
  let '(a, b, found) := Cut s "." in
  match parse_nat (chars a), (if found then parse_nat (chars b) else Some 0) with
  | Some i, Some f =>
      if (len b <=? 18) then Ok (i * dec_one + f * 10 ^ (18 - len b)) else Err (ErrNew "too much precision")
  | _, _ => Err (ErrNew "failed to set decimal string")
  end.

Definition demo_dec : DecLib := {|
  LegacyNewDecFromStr := demo_dec_from_str;
  dec_MulInt := fun v n => if Z.abs (v * n) <? 2 ^ 315 then Ok (v * n) else Err (Panic "Int overflow");
  dec_TruncateDec := fun v => Z.quot v dec_one * dec_one;
  dec_TruncateInt := fun v => Z.quot v dec_one;
  NewIntWithDecimal := fun n d => n * 10 ^ d;
  NewIntFromString := fun s => parse_nat (chars s);
  dec_FromIntWithPrec_String := fun a p =>
    (FormatInt (a / 10 ^ p) +:+ "." +:+ pad_left (Z.to_nat p) (FormatUint (a mod 10 ^ p)))%string;
|}.

Lemma demo_dec_laws : DecLibLaws demo_dec.
Proof.
  constructor; cbn; [|done..]. intros v n r. destruct (_ <? _); [|done]. by intros [= <-].
Qed.

Section Registry.
Context {L : ChainLib} {LL : ChainLibLaws L}.

Definition usdv_bytes : Address := Eval vm_compute in default [] (HexDecode "013a61E622e6ABFCaB64F52D274C3Fc0aA37f951").
Definition usdc_bytes : Address := Eval vm_compute in default [] (HexDecode "732F6Ea7AfD5EdC02e7ba052075dd0780e285489").

Lemma token_usdc : token_address "usdc" = usdc_bytes.
Proof. apply (hex_to_address "732F6Ea7AfD5EdC02e7ba052075dd0780e285489"); vm_compute; reflexivity. Qed.

Lemma token_usdv : token_address "usdv" = usdv_bytes.
Proof. apply (hex_to_address "013a61E622e6ABFCaB64F52D274C3Fc0aA37f951"); vm_compute; reflexivity. Qed.

(** The two tokens and no other address are capped ERC-20s. *)
Lemma symbolForToken_eq a :
  symbolForToken a = if addr_eqb usdc_bytes a then Some "usdc"%string
                     else if addr_eqb usdv_bytes a then Some "usdv"%string else None.
Proof.
  unfold symbolForToken, transferOutAssets. rewrite token_usdc, token_usdv. cbn [List.find as_erc20].
  replace (addr_eqb zero_address zero_address) with true by (vm_compute; reflexivity).
  replace (addr_eqb usdc_bytes zero_address) with false by (vm_compute; reflexivity).
  replace (addr_eqb usdv_bytes zero_address) with false by (vm_compute; reflexivity).
  cbn [negb andb]. destruct (addr_eqb usdc_bytes a); [done|]. by destruct (addr_eqb usdv_bytes a).
Qed.

End Registry.

Lemma humanToBaseUnits_value {D : DecLib} {DLL : DecLibLaws D} (human : string) (decimals b : Z)
    (Hd : 0 <= decimals) :
  humanToBaseUnits human decimals = Ok b ->
  exists v, LegacyNewDecFromStr human = Ok v /\ 0 < v /\ 0 < b /\ b * dec_one = v * 10 ^ decimals.
Proof.
  unfold humanToBaseUnits. destruct (LegacyNewDecFromStr human) as [v|]; cbn [wrap mbind result_bind]; [|done].
  destruct (Z.leb_spec v 0); cbn [check mbind result_bind]; [done|].
  rewrite int_with_decimal, Z.mul_1_l by done.
  destruct (dec_MulInt v (10 ^ decimals)) as [s|] eqn:Em; cbn [mbind result_bind]; [|done].
  apply mul_int_ok in Em. subst s. rewrite truncate_dec, truncate_int.
  destruct (Z.eqb_spec (v * 10 ^ decimals) (Z.quot (v * 10 ^ decimals) dec_one * dec_one)) as [E|]; [|done].
  cbn. intros [= <-]. exists v. assert (0 < 10 ^ decimals) by (apply Z.pow_pos_nonneg; lia).
  assert (0 < dec_one) by done. split_and!; [done|done|nia|done].
Qed.

(** ** Claims *)

(** Converting a human amount to base units never rounds: whenever it
    succeeds the base amount is positive and equals the decimal value times ten
    to the number of decimals exactly; an amount with finer digits, a zero or a
    negative amount is refused. *)
Theorem humanToBaseUnits_exact {D : DecLib} {DLL : DecLibLaws D} (human : string) (decimals b : Z)
    (Hd : 0 <= decimals) :
  humanToBaseUnits human decimals = Ok b ->
  exists v, LegacyNewDecFromStr human = Ok v /\ 0 < v /\ 0 < b /\ b * dec_one = v * 10 ^ decimals.
Proof. by apply humanToBaseUnits_value. Qed.

Lemma humanToBaseUnits_exact_witness :
  exists v, @LegacyNewDecFromStr demo_dec "100.5" = Ok v /\ 0 < v /\ 0 < 100500000
  /\ 100500000 * dec_one = v * 10 ^ 6.
Proof.
  exact (@humanToBaseUnits_exact demo_dec demo_dec_laws "100.5" 6 100500000 ltac:(lia) eq_refl).
Defined.
