(* ===== verification/TxInspect.v ===== *)
(** * Inspecting a signed transaction before it is broadcast
      (tools/cross.go, tools/evm.go, chain/errors.go)

    The amounts a Cosmos or EVM transaction takes out of the tenant's wallet, its
    signer, and the recognition of an insufficient-fee rejection. *)

From S2P Require Import Prelude GoStrings GoNum GoEncoding ChainLib Payload Assets.

(** ** Cosmos transactions *)

Section Cosmos.
Context {L : ChainLib}.

Definition decode_body (rawTxBytes : bytes) : result (list AnyMsg) :=
  txRaw ← wrap (fun e => Errorf "unmarshal TxRaw: %w" [FErr e]) (UnmarshalTxRaw rawTxBytes);
  wrap (fun e => Errorf "unmarshal TxBody: %w" [FErr e]) (UnmarshalTxBody (tx_BodyBytes txRaw)).

(** The message of an [Any] that unpacks; the loops skip the others. *)
Definition unpacked (a : AnyMsg) : option Msg :=
  match UnpackMsg a with Ok (Some m) => Some m | _ => None end.

(** The USDC quantums of a withdrawal message. *)
Definition usdc_withdraw (m : Msg) : option Z :=
  match m with
  | MsgWithdrawFromSubaccount _ _ assetId quantums => if negb (assetId =? AssetUsdc_Id) then None else Some quantums
  | _ => None
  end.

Fixpoint sum_withdraws (total : Z) (msgs : list AnyMsg) : result Z :=
  match msgs with
  | [] => Ok total
  | a :: msgs' =>
      match m ← unpacked a; usdc_withdraw m with
      | None => sum_withdraws total msgs'
      | Some q =>
          let sum := u64 (total + q) in
          if sum <? total then Err (Errorf "withdraw quantums total overflows uint64" [])
          else sum_withdraws sum msgs'
      end
  end.

Definition extractWithdrawQuantums (rawTxBytes : bytes) : result Z :=
  msgs ← decode_body rawTxBytes;
  sum_withdraws 0 msgs.

(** The inner loop over the coins of one send. *)
Fixpoint add_coins (out : gmap string Z) (coins : list Coin) : result (gmap string Z) :=
  match coins with
  | [] => Ok out
  | c :: coins' =>
      match symbolForDenom (coin_Denom c) with
      | None => add_coins out coins'
      | Some sym =>
          match coin_Amount c with
          | None => Err (Panic "invalid memory address or nil pointer dereference")
          | Some a => add_coins (<[sym := default 0 (out !! sym) + a]> out) coins'
          end
      end
  end.

Fixpoint sum_sends (signerAddr : string) (out : gmap string Z) (msgs : list AnyMsg) : result (gmap string Z) :=
  match msgs with
  | [] => Ok out
  | a :: msgs' =>
      match unpacked a with
      | Some (MsgSend from _ amount) =>
          if negb (String.eqb from signerAddr) then sum_sends signerAddr out msgs'
          else out' ← add_coins out amount; sum_sends signerAddr out' msgs'
      | _ => sum_sends signerAddr out msgs'
      end
  end.

Definition extractBankSends (rawTxBytes : bytes) (signerAddr : string) : result (gmap string Z) :=
  msgs ← decode_body rawTxBytes;
  sum_sends signerAddr ∅ msgs.

Definition signerAddressFromTxRaw (raw : bytes) : result string :=
  txRaw ← wrap (fun e => Errorf "unmarshal TxRaw: %w" [FErr e]) (UnmarshalTxRaw raw);
  ai ← wrap (fun e => Errorf "unmarshal AuthInfo: %w" [FErr e]) (UnmarshalAuthInfo (tx_AuthInfoBytes txRaw));
  match ai with
  | [si] =>
      match si_PublicKey si with
      | None => Err (Errorf "signer info has no public key" [])
      | Some pkAny =>
          pk ← wrap (fun e => Errorf "unpack signer pubkey: %w" [FErr e]) (UnpackPubKey pkAny);
          match pk with
          | None => Err (Panic "invalid memory address or nil pointer dereference")
          | Some pk => Ok (AccAddress_String (PubKey_Address pk))
          end
      end
  | _ => Err (Errorf "expected exactly 1 signer, got %d" [FInt (Z.of_nat (List.length ai))])
  end.

End Cosmos.

(** ** EVM transactions *)

(** [new(big.Int).SetBytes(b)] *)
Definition SetBytes (b : bytes) : Z := foldl (fun acc c => acc * 256 + code c) 0 b.

(** [data[i:j]] for indices in range. *)
Definition slice (i j : nat) (data : bytes) : bytes := take (j - i) (drop i data).

Definition selERC20Transfer : bytes := map chr [169; 5; 156; 187].
Definition selERC20TransferFrom : bytes := map chr [35; 184; 114; 221].

Definition addOut (sym : string) (amt : Z) (out : gmap string Z) : gmap string Z :=
  if amt <=? 0 then out
  else match out !! sym with
       | Some cur => <[sym := cur + amt]> out
       | None => <[sym := amt]> out
       end.

Section EVM.
Context {L : ChainLib}.

Definition decodeTransferOut (to : option Address) (value : option Z) (data : bytes)
    (owner router wsvp : Address) : gmap string Z :=
  let out : gmap string Z :=
    match value, to with
    | Some v, Some t =>
        if (0 <? v) && negb (addr_eqb t router) && negb (addr_eqb t wsvp) then
          match symbolForNative with Some sym => addOut sym v ∅ | None => ∅ end
        else ∅
    | _, _ => ∅
    end in
  match to with
  | Some t =>
      if 4 <=? Z.of_nat (List.length data) then
        match symbolForToken t with
        | Some sym =>
            if bool_decide (take 4 data = selERC20Transfer) && (4 + 64 <=? Z.of_nat (List.length data)) then
              addOut sym (SetBytes (slice (4 + 32) (4 + 64) data)) out
            else if bool_decide (take 4 data = selERC20TransferFrom) && (4 + 96 <=? Z.of_nat (List.length data)) then
              let from := BytesToAddress (slice (4 + 12) (4 + 32) data) in
              if addr_eqb from owner then addOut sym (SetBytes (slice (4 + 64) (4 + 96) data)) out else out
            else out
        | None => out
        end
      else out
  | None => out
  end.

End EVM.

(** ** Insufficient-fee rejections

    The regular expression
    [insufficient fees?;\s*got:\s*(\S+)\s+required:\s*(\S+?)(?:\s*:\s*insufficient fee|$)]
    as a matcher: between the quantifiers the character classes are disjoint
    from what follows, so every greedy loop takes its maximal run, and the lazy
    [\S+?] tries the shortest capture first. *)

Definition is_s (c : ascii) : bool :=
  let n := code c in (n =? 9) || (n =? 10) || (n =? 12) || (n =? 13) || (n =? 32).

Fixpoint skip_s (s : bytes) : bytes :=
  match s with c :: s' => if is_s c then skip_s s' else s | [] => [] end.

(** The maximal run of non-space bytes and the rest. *)
Fixpoint span_S (s : bytes) : bytes * bytes :=
  match s with
  | c :: s' => if is_s c then ([], s) else let '(a, r) := span_S s' in (c :: a, r)
  | [] => ([], [])
  end.

(** [(?:\s*:\s*insufficient fee|$)] *)
Definition match_tail (s : bytes) : bool :=
  match strip_prefix (chars ":") (skip_s s) with
  | Some r => match strip_prefix (chars "insufficient fee") (skip_s r) with
              | Some _ => true
              | None => match s with [] => true | _ => false end
              end
  | None => match s with [] => true | _ => false end
  end.

(** [(\S+?)] followed by the tail. *)
Fixpoint match_lazy (acc s : bytes) : option bytes :=
  match s with
  | c :: s' => if is_s c then None
               else let acc' := acc ++ [c] in
                    if match_tail s' then Some acc' else match_lazy acc' s'
  | [] => None
  end.

Definition match_here (s : bytes) : option (bytes * bytes) :=
  match strip_prefix (chars "insufficient fee") s with
  | None => None
  | Some s1 =>
      let s1 := match strip_prefix (chars "s") s1 with Some r => r | None => s1 end in
      match strip_prefix (chars ";") s1 with
      | None => None
      | Some s2 =>
          match strip_prefix (chars "got:") (skip_s s2) with
          | None => None
          | Some s3 =>
              let '(got, s4) := span_S (skip_s s3) in
              match got, s4 with
              | _ :: _, _ :: _ =>
                  match strip_prefix (chars "required:") (skip_s s4) with
                  | None => None
                  | Some s5 => match match_lazy [] (skip_s s5) with
                               | Some required => Some (got, required)
                               | None => None
                               end
                  end
              | _, _ => None
              end
          end
      end
  end.

(** [FindStringSubmatch]: the leftmost match. *)
Fixpoint find_match (s : bytes) : option (bytes * bytes) :=
  match match_here s with
  | Some r => Some r
  | None => match s with _ :: s' => find_match s' | [] => None end
  end.

(** [None] is the nil error. *)
Definition ParseBroadcastError (r : BroadcastResult) : option goerr :=
  if br_Code r =? 0 then None
  else match find_match (chars (br_RawLog r)) with
       | Some (got, required) => Some (ErrInsufficientFee (str required) (str got))
       | None => None
       end.

Definition ErrInsufficientFee_Error (required got : string) : string :=
  ("insufficient fee: got " +:+ got +:+ ", required " +:+ required)%string.

(** ** What a Cosmos transaction takes out, as sums *)

Definition zsum (l : list Z) : Z := foldr Z.add 0 l.

Lemma zsum_cons x l : zsum (x :: l) = x + zsum l.
Proof. done. Qed.

Lemma zsum_app l k : zsum (l ++ k) = zsum l + zsum k.
Proof. induction l as [|x l IH]; [done|]. cbn [app]. rewrite !zsum_cons, IH. lia. Qed.

Lemma zsum_nonneg l : Forall (fun x => 0 <= x) l -> 0 <= zsum l.
Proof. induction 1; [done|]. rewrite zsum_cons. lia. Qed.

Section Sums.
Context {L : ChainLib}.

(** The USDC withdrawals of a body. *)
Definition withdrawals (msgs : list AnyMsg) : list Z := omap (fun a => m ← unpacked a; usdc_withdraw m) msgs.

(** The coins the signer sends that belong to a symbol. *)
Definition coin_of (sym : string) (c : Coin) : option Z :=
  s ← symbolForDenom (coin_Denom c); if String.eqb s sym then coin_Amount c else None.

Definition sends_of (signer sym : string) (a : AnyMsg) : list Z :=
  match unpacked a with
  | Some (MsgSend from _ amount) => if String.eqb from signer then omap (coin_of sym) amount else []
  | _ => []
  end.

Definition sent_total (signer sym : string) (msgs : list AnyMsg) : Z :=
  zsum (msgs ≫= sends_of signer sym).

Lemma sum_withdraws_spec msgs : forall total,
  0 <= total <= maxU64 -> Forall (fun q => 0 <= q <= maxU64) (withdrawals msgs) ->
  sum_withdraws total msgs
  = if total + zsum (withdrawals msgs) <=? maxU64 then Ok (total + zsum (withdrawals msgs))
    else Err (Errorf "withdraw quantums total overflows uint64" []).
Proof.
  induction msgs as [|a msgs IH]; intros total Ht Hw; cbn [sum_withdraws withdrawals omap list_omap].
  - cbn. rewrite Z.add_0_r. by rewrite (proj2 (Z.leb_le _ _)) by lia.
  - unfold withdrawals in Hw. cbn [omap list_omap] in Hw.
    destruct (m ← unpacked a; usdc_withdraw m) as [q|]; [|by apply IH].
    apply Forall_cons in Hw as [Hq Hw]. fold (withdrawals msgs) in Hw |- *.
    assert (0 <= zsum (withdrawals msgs)) as Hz.
    { apply zsum_nonneg. eapply Forall_impl; [exact Hw|]. cbn. lia. }
    rewrite zsum_cons. unfold u64 in *.
    destruct (Z.le_gt_cases (total + q) maxU64).
    + rewrite Z.mod_small by (unfold maxU64 in *; lia). rewrite (proj2 (Z.ltb_ge _ _)) by lia.
      rewrite IH by (lia || done). by rewrite Z.add_assoc.
    + rewrite (proj2 (Z.leb_gt _ _)) by lia. rewrite (proj2 (Z.ltb_lt _ _)); [done|].
      replace (total + q) with (total + q - 2 ^ 64 + 1 * 2 ^ 64) by lia.
      rewrite Z.mod_add by lia. rewrite Z.mod_small by (unfold maxU64 in *; lia). unfold maxU64 in *. lia.
Qed.

Lemma add_coins_spec coins : forall out out' sym,
  add_coins out coins = Ok out' ->
  default 0 (out' !! sym) = default 0 (out !! sym) + zsum (omap (coin_of sym) coins).
Proof.
  induction coins as [|c coins IH]; intros out out' sym H; cbn [add_coins] in H.
  - simplify_eq. cbn. lia.
  - cbn [omap list_omap]. unfold coin_of at 1. destruct (symbolForDenom (coin_Denom c)) as [s|]; cbn [mbind option_bind]; [|by apply IH].
    destruct (coin_Amount c) as [a|]; [|done]. rewrite (IH _ _ sym H), lookup_insert.
    destruct (String.eqb_spec s sym) as [->|Hne].
    + rewrite decide_True by done. cbn [default from_option id]. rewrite zsum_cons. lia.
    + by rewrite decide_False.
Qed.

Lemma sum_sends_spec signer msgs : forall out out' sym,
  sum_sends signer out msgs = Ok out' ->
  default 0 (out' !! sym) = default 0 (out !! sym) + sent_total signer sym msgs.
Proof.
  induction msgs as [|a msgs IH]; intros out out' sym H; cbn [sum_sends] in H.
  - simplify_eq. cbn. lia.
  - unfold sent_total. cbn [mbind list_bind]. rewrite zsum_app. fold (sent_total signer sym msgs).
    unfold sends_of. destruct (unpacked a) as [m|]; [|by rewrite (IH _ _ _ H)].
    destruct m; try (by rewrite (IH _ _ _ H)).
    destruct (String.eqb from signer); cbn [negb] in H; [|by rewrite (IH _ _ _ H)].
    destruct (add_coins out amount) as [out1|] eqn:E; cbn [mbind result_bind] in H; [|done].
    rewrite (IH _ _ _ H), (add_coins_spec _ _ _ _ E). lia.
Qed.

End Sums.

(** ** ABI words *)

(** The big-endian encoding in [n] bytes. *)
Fixpoint be_bytes (n : nat) (v : Z) : bytes :=
  match n with O => [] | S k => be_bytes k (v / 256) ++ [chr (v mod 256)] end.

Lemma be_bytes_length n v : List.length (be_bytes n v) = n.
Proof. revert v. induction n as [|n IH]; intros v; [done|]. cbn [be_bytes]. rewrite length_app, IH. cbn. lia. Qed.

Lemma SetBytes_nonneg b : 0 <= SetBytes b.
Proof.
  unfold SetBytes. assert (forall a, 0 <= a -> 0 <= foldl (fun acc c => acc * 256 + code c) a b) as H; [|by apply H].
  induction b as [|c b IH]; intros a Ha; cbn [foldl]; [done|]. apply IH. pose proof (code_bound c). lia.
Qed.

Lemma SetBytes_snoc l c : SetBytes (l ++ [c]) = SetBytes l * 256 + code c.
Proof. unfold SetBytes. by rewrite foldl_app. Qed.

Lemma SetBytes_be n v : 0 <= v < 256 ^ Z.of_nat n -> SetBytes (be_bytes n v) = v.
Proof.
  revert v. induction n as [|n IH]; intros v Hv.
  - change (256 ^ Z.of_nat 0) with 1 in Hv. cbn. lia.
  - cbn [be_bytes]. rewrite SetBytes_snoc, code_chr by (apply Z.mod_pos_bound; lia).
    rewrite Nat2Z.inj_succ, Z.pow_succ_r in Hv by lia.
    rewrite IH by (split; [apply Z.div_pos; lia|apply Z.div_lt_upper_bound; lia]).
    pose proof (Z.div_mod v 256). lia.
Qed.

(** [transfer(dst, amount)] and [transferFrom(src, dst, amount)] calldata. *)
Definition abi_addr (a : Address) : bytes := repeat (chr 0) 12 ++ a.
Definition call_transfer (dst : Address) (amount : Z) : bytes :=
  selERC20Transfer ++ abi_addr dst ++ be_bytes 32 amount.
Definition call_transferFrom (src dst : Address) (amount : Z) : bytes :=
  selERC20TransferFrom ++ abi_addr src ++ abi_addr dst ++ be_bytes 32 amount.

Lemma slice_app (a b c : bytes) i j :
  List.length a = i -> (i + List.length b)%nat = j -> slice i j (a ++ b ++ c) = b.
Proof.
  intros <- <-. unfold slice. rewrite drop_app_length. replace (_ + _ - _)%nat with (List.length b) by lia.
  apply take_app_length.
Qed.

Lemma slice_app_nil (a b : bytes) i j :
  List.length a = i -> (i + List.length b)%nat = j -> slice i j (a ++ b) = b.
Proof. intros. rewrite <- (app_nil_r b) at 1. by apply slice_app. Qed.

Lemma selector_length : List.length selERC20Transfer = 4%nat /\ List.length selERC20TransferFrom = 4%nat.
Proof. done. Qed.

Section Decode.
Context {L : ChainLib} {LL : ChainLibLaws L}.

(** The native leg on its own. *)
Definition native_leg (to : option Address) (value : option Z) (router wsvp : Address) : gmap string Z :=
  match value, to with
  | Some v, Some t =>
      if (0 <? v) && negb (addr_eqb t router) && negb (addr_eqb t wsvp) then {["svp"%string := v]} else ∅
  | _, _ => ∅
  end.

Lemma decode_split to value data owner router wsvp :
  decodeTransferOut to value data owner router wsvp
  = match to with
    | Some t =>
        if 4 <=? Z.of_nat (List.length data) then
          match symbolForToken t with
          | Some sym =>
              if bool_decide (take 4 data = selERC20Transfer) && (4 + 64 <=? Z.of_nat (List.length data)) then
                addOut sym (SetBytes (slice 36 68 data)) (native_leg to value router wsvp)
              else if bool_decide (take 4 data = selERC20TransferFrom) && (4 + 96 <=? Z.of_nat (List.length data)) then
                if addr_eqb (BytesToAddress (slice 16 36 data)) owner
                then addOut sym (SetBytes (slice 68 100 data)) (native_leg to value router wsvp)
                else native_leg to value router wsvp
              else native_leg to value router wsvp
          | None => native_leg to value router wsvp
          end
        else native_leg to value router wsvp
    | None => native_leg to value router wsvp
    end.
Proof.
  unfold decodeTransferOut, native_leg.
  destruct value as [v|]; [|done]. destruct to as [t|]; [|done].
  destruct (Z.ltb_spec 0 v); cbn [andb]; [|done]. destruct (negb (addr_eqb t router)); cbn [andb]; [|done].
  destruct (negb (addr_eqb t wsvp)); [|done].
  change symbolForNative with (Some "svp"%string). cbv iota beta.
  assert (addOut "svp" v ∅ = {["svp"%string := v]}) as ->; [|done].
  unfold addOut. by rewrite (proj2 (Z.leb_gt v 0)) by done.
Qed.

Lemma addOut_fresh sym a (m : gmap string Z) : 0 < a -> m !! sym = None -> addOut sym a m = <[sym := a]> m.
Proof. intros Ha Hm. unfold addOut. by rewrite (proj2 (Z.leb_gt a 0)), Hm by done. Qed.

Lemma native_leg_token to value router wsvp sym :
  sym <> "svp"%string -> native_leg to value router wsvp !! sym = None.
Proof.
  intros Hs. unfold native_leg. destruct value, to; try apply lookup_empty.
  destruct (_ && _); [|apply lookup_empty]. by apply lookup_singleton_ne.
Qed.

Lemma symbolForToken_not_native t sym : symbolForToken t = Some sym -> sym <> "svp"%string.
Proof.
  rewrite symbolForToken_eq. destruct (addr_eqb usdc_bytes t); [by intros [= <-]|].
  destruct (addr_eqb usdv_bytes t); [by intros [= <-]|done].
Qed.

Lemma decode_transfer t sym value dst amt extra owner router wsvp :
  symbolForToken t = Some sym -> List.length dst = 20%nat -> 0 < amt < 2 ^ 256 ->
  decodeTransferOut (Some t) value (call_transfer dst amt ++ extra) owner router wsvp
  = <[sym := amt]> (native_leg (Some t) value router wsvp).
Proof.
  intros Ht Hd Ha. rewrite decode_split, Ht.
  assert (List.length (call_transfer dst amt) = 68%nat) as Hl.
  { unfold call_transfer, abi_addr. rewrite !length_app, be_bytes_length, Hd. done. }
  rewrite !length_app, Hl. rewrite (proj2 (Z.leb_le 4 _)), (proj2 (Z.leb_le (4 + 64) _)) by lia.
  assert (take 4 (call_transfer dst amt ++ extra) = selERC20Transfer) as ->.
  { unfold call_transfer. by rewrite <- app_assoc, take_app_le by done. }
  rewrite bool_decide_eq_true_2 by done. cbn [andb].
  assert (slice 36 68 (call_transfer dst amt ++ extra) = be_bytes 32 amt) as ->.
  { unfold call_transfer. rewrite <- !app_assoc. rewrite (app_assoc selERC20Transfer).
    apply slice_app; [|by rewrite be_bytes_length]. unfold abi_addr. by rewrite !length_app, Hd. }
  rewrite SetBytes_be by (change (256 ^ Z.of_nat 32) with (2 ^ 256); lia).
  apply addOut_fresh; [lia|]. by apply native_leg_token, symbolForToken_not_native with t.
Qed.

Lemma decode_transferFrom t sym value src dst amt extra owner router wsvp :
  symbolForToken t = Some sym -> List.length src = 20%nat -> List.length dst = 20%nat -> 0 < amt < 2 ^ 256 ->
  decodeTransferOut (Some t) value (call_transferFrom src dst amt ++ extra) owner router wsvp
  = if addr_eqb src owner then <[sym := amt]> (native_leg (Some t) value router wsvp)
    else native_leg (Some t) value router wsvp.
Proof.
  intros Ht Hs Hd Ha. rewrite decode_split, Ht.
  assert (List.length (call_transferFrom src dst amt) = 100%nat) as Hl.
  { unfold call_transferFrom, abi_addr. rewrite !length_app, be_bytes_length, Hd, Hs. done. }
  rewrite !length_app, Hl. rewrite (proj2 (Z.leb_le 4 _)), (proj2 (Z.leb_le (4 + 96) _)) by lia.
  assert (take 4 (call_transferFrom src dst amt ++ extra) = selERC20TransferFrom) as ->.
  { unfold call_transferFrom. by rewrite <- app_assoc, take_app_le by done. }
  rewrite bool_decide_eq_false_2, bool_decide_eq_true_2 by done. cbn [andb].
  assert (slice 16 36 (call_transferFrom src dst amt ++ extra) = src) as ->.
  { unfold call_transferFrom, abi_addr. rewrite <- !app_assoc. rewrite (app_assoc selERC20TransferFrom).
    apply slice_app; [done|by rewrite Hs]. }
  assert (slice 68 100 (call_transferFrom src dst amt ++ extra) = be_bytes 32 amt) as ->.
  { unfold call_transferFrom. rewrite <- !app_assoc. rewrite (app_assoc selERC20TransferFrom).
    rewrite (app_assoc (selERC20TransferFrom ++ abi_addr src)).
    apply slice_app; [|by rewrite be_bytes_length]. unfold abi_addr. by rewrite !length_app, Hd, Hs. }
  rewrite bytes_to_address by done. destruct (addr_eqb src owner); [|done].
  rewrite SetBytes_be by (change (256 ^ Z.of_nat 32) with (2 ^ 256); lia).
  apply addOut_fresh; [lia|]. by apply native_leg_token, symbolForToken_not_native with t.
Qed.

End Decode.

(** ** The format of the chain's fee rejection *)

Definition fee_log (got required : string) : string :=
  ("insufficient fees; got: " +:+ got +:+ " required: " +:+ required +:+ ": insufficient fee")%string.

(** A coin string: not empty, no white space, no colon. *)
Definition coin_text (s : string) : bool :=
  negb (String.eqb s "") && forallb (fun c => negb (is_s c) && negb (Ascii.eqb c ":")) (chars s).

Lemma coin_text_spec s :
  coin_text s = true -> chars s <> [] /\ Forall (fun c => is_s c = false /\ c <> ":"%char) (chars s).
Proof.
  unfold coin_text. rewrite andb_true_iff, negb_true_iff, String.eqb_neq, forallb_forall.
  intros [H1 H2]. split; [by destruct s|]. apply Forall_forall. intros c Hc%list_elem_of_In.
  specialize (H2 _ Hc). rewrite andb_true_iff, !negb_true_iff, Ascii.eqb_neq in H2. done.
Qed.

Lemma skip_s_head c l : is_s c = false -> skip_s (c :: l) = c :: l.
Proof. intros H. cbn. by rewrite H. Qed.

Lemma span_S_app l r :
  Forall (fun c => is_s c = false /\ c <> ":"%char) l ->
  match r with c :: _ => is_s c = true | [] => True end -> span_S (l ++ r) = (l, r).
Proof.
  induction 1 as [|c l [Hc _] Hl IH]; intros Hr.
  - destruct r as [|c r]; [done|]. cbn. by rewrite Hr.
  - cbn [app span_S]. by rewrite Hc, (IH Hr).
Qed.

Lemma match_tail_text c l : is_s c = false -> c <> ":"%char -> match_tail (c :: l) = false.
Proof.
  intros Hs Hc. unfold match_tail. rewrite (skip_s_head _ _ Hs). cbn [strip_prefix chars].
  by rewrite (proj2 (Ascii.eqb_neq ":" c)) by done.
Qed.

Lemma match_lazy_text l t : forall acc,
  l <> [] -> Forall (fun c => is_s c = false /\ c <> ":"%char) l -> match_tail t = true ->
  match_lazy acc (l ++ t) = Some (acc ++ l).
Proof.
  induction l as [|c l IH]; intros acc Hl Hf Ht; [done|]. apply Forall_cons in Hf as [[Hc _] Hf].
  cbn [app match_lazy]. rewrite Hc. destruct l as [|c' l].
  - cbn [app]. by rewrite Ht.
  - assert (match_tail ((c' :: l) ++ t) = false) as ->.
    { apply Forall_cons in Hf as [[Hs' Hc'] _]. by apply match_tail_text. }
    rewrite IH by done. by rewrite <- app_assoc.
Qed.

Lemma skip_s_space l : skip_s (" "%char :: l) = skip_s l.
Proof. done. Qed.

Lemma skip_s_text l r :
  l <> [] -> Forall (fun c => is_s c = false /\ c <> ":"%char) l -> skip_s (l ++ r) = l ++ r.
Proof. destruct l; [done|]. intros _ [[H _] _]%Forall_cons. by apply skip_s_head. Qed.

Lemma match_here_text g r t :
  g <> [] -> r <> [] ->
  Forall (fun c => is_s c = false /\ c <> ":"%char) g -> Forall (fun c => is_s c = false /\ c <> ":"%char) r ->
  match_tail t = true ->
  match_here (chars "insufficient fee" ++ chars "s" ++ chars ";" ++ " "%char :: chars "got:" ++ " "%char :: g
              ++ " "%char :: chars "required:" ++ " "%char :: r ++ t) = Some (g, r).
Proof.
  intros Hg Hr Fg Fr Ht. unfold match_here. rewrite !strip_prefix_app, skip_s_space.
  rewrite (skip_s_head "g" (chars "ot:" ++ " "%char :: g ++ " "%char :: chars "required:" ++ " "%char :: r ++ t)
             eq_refl : skip_s (chars "got:" ++ _) = chars "got:" ++ _).
  rewrite strip_prefix_app, skip_s_space, skip_s_text by done. rewrite span_S_app by done.
  destruct g as [|c g]; [done|]. rewrite skip_s_space.
  rewrite (skip_s_head "r" (chars "equired:" ++ " "%char :: r ++ t) eq_refl
           : skip_s (chars "required:" ++ _) = chars "required:" ++ _).
  rewrite strip_prefix_app, skip_s_space, skip_s_text by done. by rewrite match_lazy_text by done.
Qed.

Lemma match_here_fee got required :
  coin_text got = true -> coin_text required = true ->
  match_here (chars (fee_log got required)) = Some (chars got, chars required).
Proof.
  intros [Hg Fg]%coin_text_spec [Hr Fr]%coin_text_spec. unfold fee_log. rewrite !chars_app.
  exact (match_here_text (chars got) (chars required) (chars ": insufficient fee") Hg Hr Fg Fr eq_refl).
Qed.

(** ** Claims *)

(** The withdrawal inspection adds up every USDC withdrawal of the decoded
    body and nothing else, and refuses exactly the bodies whose total does not
    fit in 64 bits: the wrap-around test is right for any number of messages. *)
Theorem extractWithdrawQuantums_sum {L : ChainLib} (raw : bytes) (msgs : list AnyMsg) (t : Z)
    (Hraw : decode_body raw = Ok msgs)
    (Hq : Forall (fun q => 0 <= q <= maxU64) (withdrawals msgs)) :
  extractWithdrawQuantums raw = Ok t <-> t = zsum (withdrawals msgs) /\ t <= maxU64.
Proof.
  unfold extractWithdrawQuantums. rewrite Hraw. cbn [mbind result_bind].
  rewrite sum_withdraws_spec by (done || unfold maxU64; lia). rewrite Z.add_0_l.
  destruct (Z.leb_spec (zsum (withdrawals msgs)) maxU64); split; try done.
  - intros [= <-]. done.
  - by intros [-> _].
  - intros [-> ?]. lia.
Qed.

Lemma extractWithdrawQuantums_sum_witness :
  @extractWithdrawQuantums demo_lib (chars "1500000") = Ok 1500000.
Proof.
  assert (@withdrawals demo_lib [mkAny "/msg" (chars "1500000")] = [1500000]) as E by (vm_compute; reflexivity).
  apply (@extractWithdrawQuantums_sum demo_lib (chars "1500000") [mkAny "/msg" (chars "1500000")] 1500000 eq_refl);
    rewrite E; [repeat constructor; unfold maxU64; lia|split; [reflexivity|unfold maxU64; lia]].
Defined.

(** The bank inspection returns, for every capped symbol, the sum of the
    coins of that symbol over all sends of the signer, and no send of another
    account or of an uncapped denom counts. *)
Theorem extractBankSends_sum {L : ChainLib} (raw : bytes) (signer : string) (msgs : list AnyMsg)
    (out : gmap string Z) (sym : string)
    (Hraw : decode_body raw = Ok msgs) (Hout : extractBankSends raw signer = Ok out) :
  default 0 (out !! sym) = sent_total signer sym msgs.
Proof.
  unfold extractBankSends in Hout. rewrite Hraw in Hout. cbn [mbind result_bind] in Hout.
  rewrite (sum_sends_spec signer msgs ∅ out sym Hout), lookup_empty. done.
Qed.

Lemma extractBankSends_sum_witness :
  exists out, @extractBankSends demo_lib (chars "s250") "svp1a" = Ok out
  /\ default 0 (out !! "svp"%string) = 250.
Proof.
  eexists. split; [vm_compute; reflexivity|].
  refine (eq_trans (@extractBankSends_sum demo_lib (chars "s250") "svp1a" [mkAny "/msg" (chars "s250")] _ "svp"
    eq_refl _) _); vm_compute; reflexivity.
Defined.

(** The decoder of EVM transactions counts an ERC-20 transfer of a capped
    token, written in the ABI encoding, with exactly its 256-bit amount, a
    transferFrom only when it spends the owner's balance, and native value
    except towards the router and the wrapper contract; the legs of one
    transaction are independent. *)
Theorem decodeTransferOut_exact {L : ChainLib} {LL : ChainLibLaws L} (t src dst owner router wsvp : Address)
    (sym : string) (value : option Z) (amt : Z) (extra : bytes)
    (Ht : symbolForToken t = Some sym) (Hsrc : List.length src = 20%nat) (Hdst : List.length dst = 20%nat)
    (Hamt : 0 < amt < 2 ^ 256) :
  let native := native_leg (Some t) value router wsvp in
  decodeTransferOut (Some t) value (call_transfer dst amt ++ extra) owner router wsvp = <[sym := amt]> native
  /\ decodeTransferOut (Some t) value (call_transferFrom src dst amt ++ extra) owner router wsvp
     = (if addr_eqb src owner then <[sym := amt]> native else native)
  /\ sym <> "svp"%string.
Proof.
  intros native. split_and!.
  - by apply decode_transfer.
  - by apply decode_transferFrom.
  - by eapply symbolForToken_not_native.
Qed.

Lemma decodeTransferOut_exact_witness :
  @decodeTransferOut demo_lib (Some usdc_bytes) (Some 0) (call_transfer usdv_bytes 5 ++ []) usdv_bytes [] []
  = {["usdc"%string := 5]}.
Proof.
  refine (proj1 (@decodeTransferOut_exact demo_lib demo_lib_laws usdc_bytes usdv_bytes usdv_bytes usdv_bytes [] []
    "usdc" (Some 0) 5 [] _ eq_refl eq_refl _)); [vm_compute; reflexivity|lia].
Defined.

(** A fee rejection in the chain's format is recognised with the two coins it
    names, and an accepted broadcast is never reported as a fee error. *)
Theorem ParseBroadcastError_fee (hash got required : string) (code : Z)
    (Hg : coin_text got = true) (Hr : coin_text required = true) :
  ParseBroadcastError (mkBroadcastResult hash code (fee_log got required))
  = if code =? 0 then None else Some (ErrInsufficientFee required got).
Proof.
  unfold ParseBroadcastError. cbn [br_Code br_RawLog]. destruct (code =? 0); [done|].
  assert (find_match (chars (fee_log got required)) = Some (chars got, chars required)) as ->.
  { pose proof (match_here_fee got required Hg Hr) as E.
    destruct (chars (fee_log got required)); cbn [find_match]; by rewrite E. }
  by rewrite !str_chars.
Qed.

Lemma ParseBroadcastError_fee_witness :
  ParseBroadcastError (mkBroadcastResult "AB" 13
    "insufficient fees; got: 1stake required: 1000stake: insufficient fee")
  = Some (ErrInsufficientFee "1000stake" "1stake").
Proof. exact (ParseBroadcastError_fee "AB" "1stake" "1000stake" 13 eq_refl eq_refl). Defined.
