(* ===== verification/EVMBuilder.v ===== *)
(** * The EVM assembler (builder/evm.go)

    The JSON-RPC client is a record of the answers of the node the assembler
    asks; gas is a 64-bit integer and its padding wraps. *)

From S2P Require Import Prelude GoStrings GoNum GoTime ChainLib Payload Assembler.

Record CallMsg : Type := mkCallMsg {
  cm_From : Address;
  cm_To : Address;
  cm_Value : Z;
  cm_Data : bytes;
  cm_GasFeeCap : Z;
  cm_GasTipCap : Z;
}.

(** What the assembler uses of [chain.EVMClient]. *)
Record EVMClient : Type := mkEVMClient {
  evm_ChainID : result Z;
  evm_PendingNonceAt : Address -> result Z;
  evm_SuggestGasTipCap : result Z;
  evm_BaseFee : result Z;
  evm_EstimateGas : CallMsg -> result Z;
}.

Definition evmGasBufferNum : Z := 5.
Definition evmGasBufferDen : Z := 4.

Record EVMArgs : Type := mkEVMArgs {
  ea_ClientID : string;
  ea_From : Address;
  ea_To : Address;
  ea_Data : bytes;
  ea_Value : option Z;
  ea_Summary : EVMSummary;
}.

(** [gas * evmGasBufferNum / evmGasBufferDen] on uint64. *)
Definition pad_gas (gas : Z) : Z := u64 (gas * evmGasBufferNum) / evmGasBufferDen.

Section EVMAssemble.
Context {L : ChainLib}.

Definition EVMAssemble (evm : EVMClient) (args : EVMArgs) (now : Time) : result EVMTxPayload :=
  let value := default 0 (ea_Value args) in
  chainID ← wrap (fun e => Errorf "evm chain id: %w" [FErr e]) (evm_ChainID evm);
  nonce ← wrap (fun e => Errorf "pending nonce for %s: %w" [FStr (Address_Hex (ea_From args)); FErr e])
            (evm_PendingNonceAt evm (ea_From args));
  tip ← wrap (fun e => Errorf "suggest gas tip cap: %w" [FErr e]) (evm_SuggestGasTipCap evm);
  baseFee ← wrap (fun e => Errorf "base fee: %w" [FErr e]) (evm_BaseFee evm);
  let maxFee := baseFee * 2 + tip in
  gas ← wrap (fun e => Errorf "estimate gas: %w" [FErr e])
          (evm_EstimateGas evm (mkCallMsg (ea_From args) (ea_To args) value (ea_Data args) maxFee tip));
  let gas := pad_gas gas in
  Ok {| ep_Version := CurrentVersion;
        ep_ClientID := ea_ClientID args;
        ep_EVMChainID := FormatInt chainID;
        ep_SignerAddress := Address_Hex (ea_From args);
        ep_TxType := EVMTxTypeEIP1559;
        ep_To := Address_Hex (ea_To args);
        ep_Nonce := FormatUint nonce;
        ep_Gas := FormatUint gas;
        ep_MaxFeePerGas := FormatInt maxFee;
        ep_MaxPriorityFeePerGas := FormatInt tip;
        ep_Value := FormatInt value;
        ep_Data := hexutil_Encode (ea_Data args);
        ep_ExpiresAt := now + DefaultPayloadTTL;
        ep_Summary := ea_Summary args |}.

End EVMAssemble.

Lemma pad_gas_exact gas : 0 <= gas -> gas * 5 <= maxU64 -> pad_gas gas = gas * 5 / 4 /\ gas <= pad_gas gas.
Proof.
  intros H0 Hm. unfold pad_gas, u64, evmGasBufferNum, evmGasBufferDen.
  rewrite Z.mod_small by (unfold maxU64 in Hm; lia). split; [done|]. apply Z.div_le_lower_bound; lia.
Qed.

(** An assembled EVM payload states the node's nonce and chain id, a gas limit
    of one and a quarter of the estimate (never below it) as long as five times
    the estimate fits in 64 bits, and fee caps that cover twice the base fee plus
    the tip; every decimal field parses back to the number it stands for, and an
    RPC failure yields no payload. *)
Theorem EVMAssemble_ok {L : ChainLib} (evm : EVMClient) (args : EVMArgs) (now : Time) (p : EVMTxPayload)
    (H : EVMAssemble evm args now = Ok p) :
  exists chainID nonce tip baseFee gas,
    evm_ChainID evm = Ok chainID /\ evm_PendingNonceAt evm (ea_From args) = Ok nonce
    /\ evm_SuggestGasTipCap evm = Ok tip /\ evm_BaseFee evm = Ok baseFee
    /\ evm_EstimateGas evm (mkCallMsg (ea_From args) (ea_To args) (default 0 (ea_Value args)) (ea_Data args)
                              (2 * baseFee + tip) tip) = Ok gas
    /\ BigSetString10 (ep_EVMChainID p) = Some chainID
    /\ (0 <= nonce <= maxU64 -> ParseUint (ep_Nonce p) = Ok nonce)
    /\ BigSetString10 (ep_MaxFeePerGas p) = Some (2 * baseFee + tip)
    /\ BigSetString10 (ep_MaxPriorityFeePerGas p) = Some tip
    /\ BigSetString10 (ep_Value p) = Some (default 0 (ea_Value args))
    /\ (0 <= gas -> gas * 5 <= maxU64 -> exists g, ParseUint (ep_Gas p) = Ok g /\ g = gas * 5 / 4 /\ gas <= g).
Proof.
  unfold EVMAssemble in H.
  destruct (evm_ChainID evm) as [chainID|]; cbn [wrap mbind result_bind] in H; [|done].
  destruct (evm_PendingNonceAt evm _) as [nonce|]; cbn [wrap mbind result_bind] in H; [|done].
  destruct (evm_SuggestGasTipCap evm) as [tip|]; cbn [wrap mbind result_bind] in H; [|done].
  destruct (evm_BaseFee evm) as [baseFee|]; cbn [wrap mbind result_bind] in H; [|done].
  rewrite (Z.mul_comm baseFee 2) in H.
  destruct (evm_EstimateGas evm _) as [gas|] eqn:Eg; cbn [wrap mbind result_bind] in H; [|done].
  simplify_eq. cbn [ep_EVMChainID ep_Nonce ep_MaxFeePerGas ep_MaxPriorityFeePerGas ep_Value ep_Gas].
  exists chainID, nonce, tip, baseFee, gas. rewrite !BigSetString10_FormatInt.
  split_and!; [done..| |done|done|done|].
  - intros. by apply ParseUint_FormatUint.
  - intros H0 Hm. destruct (pad_gas_exact gas H0 Hm) as [E Hle]. exists (pad_gas gas).
    split; [|by rewrite <- E]. apply ParseUint_FormatUint. rewrite E. split; [apply Z.div_pos; lia|].
    apply Z.div_le_upper_bound; lia.
Qed.

Definition demo_evm : EVMClient :=
  mkEVMClient (Ok 262144) (fun _ => Ok 7) (Ok 2) (Ok 100) (fun _ => Ok 21000).

Lemma EVMAssemble_ok_witness :
  exists p, @EVMAssemble demo_lib demo_evm (mkEVMArgs "uuid" [] [] [] None (mkEVMSummary "" "")) 0 = Ok p
  /\ exists g, ParseUint (ep_Gas p) = Ok g /\ g = 26250.
Proof.
  eexists. split; [vm_compute; reflexivity|].
  destruct (@EVMAssemble_ok demo_lib demo_evm (mkEVMArgs "uuid" [] [] [] None (mkEVMSummary "" "")) 0 _ eq_refl)
    as (c & n & t & b & g & _ & _ & _ & _ & Eg & _ & _ & _ & _ & _ & Hg).
  cbn in Eg. simplify_eq. destruct (Hg ltac:(lia) ltac:(unfold maxU64; lia)) as (g' & E & -> & _).
  exists (21000 * 5 / 4). split; [exact E|reflexivity].
Defined.
