(* ===== verification/BridgeRegistry.v ===== *)
(** * The cross-chain route registry (bridge/registry.go)

    The whitelist of (source chain, source token, target chain) routes behind the
    bridge tools: loading and validating the operator's file, resolving a chain
    argument and a token argument. *)

From stdpp Require Import sorting.
From S2P Require Import Prelude GoStrings GoNum GoEncoding ChainLib Assets.

Record Route : Type := mkRoute {
  rt_SrcChainID : Z;
  rt_TargetChainID : Z;
  rt_TargetChain : string;
  rt_SrcToken : Address;
  rt_TargetToken : Address;
  rt_Symbol : string;
  rt_Decimals : Z;
}.

Definition NativeSource (r : Route) : bool := bool_decide (rt_SrcToken r = zero_address).

Record ChainRef : Type := mkChainRef { cr_Name : string; cr_ID : Z }.

Record Registry : Type := mkRegistry {
  routes : list Route;
  idToName : gmap Z string;
  nameToID : gmap string Z;
}.

Record rawRoute : Type := mkRawRoute {
  rr_SrcChain : string;
  rr_SrcChainID : Z;
  rr_TargetChain : string;
  rr_TargetChainID : Z;
  rr_SrcToken : string;
  rr_TargetToken : string;
  rr_Symbol : string;
  rr_Decimals : Z;
}.

Section Registry.
Context {L : ChainLib} {U : Unicode}.

(** ** Loading *)

Definition learnChain (name : string) (id : Z) (r : Registry) : Registry :=
  if String.eqb name "" then r
  else mkRegistry (routes r)
         (if idToName r !! id then idToName r else <[id := name]> (idToName r))
         (<[ToLower name := id]> (nameToID r)).

Definition routeKey (src target : Z) (last : string) : string :=
  (FormatUint src +:+ "|" +:+ FormatUint target +:+ "|" +:+ ToLower last)%string.

(** The validation of one element of the file. *)
Definition check_raw (i : Z) (r : rawRoute) : error :=
  _ ← check ((rr_SrcChainID r =? 0) || (rr_TargetChainID r =? 0))
        (Errorf "route[%d] (%s->%s) has a zero chain id" [FInt i; FStr (rr_SrcChain r); FStr (rr_TargetChain r)]);
  _ ← check (negb (IsHexAddress (rr_SrcToken r)))
        (Errorf "route[%d] srcToken %q is not a 0x address" [FInt i; FStr (rr_SrcToken r)]);
  _ ← check (negb (IsHexAddress (rr_TargetToken r)))
        (Errorf "route[%d] targetToken %q is not a 0x address" [FInt i; FStr (rr_TargetToken r)]);
  _ ← check (String.eqb (TrimSpace (rr_Symbol r)) "")
        (Errorf "route[%d] (%s->%s) has an empty symbol" [FInt i; FStr (rr_SrcChain r); FStr (rr_TargetChain r)]);
  check ((rr_Decimals r <? 0) || (77 <? rr_Decimals r))
    (Errorf "route[%d] (%s) decimals %d out of range" [FInt i; FStr (rr_Symbol r); FInt (rr_Decimals r)]).

Definition route_of (r : rawRoute) : Route :=
  {| rt_SrcChainID := rr_SrcChainID r;
     rt_TargetChainID := rr_TargetChainID r;
     rt_TargetChain := rr_TargetChain r;
     rt_SrcToken := HexToAddress (rr_SrcToken r);
     rt_TargetToken := HexToAddress (rr_TargetToken r);
     rt_Symbol := rr_Symbol r;
     rt_Decimals := rr_Decimals r |}.

Definition tokenKey (rt : Route) : string :=
  routeKey (rt_SrcChainID rt) (rt_TargetChainID rt) (Address_Hex (rt_SrcToken rt)).
Definition symKey (rt : Route) : string :=
  routeKey (rt_SrcChainID rt) (rt_TargetChainID rt) (ToLower (rt_Symbol rt)).

Definition add_route (rt : Route) (r : Registry) : Registry :=
  mkRegistry (routes r ++ [rt]) (idToName r) (nameToID r).

(** The loop of [newRegistry], with the two sets of keys seen. *)
Fixpoint load_routes (i : Z) (seenToken seenSymbol : gset string) (reg : Registry) (raws : list rawRoute)
  : result Registry :=
  match raws with
  | [] => Ok reg
  | r :: raws' =>
      _ ← check_raw i r;
      let route := route_of r in
      _ ← check (bool_decide (tokenKey route ∈ seenToken))
            (Errorf "duplicate route for src %d -> target %d token %s"
               [FInt (rt_SrcChainID route); FInt (rt_TargetChainID route); FStr (Address_Hex (rt_SrcToken route))]);
      _ ← check (bool_decide (symKey route ∈ seenSymbol))
            (Errorf "duplicate route for src %d -> target %d symbol %s"
               [FInt (rt_SrcChainID route); FInt (rt_TargetChainID route); FStr (rt_Symbol route)]);
      load_routes (i + 1) ({[tokenKey route]} ∪ seenToken) ({[symKey route]} ∪ seenSymbol)
        (learnChain (rr_TargetChain r) (rr_TargetChainID r)
           (learnChain (rr_SrcChain r) (rr_SrcChainID r) (add_route route reg))) raws'
  end.

Definition newRegistry (raws : list rawRoute) : result Registry :=
  load_routes 0 ∅ ∅ (mkRegistry [] ∅ ∅) raws.

(** [readFile] is the outcome of [os.ReadFile(path)], [unmarshal] is
    [json.Unmarshal] into the list of routes. *)
Definition LoadRegistry (readFile : string -> result bytes) (unmarshal : bytes -> result (list rawRoute))
    (path : string) : result Registry :=
  b ← wrap (fun e => Errorf "read bridge routes %s: %w" [FStr path; FErr e]) (readFile path);
  raws ← wrap (fun e => Errorf "parse bridge routes %s: %w" [FStr path; FErr e]) (unmarshal b);
  _ ← check (Nat.eqb (List.length raws) 0) (Errorf "bridge routes %s is empty" [FStr path]);
  newRegistry raws.

(** ** Reading *)

Definition routesFor (src target : Z) (r : Registry) : list Route :=
  List.filter (fun rt => (rt_SrcChainID rt =? src) && (rt_TargetChainID rt =? target)) (routes r).

(** The loop of [AvailableTargets] and [AvailableSources]: the far end of every
    route whose near end is [fixed], once. *)
Fixpoint distinct_chains (near far : Route -> Z) (names : gmap Z string) (fixed : Z) (seen : gset Z)
    (l : list Route) : list ChainRef :=
  match l with
  | [] => []
  | rt :: l' =>
      if negb (near rt =? fixed) || bool_decide (far rt ∈ seen) then distinct_chains near far names fixed seen l'
      else mkChainRef (default "" (names !! far rt))%string (far rt)
             :: distinct_chains near far names fixed ({[far rt]} ∪ seen) l'
  end.

(** The order of [sort.Slice]: no two of the sorted chains share an id. *)
Definition by_id (a b : ChainRef) : Prop := cr_ID a <= cr_ID b.
#[export] Instance by_id_dec : RelDecision by_id := fun a b => Z_le_dec (cr_ID a) (cr_ID b).

Definition AvailableTargets (srcChainID : Z) (r : Registry) : list ChainRef :=
  merge_sort by_id (distinct_chains rt_SrcChainID rt_TargetChainID (idToName r) srcChainID ∅ (routes r)).

Definition AvailableSources (targetChainID : Z) (r : Registry) : list ChainRef :=
  merge_sort by_id (distinct_chains rt_TargetChainID rt_SrcChainID (idToName r) targetChainID ∅ (routes r)).

Definition HasSource (srcChainID : Z) (r : Registry) : bool :=
  existsb (fun rt => rt_SrcChainID rt =? srcChainID) (routes r).
Definition HasTarget (targetChainID : Z) (r : Registry) : bool :=
  existsb (fun rt => rt_TargetChainID rt =? targetChainID) (routes r).

Definition chainHint (chains : list ChainRef) : string :=
  if Nat.eqb (List.length chains) 0 then "(none configured)"
  else Join (map (fun c => (cr_Name c +:+ " (" +:+ FormatUint (cr_ID c) +:+ ")")%string) chains) ", ".

(** Byte order of strings. *)
Definition str_le (a b : string) : Prop := String.leb a b = true.
#[export] Instance str_le_dec : RelDecision str_le := fun a b => bool_eq_dec _ _.

Definition tokenHint (l : list Route) : string := Join (merge_sort str_le (map rt_Symbol l)) ", ".

Definition targetHint (srcChainID : Z) (r : Registry) : string := chainHint (AvailableTargets srcChainID r).
Definition sourceHint (targetChainID : Z) (r : Registry) : string := chainHint (AvailableSources targetChainID r).

(** The chain id a trimmed chain argument names: a decimal number is an id, any
    other text a chain name. *)
Definition chain_named (q : string) (r : Registry) : option Z :=
  match ParseUint q with Ok n => Some n | Err _ => nameToID r !! ToLower q end.

Definition resolveChain (query : string) (fixedID : Z) (fixedIsTarget : bool) (r : Registry) : result Z :=
  let noun := (if fixedIsTarget then "source" else "destination")%string in
  let hint := if fixedIsTarget then sourceHint fixedID r else targetHint fixedID r in
  let q := TrimSpace query in
  _ ← check (String.eqb q "") (Errorf "%s chain is required (e.g. %s)" [FStr noun; FStr hint]);
  id ← from_opt (chain_named q r)
         (Errorf "unknown %s chain %q; available: %s" [FStr noun; FStr query; FStr hint]);
  _ ← check (id =? fixedID)
        (Errorf "%s chain %q is the same as the %s chain — nothing to bridge"
           [FStr noun; FStr query; FStr (if fixedIsTarget then "target" else "source")%string]);
  let '(src, target) := if fixedIsTarget then (id, fixedID) else (fixedID, id) in
  _ ← check (Nat.eqb (List.length (routesFor src target r)) 0)
        (Errorf "no bridge route %s chain %q; available %ss: %s"
           [FStr (if fixedIsTarget then "from" else "to")%string; FStr query; FStr noun; FStr hint]);
  Ok id.

Definition ResolveDestChain (query : string) (srcChainID : Z) : Registry -> result Z :=
  resolveChain query srcChainID false.
Definition ResolveSourceChain (query : string) (targetChainID : Z) : Registry -> result Z :=
  resolveChain query targetChainID true.

Definition Lookup (srcChainID targetChainID : Z) (tokenQuery : string) (r : Registry) : result Route :=
  let q := TrimSpace tokenQuery in
  let rts := routesFor srcChainID targetChainID r in
  _ ← check (Nat.eqb (List.length rts) 0)
        (Errorf "no bridge routes from chain %d to chain %d" [FInt srcChainID; FInt targetChainID]);
  if String.eqb (ToLower q) "" || String.eqb (ToLower q) "native" then
    from_opt (List.find NativeSource rts)
      (Errorf "native coin is not bridgeable to chain %d; bridgeable tokens: %s"
         [FInt targetChainID; FStr (tokenHint rts)])
  else if IsHexAddress q then
    let addr := HexToAddress q in
    from_opt (List.find (fun rt => bool_decide (rt_SrcToken rt = addr)) rts)
      (Errorf "token %s is not bridgeable to chain %d; bridgeable tokens: %s"
         [FStr (Address_Hex addr); FInt targetChainID; FStr (tokenHint rts)])
  else
    from_opt (List.find (fun rt => EqualFold (rt_Symbol rt) q) rts)
      (Errorf "token %q is not bridgeable to chain %d; bridgeable tokens: %s"
         [FStr tokenQuery; FInt targetChainID; FStr (tokenHint rts)]).

End Registry.

(** ** Lemmas *)

Section Lemmas.
Context {L : ChainLib} {U : Unicode}.

(** The text before the first separator is determined. *)
Lemma split_sep (c : ascii) (a1 a2 b1 b2 : bytes) :
  c ∉ a1 -> c ∉ a2 -> a1 ++ c :: b1 = a2 ++ c :: b2 -> a1 = a2 /\ b1 = b2.
Proof.
  intros H1 H2 E. pose proof (cut_l_app c a1 b1 H1) as C1. rewrite E, (cut_l_app c a2 b2 H2) in C1. by simplify_eq.
Qed.

Lemma FormatUint_no_bar n : 0 <= n -> "|"%char ∉ chars (FormatUint n).
Proof. intros Hn. apply not_elem_digits; [by apply FormatUint_digits|done]. Qed.

Lemma routeKey_inj s1 t1 a1 s2 t2 a2 :
  0 <= s1 -> 0 <= t1 -> 0 <= s2 -> 0 <= t2 -> routeKey s1 t1 a1 = routeKey s2 t2 a2 ->
  s1 = s2 /\ t1 = t2 /\ ToLower a1 = ToLower a2.
Proof.
  intros H1 H2 H3 H4 E. apply (f_equal chars) in E. unfold routeKey in E. rewrite !chars_app in E.
  apply (split_sep "|"%char) in E as [E1 E]; [|by apply FormatUint_no_bar..].
  apply (split_sep "|"%char) in E as [E2 E]; [|by apply FormatUint_no_bar..].
  apply chars_inj in E1, E2, E. split_and!; [by apply FormatUint_inj..|done].
Qed.

Lemma hex_lower_inj {LL : ChainLibLaws L} a b :
  List.length a = 20%nat -> List.length b = 20%nat -> ToLower (Address_Hex a) = ToLower (Address_Hex b) -> a = b.
Proof.
  intros [Aa Ha]%address_hex_lower [Ab Hb]%address_hex_lower. unfold ToLower. rewrite Aa, Ab, Ha, Hb, !str_chars.
  intros [= E]. by apply HexEncode_inj.
Qed.

(** What one element of the file must satisfy. *)
Definition valid_raw (r : rawRoute) : Prop :=
  rr_SrcChainID r <> 0 /\ rr_TargetChainID r <> 0 /\ IsHexAddress (rr_SrcToken r) = true
  /\ IsHexAddress (rr_TargetToken r) = true /\ TrimSpace (rr_Symbol r) <> EmptyString /\ 0 <= rr_Decimals r <= 77.

Lemma check_iff b e : check b e = Ok tt <-> b = false.
Proof. by destruct b. Qed.

Lemma check_raw_iff i r : check_raw i r = Ok tt <-> valid_raw r.
Proof.
  unfold check_raw, valid_raw.
  destruct (Z.eqb_spec (rr_SrcChainID r) 0); cbn; [split; [done|naive_solver]|].
  destruct (Z.eqb_spec (rr_TargetChainID r) 0); cbn; [split; [done|naive_solver]|].
  destruct (IsHexAddress (rr_SrcToken r)); cbn; [|split; [done|naive_solver]].
  destruct (IsHexAddress (rr_TargetToken r)); cbn; [|split; [done|naive_solver]].
  destruct (String.eqb_spec (TrimSpace (rr_Symbol r)) ""); cbn; [split; [done|naive_solver]|].
  destruct (Z.ltb_spec (rr_Decimals r) 0); cbn; [split; [done|lia]|].
  destruct (Z.ltb_spec 77 (rr_Decimals r)); cbn; [split; [done|lia]|]. split; [|done]. intros _. split_and!; done || lia.
Qed.

(** The registry after a file was read. *)
Definition learn (reg : Registry) (r : rawRoute) : Registry :=
  learnChain (rr_TargetChain r) (rr_TargetChainID r)
    (learnChain (rr_SrcChain r) (rr_SrcChainID r) (add_route (route_of r) reg)).

Lemma learnChain_routes n id r : routes (learnChain n id r) = routes r.
Proof. unfold learnChain. by destruct (String.eqb n ""). Qed.

Lemma fold_learn_routes raws reg : routes (fold_left learn raws reg) = routes reg ++ map route_of raws.
Proof.
  revert reg. induction raws as [|r raws IH]; intros reg; cbn [fold_left map]; [by rewrite app_nil_r|].
  rewrite IH. unfold learn. rewrite !learnChain_routes. cbn [add_route routes]. by rewrite <- app_assoc.
Qed.

(** A list of keys without repetition that avoids the keys seen. *)
Definition fresh (seen : gset string) (l : list string) : Prop := NoDup l /\ Forall (fun k => k ∉ seen) l.

Lemma fresh_cons seen k l : fresh seen (k :: l) <-> k ∉ seen /\ fresh ({[k]} ∪ seen) l.
Proof.
  unfold fresh. rewrite NoDup_cons, !Forall_forall. split.
  - intros [[H1 H2] H3]. split; [apply H3; set_solver|]. split; [done|]. intros x Hx.
    specialize (H3 x ltac:(set_solver)). set_solver.
  - intros [H1 [H2 H3]]. split; [split; [|done]|].
    + intros Hk. specialize (H3 k Hk). set_solver.
    + intros x [->|Hx]%elem_of_cons; [done|]. specialize (H3 x Hx). set_solver.
Qed.

Lemma load_routes_iff raws : forall i st ss reg reg',
  load_routes i st ss reg raws = Ok reg' <->
  reg' = fold_left learn raws reg /\ Forall valid_raw raws
  /\ fresh st (map (fun r => tokenKey (route_of r)) raws) /\ fresh ss (map (fun r => symKey (route_of r)) raws).
Proof.
  induction raws as [|r raws IH]; intros i st ss reg reg'; cbn [load_routes map fold_left].
  - unfold fresh. split; [intros [= <-]; split_and!; constructor|by intros [-> _]].
  - rewrite !fresh_cons, Forall_cons, <- (check_raw_iff i r).
    destruct (check_raw i r) as [[]|e]; cbn [mbind result_bind]; [|split; [done|naive_solver]].
    destruct (bool_decide_reflect (tokenKey (route_of r) ∈ st)); cbn [check mbind result_bind]; [split; [done|naive_solver]|].
    case_bool_decide; cbn [check mbind result_bind]; [split; [done|naive_solver]|].
    rewrite IH. naive_solver.
Qed.

Lemma NoDup_map_iff {A B C} (f : A -> B) (g : A -> C) (l : list A) :
  (forall x y, x ∈ l -> y ∈ l -> f x = f y <-> g x = g y) -> NoDup (map f l) <-> NoDup (map g l).
Proof.
  induction l as [|a l IH]; intros H; cbn [map]; [by rewrite !NoDup_nil|]. rewrite !NoDup_cons.
  rewrite IH by (intros; apply H; set_solver).
  assert (f a ∈ map f l <-> g a ∈ map g l) as ->; [|done].
  rewrite !list_elem_of_fmap. split; intros (y & E & Hy); exists y; (split; [apply H; [set_solver..|done]|done]).
Qed.

Lemma NoDup_map_inj {A B} (f : A -> B) (l : list A) x y :
  NoDup (map f l) -> x ∈ l -> y ∈ l -> f x = f y -> x = y.
Proof.
  induction l as [|a l IH]; cbn [map]; [set_solver|]. rewrite NoDup_cons. intros [Ha Hl] Hx Hy E.
  apply elem_of_cons in Hx as [->|Hx], Hy as [->|Hy]; [done| | |by apply IH].
  - destruct Ha. rewrite E. by apply list_elem_of_fmap_2.
  - destruct Ha. rewrite <- E. by apply list_elem_of_fmap_2.
Qed.

Lemma find_unique {A} (p : A -> bool) (l : list A) x :
  (forall y z, y ∈ l -> z ∈ l -> p y = true -> p z = true -> y = z) ->
  List.find p l = Some x <-> x ∈ l /\ p x = true.
Proof.
  intros Hu. split.
  - intros H%find_some. by rewrite list_elem_of_In.
  - intros [Hx Hp]. destruct (List.find p l) as [y|] eqn:E.
    + apply find_some in E as [Hy Hpy]. f_equal. apply Hu; [by apply list_elem_of_In|done..].
    + pose proof (find_none _ _ E x (proj1 (list_elem_of_In _ _) Hx)). congruence.
Qed.

End Lemmas.

Section Facts.
Context {L : ChainLib} {U : Unicode}.

(** The keys that must not repeat. *)
Definition token_id (r : rawRoute) : Z * Z * Address :=
  (rr_SrcChainID r, rr_TargetChainID r, HexToAddress (rr_SrcToken r)).
Definition symbol_id (r : rawRoute) : Z * Z * string :=
  (rr_SrcChainID r, rr_TargetChainID r, ToLower (ToLower (rr_Symbol r))).

(** Chain ids are unsigned. *)
Definition unsigned_ids (r : rawRoute) : Prop := 0 <= rr_SrcChainID r /\ 0 <= rr_TargetChainID r.

Lemma fresh_empty l : fresh ∅ l <-> NoDup l.
Proof. unfold fresh. rewrite Forall_forall. set_solver. Qed.

Lemma newRegistry_ok raws reg :
  newRegistry raws = Ok reg <->
  reg = fold_left learn raws (mkRegistry [] ∅ ∅) /\ Forall valid_raw raws
  /\ NoDup (map (fun r => tokenKey (route_of r)) raws) /\ NoDup (map (fun r => symKey (route_of r)) raws).
Proof. unfold newRegistry. by rewrite load_routes_iff, !fresh_empty. Qed.

Lemma newRegistry_routes raws reg : newRegistry raws = Ok reg -> routes reg = map route_of raws.
Proof. intros [-> _]%newRegistry_ok. by rewrite fold_learn_routes. Qed.

Lemma token_keys {LL : ChainLibLaws L} raws :
  Forall valid_raw raws -> Forall unsigned_ids raws ->
  NoDup (map (fun r => tokenKey (route_of r)) raws) <-> NoDup (map token_id raws).
Proof.
  rewrite !Forall_forall. intros Hv Hu. apply NoDup_map_iff. intros x y Hx Hy.
  destruct (Hu x Hx), (Hu y Hy), (Hv x Hx) as (_ & _ & Ax & _), (Hv y Hy) as (_ & _ & Ay & _).
  unfold token_id, tokenKey. split.
  - intros (E1 & E2 & E3)%routeKey_inj; try done. cbn [route_of rt_SrcToken rt_SrcChainID rt_TargetChainID] in *.
    apply hex_lower_inj in E3; [|by apply hex_address_length..]. by rewrite E1, E2, E3.
  - intros [= E1 E2 E3]. cbn [route_of rt_SrcToken rt_SrcChainID rt_TargetChainID]. by rewrite E1, E2, E3.
Qed.

Lemma symbol_keys raws :
  Forall unsigned_ids raws -> NoDup (map (fun r => symKey (route_of r)) raws) <-> NoDup (map symbol_id raws).
Proof.
  rewrite !Forall_forall. intros Hu. apply NoDup_map_iff. intros x y Hx Hy. destruct (Hu x Hx), (Hu y Hy).
  unfold symbol_id, symKey. split.
  - intros (E1 & E2 & E3)%routeKey_inj; try done. cbn [route_of rt_Symbol rt_SrcChainID rt_TargetChainID] in *.
    by rewrite E1, E2, E3.
  - intros [= E1 E2 E3]. cbn [route_of rt_Symbol rt_SrcChainID rt_TargetChainID]. unfold routeKey.
    by rewrite E1, E2, E3.
Qed.

(** The chain names of a file in the order they are learnt. *)
Definition known_chains (raws : list rawRoute) : list (string * Z) :=
  List.filter (fun p => negb (String.eqb (fst p) ""))
    (flat_map (fun r => [(rr_SrcChain r, rr_SrcChainID r); (rr_TargetChain r, rr_TargetChainID r)]) raws).

(** The id a file gives a chain name: that of its last mention. *)
Definition id_of_name (raws : list rawRoute) (k : string) : option Z :=
  snd <$> last (List.filter (fun p => String.eqb (ToLower (fst p)) k) (known_chains raws)).

Definition names_step (m : gmap string Z) (p : string * Z) : gmap string Z :=
  if String.eqb (fst p) "" then m else <[ToLower (fst p) := snd p]> m.

Lemma learnChain_names n id r : nameToID (learnChain n id r) = names_step (nameToID r) (n, id).
Proof. unfold learnChain, names_step. cbn [fst snd]. by destruct (String.eqb n ""). Qed.

Lemma fold_learn_names raws reg :
  nameToID (fold_left learn raws reg)
  = fold_left names_step (flat_map (fun r => [(rr_SrcChain r, rr_SrcChainID r); (rr_TargetChain r, rr_TargetChainID r)]) raws)
      (nameToID reg).
Proof.
  revert reg. induction raws as [|r raws IH]; intros reg; cbn [fold_left flat_map app]; [done|].
  rewrite IH. unfold learn. by rewrite !learnChain_names.
Qed.

Lemma fold_names_lookup l m k :
  fold_left names_step l m !! k
  = match last (List.filter (fun p => String.eqb (ToLower (fst p)) k) (List.filter (fun p => negb (String.eqb (fst p) "")) l)) with
    | Some p => Some (snd p) | None => m !! k end.
Proof.
  induction l as [|p l IH] using rev_ind; [done|]. rewrite fold_left_app. cbn [fold_left].
  rewrite !List.filter_app. cbn [List.filter]. unfold names_step at 1.
  destruct (String.eqb_spec (fst p) ""); cbn [negb]; [by rewrite app_nil_r|].
  cbn [List.filter]. destruct (String.eqb_spec (ToLower (fst p)) k) as [<-|].
  - by rewrite last_snoc, lookup_insert_eq.
  - by rewrite app_nil_r, lookup_insert_ne.
Qed.

Lemma newRegistry_names raws reg k : newRegistry raws = Ok reg -> nameToID reg !! k = id_of_name raws k.
Proof.
  intros [-> _]%newRegistry_ok. rewrite fold_learn_names, fold_names_lookup. unfold id_of_name, known_chains.
  by destruct (last _).
Qed.

(** What a token argument selects. *)
Definition selects (tokenQuery : string) (rt : Route) : bool :=
  let q := TrimSpace tokenQuery in
  if String.eqb (ToLower q) "" || String.eqb (ToLower q) "native" then NativeSource rt
  else if IsHexAddress q then bool_decide (rt_SrcToken rt = HexToAddress q)
  else EqualFold (rt_Symbol rt) q.

Lemma elem_of_routesFor rt src target reg :
  rt ∈ routesFor src target reg <-> rt ∈ routes reg /\ rt_SrcChainID rt = src /\ rt_TargetChainID rt = target.
Proof.
  unfold routesFor. rewrite !list_elem_of_In, filter_In, andb_true_iff, !Z.eqb_eq. done.
Qed.

Lemma Lookup_find src target tq reg rt :
  Lookup src target tq reg = Ok rt <-> List.find (selects tq) (routesFor src target reg) = Some rt.
Proof.
  unfold Lookup, selects. cbv zeta. destruct (routesFor src target reg) as [|a l]; [done|].
  change (Nat.eqb (List.length (a :: l)) 0) with false. cbn [check mbind result_bind].
  assert (forall A (o : option A) e (x : A), from_opt o e = Ok x <-> o = Some x) as Hf.
  { intros A [y|] e x; cbn; [naive_solver|done]. }
  destruct (_ || _); [by rewrite Hf|]. destruct (IsHexAddress _); by rewrite Hf.
Qed.

(** No two routes of a leg are selected by the same argument. *)
Lemma selects_unique raws reg src target tq x y :
  newRegistry raws = Ok reg ->
  (forall rt, rt ∈ routes reg -> is_ascii_str (rt_Symbol rt) = true) -> is_ascii_str (TrimSpace tq) = true ->
  x ∈ routesFor src target reg -> y ∈ routesFor src target reg ->
  selects tq x = true -> selects tq y = true -> x = y.
Proof.
  intros Hn Ha Hq (Hx & Sx & Tx)%elem_of_routesFor (Hy & Sy & Ty)%elem_of_routesFor Px Py.
  pose proof (newRegistry_routes _ _ Hn) as Er. apply newRegistry_ok in Hn as (_ & _ & Ht & Hs).
  rewrite <- (map_map route_of tokenKey), <- Er in Ht. rewrite <- (map_map route_of symKey), <- Er in Hs.
  assert (rt_SrcToken x = rt_SrcToken y \/ EqualFold (rt_Symbol x) (TrimSpace tq) = true
    /\ EqualFold (rt_Symbol y) (TrimSpace tq) = true) as [E|[Ex Ey]].
  { unfold selects in Px, Py. destruct (_ || _).
    - unfold NativeSource in Px, Py. apply bool_decide_eq_true in Px, Py. left. congruence.
    - destruct (IsHexAddress _); [|by right]. apply bool_decide_eq_true in Px, Py. left. congruence. }
  - eapply (NoDup_map_inj tokenKey); [done..|]. unfold tokenKey. by rewrite Sx, Tx, Sy, Ty, E.
  - eapply (NoDup_map_inj symKey); [done..|]. unfold EqualFold in Ex, Ey. rewrite (Ha x Hx), Hq in Ex.
    rewrite (Ha y Hy), Hq in Ey. apply bool_decide_eq_true in Ex, Ey. unfold symKey, routeKey. rewrite Sx, Tx, Sy, Ty.
    assert (ToLower (rt_Symbol x) = ToLower (rt_Symbol y)) as ->; [|done].
    unfold ToLower. by rewrite (Ha x Hx), (Ha y Hy), Ex, Ey.
Qed.

(** ** The lists of reachable chains *)

Lemma distinct_chains_spec near far names fixed l : forall seen,
  NoDup (map cr_ID (distinct_chains near far names fixed seen l))
  /\ forall id, id ∈ map cr_ID (distinct_chains near far names fixed seen l)
       <-> id ∉ seen /\ exists rt, rt ∈ l /\ near rt = fixed /\ far rt = id.
Proof.
  induction l as [|rt l IH]; intros seen; cbn [distinct_chains].
  { split; [constructor|]. intros id. cbn [map]. set_solver. }
  destruct (Z.eqb_spec (near rt) fixed) as [En|]; cbn [negb orb].
  2: { destruct (IH seen) as [H1 H2]. split; [done|]. intros id. rewrite H2. set_solver. }
  case_bool_decide as Hs.
  - destruct (IH seen) as [H1 H2]. split; [done|]. intros id. rewrite H2. set_solver.
  - destruct (IH ({[far rt]} ∪ seen)) as [H1 H2]. cbn [map cr_ID]. split.
    + apply NoDup_cons. split; [|done]. rewrite H2. set_solver.
    + intros id. rewrite elem_of_cons, H2. destruct (decide (id = far rt)) as [->|]; set_solver.
Qed.

#[global] Instance by_id_trans : Transitive by_id.
Proof. intros a b c. unfold by_id. lia. Qed.
#[global] Instance by_id_total : Total by_id.
Proof. intros a b. unfold by_id. lia. Qed.

(** A list of chains in increasing order of distinct ids. *)
Definition increasing (l : list ChainRef) : Prop := StronglySorted by_id l /\ NoDup (map cr_ID l).

Lemma sorted_chains near far names fixed l :
  increasing (merge_sort by_id (distinct_chains near far names fixed ∅ l))
  /\ forall id, id ∈ map cr_ID (merge_sort by_id (distinct_chains near far names fixed ∅ l))
       <-> exists rt, rt ∈ l /\ near rt = fixed /\ far rt = id.
Proof.
  destruct (distinct_chains_spec near far names fixed l ∅) as [Hn Hi].
  pose proof (merge_sort_Permutation by_id (distinct_chains near far names fixed ∅ l)) as Hp.
  apply (fmap_Permutation cr_ID) in Hp. split; [split|].
  - apply StronglySorted_merge_sort; apply _.
  - by apply (NoDup_Permutation_proper _ _ Hp).
  - intros id. change (map cr_ID ?x) with (cr_ID <$> x). rewrite Hp. change (cr_ID <$> ?x) with (map cr_ID x).
    rewrite Hi. set_solver.
Qed.

End Facts.

(** ** Claims *)


Definition demo_usdc : string := "0x732F6Ea7AfD5EdC02e7ba052075dd0780e285489".
Definition demo_zero : string := "0x0000000000000000000000000000000000000000".
Definition demo_raws : list rawRoute :=
  [mkRawRoute "svp_chain" 2517 "sepolia" 11155111 demo_usdc demo_usdc "USDC" 6;
   mkRawRoute "svp_chain" 2517 "sepolia" 11155111 demo_zero demo_usdc "SVP" 18;
   mkRawRoute "sepolia" 11155111 "svp_chain" 2517 demo_usdc demo_usdc "USDC" 6].

Definition demo_newRegistry : result Registry := newRegistry (L := demo_lib) (U := unicode_id) demo_raws.
Definition demo_registry : Registry :=
  match demo_newRegistry with Ok r => r | Err _ => mkRegistry [] ∅ ∅ end.


(** A token argument finds the one route it selects.  In a loaded registry
    with ASCII symbols, looking up an ASCII argument on a leg returns a route
    exactly when it is a route of that leg and the argument selects it: the
    native coin for an empty argument or "native", the source token for an
    address, the symbol up to case otherwise; so the answer never depends on
    the order of the file. *)
Theorem Lookup_iff {L : ChainLib} {U : Unicode} (raws : list rawRoute) (reg : Registry)
    (src target : Z) (tokenQuery : string) (rt : Route)
    (Hn : newRegistry raws = Ok reg)
    (Ha : forall rt, rt ∈ routes reg -> is_ascii_str (rt_Symbol rt) = true)
    (Hq : is_ascii_str (TrimSpace tokenQuery) = true) :
  Lookup src target tokenQuery reg = Ok rt <->
  rt ∈ routes reg /\ rt_SrcChainID rt = src /\ rt_TargetChainID rt = target /\ selects tokenQuery rt = true.
Proof.
  rewrite Lookup_find, find_unique, elem_of_routesFor; [naive_solver|].
  intros y z Hy Hz Py Pz. by eapply selects_unique.
Qed.

Lemma Lookup_iff_witness :
  exists rt, Lookup (L := demo_lib) (U := unicode_id) 2517 11155111 " usdc " demo_registry = Ok rt
  /\ rt_Symbol rt = "USDC"%string /\ selects (L := demo_lib) (U := unicode_id) " usdc " rt = true.
Proof.
  assert (newRegistry (L := demo_lib) (U := unicode_id) demo_raws = Ok demo_registry) as E by (vm_compute; reflexivity).
  eexists. split; [vm_compute; reflexivity|]. split; [reflexivity|].
  eapply (@Lookup_iff demo_lib unicode_id demo_raws demo_registry 2517 11155111 " usdc " _ E).
  - intros rt Hrt. change (routes demo_registry) with (map (route_of (L := demo_lib)) demo_raws) in Hrt.
    apply list_elem_of_fmap in Hrt as (r & -> & Hr). revert r Hr.
    apply Forall_forall. repeat (constructor; [reflexivity|]). constructor.
  - reflexivity.
  - vm_compute. reflexivity.
Defined.

(** A chain argument resolves exactly to the far end of a leg that has a route:
    a decimal number is the id itself, a name the id the file gave it last, and
    the fixed chain is never the answer. *)
Theorem resolveChain_iff {L : ChainLib} {U : Unicode} (raws : list rawRoute) (reg : Registry)
    (query : string) (fixedID : Z) (fixedIsTarget : bool) (id : Z) (Hn : newRegistry raws = Ok reg) :
  resolveChain query fixedID fixedIsTarget reg = Ok id <->
  TrimSpace query <> EmptyString
  /\ match ParseUint (TrimSpace query) with
     | Ok n => n = id | Err _ => id_of_name raws (ToLower (TrimSpace query)) = Some id end
  /\ id <> fixedID
  /\ exists rt, rt ∈ routes reg
     /\ (rt_SrcChainID rt, rt_TargetChainID rt) = if fixedIsTarget then (id, fixedID) else (fixedID, id).
Proof.
  assert (forall src target, Nat.eqb (List.length (routesFor src target reg)) 0 = false <->
            exists rt, rt ∈ routes reg /\ (rt_SrcChainID rt, rt_TargetChainID rt) = (src, target)) as Hr.
  { intros src target. rewrite Nat.eqb_neq. split.
    - intros Hl. destruct (routesFor src target reg) as [|rt l] eqn:El; [done|].
      assert (rt ∈ routesFor src target reg) as (H1 & H2 & H3)%elem_of_routesFor by (rewrite El; left).
      exists rt. split; [done|congruence].
    - intros (rt & H1 & [= H2 H3]) Hl%nil_length_inv.
      assert (rt ∈ routesFor src target reg) as Hi by (by apply elem_of_routesFor). rewrite Hl in Hi. set_solver. }
  unfold resolveChain, chain_named. cbv zeta.
  destruct (String.eqb_spec (TrimSpace query) ""); cbn [check mbind result_bind]; [split; [done|naive_solver]|].
  rewrite (newRegistry_names _ _ _ Hn).
  set (o := match ParseUint _ with Ok n => Some n | Err _ => _ end).
  assert (forall i, o = Some i <-> match ParseUint (TrimSpace query) with
    | Ok n => n = i | Err _ => id_of_name raws (ToLower (TrimSpace query)) = Some i end) as Ho.
  { intros i. unfold o. destruct (ParseUint _); [naive_solver|done]. }
  rewrite <- Ho. destruct o as [i|]; cbn [from_opt mbind result_bind]; [|split; [done|naive_solver]].
  destruct (Z.eqb_spec i fixedID) as [->|]; cbn [check mbind result_bind]; [split; [done|naive_solver]|].
  destruct fixedIsTarget.
  all: destruct (Nat.eqb _ 0) eqn:El; cbn [check mbind result_bind].
  all: split; [try done|intros (_ & [= ->] & _ & Hrt)].
  all: try (apply Hr in Hrt; congruence).
  all: try done.
  all: intros [= <-]; apply Hr in El; by split_and!.
Qed.

(** The chains listed as targets (sources) are exactly those a route leads to
    (comes from), each once, in increasing order. *)
Theorem AvailableTargets_spec {L : ChainLib} {U : Unicode} (r : Registry) (fixed : Z) :
  (increasing (AvailableTargets fixed r)
   /\ forall id, id ∈ map cr_ID (AvailableTargets fixed r)
        <-> exists rt, rt ∈ routes r /\ rt_SrcChainID rt = fixed /\ rt_TargetChainID rt = id)
  /\ (increasing (AvailableSources fixed r)
      /\ forall id, id ∈ map cr_ID (AvailableSources fixed r)
           <-> exists rt, rt ∈ routes r /\ rt_TargetChainID rt = fixed /\ rt_SrcChainID rt = id).
Proof. split; apply sorted_chains. Qed.
