(* ===== verification/ABI.v ===== *)
(** * Contract bindings (builder/erc.go, builder/uniswap.go, builder/bridge.go)

    The encoder of contract calls is go-ethereum's accounts/abi, the class
    [ABILib]; a parsed ABI is named by the JSON text it is parsed from.  The laws
    state the encoding of the ERC-20 calls the server inspects again when it
    broadcasts, and the range of a decoded uint8. *)

From S2P Require Import Prelude GoStrings GoNum GoEncoding ChainLib Assets TxInspect.

(** The Go values passed to [Pack] and returned by [Unpack]. *)
Inductive abi_value : Type :=
| AAddr (a : Address)
| ABig (n : Z)
| AUint64 (n : Z)
| AUint8 (n : Z)
| ABool (b : bool)
| AAddrs (l : list Address)
| ABigs (l : list Z)
| AStr (s : string).

(** The embedded JSON texts. *)
Inductive abi_json : Type :=
| ercTransferERC20ABI | erc721ABI | uniswapV2RouterABI | erc20ABI | svpBridgeABI
| lendoraCTokenABI | lendoraComptrollerABI | lendoraOracleABI | lendoraIRMABI | oracleFeedABI.

Class ABILib : Type := {
  abi_Pack : abi_json -> string -> list abi_value -> result bytes;
  abi_Unpack : abi_json -> string -> bytes -> result (list abi_value);
}.

(** keccak256("approve(address,uint256)")[:4] *)
Definition sel_approve : bytes := map chr [0x09; 0x5e; 0xa7; 0xb3].

Class ABILaws (B : ABILib) : Prop := {
  pack_transfer : forall dst n, List.length dst = 20%nat -> 0 <= n < 2 ^ 256 ->
    abi_Pack ercTransferERC20ABI "transfer" [AAddr dst; ABig n] = Ok (call_transfer dst n);
  pack_transferFrom : forall src dst n, List.length src = 20%nat -> List.length dst = 20%nat -> 0 <= n < 2 ^ 256 ->
    abi_Pack ercTransferERC20ABI "transferFrom" [AAddr src; AAddr dst; ABig n] = Ok (call_transferFrom src dst n);
  pack_approve : forall args data, abi_Pack ercTransferERC20ABI "approve" args = Ok data -> take 4 data = sel_approve;
  unpack_uint8 : forall j m data v l, abi_Unpack j m data = Ok (AUint8 v :: l) -> 0 <= v < 256;
}.

(** The type assertions on [out[0]], with the message of a failed one. *)
Definition as_big (shape : goerr) (out : list abi_value) : result Z :=
  match out with
  | [] => Err (Panic "index out of range [0] with length 0")
  | ABig v :: _ => Ok v
  | _ => Err shape
  end.

Definition as_uint8 (shape : goerr) (out : list abi_value) : result Z :=
  match out with
  | [] => Err (Panic "index out of range [0] with length 0")
  | AUint8 v :: _ => Ok v
  | _ => Err shape
  end.

Section Bindings.
Context {B : ABILib}.

(** ** ERC-20 and ERC-721 (erc.go) *)

Definition PackERC20Transfer (to : Address) (amount : Z) : result bytes :=
  abi_Pack ercTransferERC20ABI "transfer" [AAddr to; ABig amount].
Definition PackERC20Approve (spender : Address) (amount : Z) : result bytes :=
  abi_Pack ercTransferERC20ABI "approve" [AAddr spender; ABig amount].
Definition PackERC20TransferFrom (from to : Address) (amount : Z) : result bytes :=
  abi_Pack ercTransferERC20ABI "transferFrom" [AAddr from; AAddr to; ABig amount].
Definition PackERC20Allowance (owner spender : Address) : result bytes :=
  abi_Pack ercTransferERC20ABI "allowance" [AAddr owner; AAddr spender].

Definition UnpackERC20Allowance (data : bytes) : result Z :=
  out ← wrap (fun e => Errorf "decode allowance: %w" [FErr e]) (abi_Unpack ercTransferERC20ABI "allowance" data);
  as_big (Errorf "allowance returned an unexpected shape" []) out.

Definition PackERC20Decimals : result bytes := abi_Pack ercTransferERC20ABI "decimals" [].

Definition UnpackERC20Decimals (data : bytes) : result Z :=
  out ← wrap (fun e => Errorf "decode decimals: %w" [FErr e]) (abi_Unpack ercTransferERC20ABI "decimals" data);
  as_uint8 (Errorf "decimals returned an unexpected shape" []) out.

Definition PackERC721TransferFrom (from to : Address) (tokenID : Z) : result bytes :=
  abi_Pack erc721ABI "transferFrom" [AAddr from; AAddr to; ABig tokenID].
Definition PackERC721SafeTransferFrom (from to : Address) (tokenID : Z) : result bytes :=
  abi_Pack erc721ABI "safeTransferFrom" [AAddr from; AAddr to; ABig tokenID].
Definition PackERC721Approve (to : Address) (tokenID : Z) : result bytes :=
  abi_Pack erc721ABI "approve" [AAddr to; ABig tokenID].
Definition PackERC721SetApprovalForAll (operator : Address) (approved : bool) : result bytes :=
  abi_Pack erc721ABI "setApprovalForAll" [AAddr operator; ABool approved].

(** ** The swap router (uniswap.go): the bindings of a deployment do not depend
    on its addresses. *)

Definition PackGetAmountsOut (amountIn : Z) (path : list Address) : result bytes :=
  abi_Pack uniswapV2RouterABI "getAmountsOut" [ABig amountIn; AAddrs path].

Definition UnpackAmounts (data : bytes) : result (list Z) :=
  out ← wrap (fun e => Errorf "decode getAmountsOut: %w" [FErr e]) (abi_Unpack uniswapV2RouterABI "getAmountsOut" data);
  match out with
  | [] => Err (Panic "index out of range [0] with length 0")
  | ABigs (a :: l) :: _ => Ok (a :: l)
  | _ => Err (Errorf "getAmountsOut returned an unexpected shape" [])
  end.

Definition PackSwapExactTokensForTokens (amountIn amountOutMin : Z) (path : list Address) (to : Address)
    (deadline : Z) : result bytes :=
  abi_Pack uniswapV2RouterABI "swapExactTokensForTokens"
    [ABig amountIn; ABig amountOutMin; AAddrs path; AAddr to; ABig deadline].
Definition PackSwapExactSVPForTokens (amountOutMin : Z) (path : list Address) (to : Address) (deadline : Z)
  : result bytes :=
  abi_Pack uniswapV2RouterABI "swapExactSVPForTokens" [ABig amountOutMin; AAddrs path; AAddr to; ABig deadline].
Definition PackSwapExactTokensForSVP (amountIn amountOutMin : Z) (path : list Address) (to : Address)
    (deadline : Z) : result bytes :=
  abi_Pack uniswapV2RouterABI "swapExactTokensForSVP"
    [ABig amountIn; ABig amountOutMin; AAddrs path; AAddr to; ABig deadline].

Definition PackApprove (spender : Address) (amount : Z) : result bytes :=
  abi_Pack erc20ABI "approve" [AAddr spender; ABig amount].
Definition PackAllowance (owner spender : Address) : result bytes :=
  abi_Pack erc20ABI "allowance" [AAddr owner; AAddr spender].

Definition UnpackAllowance (data : bytes) : result Z :=
  out ← wrap (fun e => Errorf "decode allowance: %w" [FErr e]) (abi_Unpack erc20ABI "allowance" data);
  as_big (Errorf "allowance returned an unexpected shape" []) out.

Definition PackBalanceOf (account : Address) : result bytes := abi_Pack erc20ABI "balanceOf" [AAddr account].

Definition UnpackBalanceOf (data : bytes) : result Z :=
  out ← wrap (fun e => Errorf "decode balanceOf: %w" [FErr e]) (abi_Unpack erc20ABI "balanceOf" data);
  as_big (Errorf "balanceOf returned an unexpected shape" []) out.

Definition PackDecimals : result bytes := abi_Pack erc20ABI "decimals" [].

Definition UnpackDecimals (data : bytes) : result Z :=
  out ← wrap (fun e => Errorf "decode decimals: %w" [FErr e]) (abi_Unpack erc20ABI "decimals" data);
  as_uint8 (Errorf "decimals returned an unexpected shape" []) out.

(** ** The bridge (bridge.go) *)

Definition PackDeposit (token : Address) (amount targetChainID : Z) (targetToken destination : Address) : result bytes :=
  abi_Pack svpBridgeABI "deposit"
    [AAddr token; ABig amount; AUint64 targetChainID; AAddr targetToken; AAddr destination].
Definition PackDepositNative (targetChainID : Z) (targetToken destination : Address) : result bytes :=
  abi_Pack svpBridgeABI "depositNative" [AUint64 targetChainID; AAddr targetToken; AAddr destination].

End Bindings.

(** ** An instance for evaluations: the selectors of the ERC-20 writes are the
    real ones, and the other methods share one; a read answers six decimals,
    or the number the returned bytes denote. *)
Definition demo_word (v : abi_value) : bytes :=
  match v with
  | AAddr a => abi_addr a
  | ABig n | AUint64 n | AUint8 n => be_bytes 32 n
  | ABool b => be_bytes 32 (if b then 1 else 0)
  | AAddrs l => List.concat (map abi_addr l)
  | ABigs l => List.concat (map (be_bytes 32) l)
  | AStr s => chars s
  end.

Definition demo_selector (method : string) : bytes :=
  if String.eqb method "transfer" then selERC20Transfer
  else if String.eqb method "transferFrom" then selERC20TransferFrom
  else if String.eqb method "approve" then sel_approve
  else map chr [1; 2; 3; 4].

Definition demo_abi : ABILib := {|
  abi_Pack := fun _ m args => Ok (demo_selector m ++ List.concat (map demo_word args));
  abi_Unpack := fun _ m d =>
    if String.eqb m "decimals" then Ok [AUint8 6]
    else if String.eqb m "getAmountsOut" then Ok [ABigs [1; SetBytes d]]
    else Ok [ABig (SetBytes d)];
|}.

Lemma demo_abi_laws : ABILaws demo_abi.
Proof.
  constructor.
  - intros. cbn [abi_Pack demo_abi map List.concat demo_word]. by rewrite app_nil_r.
  - intros. cbn [abi_Pack demo_abi map List.concat demo_word]. by rewrite app_nil_r.
  - intros args data [= <-]. reflexivity.
  - intros j m data v l. cbn [abi_Unpack demo_abi]. destruct (String.eqb m "decimals"); [intros [= <- _]; lia|].
    by destruct (String.eqb m "getAmountsOut").
Qed.
