(* ===== verification/LendoraABI.v ===== *)
(** * The money-market and price-feed bindings (builder/lendora.go, builder/oracle.go)

    The calls and decoders of the cToken, Comptroller, price-oracle, interest-
    rate-model and aggregator contracts.  A binding carries the address of its
    deployment; the encodings do not depend on it. *)

From S2P Require Import Prelude GoStrings GoNum GoEncoding ChainLib Assets TxInspect ABI.

Record AccountSnapshot : Type := mkAccountSnapshot { as_CTokenBalance : Z; as_BorrowBalance : Z; as_ExchangeRate : Z }.

Record MarketInfo : Type := mkMarketInfo { mi_IsListed : bool; mi_CollateralFactorMantissa : Z; mi_IsComped : bool }.

Record AccountLiquidity : Type := mkAccountLiquidity { al_Liquidity : Z; al_Shortfall : Z }.

Record OracleRoundData : Type := mkOracleRoundData { rd_RoundID : Z; rd_Answer : Z; rd_UpdatedAt : Z }.

(** The Comptroller's numbers are unsigned. *)
Class ComptrollerLaws (B : ABILib) : Prop := {
  comptroller_uint : forall m data out v, abi_Unpack lendoraComptrollerABI m data = Ok out -> ABig v ∈ out -> 0 <= v;
}.

(** A type assertion on one value. *)
Definition to_big (v : abi_value) : option Z := match v with ABig n => Some n | _ => None end.
Definition to_bool (v : abi_value) : option bool := match v with ABool b => Some b | _ => None end.

Section Bindings.
Context {B : ABILib}.

(** ** The shared decoders *)

Definition unpack_first (a : abi_json) (method : string) (data : bytes) : result abi_value :=
  out ← wrap (fun e => Errorf "decode %s: %w" [FStr method; FErr e]) (abi_Unpack a method data);
  match out with [] => Err (Panic "index out of range [0] with length 0") | v :: _ => Ok v end.

Definition unexpected_shape (method : string) : goerr := Errorf "%s returned an unexpected shape" [FStr method].

Definition abiUnpackUint (a : abi_json) (method : string) (data : bytes) : result Z :=
  v ← unpack_first a method data;
  match v with ABig n => Ok n | _ => Err (unexpected_shape method) end.

Definition abiUnpackAddress (a : abi_json) (method : string) (data : bytes) : result Address :=
  v ← unpack_first a method data;
  match v with AAddr x => Ok x | _ => Err (unexpected_shape method) end.

Definition abiUnpackAddresses (a : abi_json) (method : string) (data : bytes) : result (list Address) :=
  v ← unpack_first a method data;
  match v with AAddrs l => Ok l | _ => Err (unexpected_shape method) end.

Definition abiUnpackBool (a : abi_json) (method : string) (data : bytes) : result bool :=
  v ← unpack_first a method data;
  match v with ABool b => Ok b | _ => Err (unexpected_shape method) end.

Definition abiUnpackString (a : abi_json) (method : string) (data : bytes) : result string :=
  v ← unpack_first a method data;
  match v with AStr s => Ok s | _ => Err (unexpected_shape method) end.

(** ** cToken writes *)

Definition PackMint (amount : Z) : result bytes := abi_Pack lendoraCTokenABI "mint" [ABig amount].
Definition PackRedeem (tokens : Z) : result bytes := abi_Pack lendoraCTokenABI "redeem" [ABig tokens].
Definition PackRedeemUnderlying (amount : Z) : result bytes := abi_Pack lendoraCTokenABI "redeemUnderlying" [ABig amount].
Definition PackBorrow (amount : Z) : result bytes := abi_Pack lendoraCTokenABI "borrow" [ABig amount].
Definition PackRepayBorrow (amount : Z) : result bytes := abi_Pack lendoraCTokenABI "repayBorrow" [ABig amount].

(** ** cToken reads *)

Definition PackUnderlying : result bytes := abi_Pack lendoraCTokenABI "underlying" [].
Definition UnpackUnderlying (data : bytes) : result Address := abiUnpackAddress lendoraCTokenABI "underlying" data.

Definition PackSymbol : result bytes := abi_Pack lendoraCTokenABI "symbol" [].
Definition UnpackSymbol (data : bytes) : result string := abiUnpackString lendoraCTokenABI "symbol" data.

Definition PackExchangeRateStored : result bytes := abi_Pack lendoraCTokenABI "exchangeRateStored" [].
Definition PackSupplyRatePerBlock : result bytes := abi_Pack lendoraCTokenABI "supplyRatePerBlock" [].
Definition PackBorrowRatePerBlock : result bytes := abi_Pack lendoraCTokenABI "borrowRatePerBlock" [].
Definition PackGetCash : result bytes := abi_Pack lendoraCTokenABI "getCash" [].
Definition PackTotalBorrows : result bytes := abi_Pack lendoraCTokenABI "totalBorrows" [].
Definition PackTotalReserves : result bytes := abi_Pack lendoraCTokenABI "totalReserves" [].
Definition PackReserveFactorMantissa : result bytes := abi_Pack lendoraCTokenABI "reserveFactorMantissa" [].
Definition UnpackCTokenUint (method : string) (data : bytes) : result Z := abiUnpackUint lendoraCTokenABI method data.

Definition PackInterestRateModel : result bytes := abi_Pack lendoraCTokenABI "interestRateModel" [].
Definition UnpackInterestRateModel (data : bytes) : result Address :=
  abiUnpackAddress lendoraCTokenABI "interestRateModel" data.

Definition PackCTokenBalanceOf (account : Address) : result bytes := abi_Pack lendoraCTokenABI "balanceOf" [AAddr account].
Definition UnpackCTokenBalanceOf (data : bytes) : result Z := abiUnpackUint lendoraCTokenABI "balanceOf" data.

Definition PackGetAccountSnapshot (account : Address) : result bytes :=
  abi_Pack lendoraCTokenABI "getAccountSnapshot" [AAddr account].

Definition UnpackGetAccountSnapshot (data : bytes) : result AccountSnapshot :=
  let shape := Errorf "getAccountSnapshot returned an unexpected shape" [] in
  out ← wrap (fun e => Errorf "decode getAccountSnapshot: %w" [FErr e]) (abi_Unpack lendoraCTokenABI "getAccountSnapshot" data);
  match out with
  | [v0; v1; v2; v3] =>
      match to_big v0, to_big v1, to_big v2, to_big v3 with
      | Some code, Some bal, Some borrow, Some rate =>
          _ ← check (negb (Z.sgn code =? 0)) (Errorf "getAccountSnapshot returned error code %s" [FStr (FormatInt code)]);
          Ok (mkAccountSnapshot bal borrow rate)
      | _, _, _, _ => Err shape
      end
  | _ => Err shape
  end.

(** ** Comptroller reads *)

Definition PackGetAllMarkets : result bytes := abi_Pack lendoraComptrollerABI "getAllMarkets" [].
Definition UnpackGetAllMarkets (data : bytes) : result (list Address) :=
  abiUnpackAddresses lendoraComptrollerABI "getAllMarkets" data.

Definition PackMarkets (cToken : Address) : result bytes := abi_Pack lendoraComptrollerABI "markets" [AAddr cToken].

Definition UnpackMarkets (data : bytes) : result MarketInfo :=
  let shape := Errorf "markets returned an unexpected shape" [] in
  out ← wrap (fun e => Errorf "decode markets: %w" [FErr e]) (abi_Unpack lendoraComptrollerABI "markets" data);
  match out with
  | [v0; v1; v2] =>
      match to_bool v0, to_big v1, to_bool v2 with
      | Some listed, Some cf, Some comped => Ok (mkMarketInfo listed cf comped)
      | _, _, _ => Err shape
      end
  | _ => Err shape
  end.

Definition PackGetAccountLiquidity (account : Address) : result bytes :=
  abi_Pack lendoraComptrollerABI "getAccountLiquidity" [AAddr account].

Definition PackGetHypotheticalAccountLiquidity (account cTokenModify : Address) (redeemTokens borrowAmount : Z)
  : result bytes :=
  abi_Pack lendoraComptrollerABI "getHypotheticalAccountLiquidity"
    [AAddr account; AAddr cTokenModify; ABig redeemTokens; ABig borrowAmount].

Definition UnpackAccountLiquidity (method : string) (data : bytes) : result AccountLiquidity :=
  out ← wrap (fun e => Errorf "decode %s: %w" [FStr method; FErr e]) (abi_Unpack lendoraComptrollerABI method data);
  match out with
  | [v0; v1; v2] =>
      match to_big v0, to_big v1, to_big v2 with
      | Some code, Some liq, Some short =>
          _ ← check (negb (Z.sgn code =? 0)) (Errorf "%s returned error code %s" [FStr method; FStr (FormatInt code)]);
          Ok (mkAccountLiquidity liq short)
      | _, _, _ => Err (unexpected_shape method)
      end
  | _ => Err (unexpected_shape method)
  end.

Definition PackGetAssetsIn (account : Address) : result bytes := abi_Pack lendoraComptrollerABI "getAssetsIn" [AAddr account].
Definition UnpackGetAssetsIn (data : bytes) : result (list Address) :=
  abiUnpackAddresses lendoraComptrollerABI "getAssetsIn" data.

Definition PackCloseFactorMantissa : result bytes := abi_Pack lendoraComptrollerABI "closeFactorMantissa" [].
Definition PackLiquidationIncentiveMantissa : result bytes := abi_Pack lendoraComptrollerABI "liquidationIncentiveMantissa" [].
Definition PackBorrowCaps (cToken : Address) : result bytes := abi_Pack lendoraComptrollerABI "borrowCaps" [AAddr cToken].
Definition UnpackComptrollerUint (method : string) (data : bytes) : result Z :=
  abiUnpackUint lendoraComptrollerABI method data.

Definition PackOracle : result bytes := abi_Pack lendoraComptrollerABI "oracle" [].
Definition UnpackOracle (data : bytes) : result Address := abiUnpackAddress lendoraComptrollerABI "oracle" data.

Definition PackMintGuardianPaused (cToken : Address) : result bytes :=
  abi_Pack lendoraComptrollerABI "mintGuardianPaused" [AAddr cToken].
Definition PackBorrowGuardianPaused (cToken : Address) : result bytes :=
  abi_Pack lendoraComptrollerABI "borrowGuardianPaused" [AAddr cToken].
Definition UnpackComptrollerBool (method : string) (data : bytes) : result bool :=
  abiUnpackBool lendoraComptrollerABI method data.

(** ** Comptroller writes *)

Definition PackEnterMarkets (cTokens : list Address) : result bytes :=
  abi_Pack lendoraComptrollerABI "enterMarkets" [AAddrs cTokens].
Definition PackExitMarket (cToken : Address) : result bytes := abi_Pack lendoraComptrollerABI "exitMarket" [AAddr cToken].

(** ** The price oracle and the interest-rate model *)

Definition PackGetUnderlyingPrice (cToken : Address) : result bytes :=
  abi_Pack lendoraOracleABI "getUnderlyingPrice" [AAddr cToken].
Definition PackCTokenToFeed (cToken : Address) : result bytes := abi_Pack lendoraOracleABI "cTokenToFeed" [AAddr cToken].
Definition PackCEtherAddress : result bytes := abi_Pack lendoraOracleABI "cEtherAddress" [].
Definition UnpackOracleUint (method : string) (data : bytes) : result Z := abiUnpackUint lendoraOracleABI method data.
Definition UnpackOracleAddress (method : string) (data : bytes) : result Address :=
  abiUnpackAddress lendoraOracleABI method data.

Definition PackBlocksPerYear : result bytes := abi_Pack lendoraIRMABI "blocksPerYear" [].
Definition UnpackBlocksPerYear (data : bytes) : result Z := abiUnpackUint lendoraIRMABI "blocksPerYear" data.

(** ** The aggregator (oracle.go) *)

Definition PackFeedDecimals : result bytes := abi_Pack oracleFeedABI "decimals" [].
Definition UnpackFeedDecimals (data : bytes) : result Z :=
  out ← wrap (fun e => Errorf "decode decimals: %w" [FErr e]) (abi_Unpack oracleFeedABI "decimals" data);
  as_uint8 (Errorf "decimals returned an unexpected shape" []) out.

Definition PackDescription : result bytes := abi_Pack oracleFeedABI "description" [].
Definition UnpackDescription (data : bytes) : result string :=
  out ← wrap (fun e => Errorf "decode description: %w" [FErr e]) (abi_Unpack oracleFeedABI "description" data);
  match out with
  | [] => Err (Panic "index out of range [0] with length 0")
  | AStr v :: _ => Ok (TrimSpace v)
  | _ => Err (Errorf "description returned an unexpected shape" [])
  end.

Definition PackLatestRoundData : result bytes := abi_Pack oracleFeedABI "latestRoundData" [].
Definition UnpackLatestRoundData (data : bytes) : result OracleRoundData :=
  out ← wrap (fun e => Errorf "decode latestRoundData: %w" [FErr e]) (abi_Unpack oracleFeedABI "latestRoundData" data);
  match out with
  | [v0; v1; _; v3; _] =>
      match to_big v0, to_big v1, to_big v3 with
      | Some roundID, Some answer, Some updatedAt => Ok (mkOracleRoundData roundID answer updatedAt)
      | _, _, _ => Err (Errorf "latestRoundData returned an unexpected shape" [])
      end
  | _ => Err (Errorf "latestRoundData returned %d values, want 5" [FInt (Z.of_nat (List.length out))])
  end.

End Bindings.

(** ** An instance for evaluations

    A call is the method's name, a bar and the words of its arguments; an answer
    is its words, or the text of a string. *)
Fixpoint demo_words (fuel : nat) (d : bytes) : list bytes :=
  match fuel, d with
  | O, _ | _, [] => []
  | S n, _ => take 32 d :: demo_words n (drop 32 d)
  end.

Definition demo_nums (d : bytes) : list Z := map SetBytes (demo_words (List.length d) d).
Definition demo_addrs (d : bytes) : list Address := map (drop 12) (demo_words (List.length d) d).

Definition demo_method_in (l : list string) (m : string) : bool := existsb (String.eqb m) l.

Definition demo_lend_abi : ABILib := {|
  abi_Pack := fun j m args =>
    match j with
    | ercTransferERC20ABI => @abi_Pack demo_abi j m args
    | _ => Ok (chars m ++ chars "|" ++ List.concat (map demo_word args))
    end;
  abi_Unpack := fun _ m d =>
    if String.eqb m "decimals" then
      match demo_nums d with n :: _ => if (0 <=? n) && (n <? 256) then Ok [AUint8 n] else Err (ErrNew "abi") | [] => Err (ErrNew "abi") end
    else if demo_method_in ["symbol"; "description"]%string m then Ok [AStr (str d)]
    else if demo_method_in ["oracle"; "cEtherAddress"; "cTokenToFeed"; "underlying"; "interestRateModel"]%string m
    then match demo_addrs d with a :: _ => Ok [AAddr a] | [] => Err (ErrNew "abi") end
    else if demo_method_in ["getAllMarkets"; "getAssetsIn"]%string m then Ok [AAddrs (demo_addrs d)]
    else if demo_method_in ["mintGuardianPaused"; "borrowGuardianPaused"]%string m
    then Ok [ABool (bool_decide (0 < SetBytes d))]
    else if String.eqb m "markets" then
      match demo_nums d with [a; b; c] => Ok [ABool (0 <? a); ABig b; ABool (0 <? c)] | _ => Err (ErrNew "abi") end
    else Ok (map ABig (demo_nums d));
|}.

Lemma demo_lend_abi_laws : ABILaws demo_lend_abi.
Proof.
  constructor.
  - intros. cbn [abi_Pack demo_lend_abi]. by apply (@pack_transfer _ demo_abi_laws).
  - intros. cbn [abi_Pack demo_lend_abi]. by apply (@pack_transferFrom _ demo_abi_laws).
  - intros args data. cbn [abi_Pack demo_lend_abi]. apply (@pack_approve _ demo_abi_laws).
  - intros j m data v l. cbn [abi_Unpack demo_lend_abi].
    destruct (String.eqb m "decimals").
    { destruct (demo_nums data) as [|n ?]; [done|]. destruct (Z.leb_spec 0 n), (Z.ltb_spec n 256); cbn; try done.
      intros [= <- _]. lia. }
    repeat (case_match; try done). intros Hm. exfalso. by destruct (demo_nums data).
Qed.
