(* ===== verification/Keccak.v ===== *)
(** * Keccak-256

    The hash go-ethereum's crypto.Keccak256 computes, and the one the selector of
    a contract method is cut from: the Keccak-f[1600] permutation on 25 lanes of
    64 bits, a rate of 136 bytes, and the padding of the original submission
    (0x01 rather than SHA-3's 0x06).  The server calls the library; this
    executable definition is what its parameter [Keccak256] is instantiated with,
    so that the constants of the source can be computed instead of assumed. *)

From S2P Require Import Prelude GoStrings GoEncoding.

Definition lane (l : list Z) (i : nat) : Z := default 0 (l !! i).

Definition rotl64 (v : Z) (n : Z) : Z := Z.lor (Z.shiftl v n mod 2 ^ 64) (Z.shiftr v (64 - n)).
Definition not64 (v : Z) : Z := 2 ^ 64 - 1 - v.

(** The rotation of each lane, at index [x + 5y]. *)
Definition rho : list Z :=
  [0; 1; 62; 28; 27; 36; 44; 6; 55; 20; 3; 10; 43; 25; 39; 41; 45; 15; 21; 8; 18; 2; 61; 56; 14].

Definition round_constants : list Z :=
  [0x0000000000000001; 0x0000000000008082; 0x800000000000808A; 0x8000000080008000;
   0x000000000000808B; 0x0000000080000001; 0x8000000080008081; 0x8000000000008009;
   0x000000000000008A; 0x0000000000000088; 0x0000000080008009; 0x000000008000000A;
   0x000000008000808B; 0x800000000000008B; 0x8000000000008089; 0x8000000000008003;
   0x8000000000008002; 0x8000000000000080; 0x000000000000800A; 0x800000008000000A;
   0x8000000080008081; 0x8000000000008080; 0x0000000080000001; 0x8000000080008008].

Definition five : list nat := [0; 1; 2; 3; 4]%nat.
Definition lanes (f : nat -> nat -> Z) : list Z := List.concat (map (fun y => map (fun x => f x y) five) five).

Definition theta (a : list Z) : list Z :=
  let c := map (fun x => foldl (fun acc y => Z.lxor acc (lane a (x + 5 * y))) 0 five) five in
  let d := map (fun x => Z.lxor (lane c ((x + 4) mod 5)) (rotl64 (lane c ((x + 1) mod 5)) 1)) five in
  lanes (fun x y => Z.lxor (lane a (x + 5 * y)) (lane d x)).

Definition rho_pi (a : list Z) : list Z :=
  lanes (fun x y => let i := ((x + 3 * y) mod 5 + 5 * x)%nat in rotl64 (lane a i) (lane rho i)).

Definition chi (a : list Z) : list Z :=
  lanes (fun x y => Z.lxor (lane a (x + 5 * y))
                      (Z.land (not64 (lane a ((x + 1) mod 5 + 5 * y))) (lane a ((x + 2) mod 5 + 5 * y)))).

Definition iota (rc : Z) (a : list Z) : list Z :=
  match a with [] => [] | v :: l => Z.lxor v rc :: l end.

Definition keccak_f (a : list Z) : list Z :=
  foldl (fun a rc => iota rc (chi (rho_pi (theta a)))) a round_constants.

(** Little-endian lanes of a block. *)
Definition le_value (b : bytes) : Z := foldr (fun c acc => code c + 256 * acc) 0 b.
Fixpoint le_bytes (n : nat) (v : Z) : bytes :=
  match n with O => [] | S k => chr (v mod 256) :: le_bytes k (v / 256) end.

Fixpoint chunks (size fuel : nat) (b : bytes) : list bytes :=
  match fuel, b with
  | O, _ | _, [] => []
  | S n, _ => take size b :: chunks size n (drop size b)
  end.

Definition keccak_rate : nat := 136.

Definition keccak_pad (b : bytes) : bytes :=
  let q := (keccak_rate - List.length b mod keccak_rate)%nat in
  if Nat.eqb q 1 then b ++ [chr 0x81] else b ++ chr 1 :: repeat (chr 0) (q - 2) ++ [chr 0x80].

Definition absorb (a : list Z) (block : bytes) : list Z :=
  let l := map le_value (chunks 8 17 block) in
  keccak_f (zip_with Z.lxor a (l ++ repeat 0 8)).

Definition keccak256 (b : bytes) : bytes :=
  let p := keccak_pad b in
  let a := foldl absorb (repeat 0 25) (chunks keccak_rate (List.length p) p) in
  List.concat (map (le_bytes 8) (take 4 a)).

(** Published values: of the empty text, of a short one, and of the encoding of
    the empty string (the root of an empty trie). *)
Example keccak_empty : HexEncode (keccak256 []) = "c5d2460186f7233c927e7db2dcc703c0e500b653ca82273b7bfad8045d85a470"%string.
Proof. vm_compute. reflexivity. Qed.

Example keccak_abc : HexEncode (keccak256 (chars "abc")) = "4e03657aea45a94fc7d47ba826c8d667c0d1e6e33a64a036ec44f58fa12d6c45"%string.
Proof. vm_compute. reflexivity. Qed.

Example keccak_empty_account : HexEncode (keccak256 [chr 0x80]) = "56e81f171bcc55a6ff8345e692c0f86e5b48e01b996cadc001622fb5e363b421"%string.
Proof. vm_compute. reflexivity. Qed.
