(* ===== verification/ABITables.v ===== *)
(** * The embedded contract interfaces (the JSON constants of builder/erc.go,
      builder/uniswap.go, builder/bridge.go, builder/lendora.go, builder/oracle.go)

    Each constant as the list of its methods with their argument and result types
    ([methods]); the canonical signature and selector of a method; the contract
    ABI encoding of values, and a decoder that inverts it.  [ABISpec] is the
    documented behaviour of go-ethereum's accounts/abi on these interfaces: a call
    whose arguments have the declared types encodes, an encoded answer decodes, and
    whatever decodes has the declared types.  [solidity_abi] is an implementation. *)

From S2P Require Import Prelude GoStrings GoNum GoEncoding ChainLib Assets TxInspect ABI LendoraABI Keccak.

(** ** Types, methods, interfaces *)

Inductive abi_type : Type :=
| Tuint256 | Tint256 | Tuint80 | Tuint64 | Tuint8 | Taddress | Tbool | Tstring | Taddresses | Tuint256s.

Definition type_name (t : abi_type) : string :=
  match t with
  | Tuint256 => "uint256" | Tint256 => "int256" | Tuint80 => "uint80" | Tuint64 => "uint64" | Tuint8 => "uint8"
  | Taddress => "address" | Tbool => "bool" | Tstring => "string" | Taddresses => "address[]" | Tuint256s => "uint256[]"
  end.

Record abi_method : Type := mkMethod { am_name : string; am_inputs : list abi_type; am_outputs : list abi_type }.

Definition erc20_methods : list abi_method :=
  [mkMethod "transfer" [Taddress; Tuint256] [Tbool];
   mkMethod "transferFrom" [Taddress; Taddress; Tuint256] [Tbool];
   mkMethod "approve" [Taddress; Tuint256] [Tbool];
   mkMethod "allowance" [Taddress; Taddress] [Tuint256];
   mkMethod "decimals" [] [Tuint8]].

Definition erc721_methods : list abi_method :=
  [mkMethod "transferFrom" [Taddress; Taddress; Tuint256] [];
   mkMethod "safeTransferFrom" [Taddress; Taddress; Tuint256] [];
   mkMethod "approve" [Taddress; Tuint256] [];
   mkMethod "setApprovalForAll" [Taddress; Tbool] []].

Definition router_methods : list abi_method :=
  [mkMethod "getAmountsOut" [Tuint256; Taddresses] [Tuint256s];
   mkMethod "swapExactTokensForTokens" [Tuint256; Tuint256; Taddresses; Taddress; Tuint256] [Tuint256s];
   mkMethod "swapExactSVPForTokens" [Tuint256; Taddresses; Taddress; Tuint256] [Tuint256s];
   mkMethod "swapExactTokensForSVP" [Tuint256; Tuint256; Taddresses; Taddress; Tuint256] [Tuint256s]].

Definition swap_erc20_methods : list abi_method :=
  [mkMethod "approve" [Taddress; Tuint256] [Tbool];
   mkMethod "allowance" [Taddress; Taddress] [Tuint256];
   mkMethod "decimals" [] [Tuint8];
   mkMethod "balanceOf" [Taddress] [Tuint256]].

Definition bridge_methods : list abi_method :=
  [mkMethod "deposit" [Taddress; Tuint256; Tuint64; Taddress; Taddress] [];
   mkMethod "depositNative" [Tuint64; Taddress; Taddress] []].

Definition ctoken_methods : list abi_method :=
  [mkMethod "mint" [Tuint256] [Tuint256];
   mkMethod "redeem" [Tuint256] [Tuint256];
   mkMethod "redeemUnderlying" [Tuint256] [Tuint256];
   mkMethod "borrow" [Tuint256] [Tuint256];
   mkMethod "repayBorrow" [Tuint256] [Tuint256];
   mkMethod "underlying" [] [Taddress];
   mkMethod "symbol" [] [Tstring];
   mkMethod "exchangeRateStored" [] [Tuint256];
   mkMethod "supplyRatePerBlock" [] [Tuint256];
   mkMethod "borrowRatePerBlock" [] [Tuint256];
   mkMethod "getCash" [] [Tuint256];
   mkMethod "totalBorrows" [] [Tuint256];
   mkMethod "totalReserves" [] [Tuint256];
   mkMethod "reserveFactorMantissa" [] [Tuint256];
   mkMethod "interestRateModel" [] [Taddress];
   mkMethod "balanceOf" [Taddress] [Tuint256];
   mkMethod "getAccountSnapshot" [Taddress] [Tuint256; Tuint256; Tuint256; Tuint256]].

Definition comptroller_methods : list abi_method :=
  [mkMethod "enterMarkets" [Taddresses] [Tuint256s];
   mkMethod "exitMarket" [Taddress] [Tuint256];
   mkMethod "getAllMarkets" [] [Taddresses];
   mkMethod "markets" [Taddress] [Tbool; Tuint256; Tbool];
   mkMethod "getAccountLiquidity" [Taddress] [Tuint256; Tuint256; Tuint256];
   mkMethod "getHypotheticalAccountLiquidity" [Taddress; Taddress; Tuint256; Tuint256] [Tuint256; Tuint256; Tuint256];
   mkMethod "getAssetsIn" [Taddress] [Taddresses];
   mkMethod "closeFactorMantissa" [] [Tuint256];
   mkMethod "liquidationIncentiveMantissa" [] [Tuint256];
   mkMethod "oracle" [] [Taddress];
   mkMethod "borrowCaps" [Taddress] [Tuint256];
   mkMethod "mintGuardianPaused" [Taddress] [Tbool];
   mkMethod "borrowGuardianPaused" [Taddress] [Tbool]].

Definition price_oracle_methods : list abi_method :=
  [mkMethod "getUnderlyingPrice" [Taddress] [Tuint256];
   mkMethod "cTokenToFeed" [Taddress] [Taddress];
   mkMethod "cEtherAddress" [] [Taddress];
   mkMethod "underlyingDecimals" [Taddress] [Tuint8]].

Definition irm_methods : list abi_method := [mkMethod "blocksPerYear" [] [Tuint256]].

Definition feed_methods : list abi_method :=
  [mkMethod "decimals" [] [Tuint8];
   mkMethod "description" [] [Tstring];
   mkMethod "latestRoundData" [] [Tuint80; Tint256; Tuint256; Tuint256; Tuint80]].

Definition methods (j : abi_json) : list abi_method :=
  match j with
  | ercTransferERC20ABI => erc20_methods
  | erc721ABI => erc721_methods
  | uniswapV2RouterABI => router_methods
  | erc20ABI => swap_erc20_methods
  | svpBridgeABI => bridge_methods
  | lendoraCTokenABI => ctoken_methods
  | lendoraComptrollerABI => comptroller_methods
  | lendoraOracleABI => price_oracle_methods
  | lendoraIRMABI => irm_methods
  | oracleFeedABI => feed_methods
  end.

Definition find_method (j : abi_json) (name : string) : option abi_method :=
  List.find (fun m => String.eqb (am_name m) name) (methods j).

(** The canonical signature; its hash starts with the selector. *)
Definition signature (m : abi_method) : string :=
  (am_name m +:+ "(" +:+ String.concat "," (map type_name (am_inputs m)) +:+ ")")%string.

Definition selector {L : ChainLib} (m : abi_method) : bytes := take 4 (Keccak256 (chars (signature m))).

(** The Go value has the Go type of a declared type, and is in its range. *)
Definition fits (t : abi_type) (v : abi_value) : bool :=
  match t, v with
  | Tuint256, ABig n => (0 <=? n) && (n <? 2 ^ 256)
  | Tint256, ABig n => (- 2 ^ 255 <=? n) && (n <? 2 ^ 255)
  | Tuint80, ABig n => (0 <=? n) && (n <? 2 ^ 80)
  | Tuint64, AUint64 n => (0 <=? n) && (n <? 2 ^ 64)
  | Tuint8, AUint8 n => (0 <=? n) && (n <? 256)
  | Taddress, AAddr a => Nat.eqb (List.length a) 20
  | Tbool, ABool _ => true
  | Tstring, AStr _ => true
  | Taddresses, AAddrs l => forallb (fun a => Nat.eqb (List.length a) 20) l
  | Tuint256s, ABigs l => forallb (fun n => (0 <=? n) && (n <? 2 ^ 256)) l
  | _, _ => false
  end.

Fixpoint all_fit (ts : list abi_type) (vs : list abi_value) : bool :=
  match ts, vs with
  | [], [] => true
  | t :: ts, v :: vs => fits t v && all_fit ts vs
  | _, _ => false
  end.

(** Decoding does not check that a uint80 is in its range. *)
Definition loose (t : abi_type) : abi_type := match t with Tuint80 => Tuint256 | t => t end.

(** ** The encoding *)

Definition word (n : Z) : bytes := be_bytes 32 n.
#[global] Arguments word : simpl never.

Definition dynamic (t : abi_type) : bool := match t with Tstring | Taddresses | Tuint256s => true | _ => false end.

(** Zero bytes up to a whole number of words. *)
Definition padded (b : bytes) : bytes := b ++ repeat (chr 0) ((32 - List.length b mod 32) mod 32).

Definition static_word (v : abi_value) : bytes :=
  match v with
  | AAddr a => abi_addr a
  | ABig n | AUint64 n | AUint8 n => word n
  | ABool b => word (if b then 1 else 0)
  | _ => []
  end.

Definition tail_of (v : abi_value) : option bytes :=
  match v with
  | AAddrs l => Some (word (Z.of_nat (List.length l)) ++ List.concat (map abi_addr l))
  | ABigs l => Some (word (Z.of_nat (List.length l)) ++ List.concat (map word l))
  | AStr s => Some (word (Z.of_nat (String.length s)) ++ padded (chars s))
  | _ => None
  end.

(** A static value is in the head; a dynamic one is in the tails, at the offset
    its head word gives. *)
Fixpoint heads (off : nat) (vs : list abi_value) : bytes :=
  match vs with
  | [] => []
  | v :: vs =>
      match tail_of v with
      | Some t => word (Z.of_nat off) ++ heads (off + List.length t) vs
      | None => static_word v ++ heads off vs
      end
  end.

Definition tails (vs : list abi_value) : bytes := List.concat (map (fun v => default [] (tail_of v)) vs).

Definition abi_encode (vs : list abi_value) : bytes := heads (32 * List.length vs) vs ++ tails vs.

(** ** The decoder *)

Definition word_at (data : bytes) (i : nat) : option bytes :=
  if Nat.leb (i + 32) (List.length data) then Some (slice i (i + 32) data) else None.

Fixpoint words_at (data : bytes) (i n : nat) : option (list bytes) :=
  match n with
  | O => Some []
  | S k => w ← word_at data i; l ← words_at data (i + 32) k; Some (w :: l)
  end.

Definition uint_at (data : bytes) (i : nat) : option Z := SetBytes <$> word_at data i.

(** The offset and the length of a dynamic value, which must lie in the data. *)
Definition dynamic_at (data : bytes) (i : nat) : option (nat * nat) :=
  off ← uint_at data i;
  if Z.of_nat (List.length data) <? off then None else
  n ← uint_at data (Z.to_nat off);
  if Z.of_nat (List.length data) <? n then None else Some ((Z.to_nat off + 32)%nat, Z.to_nat n).

Definition to_int256 (n : Z) : Z := if n <? 2 ^ 255 then n else n - 2 ^ 256.

Definition decode_one (data : bytes) (i : nat) (t : abi_type) : option abi_value :=
  match t with
  | Tuint256 | Tuint80 => ABig <$> uint_at data i
  | Tint256 => (fun n => ABig (to_int256 n)) <$> uint_at data i
  | Tuint64 => n ← uint_at data i; if n <? 2 ^ 64 then Some (AUint64 n) else None
  | Tuint8 => n ← uint_at data i; if n <? 256 then Some (AUint8 n) else None
  | Taddress => (fun w => AAddr (drop 12 w)) <$> word_at data i
  | Tbool => n ← uint_at data i; if n =? 0 then Some (ABool false) else if n =? 1 then Some (ABool true) else None
  | Taddresses => '(p, n) ← dynamic_at data i; l ← words_at data p n; Some (AAddrs (map (drop 12) l))
  | Tuint256s => '(p, n) ← dynamic_at data i; l ← words_at data p n; Some (ABigs (map SetBytes l))
  | Tstring =>
      '(p, n) ← dynamic_at data i;
      if Nat.leb (p + n) (List.length data) then Some (AStr (str (slice p (p + n) data))) else None
  end.

Fixpoint decode_at (data : bytes) (i : nat) (ts : list abi_type) : option (list abi_value) :=
  match ts with
  | [] => Some []
  | t :: ts => v ← decode_one data i t; vs ← decode_at data (i + 32) ts; Some (v :: vs)
  end.

(** ** Decoding inverts encoding *)

Lemma word_length n : List.length (word n) = 32%nat.
Proof. apply be_bytes_length. Qed.

Lemma SetBytes_word n : 0 <= n < 2 ^ 256 -> SetBytes (word n) = n.
Proof. intros H. by apply SetBytes_be. Qed.

Lemma addr_length a : List.length a = 20%nat -> List.length (abi_addr a) = 32%nat.
Proof. intros H. unfold abi_addr. by rewrite length_app, repeat_length, H. Qed.

Lemma addr_drop a : drop 12 (abi_addr a) = a.
Proof. reflexivity. Qed.

Lemma word_at_app (a w c : bytes) : List.length w = 32%nat -> word_at (a ++ w ++ c) (List.length a) = Some w.
Proof.
  intros Hw. unfold word_at. rewrite (proj2 (Nat.leb_le _ _)) by (rewrite !length_app; lia).
  f_equal. apply slice_app; [done|]. by rewrite Hw.
Qed.

Lemma uint_at_app (a c : bytes) n : 0 <= n < 2 ^ 256 -> uint_at (a ++ word n ++ c) (List.length a) = Some n.
Proof. intros H. unfold uint_at. rewrite word_at_app by apply word_length. cbn. by rewrite SetBytes_word. Qed.

Lemma words_at_app (l : list bytes) : forall a c : bytes,
  Forall (fun w => List.length w = 32%nat) l ->
  words_at (a ++ List.concat l ++ c) (List.length a) (List.length l) = Some l.
Proof.
  induction l as [|w l IH]; intros a c Hl; [done|]. apply Forall_cons in Hl as [Hw Hl]. cbn [List.concat List.length words_at].
  rewrite <- (app_assoc w), word_at_app by done. cbn.
  specialize (IH (a ++ w) c Hl). rewrite length_app, Hw, <- app_assoc in IH. by rewrite IH.
Qed.

Lemma concat_words_length (l : list bytes) :
  Forall (fun w => List.length w = 32%nat) l -> List.length (List.concat l) = (32 * List.length l)%nat.
Proof. induction 1 as [|w l Hw _ IH]; [done|]. cbn [List.concat List.length]. rewrite length_app, Hw, IH. lia. Qed.

(** [data] holds [word n ++ body] at the offset its head word gives. *)
Lemma dynamic_at_app (front body rest data : bytes) i n :
  data = front ++ (word n ++ body) ++ rest -> uint_at data i = Some (Z.of_nat (List.length front)) ->
  Z.of_nat (List.length data) < 2 ^ 256 -> 0 <= n <= Z.of_nat (List.length body) ->
  dynamic_at data i = Some ((List.length front + 32)%nat, Z.to_nat n).
Proof.
  intros -> Hi Hd Hn. unfold dynamic_at. rewrite Hi. cbn [mbind option_bind].
  rewrite !length_app, word_length in *. rewrite (proj2 (Z.ltb_ge _ _)) by lia.
  rewrite Nat2Z.id, <- app_assoc, uint_at_app by lia. cbn [mbind option_bind].
  by rewrite (proj2 (Z.ltb_ge _ _)) by lia.
Qed.

Lemma forallb_Forall {A} (f : A -> bool) l : forallb f l = true -> Forall (fun x => f x = true) l.
Proof. rewrite forallb_forall. intros H. apply Forall_forall. intros x Hx. apply H. by apply list_elem_of_In. Qed.

Lemma fits_addrs l :
  forallb (fun a => Nat.eqb (List.length a) 20) l = true -> Forall (fun w => List.length w = 32%nat) (map abi_addr l).
Proof.
  intros H%forallb_Forall. apply Forall_map. eapply Forall_impl; [exact H|]. intros a Ha%Nat.eqb_eq. by apply addr_length.
Qed.

Lemma fits_words l : Forall (fun w => List.length w = 32%nat) (map word l).
Proof. apply Forall_map, Forall_true. intros. apply word_length. Qed.

Lemma words_back l : forallb (fun n => (0 <=? n) && (n <? 2 ^ 256)) l = true -> map SetBytes (map word l) = l.
Proof.
  intros H%forallb_Forall. induction H as [|n l Hn _ IH]; [done|]. cbn. rewrite IH. f_equal. apply SetBytes_word.
  apply andb_true_iff in Hn as [?%Z.leb_le ?%Z.ltb_lt]. lia.
Qed.

Lemma addrs_back l : map (drop 12) (map abi_addr l) = l.
Proof. induction l as [|a l IH]; [done|]. cbn [map]. by rewrite IH, addr_drop. Qed.

(** A dynamic value is found through its head word. *)
Lemma decode_dynamic t v tl (front rest data : bytes) i :
  fits t v = true -> tail_of v = Some tl -> data = front ++ tl ++ rest ->
  uint_at data i = Some (Z.of_nat (List.length front)) -> Z.of_nat (List.length data) < 2 ^ 256 ->
  decode_one data i t = Some v.
Proof.
  intros Hf Ht Hd Hi Hl.
  destruct t, v; try done; cbn [tail_of fits] in *; apply (inj Some) in Ht; subst tl; cbn [decode_one].
  - pose proof (length_chars s) as Hc. unfold padded in Hd.
    rewrite (dynamic_at_app _ _ _ _ _ _ Hd Hi Hl) by (rewrite length_app; lia). cbn.
    rewrite (proj2 (Nat.leb_le _ _)) by (rewrite Hd, !length_app, word_length; lia). do 2 f_equal.
    rewrite Hd, <- !app_assoc, (app_assoc front), Nat2Z.id.
    rewrite slice_app; [apply str_chars|by rewrite length_app, word_length|lia].
  - pose proof (concat_words_length _ (fits_addrs _ Hf)) as Hc. rewrite length_map in Hc.
    rewrite (dynamic_at_app _ _ _ _ _ _ Hd Hi Hl) by lia. cbn. rewrite Hd, <- !app_assoc, (app_assoc front), Nat2Z.id.
    pose proof (words_at_app (map abi_addr l) (front ++ word (Z.of_nat (List.length l))) rest (fits_addrs _ Hf)) as Hw.
    rewrite length_app, word_length, length_map in Hw. rewrite Hw. cbn. by rewrite addrs_back.
  - pose proof (concat_words_length _ (fits_words l)) as Hc. rewrite length_map in Hc.
    rewrite (dynamic_at_app _ _ _ _ _ _ Hd Hi Hl) by lia. cbn. rewrite Hd, <- !app_assoc, (app_assoc front), Nat2Z.id.
    pose proof (words_at_app (map word l) (front ++ word (Z.of_nat (List.length l))) rest (fits_words l)) as Hw.
    rewrite length_app, word_length, length_map in Hw. rewrite Hw. cbn. by rewrite words_back.
Qed.

Lemma be_bytes_mod n v : be_bytes n (v mod 256 ^ Z.of_nat n) = be_bytes n v.
Proof.
  revert v. induction n as [|n IH]; intros v; [done|]. cbn [be_bytes].
  replace (256 ^ Z.of_nat (S n)) with (256 * 256 ^ Z.of_nat n) by (rewrite Nat2Z.inj_succ, Z.pow_succ_r; lia).
  rewrite Z.rem_mul_r by lia. rewrite (Z.mul_comm 256 ((v / 256) mod _)), Z.div_add, Z.mod_add by lia.
  rewrite (Z.div_small (v mod 256)), Z.mod_mod by (try apply Z.mod_pos_bound; lia). by rewrite Z.add_0_l, IH.
Qed.

Lemma to_int256_word n : - 2 ^ 255 <= n < 2 ^ 255 -> to_int256 (SetBytes (word n)) = n.
Proof.
  intros H. assert (word n = word (n mod 2 ^ 256)) as ->.
  { unfold word. by rewrite <- (be_bytes_mod 32 n). }
  rewrite SetBytes_word by (apply Z.mod_pos_bound; lia). unfold to_int256.
  destruct (Z.ltb_spec n 0).
  - rewrite <- (Z.mod_unique n (2 ^ 256) (-1) (n + 2 ^ 256)) by lia. rewrite (proj2 (Z.ltb_ge _ _)) by lia. lia.
  - rewrite Z.mod_small by lia. by rewrite (proj2 (Z.ltb_lt _ _)) by lia.
Qed.

Lemma static_length t v : fits t v = true -> tail_of v = None -> List.length (static_word v) = 32%nat.
Proof. destruct t, v; try done; intros Hf _; apply word_length || (apply addr_length; by apply Nat.eqb_eq). Qed.

Lemma range_true a n b : (a <=? n) && (n <? b) = true -> a <= n < b.
Proof. intros [?%Z.leb_le ?%Z.ltb_lt]%andb_true_iff. lia. Qed.

Lemma decode_static t v (a c : bytes) :
  fits t v = true -> tail_of v = None -> decode_one (a ++ static_word v ++ c) (List.length a) t = Some v.
Proof.
  intros Hf Ht. destruct t, v; try done; cbn [static_word decode_one fits] in *;
    try (apply range_true in Hf; rewrite uint_at_app by lia; cbn; try done; by rewrite (proj2 (Z.ltb_lt _ _)) by lia).
  - apply range_true in Hf. unfold uint_at. rewrite word_at_app by apply word_length. cbn [fmap option_fmap option_map].
    by rewrite to_int256_word.
  - apply Nat.eqb_eq in Hf. rewrite word_at_app by by apply addr_length. done.
  - destruct b; rewrite uint_at_app by lia; done.
Qed.

Lemma heads_length ts : forall vs off, all_fit ts vs = true -> List.length (heads off vs) = (32 * List.length vs)%nat.
Proof.
  induction ts as [|t ts IH]; intros [|v vs] off H; try done. cbn [all_fit] in H. apply andb_true_iff in H as [Hv H].
  cbn [heads List.length]. destruct (tail_of v) as [tl|] eqn:Et; rewrite length_app, (IH _ _ H).
  - rewrite word_length. lia.
  - rewrite (static_length _ _ Hv Et). lia.
Qed.

Lemma decode_heads ts : forall vs (pre mid : bytes) off data,
  all_fit ts vs = true -> data = pre ++ heads off vs ++ mid ++ tails vs ->
  List.length (pre ++ heads off vs ++ mid) = off -> Z.of_nat (List.length data) < 2 ^ 256 ->
  decode_at data (List.length pre) ts = Some vs.
Proof.
  induction ts as [|t ts IH]; intros [|v vs] pre mid off data H Hd Ho Hl; try done. cbn [all_fit] in H.
  apply andb_true_iff in H as [Hv H]. cbn [decode_at]. unfold tails in Hd. cbn [heads map List.concat] in Hd, Ho.
  fold (tails vs) in Hd. destruct (tail_of v) as [tl|] eqn:Et; cbn [default] in Hd.
  - assert (0 <= Z.of_nat off < 2 ^ 256) as Hoff by (rewrite Hd, !length_app in Hl; rewrite !length_app in Ho; lia).
    assert (uint_at data (List.length pre) = Some (Z.of_nat off)) as Hu.
    { rewrite Hd, <- app_assoc. by apply uint_at_app. }
    erewrite (decode_dynamic t v tl (pre ++ (word (Z.of_nat off) ++ heads (off + List.length tl) vs) ++ mid) (tails vs));
      [cbn [mbind option_bind]|done..| |by rewrite Ho|done].
    2: { rewrite Hd, <- !app_assoc. done. }
    assert (List.length (pre ++ word (Z.of_nat off)) = (List.length pre + 32)%nat) as <- by by rewrite length_app, word_length.
    rewrite (IH vs (pre ++ word (Z.of_nat off)) (mid ++ tl) (off + List.length tl)%nat data H); [done| | |done].
    + rewrite Hd, <- !app_assoc. done.
    + rewrite !length_app in *. lia.
  - rewrite Hd at 1. rewrite <- (app_assoc (static_word v)), (decode_static t v) by done. cbn [mbind option_bind].
    assert (List.length (pre ++ static_word v) = (List.length pre + 32)%nat) as <-
      by by rewrite length_app, (static_length t v).
    rewrite (IH vs (pre ++ static_word v) mid off data H); [done| | |done]; [by rewrite Hd, <- !app_assoc|by rewrite <- !app_assoc in *].
Qed.

Lemma decode_encode ts vs :
  all_fit ts vs = true -> Z.of_nat (List.length (abi_encode vs)) < 2 ^ 256 -> decode_at (abi_encode vs) 0 ts = Some vs.
Proof.
  intros H Hl. apply (decode_heads ts vs [] [] (32 * List.length vs)); [done|done| |done].
  rewrite app_nil_r. cbn [app]. by eapply heads_length.
Qed.

(** ** What decodes has the declared types *)

Lemma SetBytes_bound b : SetBytes b < 256 ^ Z.of_nat (List.length b).
Proof.
  induction b as [|c b IH] using rev_ind; [done|]. rewrite SetBytes_snoc, length_app. cbn [List.length].
  rewrite Nat2Z.inj_add, Z.pow_add_r by lia. pose proof (code_bound c). change (256 ^ Z.of_nat 1) with 256. lia.
Qed.

Lemma word_at_length data i w : word_at data i = Some w -> List.length w = 32%nat.
Proof.
  unfold word_at, slice. destruct (Nat.leb_spec (i + 32) (List.length data)); [|done]. intros [= <-].
  rewrite length_take, length_drop. lia.
Qed.

Lemma words_at_length n : forall data i l, words_at data i n = Some l -> Forall (fun w => List.length w = 32%nat) l.
Proof.
  induction n as [|n IH]; intros data i l H; cbn in H; [by injection H as <-|].
  destruct (word_at data i) as [w|] eqn:Ew; [|done]. destruct (words_at _ _ _) as [l'|] eqn:El; [|done].
  injection H as <-. constructor; [by eapply word_at_length|by eapply IH].
Qed.

Lemma uint_at_range data i n : uint_at data i = Some n -> 0 <= n < 2 ^ 256.
Proof.
  unfold uint_at. destruct (word_at data i) as [w|] eqn:Ew; [|done]. intros [= <-]. apply word_at_length in Ew.
  pose proof (SetBytes_bound w) as H. rewrite Ew in H. pose proof (SetBytes_nonneg w). change (256 ^ Z.of_nat 32) with (2 ^ 256) in H. lia.
Qed.

Lemma range_intro a n b : a <= n < b -> (a <=? n) && (n <? b) = true.
Proof. intros H. apply andb_true_iff. split; [apply Z.leb_le|apply Z.ltb_lt]; lia. Qed.

Lemma Forall_forallb {A} (f : A -> bool) l : Forall (fun x => f x = true) l -> forallb f l = true.
Proof. intros H. apply forallb_forall. intros x Hx%list_elem_of_In. by eapply (proj1 (Forall_forall _ _) H). Qed.

Lemma decode_one_fits data i t v : decode_one data i t = Some v -> fits (loose t) v = true.
Proof.
  destruct t; cbn [decode_one loose]; intros H;
    try (destruct (uint_at data i) as [n|] eqn:Eu; [apply uint_at_range in Eu|done]; cbn in H; try case_match; try done;
         injection H as <-; cbn [fits]; apply range_intro; lia).
  - destruct (uint_at data i) as [n|] eqn:Eu; [apply uint_at_range in Eu|done]. injection H as <-. cbn [fits]. apply range_intro.
    unfold to_int256. destruct (Z.ltb_spec n (2 ^ 255)); lia.
  - destruct (word_at data i) as [w|] eqn:Ew; [apply word_at_length in Ew|done]. injection H as <-. cbn [fits].
    apply Nat.eqb_eq. by rewrite length_drop, Ew.
  - destruct (uint_at data i) as [n|]; [|done]. cbn in H. repeat case_match; try done; by injection H as <-.
  - destruct (dynamic_at data i) as [[p n]|]; [|done]. cbn in H. case_match; [|done]. by injection H as <-.
  - destruct (dynamic_at data i) as [[p n]|]; [|done]. cbn in H. destruct (words_at data p n) as [l|] eqn:El; [|done].
    injection H as <-. apply words_at_length in El. cbn [fits]. apply Forall_forallb, Forall_map.
    eapply Forall_impl; [exact El|]. intros w Hw. apply Nat.eqb_eq. by rewrite length_drop, Hw.
  - destruct (dynamic_at data i) as [[p n]|]; [|done]. cbn in H. destruct (words_at data p n) as [l|] eqn:El; [|done].
    injection H as <-. apply words_at_length in El. cbn [fits]. apply Forall_forallb, Forall_map.
    eapply Forall_impl; [exact El|]. intros w Hw. apply range_intro. pose proof (SetBytes_bound w) as Hb. rewrite Hw in Hb.
    pose proof (SetBytes_nonneg w). change (256 ^ Z.of_nat 32) with (2 ^ 256) in Hb. lia.
Qed.

Lemma decode_at_fits ts : forall data i vs, decode_at data i ts = Some vs -> all_fit (map loose ts) vs = true.
Proof.
  induction ts as [|t ts IH]; intros data i vs H; cbn [decode_at] in H; [by injection H as <-|].
  destruct (decode_one data i t) as [v|] eqn:Ev; [|done]. cbn in H.
  destruct (decode_at data (i + 32) ts) as [vs'|] eqn:Es; [|done]. injection H as <-.
  cbn [map all_fit]. by rewrite (decode_one_fits _ _ _ _ Ev), (IH _ _ _ Es).
Qed.

(** ** The specification of the library, and an implementation *)

Class ABISpec (L : ChainLib) (B : ABILib) : Prop := {
  pack_declared : forall j name m args,
    find_method j name = Some m -> all_fit (am_inputs m) args = true ->
    abi_Pack j name args = Ok (selector m ++ abi_encode args);
  pack_selects : forall j name args data,
    abi_Pack j name args = Ok data -> exists m, find_method j name = Some m /\ take 4 data = selector m;
  unpack_encoded : forall j name m vs,
    find_method j name = Some m -> all_fit (am_outputs m) vs = true -> Z.of_nat (List.length (abi_encode vs)) < 2 ^ 256 ->
    abi_Unpack j name (abi_encode vs) = Ok vs;
  unpack_declared : forall j name data vs,
    abi_Unpack j name data = Ok vs -> exists m, find_method j name = Some m /\ all_fit (map loose (am_outputs m)) vs = true;
}.

Definition solidity_abi {L : ChainLib} : ABILib := {|
  abi_Pack := fun j name args =>
    match find_method j name with
    | Some m => if all_fit (am_inputs m) args then Ok (selector m ++ abi_encode args)
                else Err (Errorf "abi: cannot use the arguments of %s" [FStr name])
    | None => Err (Errorf "method '%s' not found" [FStr name])
    end;
  abi_Unpack := fun j name data =>
    match find_method j name with
    | Some m => from_opt (decode_at data 0 (am_outputs m)) (ErrNew "abi: cannot marshal in to go type")
    | None => Err (ErrNew "abi: could not locate named method or event")
    end |}.

(** The hash has at least the four bytes of a selector. *)
Lemma solidity_spec (L : ChainLib) : (forall b, 4 <= List.length (Keccak256 b))%nat -> ABISpec L solidity_abi.
Proof.
  intros HK. constructor; intros j name; cbn [abi_Pack abi_Unpack solidity_abi].
  - intros m args -> ->. reflexivity.
  - intros args data H. destruct (find_method j name) as [m|]; [|done]. exists m. split; [done|].
    destruct (all_fit _ _); [|done]. injection H as <-. apply take_app_length'. unfold selector. rewrite length_take.
    specialize (HK (chars (signature m))). lia.
  - intros m vs -> Hf Hl. by rewrite decode_encode.
  - intros data vs H. destruct (find_method j name) as [m|]; [|done]. exists m. split; [done|].
    destruct (decode_at _ _ _) as [vs'|] eqn:Ed; [|done]. injection H as <-. by eapply decode_at_fits.
Qed.
