(* ===== verification/ABIBindings.v ===== *)
(** * The bindings against the embedded interfaces

    From the specification of the contract ABI in [ABITables] follow the laws the
    other files assume of the library ([ABILaws], [ComptrollerLaws]), with the
    selectors computed by [Keccak]; that every encoder of builder/erc.go,
    builder/uniswap.go, builder/bridge.go, builder/lendora.go and builder/oracle.go
    passes what its interface declares ([contract_call]); and that every decoder
    reads what a contract answers ([contract_read]). *)

From S2P Require Import Prelude GoStrings GoNum GoEncoding ChainLib Assets TxInspect ABI LendoraABI Keccak ABITables.

(** ** Every call of the bindings *)

(** One constructor per encoder of the binding files, with its arguments. *)
Inductive contract_call : Type :=
| CERC20Transfer (to : Address) (n : Z)
| CERC20Approve (to : Address) (n : Z)
| CERC20TransferFrom (from to : Address) (n : Z)
| CERC20Allowance (owner spender : Address)
| CERC20Decimals
| CERC721TransferFrom (from to : Address) (id : Z)
| CERC721SafeTransferFrom (from to : Address) (id : Z)
| CERC721Approve (to : Address) (id : Z)
| CERC721SetApprovalForAll (op : Address) (b : bool)
| CGetAmountsOut (n : Z) (path : list Address)
| CSwapExactTokensForTokens (n m : Z) (path : list Address) (to : Address) (deadline : Z)
| CSwapExactSVPForTokens (m : Z) (path : list Address) (to : Address) (deadline : Z)
| CSwapExactTokensForSVP (n m : Z) (path : list Address) (to : Address) (deadline : Z)
| CSwapApprove (to : Address) (n : Z)
| CSwapAllowance (owner spender : Address)
| CSwapBalanceOf (a : Address)
| CSwapDecimals
| CDeposit (token : Address) (n chain : Z) (target dst : Address)
| CDepositNative (chain : Z) (target dst : Address)
| CMint (n : Z)
| CRedeem (n : Z)
| CRedeemUnderlying (n : Z)
| CBorrow (n : Z)
| CRepayBorrow (n : Z)
| CUnderlying
| CSymbol
| CExchangeRateStored
| CSupplyRatePerBlock
| CBorrowRatePerBlock
| CGetCash
| CTotalBorrows
| CTotalReserves
| CReserveFactorMantissa
| CInterestRateModel
| CCTokenBalanceOf (a : Address)
| CGetAccountSnapshot (a : Address)
| CGetAllMarkets
| CMarkets (a : Address)
| CGetAccountLiquidity (a : Address)
| CGetHypotheticalAccountLiquidity (a c : Address) (redeem borrow : Z)
| CGetAssetsIn (a : Address)
| CCloseFactorMantissa
| CLiquidationIncentiveMantissa
| COracle
| CBorrowCaps (a : Address)
| CMintGuardianPaused (a : Address)
| CBorrowGuardianPaused (a : Address)
| CExitMarket (a : Address)
| CGetUnderlyingPrice (a : Address)
| CEnterMarkets (l : list Address)
| CCTokenToFeed (a : Address)
| CCEtherAddress
| CBlocksPerYear
| CFeedDecimals
| CDescription
| CLatestRoundData.

Definition pack {B : ABILib} (c : contract_call) : result bytes :=
  match c with
  | CERC20Transfer to n => PackERC20Transfer to n
  | CERC20Approve to n => PackERC20Approve to n
  | CERC20TransferFrom from to n => PackERC20TransferFrom from to n
  | CERC20Allowance owner spender => PackERC20Allowance owner spender
  | CERC20Decimals => PackERC20Decimals
  | CERC721TransferFrom from to id => PackERC721TransferFrom from to id
  | CERC721SafeTransferFrom from to id => PackERC721SafeTransferFrom from to id
  | CERC721Approve to id => PackERC721Approve to id
  | CERC721SetApprovalForAll op b => PackERC721SetApprovalForAll op b
  | CGetAmountsOut n path => PackGetAmountsOut n path
  | CSwapExactTokensForTokens n m path to deadline => PackSwapExactTokensForTokens n m path to deadline
  | CSwapExactSVPForTokens m path to deadline => PackSwapExactSVPForTokens m path to deadline
  | CSwapExactTokensForSVP n m path to deadline => PackSwapExactTokensForSVP n m path to deadline
  | CSwapApprove to n => PackApprove to n
  | CSwapAllowance owner spender => PackAllowance owner spender
  | CSwapBalanceOf a => PackBalanceOf a
  | CSwapDecimals => PackDecimals
  | CDeposit token n chain target dst => PackDeposit token n chain target dst
  | CDepositNative chain target dst => PackDepositNative chain target dst
  | CMint n => PackMint n
  | CRedeem n => PackRedeem n
  | CRedeemUnderlying n => PackRedeemUnderlying n
  | CBorrow n => PackBorrow n
  | CRepayBorrow n => PackRepayBorrow n
  | CUnderlying => PackUnderlying
  | CSymbol => PackSymbol
  | CExchangeRateStored => PackExchangeRateStored
  | CSupplyRatePerBlock => PackSupplyRatePerBlock
  | CBorrowRatePerBlock => PackBorrowRatePerBlock
  | CGetCash => PackGetCash
  | CTotalBorrows => PackTotalBorrows
  | CTotalReserves => PackTotalReserves
  | CReserveFactorMantissa => PackReserveFactorMantissa
  | CInterestRateModel => PackInterestRateModel
  | CCTokenBalanceOf a => PackCTokenBalanceOf a
  | CGetAccountSnapshot a => PackGetAccountSnapshot a
  | CGetAllMarkets => PackGetAllMarkets
  | CMarkets a => PackMarkets a
  | CGetAccountLiquidity a => PackGetAccountLiquidity a
  | CGetHypotheticalAccountLiquidity a c redeem borrow => PackGetHypotheticalAccountLiquidity a c redeem borrow
  | CGetAssetsIn a => PackGetAssetsIn a
  | CCloseFactorMantissa => PackCloseFactorMantissa
  | CLiquidationIncentiveMantissa => PackLiquidationIncentiveMantissa
  | COracle => PackOracle
  | CBorrowCaps a => PackBorrowCaps a
  | CMintGuardianPaused a => PackMintGuardianPaused a
  | CBorrowGuardianPaused a => PackBorrowGuardianPaused a
  | CExitMarket a => PackExitMarket a
  | CGetUnderlyingPrice a => PackGetUnderlyingPrice a
  | CEnterMarkets l => PackEnterMarkets l
  | CCTokenToFeed a => PackCTokenToFeed a
  | CCEtherAddress => PackCEtherAddress
  | CBlocksPerYear => PackBlocksPerYear
  | CFeedDecimals => PackFeedDecimals
  | CDescription => PackDescription
  | CLatestRoundData => PackLatestRoundData
  end.

(** The signature of the method in the contract standards (ERC-20, ERC-721, the
    Uniswap V2 router with the native coin renamed, the bridge, Compound V2,
    AggregatorV3), and the values in its order. *)
Definition call_signature (c : contract_call) : string :=
  match c with
  | CERC20Transfer _ _ => "transfer(address,uint256)"
  | CERC20Approve _ _ => "approve(address,uint256)"
  | CERC20TransferFrom _ _ _ => "transferFrom(address,address,uint256)"
  | CERC20Allowance _ _ => "allowance(address,address)"
  | CERC20Decimals => "decimals()"
  | CERC721TransferFrom _ _ _ => "transferFrom(address,address,uint256)"
  | CERC721SafeTransferFrom _ _ _ => "safeTransferFrom(address,address,uint256)"
  | CERC721Approve _ _ => "approve(address,uint256)"
  | CERC721SetApprovalForAll _ _ => "setApprovalForAll(address,bool)"
  | CGetAmountsOut _ _ => "getAmountsOut(uint256,address[])"
  | CSwapExactTokensForTokens _ _ _ _ _ => "swapExactTokensForTokens(uint256,uint256,address[],address,uint256)"
  | CSwapExactSVPForTokens _ _ _ _ => "swapExactSVPForTokens(uint256,address[],address,uint256)"
  | CSwapExactTokensForSVP _ _ _ _ _ => "swapExactTokensForSVP(uint256,uint256,address[],address,uint256)"
  | CSwapApprove _ _ => "approve(address,uint256)"
  | CSwapAllowance _ _ => "allowance(address,address)"
  | CSwapBalanceOf _ => "balanceOf(address)"
  | CSwapDecimals => "decimals()"
  | CDeposit _ _ _ _ _ => "deposit(address,uint256,uint64,address,address)"
  | CDepositNative _ _ _ => "depositNative(uint64,address,address)"
  | CMint _ => "mint(uint256)"
  | CRedeem _ => "redeem(uint256)"
  | CRedeemUnderlying _ => "redeemUnderlying(uint256)"
  | CBorrow _ => "borrow(uint256)"
  | CRepayBorrow _ => "repayBorrow(uint256)"
  | CUnderlying => "underlying()"
  | CSymbol => "symbol()"
  | CExchangeRateStored => "exchangeRateStored()"
  | CSupplyRatePerBlock => "supplyRatePerBlock()"
  | CBorrowRatePerBlock => "borrowRatePerBlock()"
  | CGetCash => "getCash()"
  | CTotalBorrows => "totalBorrows()"
  | CTotalReserves => "totalReserves()"
  | CReserveFactorMantissa => "reserveFactorMantissa()"
  | CInterestRateModel => "interestRateModel()"
  | CCTokenBalanceOf _ => "balanceOf(address)"
  | CGetAccountSnapshot _ => "getAccountSnapshot(address)"
  | CGetAllMarkets => "getAllMarkets()"
  | CMarkets _ => "markets(address)"
  | CGetAccountLiquidity _ => "getAccountLiquidity(address)"
  | CGetHypotheticalAccountLiquidity _ _ _ _ => "getHypotheticalAccountLiquidity(address,address,uint256,uint256)"
  | CGetAssetsIn _ => "getAssetsIn(address)"
  | CCloseFactorMantissa => "closeFactorMantissa()"
  | CLiquidationIncentiveMantissa => "liquidationIncentiveMantissa()"
  | COracle => "oracle()"
  | CBorrowCaps _ => "borrowCaps(address)"
  | CMintGuardianPaused _ => "mintGuardianPaused(address)"
  | CBorrowGuardianPaused _ => "borrowGuardianPaused(address)"
  | CExitMarket _ => "exitMarket(address)"
  | CGetUnderlyingPrice _ => "getUnderlyingPrice(address)"
  | CEnterMarkets _ => "enterMarkets(address[])"
  | CCTokenToFeed _ => "cTokenToFeed(address)"
  | CCEtherAddress => "cEtherAddress()"
  | CBlocksPerYear => "blocksPerYear()"
  | CFeedDecimals => "decimals()"
  | CDescription => "description()"
  | CLatestRoundData => "latestRoundData()"
  end.

Definition call_args (c : contract_call) : list abi_value :=
  match c with
  | CERC20Transfer to n => [AAddr to; ABig n]
  | CERC20Approve to n => [AAddr to; ABig n]
  | CERC20TransferFrom from to n => [AAddr from; AAddr to; ABig n]
  | CERC20Allowance owner spender => [AAddr owner; AAddr spender]
  | CERC20Decimals => []
  | CERC721TransferFrom from to id => [AAddr from; AAddr to; ABig id]
  | CERC721SafeTransferFrom from to id => [AAddr from; AAddr to; ABig id]
  | CERC721Approve to id => [AAddr to; ABig id]
  | CERC721SetApprovalForAll op b => [AAddr op; ABool b]
  | CGetAmountsOut n path => [ABig n; AAddrs path]
  | CSwapExactTokensForTokens n m path to deadline => [ABig n; ABig m; AAddrs path; AAddr to; ABig deadline]
  | CSwapExactSVPForTokens m path to deadline => [ABig m; AAddrs path; AAddr to; ABig deadline]
  | CSwapExactTokensForSVP n m path to deadline => [ABig n; ABig m; AAddrs path; AAddr to; ABig deadline]
  | CSwapApprove to n => [AAddr to; ABig n]
  | CSwapAllowance owner spender => [AAddr owner; AAddr spender]
  | CSwapBalanceOf a => [AAddr a]
  | CSwapDecimals => []
  | CDeposit token n chain target dst => [AAddr token; ABig n; AUint64 chain; AAddr target; AAddr dst]
  | CDepositNative chain target dst => [AUint64 chain; AAddr target; AAddr dst]
  | CMint n => [ABig n]
  | CRedeem n => [ABig n]
  | CRedeemUnderlying n => [ABig n]
  | CBorrow n => [ABig n]
  | CRepayBorrow n => [ABig n]
  | CUnderlying => []
  | CSymbol => []
  | CExchangeRateStored => []
  | CSupplyRatePerBlock => []
  | CBorrowRatePerBlock => []
  | CGetCash => []
  | CTotalBorrows => []
  | CTotalReserves => []
  | CReserveFactorMantissa => []
  | CInterestRateModel => []
  | CCTokenBalanceOf a => [AAddr a]
  | CGetAccountSnapshot a => [AAddr a]
  | CGetAllMarkets => []
  | CMarkets a => [AAddr a]
  | CGetAccountLiquidity a => [AAddr a]
  | CGetHypotheticalAccountLiquidity a c redeem borrow => [AAddr a; AAddr c; ABig redeem; ABig borrow]
  | CGetAssetsIn a => [AAddr a]
  | CCloseFactorMantissa => []
  | CLiquidationIncentiveMantissa => []
  | COracle => []
  | CBorrowCaps a => [AAddr a]
  | CMintGuardianPaused a => [AAddr a]
  | CBorrowGuardianPaused a => [AAddr a]
  | CExitMarket a => [AAddr a]
  | CGetUnderlyingPrice a => [AAddr a]
  | CEnterMarkets l => [AAddrs l]
  | CCTokenToFeed a => [AAddr a]
  | CCEtherAddress => []
  | CBlocksPerYear => []
  | CFeedDecimals => []
  | CDescription => []
  | CLatestRoundData => []
  end.

(** Addresses of twenty bytes, numbers in the range of a word, chain ids of 64
    bits. *)
Definition value_ok (v : abi_value) : bool :=
  match v with
  | AAddr a => Nat.eqb (List.length a) 20
  | ABig n => (0 <=? n) && (n <? 2 ^ 256)
  | AUint64 n => (0 <=? n) && (n <? 2 ^ 64)
  | AUint8 n => (0 <=? n) && (n <? 256)
  | ABool _ | AStr _ => true
  | AAddrs l => forallb (fun a => Nat.eqb (List.length a) 20) l
  | ABigs l => forallb (fun n => (0 <=? n) && (n <? 2 ^ 256)) l
  end.

Lemma call_declared {B : ABILib} c :
  exists j name m, pack c = abi_Pack j name (call_args c) /\ find_method j name = Some m
  /\ signature m = call_signature c /\ all_fit (am_inputs m) (call_args c) = forallb value_ok (call_args c).
Proof. destruct c; do 3 eexists; (split; [reflexivity|]); (split; [reflexivity|]); split; reflexivity. Qed.

(** ** Decoders *)

Section Decoders.
Context {L : ChainLib} {B : ABILib} {S : ABISpec L B}.

Definition returns (j : abi_json) (name : string) (ts : list abi_type) : Prop :=
  am_outputs <$> find_method j name = Some ts.

Lemma unpack_answer j name ts vs :
  returns j name ts -> all_fit ts vs = true -> Z.of_nat (List.length (abi_encode vs)) < 2 ^ 256 ->
  abi_Unpack j name (abi_encode vs) = Ok vs.
Proof.
  unfold returns. destruct (find_method j name) as [m|] eqn:Em; [|done]. intros [= <-] Hf Hl. by eapply unpack_encoded.
Qed.

(** An answer of static values is one word each. *)
Lemma static_answer_length ts vs :
  all_fit ts vs = true -> forallb (fun t => negb (dynamic t)) ts = true -> (List.length ts < 1000)%nat ->
  Z.of_nat (List.length (abi_encode vs)) < 2 ^ 256.
Proof.
  intros H Hs Hn. unfold abi_encode. rewrite length_app, (heads_length ts) by done.
  assert (tails vs = [] /\ List.length vs = List.length ts) as [-> ->].
  { clear Hn. revert vs H Hs. induction ts as [|t ts IH]; intros [|v vs] H Hs; try done.
    cbn [all_fit forallb] in H, Hs. apply andb_true_iff in H as [Hv H]. apply andb_true_iff in Hs as [Ht Hs].
    destruct (IH vs H Hs) as [E1 E2]. unfold tails in *. cbn [map List.concat]. rewrite E1.
    split; [|cbn; lia]. by destruct t, v. }
  cbn [List.length]. lia.
Qed.

Lemma unpack_static j name ts vs :
  returns j name ts -> all_fit ts vs = true -> forallb (fun t => negb (dynamic t)) ts = true -> (List.length ts < 1000)%nat ->
  abi_Unpack j name (abi_encode vs) = Ok vs.
Proof. intros Hr Hf Hs Hn. eapply unpack_answer; [done..|]. by eapply static_answer_length. Qed.

(** A library failure is passed on; there is no other. *)
Lemma unpack_shape j name ts data vs :
  returns j name ts -> abi_Unpack j name data = Ok vs -> all_fit (map loose ts) vs = true.
Proof.
  unfold returns. intros Hr H. apply unpack_declared in H as (m & Em & Hf). rewrite Em in Hr. by injection Hr as <-.
Qed.

End Decoders.

(** ** Every answer the bindings decode *)

Inductive contract_read : Type :=
| RERC20Allowance | RERC20Decimals | RAmounts | RAllowance | RBalanceOf | RDecimals
| RUnderlying | RSymbol | RCTokenUint (method : string) | RInterestRateModel | RCTokenBalanceOf | RSnapshot
| RAllMarkets | RMarkets | RLiquidity (method : string) | RAssetsIn | RComptrollerUint (method : string) | ROracle
| RComptrollerBool (method : string) | ROracleUint (method : string) | ROracleAddress (method : string) | RBlocksPerYear
| RFeedDecimals | RDescription | RLatestRound.

Inductive answer : Type :=
| NUint (n : Z) | NUints (l : list Z) | NAddr (a : Address) | NAddrs (l : list Address) | NBool (b : bool) | NStr (s : string)
| NSnapshot (x : AccountSnapshot) | NMarket (x : MarketInfo) | NLiquidity (x : AccountLiquidity) | NRound (x : OracleRoundData).

Definition unpack {B : ABILib} (r : contract_read) (data : bytes) : result answer :=
  match r with
  | RERC20Allowance => NUint <$> UnpackERC20Allowance data
  | RERC20Decimals => NUint <$> UnpackERC20Decimals data
  | RAmounts => NUints <$> UnpackAmounts data
  | RAllowance => NUint <$> UnpackAllowance data
  | RBalanceOf => NUint <$> UnpackBalanceOf data
  | RDecimals => NUint <$> UnpackDecimals data
  | RUnderlying => NAddr <$> UnpackUnderlying data
  | RSymbol => NStr <$> UnpackSymbol data
  | RCTokenUint m => NUint <$> UnpackCTokenUint m data
  | RInterestRateModel => NAddr <$> UnpackInterestRateModel data
  | RCTokenBalanceOf => NUint <$> UnpackCTokenBalanceOf data
  | RSnapshot => NSnapshot <$> UnpackGetAccountSnapshot data
  | RAllMarkets => NAddrs <$> UnpackGetAllMarkets data
  | RMarkets => NMarket <$> UnpackMarkets data
  | RLiquidity m => NLiquidity <$> UnpackAccountLiquidity m data
  | RAssetsIn => NAddrs <$> UnpackGetAssetsIn data
  | RComptrollerUint m => NUint <$> UnpackComptrollerUint m data
  | ROracle => NAddr <$> UnpackOracle data
  | RComptrollerBool m => NBool <$> UnpackComptrollerBool m data
  | ROracleUint m => NUint <$> UnpackOracleUint m data
  | ROracleAddress m => NAddr <$> UnpackOracleAddress m data
  | RBlocksPerYear => NUint <$> UnpackBlocksPerYear data
  | RFeedDecimals => NUint <$> UnpackFeedDecimals data
  | RDescription => NStr <$> UnpackDescription data
  | RLatestRound => NRound <$> UnpackLatestRoundData data
  end.

(** The interface and the method a decoder is for, and the results it expects. *)
Definition read_method (r : contract_read) : abi_json * string :=
  match r with
  | RERC20Allowance => (ercTransferERC20ABI, "allowance") | RERC20Decimals => (ercTransferERC20ABI, "decimals")
  | RAmounts => (uniswapV2RouterABI, "getAmountsOut")
  | RAllowance => (erc20ABI, "allowance") | RBalanceOf => (erc20ABI, "balanceOf") | RDecimals => (erc20ABI, "decimals")
  | RUnderlying => (lendoraCTokenABI, "underlying") | RSymbol => (lendoraCTokenABI, "symbol")
  | RCTokenUint m => (lendoraCTokenABI, m) | RInterestRateModel => (lendoraCTokenABI, "interestRateModel")
  | RCTokenBalanceOf => (lendoraCTokenABI, "balanceOf") | RSnapshot => (lendoraCTokenABI, "getAccountSnapshot")
  | RAllMarkets => (lendoraComptrollerABI, "getAllMarkets") | RMarkets => (lendoraComptrollerABI, "markets")
  | RLiquidity m => (lendoraComptrollerABI, m) | RAssetsIn => (lendoraComptrollerABI, "getAssetsIn")
  | RComptrollerUint m => (lendoraComptrollerABI, m) | ROracle => (lendoraComptrollerABI, "oracle")
  | RComptrollerBool m => (lendoraComptrollerABI, m)
  | ROracleUint m | ROracleAddress m => (lendoraOracleABI, m)
  | RBlocksPerYear => (lendoraIRMABI, "blocksPerYear")
  | RFeedDecimals => (oracleFeedABI, "decimals") | RDescription => (oracleFeedABI, "description")
  | RLatestRound => (oracleFeedABI, "latestRoundData")
  end%string.

Definition read_types (r : contract_read) : list abi_type :=
  match r with
  | RERC20Decimals | RDecimals | RFeedDecimals => [Tuint8]
  | RAmounts => [Tuint256s]
  | RUnderlying | RInterestRateModel | ROracle | ROracleAddress _ => [Taddress]
  | RSymbol | RDescription => [Tstring]
  | RSnapshot => [Tuint256; Tuint256; Tuint256; Tuint256]
  | RAllMarkets | RAssetsIn => [Taddresses]
  | RMarkets => [Tbool; Tuint256; Tbool]
  | RLiquidity _ => [Tuint256; Tuint256; Tuint256]
  | RComptrollerBool _ => [Tbool]
  | RLatestRound => [Tuint80; Tint256; Tuint256; Tuint256; Tuint80]
  | _ => [Tuint256]
  end.

(** The interface declares the method with these results. *)
Definition read_declared (r : contract_read) : Prop :=
  am_outputs <$> find_method (fst (read_method r)) (snd (read_method r)) = Some (read_types r).

(** The reads the server makes, by decoder and method name. *)
Definition used_reads : list contract_read :=
  [RERC20Allowance; RERC20Decimals; RAmounts; RAllowance; RBalanceOf; RDecimals; RUnderlying; RSymbol;
   RInterestRateModel; RCTokenBalanceOf; RSnapshot; RAllMarkets; RMarkets; RAssetsIn; ROracle; RBlocksPerYear;
   RFeedDecimals; RDescription; RLatestRound]
  ++ map RCTokenUint ["exchangeRateStored"; "supplyRatePerBlock"; "borrowRatePerBlock"; "getCash"; "totalBorrows";
                      "totalReserves"; "reserveFactorMantissa"]%string
  ++ map RLiquidity ["getAccountLiquidity"; "getHypotheticalAccountLiquidity"]%string
  ++ map RComptrollerUint ["closeFactorMantissa"; "liquidationIncentiveMantissa"; "borrowCaps"]%string
  ++ map RComptrollerBool ["mintGuardianPaused"; "borrowGuardianPaused"]%string
  ++ [ROracleUint "getUnderlyingPrice"; ROracleAddress "cTokenToFeed"; ROracleAddress "cEtherAddress"].

Lemma used_reads_declared : Forall read_declared used_reads.
Proof. unfold used_reads. repeat constructor. Qed.

(** What the values a contract returned mean: a Compound error code is an error,
    and so is a quote of no amounts. *)
Definition meaning (r : contract_read) (vs : list abi_value) : result answer :=
  match r, vs with
  | RAmounts, [ABigs (n :: l)] => Ok (NUints (n :: l))
  | RAmounts, [ABigs []] => Err (Errorf "getAmountsOut returned an unexpected shape" [])
  | RSnapshot, [ABig code; ABig bal; ABig borrow; ABig rate] =>
      if code =? 0 then Ok (NSnapshot (mkAccountSnapshot bal borrow rate))
      else Err (Errorf "getAccountSnapshot returned error code %s" [FStr (FormatInt code)])
  | RLiquidity m, [ABig code; ABig liq; ABig short] =>
      if code =? 0 then Ok (NLiquidity (mkAccountLiquidity liq short))
      else Err (Errorf "%s returned error code %s" [FStr m; FStr (FormatInt code)])
  | RMarkets, [ABool listed; ABig cf; ABool comped] => Ok (NMarket (mkMarketInfo listed cf comped))
  | RLatestRound, [ABig id; ABig ans; _; ABig at_; _] => Ok (NRound (mkOracleRoundData id ans at_))
  | RDescription, [AStr s] => Ok (NStr (TrimSpace s))
  | _, [ABig n] => Ok (NUint n)
  | _, [AUint8 n] => Ok (NUint n)
  | _, [AAddr a] => Ok (NAddr a)
  | _, [AAddrs l] => Ok (NAddrs l)
  | _, [ABool b] => Ok (NBool b)
  | _, [AStr s] => Ok (NStr s)
  | _, _ => Err (Panic "unreachable")
  end.

(** A nonzero Compound error code, or an empty quote. *)
Definition refused (r : contract_read) (vs : list abi_value) : Prop :=
  match r, vs with
  | RAmounts, [ABigs []] => True
  | (RSnapshot | RLiquidity _), ABig code :: _ => code <> 0
  | _, _ => False
  end.

Lemma all_fit_nil vs : all_fit [] vs = true -> vs = [].
Proof. by destruct vs. Qed.
Lemma all_fit_cons t ts vs :
  all_fit (t :: ts) vs = true -> exists v vs', vs = v :: vs' /\ fits t v = true /\ all_fit ts vs' = true.
Proof. destruct vs as [|v vs]; [done|]. intros [? ?]%andb_true_iff. by exists v, vs. Qed.

(** Values of declared types, constructor by constructor. *)
Ltac fit_inv H :=
  lazymatch type of H with
  | all_fit [] _ = true => apply all_fit_nil in H; subst
  | all_fit (_ :: _) _ = true =>
      let v := fresh "v" in let H1 := fresh "Hv" in
      apply all_fit_cons in H as (v & ? & -> & H1 & H); destruct v; try discriminate H1; fit_inv H
  end.

Lemma sgn_code code : negb (Z.sgn code =? 0) = negb (code =? 0).
Proof. by destruct code. Qed.

Ltac unfold_unpack :=
  unfold UnpackERC20Allowance, UnpackERC20Decimals, UnpackAmounts, UnpackAllowance, UnpackBalanceOf, UnpackDecimals,
    UnpackUnderlying, UnpackSymbol, UnpackCTokenUint, UnpackInterestRateModel, UnpackCTokenBalanceOf, UnpackGetAccountSnapshot,
    UnpackGetAllMarkets, UnpackMarkets, UnpackAccountLiquidity, UnpackGetAssetsIn, UnpackComptrollerUint, UnpackOracle,
    UnpackComptrollerBool, UnpackOracleUint, UnpackOracleAddress, UnpackBlocksPerYear, UnpackFeedDecimals, UnpackDescription,
    UnpackLatestRoundData, abiUnpackUint, abiUnpackAddress, abiUnpackAddresses, abiUnpackBool, abiUnpackString, unpack_first.

Lemma unpack_meaning {B : ABILib} r data vs :
  abi_Unpack (fst (read_method r)) (snd (read_method r)) data = Ok vs -> all_fit (map loose (read_types r)) vs = true ->
  unpack r data = meaning r vs.
Proof.
  destruct r; cbn [read_method fst snd read_types map loose]; intros Hu Hf; fit_inv Hf; cbn [unpack];
    unfold_unpack;
    rewrite Hu; cbn [wrap mbind result_bind as_big as_uint8 to_big to_bool]; rewrite ?sgn_code; try reflexivity.
  - by destruct l.
  - cbn [meaning]. by destruct (n =? 0).
  - cbn [meaning]. by destruct (n =? 0).
Qed.

Lemma unpack_fails {B : ABILib} r data e :
  abi_Unpack (fst (read_method r)) (snd (read_method r)) data = Err e ->
  exists format args, unpack r data = Err (Errorf format (args ++ [FErr e])).
Proof.
  destruct r; cbn [read_method fst snd unpack]; intros Hu; unfold_unpack; rewrite Hu; cbn [wrap mbind result_bind];
    first [by eexists _, []|by eexists _, [_]].
Qed.

Lemma meaning_total r vs :
  all_fit (map loose (read_types r)) vs = true -> (exists a, meaning r vs = Ok a) \/ refused r vs.
Proof.
  destruct r; cbn [read_types map loose]; intros Hf; fit_inv Hf; cbn [meaning refused]; try (left; by eexists).
  - destruct l; [by right|left; by eexists].
  - destruct (Z.eqb_spec n 0); [left; by eexists|by right].
  - destruct (Z.eqb_spec n 0); [left; by eexists|by right].
Qed.

Lemma fits_loose t v : fits t v = true -> fits (loose t) v = true.
Proof. destruct t, v; try done. cbn [fits loose]. intros H%range_true. apply range_intro. lia. Qed.

Lemma all_fit_loose ts : forall vs, all_fit ts vs = true -> all_fit (map loose ts) vs = true.
Proof.
  induction ts as [|t ts IH]; intros [|v vs] H; try done. cbn [map all_fit] in *.
  apply andb_true_iff in H as [Hv H]. by rewrite (fits_loose _ _ Hv), (IH _ H).
Qed.

(** ** The library with the hash computed *)

Definition with_keccak (L : ChainLib) : ChainLib := {|
  AssetUsdc_Id := @AssetUsdc_Id L; UusdcDenom := @UusdcDenom L; OrderIdFlags_ShortTerm :=
  @OrderIdFlags_ShortTerm L; OrderIdFlags_Conditional := @OrderIdFlags_Conditional L; OrderIdFlags_LongTerm :=
  @OrderIdFlags_LongTerm L; IsShortTermOrder := @IsShortTermOrder L; ValidateBasic := @ValidateBasic L;
  NewAnyWithValue := @NewAnyWithValue L; MarshalTxBody := @MarshalTxBody L; MarshalSignDoc := @MarshalSignDoc
  L; UnmarshalTxRaw := @UnmarshalTxRaw L; UnmarshalTxBody := @UnmarshalTxBody L; UnmarshalAuthInfo :=
  @UnmarshalAuthInfo L; UnpackMsg := @UnpackMsg L; PubKey := @PubKey L; UnpackPubKey := @UnpackPubKey L;
  PubKey_Address := @PubKey_Address L; AccAddress_String := @AccAddress_String L; AccAddressFromBech32 :=
  @AccAddressFromBech32 L; ValidateDenom := @ValidateDenom L; Coin_IsValid := @Coin_IsValid L; Coin_IsPositive
  := @Coin_IsPositive L; NewCoins := @NewCoins L; Keccak256 := keccak256; EthPubKey := @EthPubKey L; SigToPub
  := @SigToPub L; PubkeyToAddress := @PubkeyToAddress L; BytesToAddress := @BytesToAddress L; IsHexAddress :=
  @IsHexAddress L; HexToAddress := @HexToAddress L; Address_Hex := @Address_Hex L; hexutil_Decode :=
  @hexutil_Decode L; hexutil_Encode := @hexutil_Encode L; EthTx_UnmarshalBinary := @EthTx_UnmarshalBinary L;
  EthTx_Sender := @EthTx_Sender L |}.

Lemma concat_length8 l : List.length (List.concat (map (le_bytes 8) l)) = (8 * List.length l)%nat.
Proof.
  induction l as [|v l IH]; [done|]. cbn [map List.concat]. rewrite length_app, IH. cbn [List.length le_bytes]. lia.
Qed.

Lemma absorb_length a b : List.length (absorb a b) = 25%nat.
Proof. done. Qed.

Lemma keccak256_length b : List.length (keccak256 b) = 32%nat.
Proof.
  unfold keccak256. cbv zeta. rewrite concat_length8, length_take.
  assert (forall l a, List.length a = 25%nat -> List.length (foldl absorb a l) = 25%nat) as ->; [|done..].
  induction l as [|x l IH]; intros a Ha; [done|]. cbn [foldl]. apply IH, absorb_length.
Qed.

Lemma solidity_keccak (L : ChainLib) : ABISpec (with_keccak L) (solidity_abi (L := with_keccak L)).
Proof. apply solidity_spec. intros b. cbn [Keccak256 with_keccak]. rewrite keccak256_length. lia. Qed.

Lemma unsigned_nonneg ts v : forall vs,
  all_fit ts vs = true -> forallb (fun t => match t with Tint256 => false | _ => true end) ts = true ->
  ABig v ∈ vs -> 0 <= v.
Proof.
  induction ts as [|t ts IH]; intros [|w vs] Hf Ht Hin; try done; [by apply elem_of_nil in Hin|].
  cbn [all_fit forallb] in Hf, Ht. apply andb_true_iff in Hf as [Hw Hf]. apply andb_true_iff in Ht as [Htt Ht].
  apply elem_of_cons in Hin as [<-|Hin]; [|by eapply IH]. destruct t; try done; apply range_true in Hw; lia.
Qed.

Lemma find_method_in j name m : find_method j name = Some m -> In m (methods j).
Proof. intros H. by apply find_some in H as [? _]. Qed.

Lemma comptroller_unsigned m :
  In m (methods lendoraComptrollerABI) ->
  forallb (fun t => match t with Tint256 => false | _ => true end) (map loose (am_outputs m)) = true.
Proof. revert m. apply List.Forall_forall. repeat constructor. Qed.

Section Laws.
Context {L : ChainLib} {B : ABILib} {S : ABISpec L B} (K : forall b, Keccak256 b = keccak256 b).

Lemma selector_computed m : selector m = take 4 (keccak256 (chars (signature m))).
Proof. unfold selector. by rewrite K. Qed.

Lemma spec_laws : ABILaws B.
Proof.
  constructor.
  - intros dst n Hd Hn. erewrite pack_declared; [|reflexivity|].
    + rewrite selector_computed. unfold call_transfer, abi_encode. cbn [heads tail_of static_word tails map List.concat default].
      rewrite !app_nil_r. do 2 f_equal; vm_compute; reflexivity.
    + cbn [all_fit am_inputs fits]. by rewrite Hd, range_intro.
  - intros src dst n Hs Hd Hn. erewrite pack_declared; [|reflexivity|].
    + rewrite selector_computed. unfold call_transferFrom, abi_encode. cbn [heads tail_of static_word tails map List.concat default].
      rewrite !app_nil_r. do 2 f_equal; vm_compute; reflexivity.
    + cbn [all_fit am_inputs fits]. by rewrite Hs, Hd, range_intro.
  - intros args data H. apply pack_selects in H as (m & Hm & ->). injection Hm as <-. rewrite selector_computed.
    vm_compute. reflexivity.
  - intros j m data v l H. apply unpack_declared in H as (am & _ & Hf). destruct (map loose (am_outputs am)) as [|t ts]; [done|].
    cbn [all_fit] in Hf. apply andb_true_iff in Hf as [Hv _]. destruct t; try done. by apply range_true in Hv.
Qed.

Lemma spec_comptroller : ComptrollerLaws B.
Proof.
  constructor. intros m data out v H Hin. apply unpack_declared in H as (am & Hm & Hf).
  eapply unsigned_nonneg; [exact Hf|by eapply comptroller_unsigned, find_method_in|exact Hin].
Qed.

End Laws.

(** ** Claims *)

(** The encoding assumed of the contract library is the documented one.  Any
    implementation of the contract ABI over the Keccak hash satisfies every law
    the other theorems assume of it: the data of an ERC-20 transfer are the ones
    the broadcast check decodes, an approval is told apart from both, a decoded
    uint8 and the Comptroller's numbers are in range; and the two selectors the
    check compares with are the first four bytes of the hash of the signatures of
    the calls transfer and transferFrom. *)
Theorem abi_laws_hold {L : ChainLib} {B : ABILib} (S : ABISpec L B) (K : forall b, Keccak256 b = keccak256 b) :
  ABILaws B /\ ComptrollerLaws B
  /\ (forall to n, selERC20Transfer = take 4 (keccak256 (chars (call_signature (CERC20Transfer to n)))))
  /\ (forall from to n, selERC20TransferFrom = take 4 (keccak256 (chars (call_signature (CERC20TransferFrom from to n))))).
Proof.
  split; [by apply spec_laws|]. split; [by apply spec_comptroller|]. split; intros; vm_compute; reflexivity.
Qed.

Lemma abi_laws_hold_witness : ABILaws (solidity_abi (L := with_keccak demo_lib)).
Proof.
  exact (proj1 (abi_laws_hold (L := with_keccak demo_lib) (B := solidity_abi (L := with_keccak demo_lib)) (solidity_keccak demo_lib) (fun b => eq_refl))).
Defined.

(** C28: every call is encoded as its contract expects.  Each of the 56 encoders
    of the binding layer, on addresses of twenty bytes and numbers in range,
    names a method its embedded interface declares and passes it arguments of the
    declared types, so it never fails, and the data are the selector of the
    method's signature followed by the encoding of the arguments in the method's
    order. *)
Theorem bindings_encode {L : ChainLib} {B : ABILib} (S : ABISpec L B) (c : contract_call)
    (Hc : forallb value_ok (call_args c) = true) :
  pack c = Ok (take 4 (Keccak256 (chars (call_signature c))) ++ abi_encode (call_args c)).
Proof.
  destruct (call_declared c) as (j & name & m & -> & Hm & <- & Hf). apply pack_declared; [done|]. by rewrite Hf.
Qed.

Lemma bindings_encode_witness :
  pack (B := solidity_abi (L := with_keccak demo_lib)) (CMint 1000)
  = Ok (map chr [0xa0; 0x71; 0x2d; 0x68] ++ be_bytes 32 1000).
Proof.
  rewrite (bindings_encode (L := with_keccak demo_lib) (B := solidity_abi (L := with_keccak demo_lib)) (solidity_keccak demo_lib) (CMint 1000) eq_refl).
  vm_compute. reflexivity.
Defined.

(** C29: what a contract answers is what the server reads.  For every decoder the
    server uses, the encoding of results of the declared types decodes to what
    they mean (an error code of the money market and an empty quote are the
    documented errors); and whatever bytes a node returns, the decoder either
    passes on the library's error or yields the meaning of results of the declared
    types: the assertions on their shape cannot fail and no index is out of
    range. *)
Theorem answers_decode {L : ChainLib} {B : ABILib} (S : ABISpec L B) (r : contract_read) (Hr : r ∈ used_reads) :
  (forall vs, all_fit (read_types r) vs = true -> Z.of_nat (List.length (abi_encode vs)) < 2 ^ 256 ->
     unpack r (abi_encode vs) = meaning r vs)
  /\ (forall data vs, abi_Unpack (fst (read_method r)) (snd (read_method r)) data = Ok vs ->
        unpack r data = meaning r vs /\ ((exists a, meaning r vs = Ok a) \/ refused r vs))
  /\ (forall data e, abi_Unpack (fst (read_method r)) (snd (read_method r)) data = Err e ->
        exists format args, unpack r data = Err (Errorf format (args ++ [FErr e]))).
Proof.
  assert (read_declared r) as Hd by (eapply Forall_forall; [apply used_reads_declared|exact Hr]).
  split; [|split].
  - intros vs Hf Hl. apply unpack_meaning; [|by apply all_fit_loose]. by eapply unpack_answer.
  - intros data vs Hu. pose proof (unpack_shape _ _ _ _ _ Hd Hu) as Hf. split; [by apply unpack_meaning|by apply meaning_total].
  - intros data e. apply unpack_fails.
Qed.

Lemma answers_decode_witness :
  unpack (B := solidity_abi (L := with_keccak demo_lib)) RLatestRound
    (abi_encode [ABig 7; ABig (-250); ABig 1700000000; ABig 1700000001; ABig 7])
  = Ok (NRound (mkOracleRoundData 7 (-250) 1700000001)).
Proof.
  apply (proj1 (answers_decode (L := with_keccak demo_lib) (B := solidity_abi (L := with_keccak demo_lib)) (solidity_keccak demo_lib) RLatestRound
    ltac:(unfold used_reads; set_solver))); [reflexivity|vm_compute; reflexivity].
Defined.
