(* ===== verification/LendoraCache.v ===== *)
(** * The money-market cache (lendora/cache.go)

    [Module lendora] is the package.  The cache reads its markets from a node
    with eth_calls, so its methods run in a host: the class [CacheHost] says how
    the host holds the cache and makes a call, and the theorems about the cache
    are proved against that interface; the server is an instance of it. *)

From S2P Require Import Prelude GoStrings GoNum GoTime GoEncoding ChainLib Assets TxInspect ABI LendoraABI.

Module lendora.

Record Market : Type := mkMarket {
  Symbol : string;
  CToken : Address;
  Underlying : Address;
  CTokenDecimals : Z;
  UnderlyingDecimals : Z;
  IsCEther : bool;
}.

(** [client] is the handle of the node client, [lend] the bound Comptroller. *)
Record Cache : Type := mkCache {
  client : Z;
  lend : Address;
  refreshEvery : Duration;
  byKey : gmap string Market;
  ordered : list Market;
  oracle : Address;
  oracleSet : bool;
}.

Definition NewCache (cl : Z) (comptroller : Address) (refresh : Duration) : Cache :=
  mkCache cl comptroller (if refresh =? 0 then 60 * Second else refresh) ∅ [] zero_address false.

Definition Resolve {U : Unicode} (c : Cache) (asset : string) : option Market := byKey c !! ToLower (TrimSpace asset).

Definition All (c : Cache) : list Market := ordered c.

Definition Oracle (c : Cache) : Address * bool := (oracle c, oracleSet c).

Definition Size (c : Cache) : Z := Z.of_nat (List.length (ordered c)).

Class CacheHost (S : Type) : Type := {
  host_cache : S -> Cache;
  host_swap : Cache -> S -> S;
  host_call : Z -> Address -> bytes -> M S bytes;
}.

(** A swap is read back, and a call of the node does not touch the cache. *)
Class CacheHostLaws {S} (H : CacheHost S) : Prop := {
  swap_cache : forall c s, host_cache (host_swap c s) = c;
  call_cache : forall cl to data s, host_cache (snd (host_call cl to data s)) = host_cache s;
}.

Section Reads.
Context {S : Type} {H : CacheHost S} {L : ChainLib} {B : ABILib} {U : Unicode}.

(** The outcome of a computation as a value: an error the source inspects. *)
Definition try {A} (m : M S A) : M S (result A) := fun s => let '(r, s') := m s in (Ok r, s').

Definition wrap_err {A} (f : goerr -> goerr) (m : M S A) : M S A := fun s => let '(r, s') := m s in (wrap f r, s').

(** The fields of the receiver, and the swap under its lock. *)
Definition cached : M S Cache := fun s => (Ok (host_cache s), s).
Definition swap (f : Cache -> Cache) : M S unit := fun s => (Ok tt, host_swap (f (host_cache s)) s).

Definition call (to : Address) (data : bytes) : M S bytes := fun s => host_call (client (host_cache s)) to data s.

Definition readDecimals (token : Address) : M S Z :=
  data ← lift PackERC20Decimals;
  out ← wrap_err (fun e => Errorf "read decimals() for %s: %w" [FStr (Address_Hex token); FErr e]) (call token data);
  lift (UnpackERC20Decimals out).

Definition readSymbol (token : Address) : M S string :=
  data ← lift PackSymbol;
  out ← wrap_err (fun e => Errorf "read symbol() for %s: %w" [FStr (Address_Hex token); FErr e]) (call token data);
  lift (UnpackSymbol out).

(** The errors of the three steps are dropped: the result is then the zero
    address. *)
Definition resolveCEther (oracleAddr : Address) : M S Address :=
  if addr_eqb oracleAddr zero_address then mret zero_address
  else
    match PackCEtherAddress with
    | Err _ => mret zero_address
    | Ok data =>
        r ← try (call oracleAddr data);
        match r with
        | Err _ => mret zero_address
        | Ok out => mret (match UnpackOracleAddress "cEtherAddress" out with Ok a => a | Err _ => zero_address end)
        end
    end.

Definition loadMarket (cToken cEther : Address) : M S Market :=
  cTokenDec ← readDecimals cToken;
  cTokenSym ← readSymbol cToken;
  if negb (addr_eqb cEther zero_address) && addr_eqb cToken cEther then
    mret (mkMarket (ToUpper (TrimPrefix cTokenSym "c")) cToken zero_address cTokenDec 18 true)
  else
    underData ← lift PackUnderlying;
    underOut ← wrap_err (fun e => Errorf "read underlying() for %s: %w" [FStr (Address_Hex cToken); FErr e])
                 (call cToken underData);
    underlying ← lift (UnpackUnderlying underOut);
    underDec ← readDecimals underlying;
    underSym ← readSymbol underlying;
    mret (mkMarket (ToUpper underSym) cToken underlying cTokenDec underDec false).

(** The entries of one market in the lookup table. *)
Definition index_market (next : gmap string Market) (cToken : Address) (m : Market) : gmap string Market :=
  let next := <[ToLower (Symbol m) := m]> next in
  let next := <[ToLower (Address_Hex cToken) := m]> next in
  if IsCEther m then next else <[ToLower (Address_Hex (Underlying m)) := m]> next.

(** The loop over the markets: the table, the ordered list and the dropped
    cTokens so far. *)
Fixpoint load_markets (cEther : Address) (cTokens : list Address)
    (next : gmap string Market) (ord : list Market) (dropped : list string)
  : M S (gmap string Market * list Market * list string) :=
  match cTokens with
  | [] => mret (next, ord, dropped)
  | cToken :: rest =>
      r ← try (loadMarket cToken cEther);
      match r with
      | Err _ => load_markets cEther rest next ord (dropped ++ [Address_Hex cToken])
      | Ok m => load_markets cEther rest (index_market next cToken m) (ord ++ [m]) dropped
      end
  end.

Definition Refresh : M S unit :=
  c ← cached;
  let comptroller := lend c in
  oracleData ← lift PackOracle;
  oracleOut ← wrap_err (fun e => Errorf "read comptroller.oracle(): %w" [FErr e]) (call comptroller oracleData);
  oracleAddr ← lift (UnpackOracle oracleOut);
  cEther ← resolveCEther oracleAddr;
  marketsData ← lift PackGetAllMarkets;
  marketsOut ← wrap_err (fun e => Errorf "read comptroller.getAllMarkets(): %w" [FErr e]) (call comptroller marketsData);
  cTokens ← lift (UnpackGetAllMarkets marketsOut);
  res ← load_markets cEther cTokens ∅ [] [];
  let '(next, ord, _) := res in
  swap (fun c => mkCache (client c) (lend c) (refreshEvery c) next ord oracleAddr true).

(** [Run] until its context is done: the initial refresh and the ticks that
    fired; a failed tick is logged. *)
Fixpoint run_ticks (ticks : nat) : M S unit :=
  match ticks with
  | O => mret tt
  | Datatypes.S n => _ ← try Refresh; run_ticks n
  end.

Definition Run (ticks : nat) : M S unit :=
  _ ← wrap_err (fun e => Errorf "initial lendora market cache refresh: %w" [FErr e]) Refresh;
  run_ticks ticks.

(** [None] is [ok = false]. *)
Definition LoadMarket (cToken : Address) : M S (option Market) :=
  c ← cached;
  let '(oracleAddr, _) := Oracle c in
  cEther ← resolveCEther oracleAddr;
  r ← try (loadMarket cToken cEther);
  mret (match r with Ok m => Some m | Err _ => None end).

End Reads.

(** ** What a table answers *)

Section Table.
Context {L : ChainLib} {U : Unicode}.

(** The keys a market is filed under. *)
Definition keys_of (m : Market) : list string :=
  [ToLower (Symbol m); ToLower (Address_Hex (CToken m))]
  ++ if IsCEther m then [] else [ToLower (Address_Hex (Underlying m))].

(** The last market of a list with the key: a later listing shadows an earlier
    one of the same name. *)
Definition last_with (k : string) (l : list Market) : option Market :=
  List.find (fun m => bool_decide (k ∈ keys_of m)) (List.rev l).

(** The table is the index of the ordered list. *)
Definition indexed (c : Cache) : Prop := forall k, byKey c !! k = last_with k (ordered c).

Lemma last_with_app k l m :
  last_with k (l ++ [m]) = if decide (k ∈ keys_of m) then Some m else last_with k l.
Proof. unfold last_with. rewrite rev_app_distr. simpl.
  case_bool_decide; by case_decide. Qed.

Lemma index_market_lookup next m k :
  index_market next (CToken m) m !! k = if decide (k ∈ keys_of m) then Some m else next !! k.
Proof.
  unfold index_market, keys_of. destruct (IsCEther m); cbn [app]; rewrite !lookup_insert;
    repeat case_decide; subst; set_solver.
Qed.

Lemma last_with_in k l m : last_with k l = Some m -> m ∈ l /\ k ∈ keys_of m.
Proof.
  intros [Hin Hk]%List.find_some. apply in_rev, list_elem_of_In in Hin. by apply bool_decide_eq_true in Hk.
Qed.

Lemma last_with_none k l : last_with k l = None -> forall m, m ∈ l -> k ∉ keys_of m.
Proof.
  intros Hn m Hm. apply list_elem_of_In, (in_rev l) in Hm. unfold last_with in Hn.
  by apply (List.find_none _ _ Hn m), bool_decide_eq_false in Hm.
Qed.

Lemma last_with_split k l m :
  last_with k l = Some m <->
  exists pre suf, l = pre ++ m :: suf /\ k ∈ keys_of m /\ Forall (fun m' => k ∉ keys_of m') suf.
Proof.
  induction l as [|x l IH] using rev_ind.
  - split; [done|]. intros (pre & suf & Heq & _). by destruct pre.
  - rewrite last_with_app. case_decide as Hk.
    + split.
      * intros [= <-]. exists l, []. by rewrite Forall_nil.
      * intros (pre & suf & Heq & Hm & Hs). destruct suf as [|y suf _] using rev_ind.
        -- apply app_inj_tail in Heq as [_ <-]. done.
        -- rewrite app_comm_cons, app_assoc in Heq. apply app_inj_tail in Heq as [_ <-].
           apply Forall_app in Hs as [_ Hs]. by apply Forall_cons in Hs as [].
    + rewrite IH. split.
      * intros (pre & suf & -> & Hm & Hs). exists pre, (suf ++ [x]). rewrite <- app_assoc. split_and!; [done..|].
        apply Forall_app. split; [done|]. by apply Forall_singleton.
      * intros (pre & suf & Heq & Hm & Hs). destruct suf as [|y suf _] using rev_ind.
        -- apply app_inj_tail in Heq as [_ <-]. done.
        -- rewrite app_comm_cons, app_assoc in Heq. apply app_inj_tail in Heq as [-> <-].
           apply Forall_app in Hs as [Hs _]. by exists pre, suf.
Qed.

End Table.

(** ** A well-formed market *)

(** A market as its contracts describe it: the decimals are bytes, and the
    native market has no token underneath. *)
Definition market_ok (m : Market) : Prop :=
  0 <= CTokenDecimals m < 256 /\ 0 <= UnderlyingDecimals m < 256
  /\ (IsCEther m = true -> Underlying m = zero_address /\ UnderlyingDecimals m = 18).

Definition ok_of {A} (r : result A) : option A := match r with Ok a => Some a | Err _ => None end.

Section Facts.
Context {S : Type} {H : CacheHost S} {HL : CacheHostLaws H} {L : ChainLib} {B : ABILib} {BL : ABILaws B} {U : Unicode}.

Definition quiet {A} (m : M S A) : Prop := forall s, host_cache (snd (m s)) = host_cache s.

Lemma quiet_bind {A C} (m : M S A) (f : A -> M S C) : quiet m -> (forall a, quiet (f a)) -> quiet (m ≫= f).
Proof.
  intros Hm Hf s. specialize (Hm s). unfold mbind, M_bind. destruct (m s) as [[a|e] s1]; [|done].
  cbn [snd] in Hm. by rewrite Hf.
Qed.
Lemma quiet_lift {A} (r : result A) : quiet (lift r).
Proof. done. Qed.
Lemma quiet_try {A} (m : M S A) : quiet m -> quiet (try m).
Proof. intros Hm s. specialize (Hm s). unfold try. by destruct (m s). Qed.
Lemma quiet_wrap {A} f (m : M S A) : quiet m -> quiet (wrap_err f m).
Proof. intros Hm s. specialize (Hm s). unfold wrap_err. by destruct (m s). Qed.
Lemma quiet_call to data : quiet (call to data).
Proof. intros s. unfold call. apply call_cache. Qed.

Ltac quiet_tac :=
  repeat first [ apply quiet_lift | apply quiet_call | apply quiet_try | apply quiet_wrap
               | apply quiet_bind; [|intros ?] | by intros s | case_match ].

Lemma quiet_resolveCEther a : quiet (resolveCEther a).
Proof. unfold resolveCEther. quiet_tac. Qed.
Lemma quiet_loadMarket c e : quiet (loadMarket c e).
Proof. unfold loadMarket, readDecimals, readSymbol. quiet_tac. Qed.
Lemma quiet_load_markets e l : forall next ord dr, quiet (load_markets e l next ord dr).
Proof.
  induction l as [|ct l IH]; intros next ord dr; cbn [load_markets]; [by intros s|].
  apply quiet_bind; [apply quiet_try, quiet_loadMarket|]. intros [m|e']; apply IH.
Qed.
Lemma quiet_LoadMarket ct : quiet (LoadMarket ct).
Proof.
  unfold LoadMarket. apply quiet_bind; [by intros s|]. intros c. cbn [Oracle].
  apply quiet_bind; [apply quiet_resolveCEther|]. intros e.
  apply quiet_bind; [apply quiet_try, quiet_loadMarket|]. by intros r s.
Qed.

Lemma wrap_err_ok {A} f (m : M S A) s a s' : wrap_err f m s = (Ok a, s') -> m s = (Ok a, s').
Proof. unfold wrap_err. destruct (m s) as [[x|e] s1]; [|done]. by intros [= <- <-]. Qed.

Lemma readDecimals_range token s dec s' : readDecimals token s = (Ok dec, s') -> 0 <= dec < 256.
Proof.
  unfold readDecimals. intros Hr. m_inv Hr as data s1 H1. m_inv Hr as out s2 H2. apply lift_ok in Hr as [Hr _].
  unfold UnpackERC20Decimals in Hr. destruct (abi_Unpack _ _ out) as [[|v l]|] eqn:Eu; cbn in Hr; try done.
  destruct v; try done. injection Hr as <-. by apply unpack_uint8 in Eu.
Qed.

Lemma loadMarket_ok ct e s m s' : loadMarket ct e s = (Ok m, s') -> CToken m = ct /\ market_ok m.
Proof.
  unfold loadMarket. intros Hm. m_inv Hm as dec s1 H1. apply readDecimals_range in H1. m_inv Hm as sym s2 H2.
  destruct (_ && _).
  - injection Hm as <- _. by repeat split; cbn; try lia.
  - m_inv Hm as ud s3 H3. m_inv Hm as uo s4 H4. m_inv Hm as un s5 H5. m_inv Hm as ddec s6 H6.
    apply readDecimals_range in H6. m_inv Hm as usym s7 H7. injection Hm as <- _. by repeat split; cbn; try lia.
Qed.

(** ** What the node says of a market *)

(** One question to a contract: the decoded answer, or nothing when the call or
    the decoding fails. *)
Definition ask {A} (cl : Z) (to : Address) (pack : result bytes) (unpack : bytes -> result A) (s : S) : option A * S :=
  match pack with
  | Err _ => (None, s)
  | Ok data => let '(r, s') := host_call cl to data s in (ok_of (r ≫= unpack), s')
  end.

(** A market as its contracts describe it, question by question: the cToken's
    decimals and symbol, and then, unless it is the native market, the
    underlying token and that token's own decimals and symbol.  A question
    without an answer drops the market. *)
Inductive described (cl : Z) (cEther ct : Address) : S -> option Market -> S -> Prop :=
| no_decimals s s1 :
    ask cl ct PackERC20Decimals UnpackERC20Decimals s = (None, s1) -> described cl cEther ct s None s1
| no_symbol s s1 s2 dec :
    ask cl ct PackERC20Decimals UnpackERC20Decimals s = (Some dec, s1) ->
    ask cl ct PackSymbol UnpackSymbol s1 = (None, s2) -> described cl cEther ct s None s2
| native s s1 s2 dec sym :
    ask cl ct PackERC20Decimals UnpackERC20Decimals s = (Some dec, s1) ->
    ask cl ct PackSymbol UnpackSymbol s1 = (Some sym, s2) -> cEther <> zero_address -> ct = cEther ->
    described cl cEther ct s (Some (mkMarket (ToUpper (TrimPrefix sym "c")) ct zero_address dec 18 true)) s2
| no_token s s1 s2 s3 dec sym :
    ask cl ct PackERC20Decimals UnpackERC20Decimals s = (Some dec, s1) ->
    ask cl ct PackSymbol UnpackSymbol s1 = (Some sym, s2) -> ~ (cEther <> zero_address /\ ct = cEther) ->
    ask cl ct PackUnderlying UnpackUnderlying s2 = (None, s3) -> described cl cEther ct s None s3
| no_token_decimals s s1 s2 s3 s4 dec sym token :
    ask cl ct PackERC20Decimals UnpackERC20Decimals s = (Some dec, s1) ->
    ask cl ct PackSymbol UnpackSymbol s1 = (Some sym, s2) -> ~ (cEther <> zero_address /\ ct = cEther) ->
    ask cl ct PackUnderlying UnpackUnderlying s2 = (Some token, s3) ->
    ask cl token PackERC20Decimals UnpackERC20Decimals s3 = (None, s4) -> described cl cEther ct s None s4
| no_token_symbol s s1 s2 s3 s4 s5 dec sym token tdec :
    ask cl ct PackERC20Decimals UnpackERC20Decimals s = (Some dec, s1) ->
    ask cl ct PackSymbol UnpackSymbol s1 = (Some sym, s2) -> ~ (cEther <> zero_address /\ ct = cEther) ->
    ask cl ct PackUnderlying UnpackUnderlying s2 = (Some token, s3) ->
    ask cl token PackERC20Decimals UnpackERC20Decimals s3 = (Some tdec, s4) ->
    ask cl token PackSymbol UnpackSymbol s4 = (None, s5) -> described cl cEther ct s None s5
| listed_token s s1 s2 s3 s4 s5 dec sym token tdec tsym :
    ask cl ct PackERC20Decimals UnpackERC20Decimals s = (Some dec, s1) ->
    ask cl ct PackSymbol UnpackSymbol s1 = (Some sym, s2) -> ~ (cEther <> zero_address /\ ct = cEther) ->
    ask cl ct PackUnderlying UnpackUnderlying s2 = (Some token, s3) ->
    ask cl token PackERC20Decimals UnpackERC20Decimals s3 = (Some tdec, s4) ->
    ask cl token PackSymbol UnpackSymbol s4 = (Some tsym, s5) ->
    described cl cEther ct s (Some (mkMarket (ToUpper tsym) ct token dec tdec false)) s5.

(** The listed cTokens in order, each described after the one before it. *)
Inductive listing (cl : Z) (cEther : Address) : list Address -> S -> list Market -> S -> Prop :=
| listing_nil s : listing cl cEther [] s [] s
| listing_cons ct cts s o s1 ms s2 :
    described cl cEther ct s o s1 -> listing cl cEther cts s1 ms s2 ->
    listing cl cEther (ct :: cts) s (option_list o ++ ms) s2.

(** The native market's cToken as the price oracle names it; the zero address
    when there is no oracle or it does not answer. *)
Definition native_market (cl : Z) (oracleAddr : Address) (s : S) : Address * S :=
  if decide (oracleAddr = zero_address) then (zero_address, s)
  else let '(o, s') := ask cl oracleAddr PackCEtherAddress (UnpackOracleAddress "cEtherAddress") s in (default zero_address o, s').

(** A question the cache asks is the question to its node, and leaves the cache
    as it is. *)
Lemma ask_run {A} f to pack (unpack : bytes -> result A) s r s' :
  (data ← lift pack; out ← wrap_err f (call to data); lift (unpack out)) s = (r, s') ->
  ask (client (host_cache s)) to pack unpack s = (ok_of r, s') /\ host_cache s' = host_cache s.
Proof.
  unfold mbind, M_bind, lift, ask, call, wrap_err. destruct pack as [data|e]; [|by intros [= <- <-]].
  pose proof (call_cache (client (host_cache s)) to data s) as Hc.
  destruct (host_call _ to data s) as [[out|e] s1]; cbn [wrap snd] in *; intros [= <- <-]; done.
Qed.

(** The same when the answer feeds a continuation. *)
Lemma ask_bind {A C} f to pack (unpack : bytes -> result A) (k : A -> M S C) s r s' :
  (data ← lift pack; out ← wrap_err f (call to data); a ← lift (unpack out); k a) s = (r, s') ->
  exists o s1, ask (client (host_cache s)) to pack unpack s = (o, s1) /\ host_cache s1 = host_cache s
  /\ match o with Some a => k a s1 = (r, s') | None => s1 = s' /\ ok_of r = None end.
Proof.
  intros Hr. destruct ((data ← lift pack; out ← wrap_err f (call to data); lift (unpack out)) s) as [r0 s1] eqn:Eq.
  destruct (ask_run _ _ _ _ _ _ _ Eq) as [Ha Hc]. exists (ok_of r0), s1. split_and!; [done..|].
  unfold mbind, M_bind, lift in Hr, Eq. destruct pack as [data|e]; [|by simplify_eq].
  destruct (wrap_err f (call to data) s) as [[out|e] s2]; [|by simplify_eq].
  injection Eq as <- <-. destruct (unpack out); by simplify_eq.
Qed.

Lemma query_bind {A C} (q : M S A) (k : A -> M S C) cl to pack (unpack : bytes -> result A) s r s' :
  (forall r0 s0, q s = (r0, s0) -> ask cl to pack unpack s = (ok_of r0, s0) /\ host_cache s0 = host_cache s) ->
  (q ≫= k) s = (r, s') ->
  exists o s1, ask cl to pack unpack s = (o, s1) /\ host_cache s1 = host_cache s
  /\ match o with Some a => k a s1 = (r, s') | None => s1 = s' /\ ok_of r = None end.
Proof.
  intros Hq Hr. unfold mbind, M_bind in Hr. destruct (q s) as [r0 s1] eqn:Eq. destruct (Hq _ _ eq_refl) as [Ha Hc].
  exists (ok_of r0), s1. split_and!; [done..|]. destruct r0; by simplify_eq.
Qed.

Lemma readDecimals_bind {C} token (k : Z -> M S C) s r s' :
  (readDecimals token ≫= k) s = (r, s') ->
  exists o s1, ask (client (host_cache s)) token PackERC20Decimals UnpackERC20Decimals s = (o, s1)
  /\ host_cache s1 = host_cache s /\ match o with Some a => k a s1 = (r, s') | None => s1 = s' /\ ok_of r = None end.
Proof. apply query_bind. intros r0 s0. apply ask_run. Qed.

Lemma readSymbol_bind {C} token (k : string -> M S C) s r s' :
  (readSymbol token ≫= k) s = (r, s') ->
  exists o s1, ask (client (host_cache s)) token PackSymbol UnpackSymbol s = (o, s1)
  /\ host_cache s1 = host_cache s /\ match o with Some a => k a s1 = (r, s') | None => s1 = s' /\ ok_of r = None end.
Proof. apply query_bind. intros r0 s0. apply ask_run. Qed.

Lemma native_dec (cEther ct : Address) :
  negb (addr_eqb cEther zero_address) && addr_eqb ct cEther = bool_decide (cEther <> zero_address /\ ct = cEther).
Proof. unfold addr_eqb. repeat case_bool_decide; naive_solver. Qed.

Lemma loadMarket_described ct e s r s' :
  loadMarket ct e s = (r, s') ->
  described (client (host_cache s)) e ct s (ok_of r) s' /\ host_cache s' = host_cache s.
Proof.
  unfold loadMarket. intros Hm.
  apply readDecimals_bind in Hm as ([dec|] & s1 & A1 & C1 & Hm);
    [|destruct Hm as [<- ->]; split; [by apply no_decimals|done]].
  apply readSymbol_bind in Hm as ([sym|] & s2 & A2 & C2 & Hm); rewrite C1 in *;
    [|destruct Hm as [<- ->]; split; [by eapply no_symbol|done]].
  rewrite native_dec in Hm. case_bool_decide as Hn.
  { injection Hm as <- <-. split; [|done]. destruct Hn. by eapply native. }
  apply ask_bind in Hm as ([token|] & s3 & A3 & C3 & Hm); rewrite C2 in *;
    [|destruct Hm as [<- ->]; split; [by eapply no_token|done]].
  apply readDecimals_bind in Hm as ([tdec|] & s4 & A4 & C4 & Hm); rewrite C3 in *;
    [|destruct Hm as [<- ->]; split; [by eapply no_token_decimals|done]].
  apply readSymbol_bind in Hm as ([tsym|] & s5 & A5 & C5 & Hm); rewrite C4 in *;
    [|destruct Hm as [<- ->]; split; [by eapply no_token_symbol|done]].
  injection Hm as <- <-. split; [by eapply listed_token|done].
Qed.

Lemma load_markets_spec e l : forall next ord dr s r s',
  load_markets e l next ord dr s = (r, s') -> (forall k, next !! k = last_with k ord) -> Forall market_ok ord ->
  exists next' ms dr', r = Ok (next', ord ++ ms, dr') /\ listing (client (host_cache s)) e l s ms s'
  /\ (forall k, next' !! k = last_with k (ord ++ ms)) /\ Forall market_ok (ord ++ ms) /\ host_cache s' = host_cache s.
Proof.
  induction l as [|ct l IH]; intros next ord dr s r s' Hr Hi Hok; cbn [load_markets] in Hr.
  - injection Hr as <- <-. exists next, [], dr. rewrite app_nil_r. split_and!; try done. constructor.
  - unfold mbind, M_bind, try in Hr. destruct (loadMarket ct e s) as [[m|er] s1] eqn:El;
      destruct (loadMarket_described _ _ _ _ _ El) as [Hd Hc].
    + destruct (loadMarket_ok _ _ _ _ _ El) as [<- Hm].
      apply IH in Hr as (n' & ms & d' & -> & F & Hi' & Ho' & C').
      * rewrite <- app_assoc in *. exists n', (m :: ms), d'. rewrite Hc in *.
        split_and!; try done. by eapply (listing_cons _ _ _ _ _ (Some m)).
      * intros k. by rewrite index_market_lookup, last_with_app, Hi.
      * apply Forall_app. split; [done|by apply Forall_singleton].
    + apply IH in Hr as (n' & ms & d' & -> & F & Hi' & Ho' & C'); [|done..]. rewrite Hc in *.
      exists n', ms, d'. split_and!; try done. by eapply (listing_cons _ _ _ _ _ None).
Qed.

Lemma resolveCEther_native a s r s' :
  resolveCEther a s = (r, s') ->
  r = Ok (fst (native_market (client (host_cache s)) a s)) /\ s' = snd (native_market (client (host_cache s)) a s)
  /\ host_cache s' = host_cache s.
Proof.
  unfold resolveCEther, native_market, addr_eqb, ask, mbind, M_bind, try, call. intros Hr.
  case_bool_decide; case_decide; try done; [by injection Hr as <- <-|].
  destruct PackCEtherAddress as [data|]; [|by injection Hr as <- <-].
  pose proof (call_cache (client (host_cache s)) a data s) as Hc.
  destruct (host_call _ a data s) as [[out|er] s1]; cbn [snd] in Hc; injection Hr as <- <-; [|done].
  cbn [mbind result_bind]. by destruct (UnpackOracleAddress _ out).
Qed.

(** ** What a refresh publishes *)

(** The questions of a refresh in order: the oracle, the native market, the
    enumeration, the markets; the cache that is published is theirs. *)
Definition published (s s' : S) : Prop :=
  let c := host_cache s in let cl := client c in
  exists oracleAddr s1 cTokens s2 ms s3,
    ask cl (lend c) PackOracle UnpackOracle s = (Some oracleAddr, s1)
  /\ let '(cEther, s1') := native_market cl oracleAddr s1 in
     ask cl (lend c) PackGetAllMarkets UnpackGetAllMarkets s1' = (Some cTokens, s2)
  /\ listing cl cEther cTokens s2 ms s3
  /\ exists table, s' = host_swap (mkCache cl (lend c) (refreshEvery c) table ms oracleAddr true) s3
     /\ (forall k, table !! k = last_with k ms) /\ Forall market_ok ms.

(** The two questions without which a refresh fails. *)
Definition unlisted (s : S) : Prop :=
  let c := host_cache s in let cl := client c in
  let '(o, s1) := ask cl (lend c) PackOracle UnpackOracle s in
  match o with
  | None => True
  | Some oracleAddr =>
      let '(_, s2) := native_market cl oracleAddr s1 in
      fst (ask cl (lend c) PackGetAllMarkets UnpackGetAllMarkets s2) = None
  end.

Lemma Refresh_spec s :
  let '(r, s') := Refresh s in
  match r with Ok _ => published s s' | Err _ => unlisted s /\ host_cache s' = host_cache s end.
Proof.
  destruct (Refresh s) as [r s'] eqn:Er. unfold Refresh in Er.
  unfold mbind at 1, M_bind at 1, cached at 1 in Er. cbn beta iota in Er.
  apply ask_bind in Er as ([oa|] & s1 & A1 & C1 & Er);
    [|destruct Er as [<- Hn], r; [done|]; unfold unlisted; by rewrite A1].
  unfold mbind at 1, M_bind at 1 in Er. destruct (resolveCEther oa s1) as [rc s2] eqn:Ec.
  apply resolveCEther_native in Ec as (-> & Es2 & C2). rewrite C1 in *.
  apply ask_bind in Er as ([cts|] & s3 & A3 & C3 & Er); rewrite C2 in *;
    [|destruct Er as [<- Hn], r; [done|]; unfold unlisted; rewrite A1; destruct (native_market _ oa s1); subst;
      cbn [snd] in A3; by rewrite A3].
  unfold mbind at 1, M_bind at 1 in Er. destruct (load_markets _ cts ∅ [] [] s3) as [rl s4] eqn:El.
  apply load_markets_spec in El as (table & ms & dr & -> & F & Hi & Hok & C4);
    [|by intros k; rewrite lookup_empty|done].
  injection Er as <- <-. exists oa, s1, cts, s3, ms, s4. split; [done|]. rewrite C4, C3 in *.
  destruct (native_market _ oa s1) as [ce s2']. cbn [fst snd] in *. subst s2'. split_and!; [done..|].
  by exists table.
Qed.

(** ** The invariant of the cache *)

Definition cache_ok (c : Cache) : Prop := indexed c /\ Forall market_ok (ordered c).

Lemma NewCache_ok cl comp every : cache_ok (NewCache cl comp every).
Proof. split; [intros k; by cbn; rewrite lookup_empty|done]. Qed.

Lemma published_ok s s' : published s s' -> cache_ok (host_cache s').
Proof.
  intros (oa & s1 & cts & s2 & ms & s3 & _ & H1). destruct (native_market _ oa s1) as [ce s1'].
  destruct H1 as (_ & _ & table & -> & Ht & Hm). by rewrite swap_cache.
Qed.

Lemma Refresh_ok : preserves (fun s => cache_ok (host_cache s)) Refresh.
Proof.
  intros s Hs. pose proof (Refresh_spec s) as Hr. destruct (Refresh s) as [[[]|e] s'].
  - by eapply published_ok.
  - destruct Hr as [_ ->]. done.
Qed.

Lemma run_ticks_ok n : preserves (fun s => cache_ok (host_cache s)) (run_ticks n).
Proof.
  induction n as [|n IH]; cbn [run_ticks]; [by intros s Hs|]. 
  apply (triple_bind _ _ (fun _ s => cache_ok (host_cache s))); [|intros r; exact IH].
  intros s Hs. pose proof (Refresh_ok s Hs) as Hr. unfold try. by destruct (Refresh s) as [[[]|e] s'].
Qed.

Lemma cache_ok_Resolve c asset m : cache_ok c -> Resolve c asset = Some m -> m ∈ All c /\ market_ok m.
Proof.
  intros [Hi Hok] Hr. unfold Resolve in Hr. rewrite Hi in Hr. apply last_with_in in Hr as [Hin _].
  split; [done|]. by eapply Forall_forall in Hok.
Qed.

End Facts.

(** ** A node for evaluations: a Comptroller with a USDC market, the native
    market and one whose contract does not answer. *)

Definition demo_addr (n : Z) : Address := repeat (chr 0) 19 ++ [chr n].
Definition demo_num (n : Z) : bytes := be_bytes 32 n.

(** The call [m(args)] as the demonstration encoder writes it. *)
Definition demo_is (m : string) (data : bytes) : bool := bool_decide (take (S (String.length m)) data = chars m ++ chars "|").

Definition demo_reply (to : Address) (data : bytes) : result bytes :=
  if demo_is "oracle" data then Ok (abi_addr (demo_addr 2))
  else if demo_is "cEtherAddress" data then Ok (abi_addr (demo_addr 12))
  else if demo_is "getAllMarkets" data then Ok (List.concat (map (fun n => abi_addr (demo_addr n)) [11; 12; 13]))
  else if addr_eqb to (demo_addr 13) then Err (ErrNew "execution reverted")
  else if demo_is "symbol" data then
    Ok (chars (if addr_eqb to (demo_addr 11) then "cUSDC" else if addr_eqb to (demo_addr 12) then "cSVP" else "USDC"))
  else if demo_is "underlying" data then Ok (abi_addr (demo_addr 21))
  else if bool_decide (take 4 data = map chr [1; 2; 3; 4]) then Ok (demo_num (if addr_eqb to (demo_addr 21) then 6 else 8))
  else Err (ErrNew "execution reverted").

Definition demo_host : CacheHost Cache := {|
  host_cache := fun c => c; host_swap := fun c _ => c; host_call := fun _ to data c => (demo_reply to data, c) |}.

#[export] Instance demo_host_laws : CacheHostLaws demo_host.
Proof. by constructor. Qed.

Definition demo_new : Cache := NewCache 1 (demo_addr 1) 0.
Definition demo_refreshed : Cache :=
  snd (Refresh (H := demo_host) (L := demo_lib) (B := demo_lend_abi) (U := unicode_id) demo_new).

(** ** Claims *)

(** C32: a refresh of the money-market cache publishes exactly what the contracts
    answered.  When it succeeds, the questions went to the cache's node in this
    order: the Comptroller's oracle, the native market from that oracle, the
    Comptroller's list, and then per listed cToken its decimals and symbol and,
    unless it is the native market, its underlying token and that token's
    decimals and symbol.  The cached list is, in the Comptroller's order, the
    markets all of whose questions were answered, each field from its own
    answer: the symbol and decimals of the underlying token (for the native
    market the cToken's symbol without its c, eighteen decimals and no token),
    and the cToken's own decimals; an unanswered one is dropped alone.  The
    oracle is the one answered; the node client, the Comptroller and the period
    stay; an asset given as a symbol in any case or as an address resolves to
    the last listed market with that key and to nothing when no market has it.
    It fails only when the oracle or the list is not answered, and then the cache
    is untouched. *)
Theorem lendora_Refresh_exact {S : Type} {H : CacheHost S} {HL : CacheHostLaws H} {L : ChainLib} {B : ABILib}
    {BL : ABILaws B} {U : Unicode} (s : S) :
  let '(r, s') := Refresh s in
  match r with
  | Err _ => unlisted s /\ host_cache s' = host_cache s
  | Ok _ =>
      published s s'
      /\ forall asset m, Resolve (host_cache s') asset = Some m <->
           exists pre suf, All (host_cache s') = pre ++ m :: suf /\ ToLower (TrimSpace asset) ∈ keys_of m
           /\ Forall (fun m' => ToLower (TrimSpace asset) ∉ keys_of m') suf
  end.
Proof.
  pose proof (Refresh_spec s) as Hr. destruct (Refresh s) as [[[]|e] s']; [|exact Hr].
  split; [exact Hr|]. intros asset m. apply published_ok in Hr as [Hi _]. unfold Resolve. rewrite Hi. apply last_with_split.
Qed.

(** The cache is well formed in every state.  From a new cache, after the
    initial refresh and any number of ticks, whatever the node answers and
    whichever of them fail: the lookup table is the index of the ordered list,
    so a resolved market is one of the enumerated ones, its decimals fit a byte,
    and the native market has eighteen decimals and no token. *)
Theorem lendora_cache_well_formed {S : Type} {H : CacheHost S} {HL : CacheHostLaws H} {L : ChainLib} {B : ABILib}
    {BL : ABILaws B} {U : Unicode} (s : S) (cl : Z) (comptroller : Address) (every : Duration) (ticks : nat)
    (Hnew : host_cache s = NewCache cl comptroller every) :
  let c := host_cache (snd (Run ticks s)) in
  cache_ok c /\ forall asset m, Resolve c asset = Some m -> m ∈ All c /\ market_ok m.
Proof.
  assert (cache_ok (host_cache (snd (Run ticks s)))) as Hc.
  { assert (preserves (fun s => cache_ok (host_cache s)) (Run ticks)) as Hp.
    { unfold Run. apply (triple_bind _ _ (fun _ s => cache_ok (host_cache s))); [|intros r; apply run_ticks_ok].
      intros t Ht. pose proof (Refresh_ok t Ht) as Hr. unfold wrap_err. by destruct (Refresh t) as [[[]|e] t']. }
    assert (cache_ok (host_cache s)) as H0 by (rewrite Hnew; apply NewCache_ok).
    specialize (Hp s H0). by destruct (Run ticks s) as [[[]|e] s']. }
  split; [exact Hc|]. intros asset m. by apply cache_ok_Resolve.
Qed.

Lemma lendora_cache_well_formed_witness :
  exists m, Resolve (U := unicode_id) (snd (Run (H := demo_host) (L := demo_lib) (B := demo_lend_abi) (U := unicode_id) 2 demo_new))
      " svp " = Some m /\ IsCEther m = true /\ UnderlyingDecimals m = 18.
Proof.
  pose proof (lendora_cache_well_formed (H := demo_host) (HL := demo_host_laws) (L := demo_lib) (B := demo_lend_abi)
    (BL := demo_lend_abi_laws) (U := unicode_id) demo_new 1 (demo_addr 1) 0 2 eq_refl) as [_ Hm].
  destruct (Resolve (U := unicode_id) (snd (Run (H := demo_host) (L := demo_lib) (B := demo_lend_abi) (U := unicode_id) 2 demo_new)) " svp ")
    as [m|] eqn:Er.
  - exists m. split; [reflexivity|]. specialize (Hm " svp "%string m Er) as [_ (_ & _ & Hn)].
    assert (IsCEther m = true) as Hc by (vm_compute in Er; by injection Er as <-).
    split; [exact Hc|exact (proj2 (Hn Hc))].
  - exfalso. vm_compute in Er. discriminate.
Defined.

Lemma lendora_Refresh_exact_witness :
  published (H := demo_host) (L := demo_lib) (B := demo_lend_abi) (U := unicode_id) demo_new demo_refreshed
  /\ Oracle demo_refreshed = (demo_addr 2, true)
  /\ All demo_refreshed = [mkMarket "USDC" (demo_addr 11) (demo_addr 21) 8 6 false;
                           mkMarket "SVP" (demo_addr 12) zero_address 8 18 true].
Proof.
  pose proof (lendora_Refresh_exact (H := demo_host) (HL := demo_host_laws) (L := demo_lib) (B := demo_lend_abi)
    (BL := demo_lend_abi_laws) (U := unicode_id) demo_new) as Hr. unfold demo_refreshed at 1.
  destruct (Refresh (H := demo_host) (L := demo_lib) (B := demo_lend_abi) (U := unicode_id) demo_new) as [[u|e] c'] eqn:Er.
  - split; [exact (proj1 Hr)|]. split; vm_compute; reflexivity.
  - exfalso. vm_compute in Er. discriminate.
Defined.

Example demo_refreshed_all :
  map Symbol (All demo_refreshed) = ["USDC"; "SVP"]%string /\ Size demo_refreshed = 2.
Proof. vm_compute. by split. Qed.

End lendora.
