(* ===== verification/Server.v ===== *)
(** * The server state and the authorisation prelude
      (tools/deps.go, tools/context.go, tools/errors.go, tools/auth.go)

    One record holds every store the handlers share; a handler is a
    computation over it.  The outside world is the class [Env]: each interaction
    (a clock reading, a random draw, a file write, a node's answer, the order of
    a map iteration) consumes one tick of the counter [s_reads] and is a
    function of it, so the interactions of a run may differ from one another in
    any way.  What is handed to the chain is recorded in [s_sent] and
    [s_evm_sent]. *)

From S2P Require Import Prelude GoStrings GoNum GoTime Limits TransferOut NonceStore IPRateLimiter SessionBearers.
From S2P Require Import DynamicTenants Policy Markets Units ChainLib Payload Assembler.
From S2P Require Import LendoraCache Http.

Class Env : Type := {
  env_clock : nat -> Time;
  env_rand : nat -> result bytes;
  env_io : nat -> io;
  env_write : nat -> result unit;
  env_range : nat -> gmap string Z -> list (string * Z);
  env_account : nat -> string -> result (Z * Z);
  env_broadcast : nat -> bytes -> result BroadcastResult;
  env_evm_send : nat -> Z -> EthTx -> result string;
  env_error_text : goerr -> string;        (* Error() of what a node client returned *)
}.

(** Ranging over a map visits every entry once, in some order. *)
Class EnvLaws (E : Env) : Prop := {
  range_perm : forall n m, env_range n m ≡ₚ map_to_list m;
}.

Section State.
Context {RL : RateLib}.

Record srv : Type := mkSrv {
  s_static : gmap string TenantPolicy;
  s_tenants : DynamicTenantStore;
  s_nonces : NonceStore;
  s_ips : IPRateLimiter;
  s_sessions : option SessionBearers;
  s_rate : RateLimiter;
  s_idem : Idempotency;
  s_audit : list AuditEntry;
  s_ledger : option MemoryLedger;
  s_out : option store;
  s_disk : disk;
  s_markets : Cache;
  s_lendora : lendora.Cache;                 (* the pointee of LendoraMarkets *)
  s_sent : list bytes;
  s_evm_sent : list (Z * EthTx);
  s_http : list HttpRequest;                 (* handed to the HTTP clients *)
  s_reads : nat;
}.

Definition set_tenants (x : DynamicTenantStore) (s : srv) : srv :=
  mkSrv (s_static s) x (s_nonces s) (s_ips s) (s_sessions s) (s_rate s) (s_idem s) (s_audit s) (s_ledger s)
    (s_out s) (s_disk s) (s_markets s) (s_lendora s) (s_sent s) (s_evm_sent s) (s_http s) (s_reads s).
Definition set_nonces (x : NonceStore) (s : srv) : srv :=
  mkSrv (s_static s) (s_tenants s) x (s_ips s) (s_sessions s) (s_rate s) (s_idem s) (s_audit s) (s_ledger s)
    (s_out s) (s_disk s) (s_markets s) (s_lendora s) (s_sent s) (s_evm_sent s) (s_http s) (s_reads s).
Definition set_ips (x : IPRateLimiter) (s : srv) : srv :=
  mkSrv (s_static s) (s_tenants s) (s_nonces s) x (s_sessions s) (s_rate s) (s_idem s) (s_audit s) (s_ledger s)
    (s_out s) (s_disk s) (s_markets s) (s_lendora s) (s_sent s) (s_evm_sent s) (s_http s) (s_reads s).
Definition set_sessions (x : option SessionBearers) (s : srv) : srv :=
  mkSrv (s_static s) (s_tenants s) (s_nonces s) (s_ips s) x (s_rate s) (s_idem s) (s_audit s) (s_ledger s)
    (s_out s) (s_disk s) (s_markets s) (s_lendora s) (s_sent s) (s_evm_sent s) (s_http s) (s_reads s).
Definition set_rate (x : RateLimiter) (s : srv) : srv :=
  mkSrv (s_static s) (s_tenants s) (s_nonces s) (s_ips s) (s_sessions s) x (s_idem s) (s_audit s) (s_ledger s)
    (s_out s) (s_disk s) (s_markets s) (s_lendora s) (s_sent s) (s_evm_sent s) (s_http s) (s_reads s).
Definition set_idem (x : Idempotency) (s : srv) : srv :=
  mkSrv (s_static s) (s_tenants s) (s_nonces s) (s_ips s) (s_sessions s) (s_rate s) x (s_audit s) (s_ledger s)
    (s_out s) (s_disk s) (s_markets s) (s_lendora s) (s_sent s) (s_evm_sent s) (s_http s) (s_reads s).
Definition set_audit (x : list AuditEntry) (s : srv) : srv :=
  mkSrv (s_static s) (s_tenants s) (s_nonces s) (s_ips s) (s_sessions s) (s_rate s) (s_idem s) x (s_ledger s)
    (s_out s) (s_disk s) (s_markets s) (s_lendora s) (s_sent s) (s_evm_sent s) (s_http s) (s_reads s).
Definition set_ledger (x : option MemoryLedger) (s : srv) : srv :=
  mkSrv (s_static s) (s_tenants s) (s_nonces s) (s_ips s) (s_sessions s) (s_rate s) (s_idem s) (s_audit s) x
    (s_out s) (s_disk s) (s_markets s) (s_lendora s) (s_sent s) (s_evm_sent s) (s_http s) (s_reads s).
Definition set_out (x : option store) (d : disk) (s : srv) : srv :=
  mkSrv (s_static s) (s_tenants s) (s_nonces s) (s_ips s) (s_sessions s) (s_rate s) (s_idem s) (s_audit s)
    (s_ledger s) x d (s_markets s) (s_lendora s) (s_sent s) (s_evm_sent s) (s_http s) (s_reads s).
Definition set_sent (x : list bytes) (s : srv) : srv :=
  mkSrv (s_static s) (s_tenants s) (s_nonces s) (s_ips s) (s_sessions s) (s_rate s) (s_idem s) (s_audit s)
    (s_ledger s) (s_out s) (s_disk s) (s_markets s) (s_lendora s) x (s_evm_sent s) (s_http s) (s_reads s).
Definition set_evm_sent (x : list (Z * EthTx)) (s : srv) : srv :=
  mkSrv (s_static s) (s_tenants s) (s_nonces s) (s_ips s) (s_sessions s) (s_rate s) (s_idem s) (s_audit s)
    (s_ledger s) (s_out s) (s_disk s) (s_markets s) (s_lendora s) (s_sent s) x (s_http s) (s_reads s).
Definition set_reads (x : nat) (s : srv) : srv :=
  mkSrv (s_static s) (s_tenants s) (s_nonces s) (s_ips s) (s_sessions s) (s_rate s) (s_idem s) (s_audit s)
    (s_ledger s) (s_out s) (s_disk s) (s_markets s) (s_lendora s) (s_sent s) (s_evm_sent s) (s_http s) x.

Definition set_lendora (x : lendora.Cache) (s : srv) : srv :=
  mkSrv (s_static s) (s_tenants s) (s_nonces s) (s_ips s) (s_sessions s) (s_rate s) (s_idem s) (s_audit s)
    (s_ledger s) (s_out s) (s_disk s) (s_markets s) x (s_sent s) (s_evm_sent s) (s_http s) (s_reads s).

Definition set_http (x : list HttpRequest) (s : srv) : srv :=
  mkSrv (s_static s) (s_tenants s) (s_nonces s) (s_ips s) (s_sessions s) (s_rate s) (s_idem s) (s_audit s)
    (s_ledger s) (s_out s) (s_disk s) (s_markets s) (s_lendora s) (s_sent s) (s_evm_sent s) x (s_reads s).

(** ** Primitive computations *)

(** The next interaction with the outside world. *)
Definition tick : M srv nat := fun s => (Ok (s_reads s), set_reads (S (s_reads s)) s).

Definition fail {A} (e : goerr) : M srv A := fun s => (Err e, s).

(** A computation given by its state transformer. *)
Definition run_state {A} (f : srv -> result A * srv) : M srv A := f.

Definition get {A} (f : srv -> A) : M srv A := fun s => (Ok (f s), s).

Definition modify (f : srv -> srv) : M srv unit := fun s => (Ok tt, f s).

(** A computation whose error is rewrapped, the state kept. *)
Definition wrapM {A} (f : goerr -> goerr) (m : M srv A) : M srv A := fun s => let '(r, s') := m s in (wrap f r, s').

(** The error of a computation is dropped, the state kept. *)
Definition ignore {A} (m : M srv A) : M srv unit := fun s => let '(_, s') := m s in (Ok tt, s').

(** The engine of the server: the static table and the live tenant store. *)
Definition engine (s : srv) : Engine DynamicTenantStore := mkEngine (s_static s) (Some (s_tenants s)).

(** ** The request context *)

Record TenantContext : Type := mkTenantContext { tc_TenantID : string; tc_Owner : string }.

Record context : Type := mkContext {
  ctx_tenant : option TenantContext;
  ctx_ip : option string;
  ctx_session : option string;
}.

Definition background : context := mkContext None None None.
Definition WithTenant (ctx : context) (tc : TenantContext) : context :=
  mkContext (Some tc) (ctx_ip ctx) (ctx_session ctx).
Definition TenantFrom (ctx : context) : option TenantContext := ctx_tenant ctx.
Definition WithIP (ctx : context) (ip : string) : context :=
  mkContext (ctx_tenant ctx) (Some ip) (ctx_session ctx).
Definition IPFrom (ctx : context) : string := default EmptyString (ctx_ip ctx).
Definition WithSessionID (ctx : context) (sid : string) : context :=
  mkContext (ctx_tenant ctx) (ctx_ip ctx) (Some sid).
Definition SessionIDFrom (ctx : context) : string := default EmptyString (ctx_session ctx).

Definition ErrNoTenant : goerr :=
  ErrNew ("authentication required: this tool needs a bearer token. Complete the handshake, then retry:
  1) call the svpchain-signer MCP server's whoami tool to get your svp1… owner address
  2) call auth_challenge with that owner address
  3) sign the returned `challenge` with the svpchain-signer MCP server's sign_challenge tool
  4) call auth_verify with the nonce and the base64 signature
The minted bearer binds to this MCP session automatically — after auth_verify, just call this tool again.").

Definition userErrf (format : string) (args : list fmtarg) : goerr := Errorf format args.

Section Prelude.
Context {E : Env}.

Definition now : M srv Time := n ← tick; mret (env_clock n).

(** A call of the policy engine, which reads the clock of the tenant store. *)
Definition policy {A} (f : Time -> Engine DynamicTenantStore -> result A) : M srv A :=
  t ← now; e ← get engine; lift (f t e).

Definition rate_allow (key : string) : M srv bool :=
  t ← now;
  run_state (fun s => let '(ok, r) := AllowKey key t (s_rate s) in (Ok ok, set_rate r s)).

Definition authorize (ctx : context) (tool : string) : M srv TenantPolicy :=
  match TenantFrom ctx with
  | None => fail ErrNoTenant
  | Some tc =>
      _ ← policy (CheckTenant (tc_TenantID tc));
      tp ← policy (Tenant (tc_TenantID tc));
      ok ← rate_allow (tool +:+ ":" +:+ tc_TenantID tc)%string;
      if negb ok then fail (userErrf "rate limit exceeded" []) else mret tp
  end.

Definition authorizeOwner (ctx : context) (tool ownerAddr : string) : M srv TenantPolicy :=
  tp ← authorize ctx tool;
  _ ← policy (CheckOwner (tp_TenantID tp) ownerAddr);
  mret tp.

Definition authorizeSubaccount (ctx : context) (tool : string) (sub : Z) : M srv TenantPolicy :=
  tp ← authorize ctx tool;
  _ ← policy (CheckSubaccount (tp_TenantID tp) sub);
  mret tp.

End Prelude.

(** ** Lemmas *)

Lemma wrapM_ok {A} f (m : M srv A) s a s' : wrapM f m s = (Ok a, s') -> m s = (Ok a, s').
Proof. unfold wrapM. destruct (m s) as [[x|e] s1]; [|done]. by intros [= <- <-]. Qed.

Context {E : Env}.

Lemma now_eq s : now s = (Ok (env_clock (s_reads s)), set_reads (S (s_reads s)) s).
Proof. done. Qed.

Lemma policy_eq {A} (f : Time -> Engine DynamicTenantStore -> result A) s :
  policy f s = (f (env_clock (s_reads s)) (engine s), set_reads (S (s_reads s)) s).
Proof. done. Qed.

Lemma rate_allow_eq key s :
  rate_allow key s
  = (Ok (fst (AllowKey key (env_clock (s_reads s)) (s_rate s))),
     set_rate (snd (AllowKey key (env_clock (s_reads s)) (s_rate s))) (set_reads (S (s_reads s)) s)).
Proof.
  unfold rate_allow, mbind, M_bind. rewrite now_eq. unfold run_state.
  change (s_rate (set_reads (S (s_reads s)) s)) with (s_rate s).
  by destruct (AllowKey key (env_clock (s_reads s)) (s_rate s)).
Qed.

(** What the prelude may change: the rate buckets and the counter. *)
Definition same_stores (s s' : srv) : Prop :=
  exists n r, s' = set_rate r (set_reads n s).

Lemma same_stores_refl s : same_stores s s.
Proof. exists (s_reads s), (s_rate s). by destruct s. Qed.

Lemma same_stores_trans s1 s2 s3 : same_stores s1 s2 -> same_stores s2 s3 -> same_stores s1 s3.
Proof. intros (n & r & ->) (n' & r' & ->). by exists n', r'. Qed.

(** The clock reading of the interaction number [k] from a state on. *)
Definition reading (s : srv) (k : nat) : Time := env_clock (s_reads s + k).

(** [k] interactions later, only the rate buckets touched. *)
Definition later (k : nat) (s s' : srv) : Prop := exists r, s' = set_rate r (set_reads (s_reads s + k) s).

Lemma later_trans k k' s1 s2 s3 : later k s1 s2 -> later k' s2 s3 -> later (k + k') s1 s3.
Proof. intros (r & ->) (r' & ->). exists r'. cbn [s_reads set_rate set_reads]. by rewrite Nat.add_assoc. Qed.

Lemma later_same k s s' : later k s s' -> same_stores s s'.
Proof. intros (r & ->). by exists (s_reads s + k)%nat, r. Qed.

Lemma later_reading k s s' j : later k s s' -> reading s' j = reading s (k + j) /\ engine s' = engine s.
Proof. intros (r & ->). unfold reading. cbn [s_reads set_rate set_reads]. by rewrite Nat.add_assoc. Qed.

(** The tenant of a request that may act: that of its context, whose policy is in
    force when the prelude checks it and when it reads it, and is not
    kill-switched. *)
Definition authorized (ctx : context) (tp : TenantPolicy) (s : srv) : Prop :=
  exists tc, TenantFrom ctx = Some tc /\ in_force (tc_TenantID tc) (reading s 0) tp (engine s)
  /\ in_force (tc_TenantID tc) (reading s 1) tp (engine s) /\ tp_KillSwitch tp = false.

Lemma policy_later {A} (f : Time -> Engine DynamicTenantStore -> result A) s a s' :
  policy f s = (Ok a, s') -> f (reading s 0) (engine s) = Ok a /\ later 1 s s'.
Proof.
  rewrite policy_eq. intros [= H <-]. unfold reading. rewrite Nat.add_0_r. split; [done|].
  exists (s_rate s). rewrite Nat.add_1_r. by destruct s.
Qed.

Lemma authorize_ok ctx tool s tp s' : authorize ctx tool s = (Ok tp, s') -> authorized ctx tp s /\ later 3 s s'.
Proof.
  unfold authorize. destruct (TenantFrom ctx) as [tc|] eqn:Ec; [|done]. intros H.
  m_inv H as u s1 H1. apply policy_later in H1 as [H1 L1]. destruct u.
  m_inv H as tp' s2 H2. apply policy_later in H2 as [H2 L2]. destruct (later_reading _ _ _ 0 L1) as [Er Ee]. rewrite Er, Ee in H2.
  m_inv H as ok s3 H3. rewrite rate_allow_eq in H3. injection H3 as <- <-.
  destruct (negb _); [done|]. injection H as <- <-. pose proof (later_trans _ _ _ _ _ L1 L2) as (r & ->).
  apply CheckTenant_ok in H1 as (tp1 & H1 & Hk). apply Tenant_in_force in H2. pose proof (in_force_fun _ _ _ _ _ _ H1 H2) as ->.
  split; [by exists tc|]. eexists. cbn [s_reads set_rate set_reads]. by rewrite <- Nat.add_succ_r.
Qed.

Lemma authorizeSubaccount_ok ctx tool sub s tp s' :
  authorizeSubaccount ctx tool sub s = (Ok tp, s') ->
  authorized ctx tp s /\ CheckSubaccount (tp_TenantID tp) sub (reading s 3) (engine s) = Ok tt /\ later 4 s s'.
Proof.
  intros H. unfold authorizeSubaccount in H. m_inv H as tp' s1 H1. apply authorize_ok in H1 as [Ha L1].
  m_inv H as u s2 H2. apply policy_later in H2 as [H2 L2]. injection H as -> <-. destruct u.
  destruct (later_reading _ _ _ 0 L1) as [Er Ee]. rewrite Er, Ee in H2. split_and!; [done..|].
  exact (later_trans _ _ _ _ _ L1 L2).
Qed.

End State.

(** ** A concrete server for evaluations: a clock that advances one nanosecond
    per interaction, distinct random draws, a limiter that always allows, a node
    that accepts. *)
Definition demo_rate : RateLib := {|
  rate_Limit := Z; rate_is_zero := fun z => z =? 0; rate_zero := 0; rate_ten := 10;
  rate_Limiter := unit; rate_NewLimiter := fun _ _ => tt; rate_Allow := fun _ l => (true, l) |}.

Definition demo_env : Env := {|
  env_clock := Z.of_nat;
  env_rand := fun n => Ok [chr (Z.of_nat n)];
  env_io := fun _ => IOok;
  env_write := fun _ => Ok tt;
  env_range := fun _ m => map_to_list m;
  env_account := fun _ _ => Ok (3, 9);
  env_broadcast := fun _ _ => Ok (mkBroadcastResult "HASH" 0 "");
  env_evm_send := fun _ _ _ => Ok "0xhash"%string;
  env_error_text := fun _ => "node error"%string |}.

Lemma demo_env_laws : EnvLaws demo_env.
Proof. constructor. done. Qed.

Definition demo_srv : srv (RL := demo_rate) :=
  {| s_static := ∅;
     s_tenants := NewDynamicTenantStore demo_cfg;
     s_nonces := NewNonceStore DefaultChallengeTTL;
     s_ips := NewIPRateLimiter DefaultIPChallengeRate DefaultIPChallengeWindow;
     s_sessions := Some (NewSessionBearers DefaultBearerTTL);
     s_rate := @NewRateLimiter demo_rate 0 0;
     s_idem := NewIdempotency 0;
     s_audit := [];
     s_ledger := Some (NewMemoryLedger 1);
     s_out := Some (fst (setCapLocked IOok "svp1a" (mkSymbolCap "svp" 18 (Some 1000)) NewMemoryTransferOutStore ∅));
     s_disk := ∅;
     s_markets := NewCache 0;
     s_lendora := lendora.demo_new;
     s_sent := [];
     s_evm_sent := [];
     s_http := [];
     s_reads := 0 |}.
