(* ===== verification/AuthTools.v ===== *)
(** * Logging in: the auth tools and the middleware
      (auth/recover.go, tools/auth_tools.go, tools/authgate.go,
       cmd/mcp-server/auth.go, mcp_auth.go, server.go) *)

From S2P Require Import Prelude GoStrings GoNum GoTime GoEncoding Limits TransferOut Challenge NonceStore.
From S2P Require Import IPRateLimiter SessionBearers DynamicTenants Policy Markets ChainLib Payload Server.

(** ** The client address (net.SplitHostPort on the remote address) *)

Definition has_byte (c : ascii) (s : bytes) : bool := bool_decide (c ∈ s).

(** Split at the last occurrence of a byte. *)
Definition cut_last (c : ascii) (s : bytes) : option (bytes * bytes) :=
  match cut_l c (rev s) with
  | (y, Some x) => Some (rev x, rev y)
  | (_, None) => None
  end.

Definition addrErr (s msg : string) : goerr := Errorf "address %s: %s" [FStr s; FStr msg].

Definition SplitHostPort (hostport : string) : result (string * string) :=
  let l := chars hostport in
  match cut_last ":" l with
  | None => Err (addrErr hostport "missing port in address")
  | Some (before, port) =>
      match l with
      | c :: l' =>
          if Ascii.eqb c "[" then
            match cut_l "]" l' with
            | (_, None) => Err (addrErr hostport "missing ']' in address")
            | (host, Some rest) =>
                match rest with
                | [] => Err (addrErr hostport "missing port in address")
                | _ :: rest' =>
                    if bool_decide (before = c :: host ++ ["]"%char]) then
                      if has_byte "[" l' then Err (addrErr hostport "unexpected '[' in address")
                      else if has_byte "]" rest then Err (addrErr hostport "unexpected ']' in address")
                      else Ok (str host, str port)
                    else if bool_decide (head rest = Some ":"%char) then
                      Err (addrErr hostport "too many colons in address")
                    else Err (addrErr hostport "missing port in address")
                end
            end
          else if has_byte ":" before then Err (addrErr hostport "too many colons in address")
          else if has_byte "[" l then Err (addrErr hostport "unexpected '[' in address")
          else if has_byte "]" l then Err (addrErr hostport "unexpected ']' in address")
          else Ok (str before, str port)
      | [] => Err (addrErr hostport "missing port in address")
      end
  end.

Definition ipHeader : string := "X-Mcp-Client-Ip".

(** http.Header, keyed by canonical names; [Get] of an absent name is empty. *)
Abbreviation Header := (gmap string string) (only parsing).
Definition header_get (h : Header) (k : string) : string := default EmptyString (h !! k).

Definition clientIP (remoteAddr : string) : string :=
  match SplitHostPort remoteAddr with Ok (host, _) => host | Err _ => "" end.

(** The headers the next handler sees. *)
Definition ipMiddleware (remoteAddr : string) (h : Header) : Header :=
  let ip := clientIP remoteAddr in
  if negb (String.eqb ip "") then <[ipHeader := ip]> h else delete ipHeader h.

(** ** Recovering the signer *)

Definition RecoverOwner {L : ChainLib} (message : string) (signature : bytes) : result string :=
  if negb (Z.of_nat (List.length signature) =? 65) then
    Err (Errorf "signature must be 65 bytes (got %d)" [FInt (Z.of_nat (List.length signature))])
  else
    let hash := Keccak256 (chars message) in
    pub ← wrap (fun e => Errorf "recover pubkey: %w" [FErr e]) (SigToPub hash signature);
    Ok (AccAddress_String (PubkeyToAddress pub)).

(** ** The gate *)

Definition RequiresAuth (toolName : string) : bool :=
  if String.eqb toolName "auth_challenge" || String.eqb toolName "auth_verify" then false else true.

(** A request as the middleware sees it: the headers of its [Extra], if any,
    its method, and the tool a [tools/call] names. *)
Record request : Type := mkRequest {
  rq_header : option Header;
  rq_method : string;
  rq_tool : option string;
}.

(** The soft result of an unauthenticated call ([AuthRequiredResult]), or the
    context the next handler runs in. *)
Inductive gate : Type := AuthRequired | Forward (ctx : context).

Record AuthChallengeOutput : Type := mkAuthChallengeOutput {
  ac_Challenge : string;
  ac_Nonce : string;
  ac_ExpiresAt : Z;
}.

Record AuthVerifyOutput : Type := mkAuthVerifyOutput {
  av_BearerToken : string;
  av_Owner : string;
  av_ExpiresAt : Z;
}.

Section Auth.
Context {RL : RateLib} {E : Env} {L : ChainLib}.

Definition LookupTenantByToken (token : string) : M srv (option TenantContext) :=
  t ← now;
  run_state (fun s =>
    match LookupByBearer token t (s_tenants s) with
    | Err _ => (Ok None, s)
    | Ok rec => (Ok (Some (mkTenantContext (tr_TenantID rec) (tr_Owner rec))), s)
    end).

Definition session_lookup (sid : string) : M srv string :=
  t ← now;
  run_state (fun s => (Ok (match s_sessions s with Some b => SessionBearers.Lookup sid t b | None => ""%string end), s)).

(** Path 1: an explicit bearer. *)
Definition resolve_bearer (h : Header) : M srv (option TenantContext) :=
  let '(token, found) := CutPrefix (header_get h "Authorization") "Bearer " in
  if found then LookupTenantByToken token else mret None.

(** Path 2: the bearer bound to the session. *)
Definition resolve_session (sessionID : string) : M srv (option TenantContext) :=
  sessions ← get s_sessions;
  if negb (String.eqb sessionID "") && bool_decide (is_Some sessions) then
    bearer ← session_lookup sessionID;
    if negb (String.eqb bearer "") then LookupTenantByToken bearer else mret None
  else mret None.

Definition resolve (h : Header) (ctx : context) : M srv context :=
  let ip := header_get h ipHeader in
  let ctx := if negb (String.eqb ip "") then WithIP ctx ip else ctx in
  let sessionID := header_get h "Mcp-Session-Id" in
  let ctx := if negb (String.eqb sessionID "") then WithSessionID ctx sessionID else ctx in
  r1 ← resolve_bearer h;
  match r1 with
  | Some tc => mret (WithTenant ctx tc)
  | None =>
      r2 ← resolve_session sessionID;
      mret (match r2 with Some tc => WithTenant ctx tc | None => ctx end)
  end.

Definition authReceivingMiddleware (ctx : context) (req : request) : M srv gate :=
  ctx' ← (match rq_header req with Some h => resolve h ctx | None => mret ctx end);
  let gated :=
    String.eqb (rq_method req) "tools/call"
    && match rq_tool req with Some name => RequiresAuth name | None => false end in
  if gated && bool_decide (TenantFrom ctx' = None) then mret AuthRequired else mret (Forward ctx').

(** ** auth_challenge *)

Definition ip_allow (ip : string) : M srv bool :=
  t ← now;
  run_state (fun s => let '(ok, l) := IPRateLimiter.Allow ip t (s_ips s) in (Ok ok, set_ips l s)).

Definition issue (owner : string) : M srv (string * Time) :=
  n ← tick; t ← now;
  run_state (fun s => let '(r, ns) := Issue owner (env_rand n) t (s_nonces s) in (r, set_nonces ns s)).

Definition AuthChallenge (chainID : string) (ctx : context) (owner : string) : M srv AuthChallengeOutput :=
  ok ← ip_allow (IPFrom ctx);
  if negb ok then fail (userErrf "rate limit exceeded" [])
  else if String.eqb owner "" then fail (Errorf "owner is required" [])
  else
    '(nonce, exp) ← wrapM (fun e => Errorf "issue nonce: %w" [FErr e]) (issue owner);
    mret (mkAuthChallengeOutput (BuildChallenge chainID nonce exp) nonce (Unix exp)).

(** ** auth_verify *)

Definition consume (nonce : string) : M srv (string * Time) :=
  t ← now;
  run_state (fun s => let '(r, ns) := Consume nonce t (s_nonces s) in (r, set_nonces ns s)).

Definition goerr_is (e sentinel : goerr) : bool :=
  match e, sentinel with ErrNew a, ErrNew b => String.eqb a b | _, _ => false end.

Definition consume_error (e : goerr) : goerr :=
  if goerr_is e ErrNonceNotFound then Errorf "nonce not found or already used" []
  else if goerr_is e ErrNonceExpired then Errorf "nonce expired; re-run auth_challenge" []
  else e.

Definition mint (owner : string) : M srv (string * string * Time) :=
  n1 ← tick; n2 ← tick; t ← now;
  run_state (fun s => let '(r, ts) := Mint owner (env_rand n1) (env_rand n2) t (s_tenants s) in (r, set_tenants ts s)).

Definition bind_session (sid bearer : string) : M srv unit :=
  t ← now;
  modify (fun s => set_sessions (Bind sid bearer t <$> s_sessions s) s).

Definition AuthVerify (chainID : string) (ctx : context) (nonce signature : string) : M srv AuthVerifyOutput :=
  '(boundOwner, expiresAt) ← wrapM consume_error (consume nonce);
  sig ← lift (wrap (fun e => Errorf "decode signature base64: %w" [FErr e]) (Base64Decode signature));
  let challenge := BuildChallenge chainID nonce expiresAt in
  recovered ← lift (wrap (fun e => Errorf "recover address from signature: %w" [FErr e]) (RecoverOwner challenge sig));
  if negb (String.eqb recovered boundOwner) then
    fail (Errorf "recovered address does not match the owner this nonce was issued to" [])
  else
    '(bearer, _, exp) ← wrapM (fun e => Errorf "mint tenant: %w" [FErr e]) (mint boundOwner);
    _ ← bind_session (SessionIDFrom ctx) bearer;
    mret (mkAuthVerifyOutput bearer boundOwner (Unix exp)).

End Auth.

(** ** Lemmas *)

Section AuthLemmas.
Context {RL : RateLib} {E : Env} {L : ChainLib}.

(** Only the counter moves. *)
Definition only_reads (s s' : srv) : Prop := exists n, s' = set_reads n s.

Lemma only_reads_trans s1 s2 s3 : only_reads s1 s2 -> only_reads s2 s3 -> only_reads s1 s3.
Proof. intros [n ->] [n' ->]. by exists n'. Qed.

Lemma lookup_token_inv token s r s' :
  LookupTenantByToken token s = (Ok r, s') ->
  s' = set_reads (S (s_reads s)) s
  /\ forall tc, r = Some tc -> exists rec, bears token (reading s 0) rec (s_tenants s)
     /\ tc = mkTenantContext (tr_TenantID rec) (tr_Owner rec).
Proof.
  intros H. unfold LookupTenantByToken in H. m_inv H as t s1 H1. rewrite now_eq in H1. injection H1 as <- <-.
  unfold run_state in H. cbn [s_tenants set_reads] in H. unfold reading. rewrite Nat.add_0_r.
  destruct (LookupByBearer token (env_clock (s_reads s)) (s_tenants s)) as [rec|] eqn:El; injection H as <- <-;
    (split; [done|]); intros tc Htc; simplify_eq. exists rec. split; [by apply LookupByBearer_bears|done].
Qed.

(** The request presents a bearer of the record that is live when the middleware
    looks it up: one in the Authorization header, looked up at its first clock
    reading, or one its session is bound to, the binding live at the next reading
    and the bearer at the one after. *)
Definition presents (s : srv) (h : Header) (rec : TenantRecord) : Prop :=
  (exists bearer, (header_get h "Authorization" = "Bearer " +:+ bearer)%string /\ bears bearer (reading s 0) rec (s_tenants s))
  \/ (exists b bearer, let k := if snd (CutPrefix (header_get h "Authorization") "Bearer ") then 1%nat else 0%nat in
      s_sessions s = Some b /\ bearer <> EmptyString
      /\ bound_to (header_get h "Mcp-Session-Id") (reading s k) bearer b /\ bears bearer (reading s (S k)) rec (s_tenants s)).

(** Where a resolved tenant came from. *)
Definition resolved_by (s : srv) (h : Header) (tc : TenantContext) : Prop :=
  exists rec, presents s h rec /\ tc = mkTenantContext (tr_TenantID rec) (tr_Owner rec).

Lemma CutPrefix_true s p r : CutPrefix s p = (r, true) -> s = (p +:+ r)%string.
Proof.
  unfold CutPrefix. destruct (strip_prefix (chars p) (chars s)) as [x|] eqn:Ex; [|done]. intros [= <-].
  apply strip_prefix_Some in Ex. apply chars_inj. by rewrite chars_app, chars_str.
Qed.

Lemma resolve_bearer_inv h s r s' :
  resolve_bearer h s = (Ok r, s') ->
  s' = set_reads (s_reads s + if snd (CutPrefix (header_get h "Authorization") "Bearer ") then 1 else 0) s
  /\ forall tc, r = Some tc -> resolved_by s h tc.
Proof.
  unfold resolve_bearer. destruct (CutPrefix _ _) as [token found] eqn:Ec. cbn [snd]. destruct found.
  - intros H. apply lookup_token_inv in H as [-> Hr]. rewrite Nat.add_1_r. split; [done|]. intros tc Htc.
    destruct (Hr tc Htc) as (rec & Hl & ->). exists rec. split; [|done]. left. exists token. split; [by apply CutPrefix_true|done].
  - intros [= <- <-]. rewrite Nat.add_0_r. split; [by destruct s|done].
Qed.

(** The session is asked after the header, at the reading [k]. *)
Lemma resolve_session_inv sid s r s' :
  resolve_session sid s = (Ok r, s') ->
  only_reads s s' /\ forall tc, r = Some tc -> exists b bearer rec, s_sessions s = Some b /\ bearer <> EmptyString
    /\ bound_to sid (reading s 0) bearer b /\ bears bearer (reading s 1) rec (s_tenants s)
    /\ tc = mkTenantContext (tr_TenantID rec) (tr_Owner rec).
Proof.
  assert (only_reads s s) as Hrefl by (exists (s_reads s); by destruct s).
  intros H. unfold resolve_session in H. m_inv H as ss s1 H1. unfold get in H1. injection H1 as <- <-.
  destruct (negb _ && _) eqn:Eg; [|by injection H as <- <-].
  apply andb_true_iff in Eg as [_ Eg%bool_decide_eq_true]. destruct Eg as [b Eb].
  m_inv H as bearer s2 H2. unfold session_lookup in H2. m_inv H2 as t s3 H3. rewrite now_eq in H3.
  injection H3 as <- <-. unfold run_state in H2. cbn [s_sessions set_reads] in H2. rewrite Eb in H2.
  injection H2 as <- <-. destruct (String.eqb_spec (Lookup sid (env_clock (s_reads s)) b) "") as [E0|E0];
    cbn [negb] in H; [injection H as <- <-; split; [by eexists|done]|].
  apply lookup_token_inv in H as [-> Hr]. split; [by eexists|].
  intros tc Htc. destruct (Hr tc Htc) as (rec & Hl & ->). unfold reading in *. cbn [s_reads set_reads s_tenants] in Hl.
  exists b, (Lookup sid (env_clock (s_reads s)) b), rec. rewrite Nat.add_0_r in *. rewrite Nat.add_1_r.
  split_and!; [done..| |done|done]. by apply Lookup_bound.
Qed.

Lemma resolve_inv h ctx s ctx' s' :
  resolve h ctx s = (Ok ctx', s') -> ctx_tenant ctx = None ->
  only_reads s s' /\ forall tc, TenantFrom ctx' = Some tc -> resolved_by s h tc.
Proof.
  intros H Hc. unfold resolve in H. m_inv H as r1 s1 H1. apply resolve_bearer_inv in H1 as [-> Hr1].
  destruct r1 as [tc1|].
  - injection H as <- <-. split; [by eexists|]. intros tc [= <-]. by apply Hr1.
  - m_inv H as r2 s2 H2. apply resolve_session_inv in H2 as [Ho2 Hr2]. injection H as <- <-.
    split; [eapply only_reads_trans; [by eexists|done]|]. intros tc Htc.
    destruct r2 as [tc2|].
    + injection Htc as <-. destruct (Hr2 tc2 eq_refl) as (b & bearer & rec & Hb & Hne & Hbd & Hl & ->).
      exists rec. split; [|done]. right. exists b, bearer. cbn [s_sessions s_tenants set_reads] in *.
      unfold reading in *. cbn [s_reads set_reads] in *. rewrite <- !Nat.add_assoc in *. rewrite Nat.add_0_r in Hbd.
      rewrite Nat.add_1_r in Hl. by split_and!.
    + exfalso. unfold TenantFrom, WithSessionID, WithIP in Htc.
      destruct (negb _), (negb _); cbn in Htc; congruence.
Qed.

(** The inversion of a successful [AuthVerify]. *)
Lemma AuthVerify_inv chainID ctx nonce signature s out s' :
  AuthVerify chainID ctx nonce signature s = (Ok out, s') ->
  exists exp sig tid bexp,
    Consume nonce (reading s 0) (s_nonces s) = (Ok (av_Owner out, exp), s_nonces s')
    /\ Base64Decode signature = Ok sig
    /\ RecoverOwner (BuildChallenge chainID nonce exp) sig = Ok (av_Owner out)
    /\ Mint (av_Owner out) (env_rand (s_reads s + 1)) (env_rand (s_reads s + 2)) (reading s 3) (s_tenants s)
       = (Ok (av_BearerToken out, tid, bexp), s_tenants s')
    /\ s_sessions s' = Bind (SessionIDFrom ctx) (av_BearerToken out) (reading s 4) <$> s_sessions s
    /\ av_ExpiresAt out = Unix bexp.
Proof.
  intros H. unfold AuthVerify in H. m_inv H as oe s1 H1. apply wrapM_ok in H1.
  unfold consume in H1. m_inv H1 as t s1' H1'. rewrite now_eq in H1'. injection H1' as <- <-.
  unfold run_state in H1. cbn [s_nonces set_reads] in H1.
  destruct (Consume nonce (env_clock (s_reads s)) (s_nonces s)) as [r ns] eqn:Ec. injection H1 as -> <-.
  destruct oe as [owner exp]. m_inv H as sig s2 H2. apply lift_ok in H2 as [H2%wrap_ok ->].
  m_inv H as rec s3 H3. apply lift_ok in H3 as [H3%wrap_ok ->].
  destruct (String.eqb_spec rec owner) as [->|]; cbn [negb] in H; [|done].
  m_inv H as bte s4 H4. apply wrapM_ok in H4. unfold mint in H4.
  m_inv H4 as n1 s5 H5. injection H5 as <- <-. m_inv H4 as n2 s6 H6. injection H6 as <- <-.
  m_inv H4 as t3 s7 H7. rewrite now_eq in H7. injection H7 as <- <-. unfold run_state in H4.
  cbn [s_tenants set_reads set_nonces s_reads] in H4.
  match type of H4 with context [Mint owner ?b ?c ?t (s_tenants s)] =>
    destruct (Mint owner b c t (s_tenants s)) as [r ts] eqn:Em end.
  injection H4 as -> <-. destruct bte as [[bearer tid] bexp]. unfold reading. rewrite Nat.add_0_r, Nat.add_1_r, !Nat.add_succ_r, Nat.add_0_r.
  m_inv H as u s8 H8. unfold bind_session in H8. m_inv H8 as t4 s9 H9. rewrite now_eq in H9. injection H9 as <- <-.
  unfold modify in H8. injection H8 as <- <-. injection H as <- <-. cbn.
  by eexists _, _, _, _.
Qed.

Lemma Mint_lookup owner r1 r2 t s bearer tid exp s' now' :
  Mint owner r1 r2 t s = (Ok (bearer, tid, exp), s') -> now' < exp ->
  LookupByBearer bearer now' s' = Ok (mkTenantRecord tid owner (dt_defaultAllowedSubaccounts s) false exp)
  /\ exp = t + dt_ttl s.
Proof.
  unfold Mint. destruct (String.eqb owner ""); [done|]. destruct r1 as [bb|]; [|done]. destruct r2 as [tb|]; [|done].
  intros [= <- <- <- <-] Hlt. unfold LookupByBearer. cbn. rewrite !lookup_insert_eq. unfold Before.
  cbn. by rewrite (proj2 (Z.ltb_lt _ _) Hlt).
Qed.

End AuthLemmas.

Lemma middleware_inv {RL : RateLib} {E : Env} (ctx : context) (req : request) (s s' : srv) (ctx' : context) :
  ctx_tenant ctx = None -> authReceivingMiddleware ctx req s = (Ok (Forward ctx'), s') ->
  (rq_method req = "tools/call"%string -> forall tool, rq_tool req = Some tool -> RequiresAuth tool = true ->
     TenantFrom ctx' <> None)
  /\ (forall tc, TenantFrom ctx' = Some tc -> exists h, rq_header req = Some h /\ resolved_by s h tc)
  /\ only_reads s s'.
Proof.
  intros Hctx H. unfold authReceivingMiddleware in H. m_inv H as c1 s1 H1.
  assert (only_reads s s1 /\ forall tc, TenantFrom c1 = Some tc -> exists h, rq_header req = Some h /\ resolved_by s h tc)
    as [Ho Hr].
  { destruct (rq_header req) as [h|].
    - apply resolve_inv in H1 as [Ho Hr]; [|done]. split; [done|]. intros tc Htc. eauto.
    - injection H1 as <- <-. split; [exists (s_reads s); by destruct s|]. intros tc Htc. unfold TenantFrom in Htc. congruence. }
  destruct (_ && bool_decide (TenantFrom c1 = None)) eqn:Eg; [done|]. injection H as <- <-.
  split_and!; [|done|done]. intros Hm tool Ht Hreq Hn.
  rewrite Hm, Ht, Hreq, bool_decide_eq_true_2 in Eg by done. done.
Qed.

(** ** Claims *)

(** The address the rate limiter sees is the peer's: whatever the client put
    in the headers, after the HTTP middleware the address header holds exactly
    the host of the connection (or is absent when it has none), and no other
    header changes. *)
Theorem ip_header_trusted (remoteAddr : string) (h : Header) (k : string) :
  header_get (ipMiddleware remoteAddr h) ipHeader = clientIP remoteAddr
  /\ (k <> ipHeader -> header_get (ipMiddleware remoteAddr h) k = header_get h k).
Proof.
  unfold ipMiddleware, header_get. destruct (String.eqb_spec (clientIP remoteAddr) "") as [->|Hne]; cbn [negb].
  - rewrite lookup_delete_eq. split; [done|]. intros. by rewrite lookup_delete_ne.
  - rewrite lookup_insert_eq. split; [done|]. intros. by rewrite lookup_insert_ne.
Qed.

(** C20: no protected tool runs unauthenticated.  When the middleware lets a
    request through, a call of a tool other than the two handshake tools carries
    a tenant; any tenant in the context is that of a bearer of the tenant
    store, presented in the Authorization header or bound to the session of the
    request, whose expiry (and that of the binding) is still ahead at the clock
    reading with which the middleware looks it up; and the middleware changes no
    store. *)
Theorem middleware_authentic {RL : RateLib} {E : Env} (ctx : context) (req : request) (s s' : srv) (ctx' : context)
    (Hctx : ctx_tenant ctx = None)
    (H : authReceivingMiddleware ctx req s = (Ok (Forward ctx'), s')) :
  (rq_method req = "tools/call"%string -> forall tool, rq_tool req = Some tool -> RequiresAuth tool = true ->
     TenantFrom ctx' <> None)
  /\ (forall tc, TenantFrom ctx' = Some tc -> exists h, rq_header req = Some h /\ resolved_by s h tc)
  /\ only_reads s s'.
Proof. exact (middleware_inv ctx req s s' ctx' Hctx H). Qed.

(** C19: auth_verify is sound.  It issues a bearer only for a nonce stored for that
    owner whose expiry is still ahead at the clock reading with which the call
    consumes it, after a 65-byte signature over the very challenge text of
    that nonce (with the expiry recorded at issue time) recovered to the owner's
    address; the nonce, and no other, is spent in the same step, and the bearer
    stands for the owner, with the default subaccounts and without a kill switch,
    exactly until the time to live after the reading at which it was minted. *)
Theorem AuthVerify_sound {RL : RateLib} {E : Env} {L : ChainLib} (chainID : string) (ctx : context)
    (nonce signature : string) (s s' : srv) (out : AuthVerifyOutput)
    (H : AuthVerify chainID ctx nonce signature s = (Ok out, s')) :
  (exists entry sig, ns_entries (s_nonces s) !! nonce = Some entry /\ ne_owner entry = av_Owner out
     /\ reading s 0 < ne_expiresAt entry /\ Base64Decode signature = Ok sig /\ List.length sig = 65%nat
     /\ RecoverOwner (BuildChallenge chainID nonce (ne_expiresAt entry)) sig = Ok (av_Owner out))
  /\ ns_entries (s_nonces s') = delete nonce (ns_entries (s_nonces s))
  /\ exists rec, av_ExpiresAt out = Unix (tr_ExpiresAt rec) /\ tr_Owner rec = av_Owner out
     /\ tr_AllowedSubaccounts rec = dt_defaultAllowedSubaccounts (s_tenants s) /\ tr_KillSwitch rec = false
     /\ tr_ExpiresAt rec = reading s 3 + dt_ttl (s_tenants s)
     /\ forall now', bears (av_BearerToken out) now' rec (s_tenants s') <-> now' < tr_ExpiresAt rec.
Proof.
  apply AuthVerify_inv in H as (exp & sig & tid & bexp & Hc & Hs & Hr & Hm & _ & Hu).
  unfold Consume in Hc. destruct (ns_entries (s_nonces s) !! nonce) as [entry|] eqn:Ee; [|done].
  unfold Before in Hc. destruct (Z.ltb_spec (reading s 0) (ne_expiresAt entry)); cbn [negb] in Hc; [|done].
  injection Hc as Ho Hx Hns. split_and!.
  - exists entry, sig. rewrite Hx. split_and!; [done..|lia|done| |done]. unfold RecoverOwner in Hr.
    destruct (Z.eqb_spec (Z.of_nat (List.length sig)) 65); [lia|done].
  - by rewrite <- Hns.
  - exists (mkTenantRecord tid (av_Owner out) (dt_defaultAllowedSubaccounts (s_tenants s)) false bexp).
    split_and!; [done..| |].
    + by eapply (Mint_lookup _ _ _ _ _ _ _ _ _ (bexp - 1)) in Hm as [_ Hm]; [|lia].
    + intros now'. split; [by intros (? & _ & _ & ?)|]. intros Hlt. apply LookupByBearer_bears. by eapply Mint_lookup in Hm as [-> _].
Qed.

(** The login of [svp1a] on the demonstration server. *)
Definition demo_challenged : result AuthChallengeOutput * srv (RL := demo_rate) :=
  AuthChallenge (RL := demo_rate) (E := demo_env) "svp-2517-1" background "svp1a" demo_srv.
Definition demo_sig : string := Base64Encode (repeat "x"%char 65).
Abbreviation demo_verified :=
  (AuthVerify (RL := demo_rate) (E := demo_env) (L := demo_lib) "svp-2517-1"
    (WithSessionID background "sess") "01" demo_sig (snd demo_challenged)).
Definition demo_request : request :=
  mkRequest (Some {["Mcp-Session-Id"%string := "sess"%string]}) "tools/call" (Some "broadcast_signed_tx"%string).

Lemma ip_header_trusted_witness :
  header_get (ipMiddleware "10.1.2.3:4711" {[ipHeader := "6.6.6.6"%string]}) ipHeader = "10.1.2.3"%string.
Proof. exact (proj1 (ip_header_trusted "10.1.2.3:4711" {[ipHeader := "6.6.6.6"%string]} "Host")). Defined.

Lemma AuthVerify_sound_witness :
  exists out s', demo_verified = (Ok out, s') /\ av_Owner out = "svp1a"%string
  /\ ns_entries (s_nonces s') = delete "01"%string (ns_entries (s_nonces (snd demo_challenged))).
Proof.
  destruct demo_verified as [r s'] eqn:Ev. destruct r as [out|e]; [|vm_compute in Ev; discriminate].
  exists out, s'. split; [reflexivity|]. split.
  - assert (fst demo_verified = Ok out) as Ho by (by rewrite Ev). vm_compute in Ho. by injection Ho as <-.
  - exact (proj1 (proj2 (AuthVerify_sound (RL := demo_rate) (E := demo_env) (L := demo_lib) "svp-2517-1"
      (WithSessionID background "sess") "01" demo_sig (snd demo_challenged) s' out Ev))).
Defined.

Lemma middleware_authentic_witness :
  exists ctx' s', authReceivingMiddleware (RL := demo_rate) (E := demo_env) background demo_request (snd demo_verified)
    = (Ok (Forward ctx'), s') /\ TenantFrom ctx' <> None.
Proof.
  destruct (authReceivingMiddleware (RL := demo_rate) (E := demo_env) background demo_request (snd demo_verified))
    as [r s'] eqn:Em.
  destruct r as [[|ctx']|e]; [vm_compute in Em; discriminate| |vm_compute in Em; discriminate].
  exists ctx', s'. split; [reflexivity|].
  exact (proj1 (middleware_authentic (RL := demo_rate) (E := demo_env) background demo_request (snd demo_verified) s' ctx'
    eq_refl Em) eq_refl "broadcast_signed_tx" eq_refl eq_refl).
Defined.
