(* ===== verification/Signer.v ===== *)
(** * The signing side (signer/signer.go)

    The helper that holds the private key: it parses a key, signs a payload for
    the Cosmos chain or an EVM payload, and answers the login challenge.  The
    key, signature and marshalling functions of the SDK and of go-ethereum are
    the fields of [SignLib]; [SignLaws] states that what they write is what the
    functions of [ChainLib] read back.  The claims close the circle that the
    server leaves open: what a build tool returned, once signed, is what the
    broadcast tools decode, inspect and charge; only the owner's key signs it;
    and the owner's key always gets through the login. *)

From S2P Require Import Prelude GoStrings GoNum GoTime GoEncoding Challenge NonceStore IPRateLimiter SessionBearers.
From S2P Require Import DynamicTenants Policy Limits TransferOut Markets Units ChainLib Payload Assembler Orders FundsBuilder Builders TxInspect.
From S2P Require Import EVMBuilder Server AuthTools.

(** ** Library types *)

(** signing.SignMode, the two values in use. *)
Inductive SignMode : Type := SIGN_MODE_UNSPECIFIED | SIGN_MODE_DIRECT.

(** txtypes.SignerInfo and txtypes.AuthInfo as the signer fills them. *)
Record SignerEntry : Type := mkSignerEntry {
  sg_PublicKey : AnyMsg;
  sg_Mode : SignMode;
  sg_Sequence : Z;
}.

Record AuthInfo : Type := mkAuthInfo {
  ai_SignerInfos : list SignerEntry;
  ai_FeeAmount : list Coin;
  ai_GasLimit : Z;
}.

(** ethtypes.DynamicFeeTx *)
Record DynamicFeeTx : Type := mkDynamicFeeTx {
  df_ChainID : Z;
  df_Nonce : Z;
  df_GasTipCap : Z;
  df_GasFeeCap : Z;
  df_Gas : Z;
  df_To : Address;
  df_Value : Z;
  df_Data : bytes;
}.

(** ethsecp256k1.PrivKey: its key bytes. *)
Record PrivKey : Type := mkPrivKey { pk_Key : bytes }.

Class SignLib (L : ChainLib) : Type := {
  PrivKey_PubKey : PrivKey -> option PubKey;        (* nil for bytes that are no scalar of the curve *)
  PubKey_Bytes : PubKey -> bytes;
  PrivKey_Sign : PrivKey -> bytes -> result bytes;
  NewAnyPubKey : PubKey -> result AnyMsg;
  MarshalAuthInfo : AuthInfo -> result bytes;
  MarshalTxRaw : TxRaw -> result bytes;
  EcdsaKey : Type;
  ToECDSA : bytes -> result EcdsaKey;
  ecdsa_Public : EcdsaKey -> EthPubKey;
  SignedEthTx : Type;
  EthSignTx : DynamicFeeTx -> Z -> EcdsaKey -> result SignedEthTx;   (* signer of the chain id *)
  SignedEthTx_MarshalBinary : SignedEthTx -> result bytes;
}.

(** The integers of a message within their wire types, and no coin without an
    amount: the messages protobuf carries unchanged. *)
Definition is_u32 (z : Z) : bool := (0 <=? z) && (z <? 2 ^ 32).

Definition sub_exact (s : SubaccountId) : bool := is_u32 (sa_Number s).
Definition oid_exact (o : OrderId) : bool :=
  sub_exact (oid_SubaccountId o) && is_u32 (oid_ClientId o) && is_u32 (oid_OrderFlags o) && is_u32 (oid_ClobPairId o).
Definition til_exact (g : GoodTil) : bool := match g with GoodTilBlock b => is_u32 b | GoodTilBlockTime t => is_u32 t end.

Definition wire_exact (m : Msg) : bool :=
  match m with
  | MsgPlaceOrder o =>
      oid_exact (o_OrderId o) && is_u64 (o_Quantums o) && is_u64 (o_Subticks o)
      && is_u64 (o_ConditionalOrderTriggerSubticks o) && til_exact (o_GoodTilOneof o)
  | MsgCancelOrder oid g => oid_exact oid && til_exact g
  | MsgBatchCancel sid bs b =>
      sub_exact sid && forallb (fun x => is_u32 (ob_ClobPairId x) && forallb is_u32 (ob_ClientIds x)) bs && is_u32 b
  | MsgDepositToSubaccount _ r a q => sub_exact r && is_u32 a && is_u64 q
  | MsgWithdrawFromSubaccount s _ a q => sub_exact s && is_u32 a && is_u64 q
  | MsgCreateTransfer t => sub_exact (t_Sender t) && sub_exact (t_Recipient t) && is_u32 (t_AssetId t) && is_u64 (t_Amount t)
  | MsgSend _ _ coins => forallb (fun c => match coin_Amount c with Some a => 0 <=? a | None => false end) coins
  | MsgOther _ _ => true
  end.

(** An amount of a coin is a math.Int, of at most 256 bits; a greater one is not
    read back. *)
Definition amounts_fit (m : Msg) : bool :=
  match m with
  | MsgSend _ _ coins => forallb (fun c => match coin_Amount c with Some a => Z.abs a <? 2 ^ 256 | None => true end) coins
  | _ => true
  end.

Class SignLaws (L : ChainLib) (S : SignLib L) : Prop := {
  (* protobuf and Any: what is marshalled is read back *)
  raw_wire : forall r b, MarshalTxRaw r = Ok b -> UnmarshalTxRaw b = Ok r;
  auth_wire : forall ai b, MarshalAuthInfo ai = Ok b ->
    UnmarshalAuthInfo b = Ok (map (fun i => mkSignerInfo (Some (sg_PublicKey i))) (ai_SignerInfos ai));
  pubkey_wire : forall pk a, NewAnyPubKey pk = Ok a -> UnpackPubKey a = Ok (Some pk);
  body_wire : forall l b, MarshalTxBody l = Ok b -> UnmarshalTxBody b = Ok l;
  any_fits : forall m a, NewAnyWithValue m = Ok a -> amounts_fit m = true;
  msg_wire : forall m a, amounts_fit m = true -> wire_exact m = true -> NewAnyWithValue m = Ok a -> UnpackMsg a = Ok (Some m);
  (* marshalling these records does not fail *)
  raw_total : forall r, is_ok (MarshalTxRaw r) = true;
  auth_total : forall ai, is_ok (MarshalAuthInfo ai) = true;
  pubkey_total : forall pk, is_ok (NewAnyPubKey pk) = true;
  doc_total : forall d, is_ok (MarshalSignDoc d) = true;
  (* a key with a public key signs, and is an ECDSA key with the same address *)
  sign_total : forall k pk m, PrivKey_PubKey k = Some pk -> is_ok (PrivKey_Sign k m) = true;
  key_address : forall k pk, PrivKey_PubKey k = Some pk ->
    exists sk, ToECDSA (pk_Key k) = Ok sk /\ PubkeyToAddress (ecdsa_Public sk) = PubKey_Address pk;
  (* a message that is not itself a digest is hashed, signed, and recovers to the key *)
  sign_recover : forall k sk m sig, ToECDSA (pk_Key k) = Ok sk -> List.length m <> 32%nat ->
    PrivKey_Sign k m = Ok sig -> List.length sig = 65%nat /\ SigToPub (Keccak256 m) sig = Ok (ecdsa_Public sk);
  (* a signed transaction decodes to its fields and its signer *)
  eth_wire : forall tx sk s raw, EthSignTx tx (df_ChainID tx) sk = Ok s -> SignedEthTx_MarshalBinary s = Ok raw ->
    exists etx, EthTx_UnmarshalBinary raw = Ok etx /\ EthTx_Sender etx = Ok (PubkeyToAddress (ecdsa_Public sk))
    /\ etx_To etx = Some (df_To tx) /\ etx_Value etx = df_Value tx /\ etx_Data etx = df_Data tx
    /\ etx_ChainId etx = df_ChainID tx;
  address_text : forall a, List.length a = 20%nat -> HexToAddress (Address_Hex a) = a;
  hexutil_nonempty : forall b, hexutil_Encode b <> EmptyString;
  address_nonempty : forall a, Address_Hex a <> EmptyString;
}.

(** ** Operations *)

Section Signer.
Context {L : ChainLib} {S : SignLib L}.

Definition nil_deref {A} : result A := Err (Panic "invalid memory address or nil pointer dereference").

Definition ParsePrivKey (s : string) : result PrivKey :=
  let s := TrimPrefix (TrimSpace s) "0x" in
  bz ← wrap (fun e => Errorf "hex decode: %w" [FErr e]) (from_opt (HexDecode s) (ErrNew "encoding/hex: invalid input"));
  if negb (Z.of_nat (List.length bz) =? 32) then
    Err (Errorf "private key must be 32 bytes (got %d)" [FInt (Z.of_nat (List.length bz))])
  else Ok (mkPrivKey bz).

Definition DeriveAddress (priv : PrivKey) : result string :=
  match PrivKey_PubKey priv with
  | None => nil_deref
  | Some pub => Ok (AccAddress_String (PubKey_Address pub))
  end.

Definition Sign (priv : PrivKey) (p : TxPayload) : result SignedTx :=
  if negb (p_Version p =? CurrentVersion) then
    Err (Errorf "unsupported TxPayload version %d (want %d)" [FInt (p_Version p); FInt CurrentVersion])
  else
  match PrivKey_PubKey priv with
  | None => nil_deref
  | Some pub =>
      let signerAddr := AccAddress_String (PubKey_Address pub) in
      if negb (String.eqb (p_SignerAddress p) "") && negb (String.eqb signerAddr (p_SignerAddress p)) then
        Err (Errorf "key-derived signer address %s does not match payload.signer_address %s"
               [FStr signerAddr; FStr (p_SignerAddress p)])
      else
      accNum ← wrap (fun e => Errorf "parse account_number %q: %w" [FStr (p_AccountNumber p); FErr e])
                 (ParseUint (p_AccountNumber p));
      seq ← wrap (fun e => Errorf "parse sequence %q: %w" [FStr (p_Sequence p); FErr e]) (ParseUint (p_Sequence p));
      gasLimit ← wrap (fun e => Errorf "parse fee.gas_limit %q: %w" [FStr (fee_GasLimit (p_Fee p)); FErr e])
                   (ParseUint (fee_GasLimit (p_Fee p)));
      pubAny ← wrap (fun e => Errorf "wrap pubkey in Any: %w" [FErr e]) (NewAnyPubKey pub);
      let authInfo := mkAuthInfo [mkSignerEntry pubAny SIGN_MODE_DIRECT seq] [] gasLimit in
      authInfoBytes ← wrap (fun e => Errorf "marshal AuthInfo: %w" [FErr e]) (MarshalAuthInfo authInfo);
      bodyBytes ← wrap (fun e => Errorf "decode tx_body_bytes_b64: %w" [FErr e]) (Base64Decode (p_TxBodyBytesB64 p));
      signBytes ← wrap (fun e => Errorf "compute sign-bytes: %w" [FErr e])
                    (DirectSignBytes bodyBytes authInfoBytes (p_ChainID p) accNum);
      sig ← wrap (fun e => Errorf "sign: %w" [FErr e]) (PrivKey_Sign priv signBytes);
      txRawBytes ← wrap (fun e => Errorf "marshal TxRaw: %w" [FErr e])
                     (MarshalTxRaw (mkTxRaw bodyBytes authInfoBytes [sig]));
      Ok (mkSignedTx (Base64Encode txRawBytes) (Base64Encode sig) (Base64Encode (PubKey_Bytes pub)))
  end.

(** [new(big.Int).SetString(s, 10)] with the error of a field. *)
Definition big_field (name s : string) : result Z :=
  from_opt (BigSetString10 s) (Errorf (("parse " +:+ name +:+ " %q")%string) [FStr s]).

Definition SignEVM (priv : PrivKey) (p : EVMTxPayload) : result EVMSignedTx :=
  if negb (ep_Version p =? CurrentVersion) then
    Err (Errorf "unsupported EVMTxPayload version %d (want %d)" [FInt (ep_Version p); FInt CurrentVersion])
  else
  ecdsaKey ← wrap (fun e => Errorf "convert key to ECDSA: %w" [FErr e]) (ToECDSA (pk_Key priv));
  let from := PubkeyToAddress (ecdsa_Public ecdsaKey) in
  if negb (String.eqb (ep_SignerAddress p) "") && negb (bool_decide (from = HexToAddress (ep_SignerAddress p))) then
    Err (Errorf "key-derived address %s does not match payload.signer_address %s"
           [FStr (Address_Hex from); FStr (ep_SignerAddress p)])
  else
  chainID ← big_field "evm_chain_id" (ep_EVMChainID p);
  nonce ← wrap (fun e => Errorf "parse nonce %q: %w" [FStr (ep_Nonce p); FErr e]) (ParseUint (ep_Nonce p));
  gasLimit ← wrap (fun e => Errorf "parse gas %q: %w" [FStr (ep_Gas p); FErr e]) (ParseUint (ep_Gas p));
  maxFee ← big_field "max_fee_per_gas" (ep_MaxFeePerGas p);
  tip ← big_field "max_priority_fee_per_gas" (ep_MaxPriorityFeePerGas p);
  value ← (if negb (String.eqb (ep_Value p) "") then big_field "value" (ep_Value p) else Ok 0);
  data ← (if negb (String.eqb (ep_Data p) "") then
            wrap (fun e => Errorf "decode data: %w" [FErr e]) (hexutil_Decode (ep_Data p))
          else Ok []);
  let to := HexToAddress (ep_To p) in
  let tx := mkDynamicFeeTx chainID nonce tip maxFee gasLimit to value data in
  signed ← wrap (fun e => Errorf "sign evm tx: %w" [FErr e]) (EthSignTx tx chainID ecdsaKey);
  raw ← wrap (fun e => Errorf "marshal signed evm tx: %w" [FErr e]) (SignedEthTx_MarshalBinary signed);
  Ok (mkEVMSignedTx (hexutil_Encode raw) "").

End Signer.

(** ** Lemmas *)

Lemma is_ok_ex {A} (r : result A) : is_ok r = true -> exists a, r = Ok a.
Proof. destruct r; [eauto|done]. Qed.

Section SignLemmas.
Context {L : ChainLib} {S : SignLib L} {SL : SignLaws L S}.

(** What the inspection functions read from a transaction with one message. *)
Record inspects_as (raw : bytes) (owner : string) (m : Msg) : Prop := mkInspectsAs {
  inspect_signer : signerAddressFromTxRaw raw = Ok owner;
  inspect_msgs : exists a, decode_body raw = Ok [a] /\ unpacked a = Some m;
}.

Lemma raw_inspects k pk pubAny seq gas auth body sig raw any m :
  PrivKey_PubKey k = Some pk -> NewAnyPubKey pk = Ok pubAny ->
  MarshalAuthInfo (mkAuthInfo [mkSignerEntry pubAny SIGN_MODE_DIRECT seq] [] gas) = Ok auth ->
  MarshalTxRaw (mkTxRaw body auth [sig]) = Ok raw ->
  NewAnyWithValue m = Ok any -> MarshalTxBody [any] = Ok body -> wire_exact m = true ->
  inspects_as raw (AccAddress_String (PubKey_Address pk)) m.
Proof.
  intros Hk Hp%pubkey_wire Ha%auth_wire Hr%raw_wire Hn Hb%body_wire Hw. constructor.
  - unfold signerAddressFromTxRaw. rewrite Hr. cbn [wrap mbind result_bind tx_AuthInfoBytes]. rewrite Ha.
    cbn [wrap mbind result_bind map ai_SignerInfos si_PublicKey sg_PublicKey]. by rewrite Hp.
  - exists any. unfold decode_body. rewrite Hr. cbn [wrap mbind result_bind tx_BodyBytes]. rewrite Hb. split; [done|].
    unfold unpacked. by rewrite (msg_wire m any (any_fits m any Hn) Hw Hn).
Qed.

(** The outcome of [Sign] on a payload whose fields parse. *)
Lemma Sign_outcome k p owner acct seq gas body any m :
  p_Version p = CurrentVersion -> p_SignerAddress p = owner -> owner <> EmptyString ->
  ParseUint (p_AccountNumber p) = Ok acct -> ParseUint (p_Sequence p) = Ok seq ->
  ParseUint (fee_GasLimit (p_Fee p)) = Ok gas -> Base64Decode (p_TxBodyBytesB64 p) = Ok body ->
  NewAnyWithValue m = Ok any -> MarshalTxBody [any] = Ok body -> wire_exact m = true ->
  match Sign k p with
  | Ok st => DeriveAddress k = Ok owner
             /\ exists raw, Base64Decode (st_TxRawBytesB64 st) = Ok raw /\ inspects_as raw owner m
  | Err _ => DeriveAddress k <> Ok owner
  end.
Proof.
  intros Hv Hs Ho Hacc Hseq Hgas Hbody Hn Hb Hw. unfold Sign, DeriveAddress.
  rewrite Hv, Z.eqb_refl. cbn [negb]. destruct (PrivKey_PubKey k) as [pk|] eqn:Hk; [|done].
  rewrite Hs, (proj2 (String.eqb_neq owner "") Ho). cbn [negb andb].
  destruct (String.eqb_spec (AccAddress_String (PubKey_Address pk)) owner) as [E|E]; cbn [negb]; [|congruence].
  rewrite Hacc, Hseq, Hgas. cbn [wrap mbind result_bind].
  destruct (is_ok_ex _ (pubkey_total pk)) as [pubAny Hp]. rewrite Hp. cbn [wrap mbind result_bind].
  destruct (is_ok_ex _ (auth_total (mkAuthInfo [mkSignerEntry pubAny SIGN_MODE_DIRECT seq] [] gas))) as [auth Ha].
  rewrite Ha, Hbody. cbn [wrap mbind result_bind]. unfold DirectSignBytes.
  destruct (is_ok_ex _ (doc_total (mkSignDoc body auth (p_ChainID p) acct))) as [doc Hd].
  rewrite Hd. cbn [wrap mbind result_bind]. destruct (is_ok_ex _ (sign_total k pk doc Hk)) as [sig Hsig].
  rewrite Hsig. cbn [wrap mbind result_bind].
  destruct (is_ok_ex _ (raw_total (mkTxRaw body auth [sig]))) as [raw Hraw]. rewrite Hraw. cbn [wrap mbind result_bind].
  split; [by rewrite E|]. exists raw. cbn [st_TxRawBytesB64]. split; [apply base64_roundtrip|].
  rewrite <- E. by eapply raw_inspects.
Qed.

Lemma assembled_fields asm msg owner acct seq cid sum now m p :
  assemble_msg asm msg owner acct seq cid sum now = Ok (m, p) ->
  p_Version p = CurrentVersion /\ fee_GasLimit (p_Fee p) = FormatUint (a_gasLimit asm).
Proof.
  unfold assemble_msg, Assemble. destruct (encodeTxBody _); cbn [wrap mbind result_bind]; [|done].
  by intros [= _ <-].
Qed.

Lemma withdraw_exact m q : wire_exact m = true -> usdc_withdraw m = Some q -> 0 <= q <= maxU64.
Proof.
  destruct m; try done. cbn [wire_exact usdc_withdraw]. destruct (negb _); [done|]. intros Hw [= <-].
  unfold is_u64 in Hw. rewrite !andb_true_iff, !Z.leb_le in Hw. tauto.
Qed.

Lemma inspects_withdraw raw owner m :
  inspects_as raw owner m -> wire_exact m = true -> extractWithdrawQuantums raw = Ok (default 0 (usdc_withdraw m)).
Proof.
  intros [_ (a & Hd & Hu)] Hw. unfold extractWithdrawQuantums. rewrite Hd. cbn [mbind result_bind].
  pose proof (withdraw_exact m) as Hx. cbn [sum_withdraws]. rewrite Hu. cbn [mbind option_bind].
  destruct (usdc_withdraw m) as [q|]; [|done]. cbn [default]. specialize (Hx q Hw eq_refl).
  rewrite Z.add_0_l. unfold u64. rewrite Z.mod_small by (unfold maxU64 in Hx; lia).
  by rewrite (proj2 (Z.ltb_ge q 0)) by lia.
Qed.

Lemma build_signed c asm acct seq now m p k (DL : DydxLib) :
  build c asm acct seq now = Ok (m, p) -> owner_of c <> EmptyString -> wire_exact m = true ->
  0 <= acct <= maxU64 -> 0 <= seq <= maxU64 -> 0 <= a_gasLimit asm <= maxU64 ->
  match Sign k p with
  | Ok st => DeriveAddress k = Ok (owner_of c)
             /\ exists raw, Base64Decode (st_TxRawBytesB64 st) = Ok raw /\ inspects_as raw (owner_of c) m
  | Err _ => DeriveAddress k <> Ok (owner_of c)
  end.
Proof.
  intros H Ho Hw Hac Hsq Hg. destruct (build_assembled c asm acct seq now m p H) as (sum & Ha & _).
  pose proof (assembled_fields _ _ _ _ _ _ _ _ _ _ Ha) as [Hv Hgas].
  apply assemble_msg_ok in Ha as (_ & [(any & body & Hn & Hb & Hd) Hs _ _ Hacc Hseq _ _ _] & _).
  eapply Sign_outcome; eauto. rewrite Hgas. by apply ParseUint_FormatUint.
Qed.

(** The coins a message of [owner] sends, as the inspection counts them. *)
Definition sends_of (owner : string) (m : Msg) : result (gmap string Z) :=
  match m with
  | MsgSend from _ amount => if String.eqb from owner then add_coins ∅ amount else Ok ∅
  | _ => Ok ∅
  end.

Lemma inspects_sends raw owner m : inspects_as raw owner m -> extractBankSends raw owner = sends_of owner m.
Proof.
  intros [_ (a & Hd & Hu)]. unfold extractBankSends. rewrite Hd. cbn [mbind result_bind sum_sends]. rewrite Hu.
  destruct m; try done. cbn [sends_of]. destruct (String.eqb _ owner); cbn [negb]; [|done].
  by destruct (add_coins ∅ amount).
Qed.

(** A payload of the EVM assembler, signed, is the call it was assembled for. *)
Lemma SignEVM_inv k evm args now p st :
  ChainLibLaws L -> EVMAssemble evm args now = Ok p ->
  List.length (ea_From args) = 20%nat -> List.length (ea_To args) = 20%nat -> SignEVM k p = Ok st ->
  exists raw tx, hexutil_Decode (ev_RawTxHex st) = Ok raw /\ EthTx_UnmarshalBinary raw = Ok tx
  /\ EthTx_Sender tx = Ok (ea_From args) /\ etx_To tx = Some (ea_To args)
  /\ etx_Value tx = default 0 (ea_Value args) /\ etx_Data tx = ea_Data args /\ evm_ChainID evm = Ok (etx_ChainId tx).
Proof.
  intros LL H Hf Ht. unfold EVMAssemble in H. bind_inv H.
  match goal with E : wrap _ (evm_ChainID evm) = Ok _ |- _ => apply wrap_ok in E as Hc end.
  injection H as <-. unfold SignEVM.
  cbn [ep_Version ep_SignerAddress ep_EVMChainID ep_Nonce ep_Gas ep_MaxFeePerGas ep_MaxPriorityFeePerGas ep_Value ep_Data ep_To].
  rewrite Z.eqb_refl. cbn [negb]. destruct (ToECDSA (pk_Key k)) as [sk|]; cbn [wrap mbind result_bind]; [|done].
  rewrite (proj2 (String.eqb_neq _ "") (address_nonempty _)), address_text by done. cbn [negb andb].
  destruct (bool_decide_reflect (PubkeyToAddress (ecdsa_Public sk) = ea_From args)) as [Ef|]; cbn [negb]; [|done].
  destruct (String.eqb_spec (FormatInt (default 0 (ea_Value args))) "") as [Ez|_].
  { exfalso. apply (f_equal BigSetString10) in Ez. by rewrite BigSetString10_FormatInt in Ez. }
  unfold big_field. rewrite !BigSetString10_FormatInt.
  rewrite (proj2 (String.eqb_neq (hexutil_Encode _) "") (hexutil_nonempty _)), hexutil_roundtrip, address_text by done.
  cbn [negb wrap from_opt]. intros Hs. bind_inv Hs. injection Hs as <-. simplify_eq.
  repeat match goal with E : wrap _ _ = Ok _ |- _ => apply wrap_ok in E end.
  match goal with E1 : EthSignTx ?tx _ sk = Ok ?s, E2 : SignedEthTx_MarshalBinary ?s = Ok _ |- _ =>
    destruct (eth_wire tx sk s _ E1 E2) as (etx & Hu & Hsnd & Hto & Hv & Hd & Hch) end.
  cbn [df_To df_Value df_Data df_ChainID] in Hto, Hv, Hd, Hch. eexists _, etx. cbn [ev_RawTxHex].
  rewrite hexutil_roundtrip, Hch, <- Ef. done.
Qed.

End SignLemmas.

(** ** Logging in with the helper *)

Section Login.
Context {RL : RateLib} {E : Env} {L : ChainLib} {S : SignLib L} {SL : SignLaws L S}.

(** What a successful challenge recorded. *)
Lemma AuthChallenge_inv chainID ctx owner s ch s1 :
  AuthChallenge chainID ctx owner s = (Ok ch, s1) ->
  owner <> EmptyString
  /\ exists exp, ac_Challenge ch = BuildChallenge chainID (ac_Nonce ch) exp /\ ac_ExpiresAt ch = Unix exp
     /\ ns_entries (s_nonces s1) !! ac_Nonce ch = Some (mkNonceEntry owner exp).
Proof.
  intros H. unfold AuthChallenge in H. m_inv H as ok s2 H1. destruct ok; cbn [negb] in H; [|done].
  destruct (String.eqb_spec owner "") as [|Ho]; [done|]. split; [done|].
  m_inv H as ne s3 H2. apply wrapM_ok in H2. unfold issue in H2.
  m_inv H2 as n s4 H3. injection H3 as <- <-. m_inv H2 as t s5 H4. rewrite now_eq in H4. injection H4 as <- <-.
  unfold run_state, Issue in H2. rewrite (proj2 (String.eqb_neq owner "") Ho) in H2.
  destruct (env_rand _) as [b|]; [|done]. injection H2 as <- <-. injection H as <- <-.
  cbn [ac_Challenge ac_Nonce ac_ExpiresAt]. eexists. split_and!; [done..|]. cbn. apply lookup_insert_eq.
Qed.

Lemma challenge_long chainID nonce exp :
  List.length (chars nonce) = 32%nat -> List.length (chars (BuildChallenge chainID nonce exp)) <> 32%nat.
Proof.
  intros H. unfold BuildChallenge. rewrite !chars_app, !length_app, H.
  change (List.length (chars ChallengePrefix)) with 21%nat. lia.
Qed.

(** The helper's signature over a text recovers to the address it derives. *)
Lemma recover_signed k owner text sig :
  DeriveAddress k = Ok owner -> List.length (chars text) <> 32%nat -> PrivKey_Sign k (chars text) = Ok sig ->
  RecoverOwner text sig = Ok owner.
Proof.
  intros Hd Hl Hs. unfold DeriveAddress in Hd. destruct (PrivKey_PubKey k) as [pk|] eqn:Hk; [|done].
  injection Hd as <-. destruct (key_address k pk Hk) as (sk & Hsk & Ha).
  destruct (sign_recover k sk (chars text) sig Hsk Hl Hs) as [H65 Hr].
  unfold RecoverOwner. rewrite H65. cbn [Z.of_nat Z.eqb negb]. rewrite Hr. cbn [wrap mbind result_bind]. by rewrite Ha.
Qed.

(** The forward run of [AuthVerify]. *)
Lemma AuthVerify_run chainID ctx nonce signature sig owner exp s :
  ns_entries (s_nonces s) !! nonce = Some (mkNonceEntry owner exp) -> env_clock (s_reads s) < exp ->
  Base64Decode signature = Ok sig -> RecoverOwner (BuildChallenge chainID nonce exp) sig = Ok owner ->
  owner <> EmptyString -> (forall n, is_ok (env_rand n) = true) ->
  exists out s' rec, AuthVerify chainID ctx nonce signature s = (Ok out, s') /\ av_Owner out = owner
  /\ tr_Owner rec = owner /\ av_ExpiresAt out = Unix (tr_ExpiresAt rec) /\ tr_ExpiresAt rec = reading s 3 + dt_ttl (s_tenants s)
  /\ dt_byBearer (s_tenants s') !! av_BearerToken out = Some (tr_TenantID rec) /\ dt_byTenant (s_tenants s') !! tr_TenantID rec = Some rec.
Proof.
  intros Hn Ht Hsig Hrec Ho Hrand. unfold AuthVerify, wrapM, consume, mbind, M_bind. rewrite now_eq.
  unfold run_state. cbn [s_nonces set_reads]. unfold Consume. rewrite Hn. unfold Before. cbn [ne_expiresAt ne_owner].
  rewrite (proj2 (Z.ltb_lt _ _) Ht). cbn [negb wrap]. unfold lift. rewrite Hsig. cbn [wrap]. rewrite Hrec. cbn [wrap].
  rewrite String.eqb_refl. cbn [negb]. unfold mint, mbind, M_bind, tick. cbn [s_reads set_reads set_nonces].
  rewrite now_eq. unfold run_state. cbn [s_tenants s_reads set_reads set_nonces].
  destruct (is_ok_ex _ (Hrand (Datatypes.S (s_reads s)))) as [b1 E1].
  destruct (is_ok_ex _ (Hrand (Datatypes.S (Datatypes.S (s_reads s))))) as [b2 E2]. rewrite E1, E2.
  match goal with |- context [Mint owner (Ok b1) (Ok b2) ?t (s_tenants s)] =>
    destruct (Mint owner (Ok b1) (Ok b2) t (s_tenants s)) as [r ts] eqn:Em end.
  assert (exists bte, r = Ok bte) as [[[bearer tid] bexp] ->].
  { unfold Mint in Em. rewrite (proj2 (String.eqb_neq owner "") Ho) in Em. injection Em as <- _. eauto. }
  pose proof Em as Em'. unfold Mint in Em'. rewrite (proj2 (String.eqb_neq owner "") Ho) in Em'. injection Em' as Eb Et Ex <-.
  cbn [wrap]. unfold bind_session, mbind, M_bind. rewrite now_eq. unfold modify.
  eexists _, _, (mkTenantRecord tid owner (dt_defaultAllowedSubaccounts (s_tenants s)) false bexp).
  cbn [av_BearerToken av_Owner av_ExpiresAt tr_Owner tr_ExpiresAt tr_TenantID s_tenants set_tenants set_reads set_nonces set_sessions with_maps dt_byBearer dt_byTenant].
  split_and!; [reflexivity|done..| | |].
  - rewrite <- Ex. unfold reading. by rewrite !Nat.add_succ_r, Nat.add_0_r.
  - rewrite <- Eb, <- Et. apply lookup_insert_eq.
  - rewrite <- Et, <- Ex. apply lookup_insert_eq.
Qed.

(** A request with a live bearer is forwarded with the bearer's tenant. *)
Lemma middleware_run ctx method tool h bearer rec s :
  h !! "Authorization"%string = Some ("Bearer " +:+ bearer)%string ->
  LookupByBearer bearer (env_clock (s_reads s)) (s_tenants s) = Ok rec ->
  exists ctx' s', authReceivingMiddleware ctx (mkRequest (Some h) method tool) s = (Ok (Forward ctx'), s')
  /\ TenantFrom ctx' = Some (mkTenantContext (tr_TenantID rec) (tr_Owner rec)).
Proof.
  intros Hh Hl. assert (header_get h "Authorization" = "Bearer " +:+ bearer)%string as Hg.
  { unfold header_get. by rewrite Hh. }
  unfold authReceivingMiddleware, mbind, M_bind. cbn [rq_header rq_method rq_tool].
  unfold resolve, mbind, M_bind, resolve_bearer. rewrite Hg.
  unfold CutPrefix at 1. rewrite chars_app, strip_prefix_app. rewrite str_chars.
  unfold LookupTenantByToken, mbind, M_bind. rewrite now_eq. unfold run_state. cbn [s_tenants set_reads].
  rewrite Hl. unfold mret, M_ret. unfold TenantFrom, WithTenant at 1. cbn [ctx_tenant].
  rewrite bool_decide_eq_false_2 by done. rewrite andb_false_r. by eexists _, _.
Qed.

End Login.

(** ** A concrete library with a real wire format

    Fields are written with their length in unary before them. *)

Fixpoint unary (l : bytes) : option (nat * bytes) :=
  match l with
  | c :: l' =>
      if Ascii.eqb c "1" then match unary l' with Some (n, r) => Some (Datatypes.S n, r) | None => None end
      else Some (0%nat, l')
  | [] => None
  end.

Definition blob (b : bytes) : bytes := repeat "1"%char (List.length b) ++ "0"%char :: b.
Definition pack_fields (l : list bytes) : bytes := List.concat (map blob l).

Fixpoint unpack_fuel (fuel : nat) (l : bytes) : option (list bytes) :=
  match fuel, l with
  | _, [] => Some []
  | 0%nat, _ => None
  | Datatypes.S fuel', _ =>
      match unary l with
      | Some (n, r) => match unpack_fuel fuel' (drop n r) with Some k => Some (take n r :: k) | None => None end
      | None => None
      end
  end.
Definition unpack_fields (l : bytes) : option (list bytes) := unpack_fuel (List.length l) l.

Lemma unary_blob b r : unary (blob b ++ r) = Some (List.length b, b ++ r).
Proof.
  unfold blob. rewrite <- app_assoc. cbn [app]. generalize (b ++ r) as x.
  intros x. induction (List.length b) as [|n IH]; [done|]. cbn [repeat app unary]. rewrite IH. done.
Qed.

Lemma unpack_pack l : forall fuel, (List.length (pack_fields l) <= fuel)%nat -> unpack_fuel fuel (pack_fields l) = Some l.
Proof.
  induction l as [|b l IH]; intros fuel Hf; [by destruct fuel|].
  assert (exists c x, pack_fields (b :: l) = c :: x) as (c & x & Ec).
  { unfold pack_fields, blob. cbn [map List.concat]. destruct (List.length b); cbn [repeat app]; eauto. }
  assert (List.length (pack_fields (b :: l)) = 2 * List.length b + 1 + List.length (pack_fields l))%nat as El.
  { unfold pack_fields, blob. cbn [map List.concat]. rewrite !length_app, repeat_length. cbn [List.length]. lia. }
  destruct fuel as [|fuel]; [lia|]. rewrite Ec. cbn [unpack_fuel]. rewrite <- Ec.
  change (pack_fields (b :: l)) with (blob b ++ pack_fields l). rewrite unary_blob, drop_app_length, take_app_length, IH by lia.
  done.
Qed.

Lemma unpack_fields_pack l : unpack_fields (pack_fields l) = Some l.
Proof. by apply unpack_pack. Qed.

Definition pack_any (a : AnyMsg) : bytes := pack_fields [chars (any_TypeUrl a); any_Value a].
Definition unpack_any (b : bytes) : option AnyMsg :=
  match unpack_fields b with Some [u; v] => Some (mkAny (str u) v) | _ => None end.

Lemma unpack_any_pack a : unpack_any (pack_any a) = Some a.
Proof. unfold unpack_any, pack_any. rewrite unpack_fields_pack, str_chars. by destruct a. Qed.

Lemma unpack_anys l : mapM unpack_any (map pack_any l) = Some l.
Proof. induction l as [|a l IH]; [done|]. cbn [map mapM]. by rewrite unpack_any_pack, IH. Qed.

Definition demo_wrap (m : Msg) : result AnyMsg :=
  match m with
  | MsgWithdrawFromSubaccount (mkSubaccountId o 0) r 0 q =>
      if q <? 0 then Err (ErrNew "negative")
      else Ok (mkAny "/withdraw" (pack_fields [chars o; chars r; chars (FormatUint q)]))
  | _ => Err (ErrNew "unregistered message")
  end.

Definition demo_unwrap (a : AnyMsg) : result (option Msg) :=
  match unpack_fields (any_Value a) with
  | Some [o; r; q] =>
      match parse_nat q with
      | Some q => Ok (Some (MsgWithdrawFromSubaccount (mkSubaccountId (str o) 0) (str r) 0 q))
      | None => Err (ErrNew "malformed message")
      end
  | _ => Err (ErrNew "malformed message")
  end.

Definition demo_eth_unmarshal (b : bytes) : result EthTx :=
  match unpack_fields b with
  | Some [to; v; d; c; k] =>
      match parse_nat v, parse_nat c with
      | Some v, Some c => Ok (mkEthTx (Some to) v d c (str k))
      | _, _ => Err (ErrNew "malformed transaction")
      end
  | _ => Err (ErrNew "malformed transaction")
  end.

Definition demo_wire_lib : ChainLib := {|
  AssetUsdc_Id := @AssetUsdc_Id demo_lib; UusdcDenom := @UusdcDenom demo_lib;
  OrderIdFlags_ShortTerm := 0; OrderIdFlags_Conditional := 32; OrderIdFlags_LongTerm := 64;
  IsShortTermOrder := @IsShortTermOrder demo_lib; ValidateBasic := fun _ => Ok tt;
  NewAnyWithValue := demo_wrap;
  MarshalTxBody := fun l => Ok (pack_fields (map pack_any l));
  MarshalSignDoc := fun d => Ok (pack_fields [sd_BodyBytes d; sd_AuthInfoBytes d]);
  UnmarshalTxRaw := fun b => match unpack_fields b with
    | Some (x :: y :: sigs) => Ok (mkTxRaw x y sigs) | _ => Err (ErrNew "malformed transaction") end;
  UnmarshalTxBody := fun b => from_opt (l ← unpack_fields b; mapM unpack_any l) (ErrNew "malformed body");
  UnmarshalAuthInfo := fun b => from_opt (l ← unpack_fields b; k ← mapM unpack_any l;
    Some (map (fun a => mkSignerInfo (Some a)) k)) (ErrNew "malformed auth info");
  UnpackMsg := demo_unwrap;
  PubKey := bytes; UnpackPubKey := fun a => Ok (Some (any_Value a)); PubKey_Address := take 20;
  AccAddress_String := fun b => ("svp1" +:+ HexEncode b)%string;
  AccAddressFromBech32 := fun s => from_opt (HexDecode (TrimPrefix s "svp1")) (ErrNew "bad address");
  ValidateDenom := @ValidateDenom demo_lib; Coin_IsValid := @Coin_IsValid demo_lib;
  Coin_IsPositive := @Coin_IsPositive demo_lib; NewCoins := @NewCoins demo_lib;
  Keccak256 := fun b => b; EthPubKey := bytes; SigToPub := fun _ sig => Ok (take 32 sig); PubkeyToAddress := take 20;
  BytesToAddress := @BytesToAddress demo_lib; IsHexAddress := @IsHexAddress demo_lib;
  HexToAddress := @HexToAddress demo_lib; Address_Hex := @Address_Hex demo_lib;
  hexutil_Decode := @hexutil_Decode demo_lib; hexutil_Encode := @hexutil_Encode demo_lib;
  EthTx_UnmarshalBinary := demo_eth_unmarshal;
  EthTx_Sender := fun tx => Ok (take 20 (chars (etx_Hash tx)));
|}.

Lemma demo_wire_chain_laws : ChainLibLaws demo_wire_lib.
Proof. destruct demo_lib_laws. by constructor. Qed.

Definition demo_sign_lib : SignLib demo_wire_lib := {|
  PrivKey_PubKey := fun k => if Nat.eqb (List.length (pk_Key k)) 32 then @Some (@PubKey demo_wire_lib) (pk_Key k) else None;
  PubKey_Bytes := fun b : @PubKey demo_wire_lib => (b : bytes);
  PrivKey_Sign := fun k _ => Ok (pk_Key k ++ repeat "x"%char 33);
  NewAnyPubKey := fun pk : @PubKey demo_wire_lib => Ok (mkAny "/pk" pk);
  MarshalAuthInfo := fun ai => Ok (pack_fields (map (fun i => pack_any (sg_PublicKey i)) (ai_SignerInfos ai)));
  MarshalTxRaw := fun r => Ok (pack_fields (tx_BodyBytes r :: tx_AuthInfoBytes r :: tx_Signatures r));
  EcdsaKey := bytes;
  ToECDSA := fun k => if Nat.eqb (List.length k) 32 then Ok k else Err (ErrNew "invalid length, need 256 bits");
  ecdsa_Public := fun k => take 32 (k : bytes);
  SignedEthTx := bytes;
  EthSignTx := fun tx _ k =>
    if (df_Value tx <? 0) || (df_ChainID tx <? 0) then Err (ErrNew "negative integer")
    else Ok (pack_fields [df_To tx; chars (FormatUint (df_Value tx)); df_Data tx; chars (FormatUint (df_ChainID tx)); k]);
  SignedEthTx_MarshalBinary := fun b => Ok b;
|}.

Lemma demo_sign_laws : SignLaws demo_wire_lib demo_sign_lib.
Proof.
  constructor.
  - intros r b [= <-]. cbn [UnmarshalTxRaw demo_wire_lib]. rewrite unpack_fields_pack. by destruct r.
  - intros ai b [= <-]. cbn [UnmarshalAuthInfo demo_wire_lib]. rewrite unpack_fields_pack.
    cbn [mbind option_bind]. rewrite <- (map_map sg_PublicKey pack_any), unpack_anys.
    cbn [mbind option_bind from_opt]. by rewrite map_map.
  - by intros pk a [= <-].
  - intros l b [= <-]. cbn [UnmarshalTxBody demo_wire_lib]. rewrite unpack_fields_pack.
    cbn [mbind option_bind]. by rewrite unpack_anys.
  - intros m a. cbn [NewAnyWithValue demo_wire_lib]. by destruct m.
  - intros m a _ _. cbn [NewAnyWithValue UnpackMsg demo_wire_lib].
    destruct m as [| | | |[o n] r a0 q| | |]; try done. cbn [demo_wrap]. destruct n, a0; try done.
    destruct (Z.ltb_spec q 0); [done|]. intros [= <-]. unfold demo_unwrap. cbn [any_Value].
    rewrite unpack_fields_pack, parse_nat_FormatUint, !str_chars by lia. done.
  - done.
  - done.
  - done.
  - done.
  - done.
  - intros [k] pk. cbn [PrivKey_PubKey ToECDSA demo_sign_lib pk_Key]. destruct (Nat.eqb_spec (List.length k) 32) as [Hl|]; [|done]. intros [= <-].
    exists k. split; [done|].
    cbn [PubkeyToAddress ecdsa_Public PubKey_Address demo_wire_lib demo_sign_lib]. by rewrite take_take.
  - intros [k] sk m sig. cbn [PrivKey_Sign ToECDSA SigToPub ecdsa_Public demo_sign_lib demo_wire_lib pk_Key]. destruct (Nat.eqb_spec (List.length k) 32) as [Hl|]; [|done]. intros [= <-] _ [= <-].
    rewrite length_app, Hl. split; [done|]. by rewrite take_app_le by lia.
  - intros tx sk s raw. cbn [EthSignTx SignedEthTx_MarshalBinary EthTx_UnmarshalBinary EthTx_Sender PubkeyToAddress ecdsa_Public
      demo_sign_lib demo_wire_lib]. destruct (Z.ltb_spec (df_Value tx) 0); [done|].
    destruct (Z.ltb_spec (df_ChainID tx) 0); [done|]. cbn [orb]. intros [= <-] [= <-]. unfold demo_eth_unmarshal.
    rewrite unpack_fields_pack, !parse_nat_FormatUint by lia. eexists. split; [done|]. cbn [etx_To etx_Value etx_Data etx_ChainId etx_Hash].
    rewrite chars_str, take_take. done.
  - intros a Ha. apply (hex_to_address (ChainLibLaws := demo_lib_laws)); [apply hex_roundtrip|done].
  - done.
  - done.
Qed.

(** ** Claims *)

(** C7: what was built is what is signed, and what is signed is what the broadcast
    inspects.  A payload of any of the nine builders is signed by the helper with
    the key of the owner and with no other key; the transaction it returns
    decodes to the owner as its one signer and to exactly the message that was
    built, so the withdrawal total the server charges is the amount of that
    message and the coins it charges are the coins of that message. *)
Theorem signed_as_built {L : ChainLib} {DL : DydxLib} {S : SignLib L} {SL : SignLaws L S} (c : build_call)
    (asm : Assembler) (acct seq : Z) (now : Time) (m : Msg) (p : TxPayload) (key : PrivKey)
    (H : build c asm acct seq now = Ok (m, p)) (Howner : owner_of c <> EmptyString) (Hw : wire_exact m = true)
    (Hacct : 0 <= acct <= maxU64) (Hseq : 0 <= seq <= maxU64) (Hgas : 0 <= a_gasLimit asm <= maxU64) :
  (is_ok (Sign key p) = true <-> DeriveAddress key = Ok (owner_of c))
  /\ forall st, Sign key p = Ok st ->
     exists raw a, Base64Decode (st_TxRawBytesB64 st) = Ok raw
     /\ signerAddressFromTxRaw raw = Ok (owner_of c)
     /\ decode_body raw = Ok [a] /\ unpacked a = Some m
     /\ extractWithdrawQuantums raw = Ok (default 0 (usdc_withdraw m))
     /\ extractBankSends raw (owner_of c) = sends_of (owner_of c) m.
Proof.
  pose proof (build_signed c asm acct seq now m p key DL H Howner Hw Hacct Hseq Hgas) as Hs.
  destruct (Sign key p) as [st|e]; cbn [is_ok]; [|by split].
  destruct Hs as (Hd & raw & Hr & Hi). split; [done|]. intros ? [= <-].
  destruct (inspect_msgs _ _ _ Hi) as (a & Hb & Hu). exists raw, a.
  split_and!; [done|by apply inspect_signer in Hi|done|done| |by apply inspects_sends].
  by eapply inspects_withdraw.
Qed.

(** C36: the EVM side of the same promise.  Signing a payload of the EVM assembler
    yields, for whatever key gets that far, a transaction that decodes to the
    sender, contract, value and call data of the request and to the chain id of
    the node: a key of another account signs nothing. *)
Theorem signed_evm_as_built {L : ChainLib} {LL : ChainLibLaws L} {S : SignLib L} {SL : SignLaws L S} (evm : EVMClient)
    (args : EVMArgs) (now : Time) (p : EVMTxPayload) (key : PrivKey) (st : EVMSignedTx)
    (H : EVMAssemble evm args now = Ok p)
    (Hf : List.length (ea_From args) = 20%nat) (Ht : List.length (ea_To args) = 20%nat)
    (Hs : SignEVM key p = Ok st) :
  exists raw tx, hexutil_Decode (ev_RawTxHex st) = Ok raw /\ EthTx_UnmarshalBinary raw = Ok tx
  /\ EthTx_Sender tx = Ok (ea_From args) /\ etx_To tx = Some (ea_To args)
  /\ etx_Value tx = default 0 (ea_Value args) /\ etx_Data tx = ea_Data args
  /\ evm_ChainID evm = Ok (etx_ChainId tx).
Proof. exact (SignEVM_inv key evm args now p st LL H Hf Ht Hs). Qed.

(** ** Witnesses *)

Definition demo_key : PrivKey := mkPrivKey (repeat "k"%char 32).
Definition demo_key_owner : string := ("svp1" +:+ HexEncode (repeat "k"%char 20))%string.
Definition demo_key_withdraw : build_call :=
  CWithdraw (mkWithdrawFromSubaccountInput demo_key_owner 0 "1.5" "uuid").
Definition demo_key_args : EVMArgs :=
  mkEVMArgs "uuid" (repeat "k"%char 20) (repeat "t"%char 20) (chars "call") (Some 5) (mkEVMSummary "" "").

(** A challenge of sixteen random bytes. *)
Definition demo_login_env : Env := {|
  env_clock := Z.of_nat; env_rand := fun _ => Ok (repeat "r"%char 16); env_io := fun _ => IOok;
  env_write := fun _ => Ok tt; env_range := fun _ m => map_to_list m; env_account := fun _ _ => Ok (3, 9);
  env_broadcast := fun _ _ => Ok (mkBroadcastResult "HASH" 0 ""); env_evm_send := fun _ _ _ => Ok "0xhash"%string;
  env_error_text := fun _ => "node error"%string |}.
Definition demo_login : result AuthChallengeOutput * srv (RL := demo_rate) :=
  AuthChallenge (RL := demo_rate) (E := demo_login_env) "svp-2517-1" background demo_key_owner demo_srv.

Lemma signed_as_built_witness :
  exists m p, @build demo_wire_lib dydx_lib demo_key_withdraw demo_asm 3 9 0 = Ok (m, p)
  /\ (is_ok (@Sign demo_wire_lib demo_sign_lib demo_key p) = true
      <-> @DeriveAddress demo_wire_lib demo_sign_lib demo_key = Ok demo_key_owner).
Proof.
  destruct (@build demo_wire_lib dydx_lib demo_key_withdraw demo_asm 3 9 0) as [[m p]|e] eqn:E; [|by vm_compute in E].
  exists m, p. split; [reflexivity|].
  refine (proj1 (@signed_as_built demo_wire_lib dydx_lib demo_sign_lib demo_sign_laws demo_key_withdraw demo_asm 3 9 0 m p
    demo_key E ltac:(discriminate) _ _ _ _)); try (split; vm_compute; discriminate).
  vm_compute in E. injection E as <- _. vm_compute. reflexivity.
Defined.

Lemma signed_evm_as_built_witness :
  exists p st, @EVMAssemble demo_wire_lib demo_evm demo_key_args 0 = Ok p
  /\ @SignEVM demo_wire_lib demo_sign_lib demo_key p = Ok st
  /\ exists tx, @EthTx_Sender demo_wire_lib tx = Ok (repeat "k"%char 20) /\ etx_Value tx = 5.
Proof.
  destruct (@EVMAssemble demo_wire_lib demo_evm demo_key_args 0) as [p|e] eqn:E; [|by vm_compute in E].
  destruct (@SignEVM demo_wire_lib demo_sign_lib demo_key p) as [st|e] eqn:Es.
  2: { vm_compute in E. injection E as <-. by vm_compute in Es. }
  destruct (@signed_evm_as_built demo_wire_lib demo_wire_chain_laws demo_sign_lib demo_sign_laws demo_evm demo_key_args 0
    p demo_key st E eq_refl eq_refl Es) as (raw & tx & _ & _ & Hs & _ & Hv & _).
  exists p, st. split; [reflexivity|]. split; [exact Es|]. exists tx. split; [exact Hs|exact Hv].
Defined.

