(* ===== verification/Devsign.v ===== *)
(** * The signing command (cmd/devsign/main.go)

    One shot of [devsign]: the key from a flag or the environment, the payload
    from a file or standard input, the signed transaction to a file or standard
    output.  The desk it works at is its state; JSON and what the operating
    system answers are arguments.  Either the key signed what was read and the
    result is all that was written, or nothing was written. *)

From S2P Require Import Prelude GoStrings GoEncoding ChainLib Payload EVMBuilder Signer.

Record devsign_flags : Type := mkFlags {
  fl_in : string;
  fl_out : string;
  fl_keyHex : string;
  fl_signChallenge : string;
  fl_evm : bool;
}.

(** What [writeOutput] is handed. *)
Inductive devsign_output : Type :=
| OutSigned (tx : SignedTx)
| OutEVMSigned (tx : EVMSignedTx).

(** Files and the bytes written to standard output so far. *)
Record desk : Type := mkDesk {
  dk_files : gmap string bytes;
  dk_stdout : bytes;
}.

(** What surrounds the process: the environment variable, standard input, the
    JSON functions, and the faults of the operating system.  A failed write of
    a file leaves it with the bytes of the fault, if it got to touch it. *)
Record surroundings : Type := mkSurroundings {
  dv_envKey : string;
  dv_stdin : result bytes;
  dv_decode : bytes -> result TxPayload;
  dv_decodeEVM : bytes -> result EVMTxPayload;
  dv_encode : devsign_output -> result bytes;
  dv_read_fault : string -> option goerr;
  dv_write_fault : string -> option (goerr * option bytes);
  dv_stdout_fault : option goerr;
}.

Definition newline : bytes := ["010"%char].

Section Devsign.
Context {L : ChainLib} {S : SignLib L}.
Variable w : surroundings.

Definition std_path (path : string) : bool := String.eqb path "" || String.eqb path "-".

Definition ReadFile (path : string) : M desk bytes := fun d =>
  match dv_read_fault w path, dk_files d !! path with
  | Some e, _ => (Err e, d)
  | None, Some b => (Ok b, d)
  | None, None => (Err (ErrNew "no such file or directory"), d)
  end.

Definition WriteFile (path : string) (b : bytes) : M desk unit := fun d =>
  match dv_write_fault w path with
  | None => (Ok tt, mkDesk (<[path := b]> (dk_files d)) (dk_stdout d))
  | Some (e, None) => (Err e, d)
  | Some (e, Some torn) => (Err e, mkDesk (<[path := torn]> (dk_files d)) (dk_stdout d))
  end.

Definition StdoutWrite (b : bytes) : M desk unit := fun d =>
  match dv_stdout_fault w with
  | None => (Ok tt, mkDesk (dk_files d) (dk_stdout d ++ b))
  | Some e => (Err e, d)
  end.

(** [fmt.Println], whose error is not looked at. *)
Definition Println (b : bytes) : M desk unit := fun d => (Ok tt, snd (StdoutWrite (b ++ newline) d)).

Definition readInput (path : string) : M desk bytes :=
  if std_path path then lift (dv_stdin w) else ReadFile path.

Definition writeOutput (outPath : string) (v : devsign_output) : M desk unit :=
  out ← lift (wrap (fun e => Errorf "marshal output: %w" [FErr e]) (dv_encode w v));
  if std_path outPath then StdoutWrite (out ++ newline) else WriteFile outPath (out ++ newline).

Definition wrap_desk {A} (f : goerr -> goerr) (m : M desk A) : M desk A := fun d => let '(r, d') := m d in (wrap f r, d').

Definition run (fl : devsign_flags) : M desk unit :=
  let keyHex := if String.eqb (fl_keyHex fl) "" then dv_envKey w else fl_keyHex fl in
  if String.eqb keyHex "" then lift (Err (Errorf "--key-hex (or DEVSIGN_KEY_HEX env) is required" []))
  else
  priv ← lift (wrap (fun e => Errorf "parse key: %w" [FErr e]) (ParsePrivKey keyHex));
  if negb (String.eqb (fl_signChallenge fl) "") then
    sig ← lift (wrap (fun e => Errorf "sign challenge: %w" [FErr e]) (PrivKey_Sign priv (chars (fl_signChallenge fl))));
    Println (chars (Base64Encode sig))
  else
  pInput ← wrap_desk (fun e => Errorf "read input: %w" [FErr e]) (readInput (fl_in fl));
  if fl_evm fl then
    ep ← lift (wrap (fun e => Errorf "decode EVMTxPayload: %w" [FErr e]) (dv_decodeEVM w pInput));
    signed ← lift (SignEVM priv ep);
    writeOutput (fl_out fl) (OutEVMSigned signed)
  else
  p ← lift (wrap (fun e => Errorf "decode TxPayload: %w" [FErr e]) (dv_decode w pInput));
  signed ← lift (Sign priv p);
  writeOutput (fl_out fl) (OutSigned signed).

(** The exit status, and the error printed on standard error. *)
Definition main (fl : devsign_flags) (d : desk) : Z * option goerr * desk :=
  match run fl d with
  | (Ok _, d') => (0, None, d')
  | (Err e, d') => (1, Some (Errorf "devsign: %v" [FErr e]), d')
  end.

(** ** What a run leaves *)

(** The text a successful run of the signing modes emits, from what it read. *)
Definition signed_output (fl : devsign_flags) (priv : PrivKey) (input : bytes) : result devsign_output :=
  if fl_evm fl then ep ← dv_decodeEVM w input; OutEVMSigned <$> SignEVM priv ep
  else p ← dv_decode w input; OutSigned <$> Sign priv p.

(** The desk with [b] put where the flag points. *)
Definition emitted (outPath : string) (b : bytes) (d : desk) : desk :=
  if std_path outPath then mkDesk (dk_files d) (dk_stdout d ++ b) else mkDesk (<[outPath := b]> (dk_files d)) (dk_stdout d).

Lemma readInput_keeps path d r d' : readInput path d = (r, d') -> d' = d.
Proof.
  unfold readInput, ReadFile, lift. destruct (std_path path); [by intros [= _ <-]|].
  destruct (dv_read_fault w path); [by intros [= _ <-]|]. by destruct (dk_files d !! path); intros [= _ <-].
Qed.

Lemma writeOutput_ok outPath v d d' :
  writeOutput outPath v d = (Ok tt, d') -> exists out, dv_encode w v = Ok out /\ d' = emitted outPath (out ++ newline) d.
Proof.
  unfold writeOutput, emitted. intros H. m_inv H as out d1 Ho. apply lift_ok in Ho as [Ho%wrap_ok ->]. exists out. split; [done|].
  revert H. unfold StdoutWrite, WriteFile. destruct (std_path outPath).
  - by destruct (dv_stdout_fault w); intros [= <-].
  - by destruct (dv_write_fault w outPath) as [[e [torn|]]|]; intros [= <-].
Qed.

(** A run that exits 0 in a signing mode read one payload, signed it with the key
    it was given, and wrote the result and nothing else. *)
Lemma devsign_writes_signature fl d d' :
  run fl d = (Ok tt, d') -> fl_signChallenge fl = EmptyString ->
  exists priv input v out,
    ParsePrivKey (if String.eqb (fl_keyHex fl) "" then dv_envKey w else fl_keyHex fl) = Ok priv
    /\ readInput (fl_in fl) d = (Ok input, d) /\ signed_output fl priv input = Ok v
    /\ dv_encode w v = Ok out /\ d' = emitted (fl_out fl) (out ++ newline) d.
Proof.
  unfold run. intros H Hc. destruct (String.eqb (if _ : bool then _ else _) ""); [done|]. rewrite Hc in H.
  change (negb (String.eqb EmptyString "")) with false in H. cbv iota in H.
  m_inv H as priv d1 Hp. apply lift_ok in Hp as [Hp%wrap_ok ->]. exists priv.
  m_inv H as input d2 Hi. unfold wrap_desk in Hi. destruct (readInput (fl_in fl) d) as [ri di] eqn:Er.
  pose proof (readInput_keeps _ _ _ _ Er) as ->. injection Hi as Hi <-. apply wrap_ok in Hi as ->. exists input.
  unfold signed_output. destruct (fl_evm fl).
  - m_inv H as ep d3 He. apply lift_ok in He as [He%wrap_ok ->]. m_inv H as tx d4 Ht. apply lift_ok in Ht as [Ht ->].
    apply writeOutput_ok in H as (out & Ho & ->). exists (OutEVMSigned tx), out. rewrite He. cbn [mbind result_bind]. by rewrite Ht.
  - m_inv H as ep d3 He. apply lift_ok in He as [He%wrap_ok ->]. m_inv H as tx d4 Ht. apply lift_ok in Ht as [Ht ->].
    apply writeOutput_ok in H as (out & Ho & ->). exists (OutSigned tx), out. rewrite He. cbn [mbind result_bind]. by rewrite Ht.
Qed.

(** A run that fails writes nothing, unless the write of the result itself is
    what failed half way. *)
Lemma devsign_fails_clean fl d e d' :
  (forall path e torn, dv_write_fault w path = Some (e, torn) -> torn = None) -> run fl d = (Err e, d') -> d' = d.
Proof.
  intros Hw. enough (triple (eq d) (run fl) (fun _ _ => True) (eq d)) as Ht.
  { specialize (Ht d eq_refl). intros H. rewrite H in Ht. done. }
  assert (forall A (r : result A), triple (eq d) (lift r) (fun _ => eq d) (eq d)) as Hl by (intros A r s <-; by destruct r).
  assert (forall A (r : result A), triple (eq d) (lift r) (fun _ _ => True) (eq d)) as Hl' by (intros A r s <-; by destruct r).
  assert (forall v, triple (eq d) (writeOutput (fl_out fl) v) (fun _ _ => True) (eq d)) as Ho.
  { intros v. eapply triple_bind; [apply Hl|]. intros out s <-. unfold StdoutWrite, WriteFile. destruct (std_path _).
    - by destruct (dv_stdout_fault w).
    - destruct (dv_write_fault w (fl_out fl)) as [[e' [l|]]|] eqn:Ef; [by apply Hw in Ef|done|done]. }
  unfold run. destruct (String.eqb (if _ : bool then _ else _) ""); [apply Hl'|].
  eapply triple_bind; [apply Hl|]. intros priv. destruct (negb _).
  { eapply triple_bind; [apply Hl|]. intros sig s _. done. }
  eapply (triple_bind _ _ (fun _ => eq d)).
  { intros s <-. unfold wrap_desk. destruct (readInput _ d) as [r d1] eqn:Er. apply readInput_keeps in Er as ->. by destruct r. }
  intros input. destruct (fl_evm fl); do 2 (eapply triple_bind; [apply Hl|]; intros ?); apply Ho.
Qed.

End Devsign.
