(* ===== verification/Broadcast.v ===== *)
(** * Broadcasting (tools/cross.go BroadcastSignedTx, tools/evm.go BroadcastEVMTx) *)

From S2P Require Import Prelude GoStrings GoNum GoTime GoEncoding Limits TransferOut NonceStore IPRateLimiter.
From S2P Require Import SessionBearers DynamicTenants Policy Markets Units ChainLib Payload Assembler Assets.
From S2P Require Import TxInspect LendoraCache Server.

(** The configuration of the handlers: what [Deps] holds besides the stores. *)
Record Handlers : Type := mkHandlers {
  h_ChainID : string;
  h_Limits : Limits.Config;
  h_Builder : Assembler;
  h_EVM : bool;                            (* Chain.EVM is configured *)
  h_ForeignChains : list Z;                (* keys of EVM.ForeignChains *)
  h_Uniswap : option (Address * Address);  (* router and WSVP of EVM.Uniswap *)
}.

Section Broadcast.
Context {RL : RateLib} {E : Env} {L : ChainLib} (h : Handlers).

Definition claim (tenantID clientID : string) : M srv unit :=
  t ← now;
  run_state (fun s => let '(r, i) := Claim tenantID clientID t (s_idem s) in (r, set_idem i s)).

Definition enforce_withdraw (tenantID : string) (q : Z) : M srv unit :=
  t ← now;
  run_state (fun s =>
    let '(r, l) := Enforce (h_Limits h) t tenantID ToolWithdraw q (s_ledger s) in (r, set_ledger l s)).

Definition record_withdraw (tenantID : string) (q : Z) : M srv unit :=
  t ← now;
  modify (fun s => set_ledger (RecordSpend t tenantID q <$> s_ledger s) s).

Definition check_out (owner sym : string) (amt : Z) : M srv unit :=
  t ← now; n ← tick;
  run_state (fun s =>
    let '(r, (o, d)) := TransferOut.Check t (env_io n) owner sym (Some amt) (s_out s) (s_disk s) in
    (r, set_out o d s)).

Definition record_out (owner sym : string) (amt : Z) : M srv unit :=
  t ← now; n1 ← tick; n2 ← tick;
  modify (fun s =>
    let '(o, d) := RecordOut t (env_io n1) (env_io n2) owner sym (Some amt) (s_out s) (s_disk s) in
    set_out o d s).

(** The loop over the entries of a map, in the order of the iteration. *)
Fixpoint for_each (f : string -> Z -> M srv unit) (l : list (string * Z)) : M srv unit :=
  match l with
  | [] => mret tt
  | (sym, amt) :: l' => _ ← f sym amt; for_each f l'
  end.

Definition range (m : gmap string Z) (f : string -> Z -> M srv unit) : M srv unit :=
  n ← tick; for_each f (env_range n m).

Definition append_audit (e : AuditEntry) : M srv unit :=
  t ← now; n ← tick;
  ignore (run_state (fun s => let '(r, log) := Append e t (env_write n) (s_audit s) in (r, set_audit log s))).

(** The bytes reach the node; its answer is the value. *)
Definition broadcast_sync (raw : bytes) : M srv (result BroadcastResult) :=
  n ← tick;
  run_state (fun s => (Ok (env_broadcast n raw), set_sent (s_sent s ++ [raw]) s)).

Definition audit_broadcast (tp : TenantPolicy) (clientID : string) (res : BroadcastResult) (failed : bool) : AuditEntry :=
  mkAuditEntry zeroTime (tp_TenantID tp) (tp_Owner tp) "broadcast_signed_tx" clientID (br_TxHash res) "" 0 ""
    (br_Code res)
    (if failed || negb (br_Code res =? 0) then "chain_reject" else "broadcast") (br_RawLog res).

Definition BroadcastSignedTx (ctx : context) (clientID : string) (signedTx : SignedTx) : M srv BroadcastResult :=
  tp ← authorize ctx "broadcast_signed_tx";
  _ ← claim (tp_TenantID tp) clientID;
  rawBytes ← lift (wrap (fun e => Errorf "decode tx_raw_bytes_b64: %w" [FErr e]) (Base64Decode (st_TxRawBytesB64 signedTx)));
  signerAddr ← lift (wrap (fun e => Errorf "decode signed tx: %w" [FErr e]) (signerAddressFromTxRaw rawBytes));
  _ ← lift (check (negb (String.eqb signerAddr (tp_Owner tp)))
              (Errorf "signer address %s does not match tenant owner %s" [FStr signerAddr; FStr (tp_Owner tp)]));
  withdrawQ ← lift (wrap (fun e => Errorf "inspect tx: %w" [FErr e]) (extractWithdrawQuantums rawBytes));
  _ ← (if 0 <? withdrawQ then enforce_withdraw (tp_TenantID tp) withdrawQ else mret tt);
  bankOut ← lift (wrap (fun e => Errorf "inspect tx: %w" [FErr e]) (extractBankSends rawBytes signerAddr));
  _ ← range bankOut (check_out (tp_Owner tp));
  r ← broadcast_sync rawBytes;
  let res := match r with Ok res => res | Err _ => mkBroadcastResult "" 0 "" end in
  _ ← append_audit (audit_broadcast tp clientID res (negb (is_ok r)));
  _ ← lift (match r with Ok _ => Ok tt | Err e => Err e end);
  _ ← lift (if negb (br_Code res =? 0) then
              match ParseBroadcastError res with Some pe => Err pe | None => Ok tt end
            else Ok tt);
  _ ← (if (br_Code res =? 0) && (0 <? withdrawQ) then record_withdraw (tp_TenantID tp) withdrawQ else mret tt);
  _ ← (if br_Code res =? 0 then range bankOut (record_out (tp_Owner tp)) else mret tt);
  mret res.

(** ** EVM *)

Definition evm_send (chain : Z) (tx : EthTx) : M srv (result string) :=
  n ← tick;
  run_state (fun s => (Ok (env_evm_send n chain tx), set_evm_sent (s_evm_sent s ++ [(chain, tx)]) s)).

Definition audit_evm (tp : TenantPolicy) (clientID txHash outcome reason : string) : AuditEntry :=
  mkAuditEntry zeroTime (tp_TenantID tp) (tp_Owner tp) "broadcast_evm_tx" clientID txHash "" 0 "" 0 outcome reason.

Definition BroadcastEVMTx (ctx : context) (clientID : string) (signedTx : EVMSignedTx) : M srv string :=
  tp ← authorize ctx "broadcast_evm_tx";
  _ ← lift (check (negb (h_EVM h)) (userErrf "EVM is not enabled on this server (no evm_rpc_url configured)" []));
  _ ← claim (tp_TenantID tp) clientID;
  rawBytes ← lift (wrap (fun e => Errorf "decode raw_tx_hex: %w" [FErr e]) (hexutil_Decode (ev_RawTxHex signedTx)));
  tx ← lift (wrap (fun e => Errorf "decode signed evm tx: %w" [FErr e]) (EthTx_UnmarshalBinary rawBytes));
  from ← lift (wrap (fun e => Errorf "recover evm sender: %w" [FErr e]) (EthTx_Sender tx));
  ownerEth ← lift (ownerEthAddress (tp_Owner tp));
  _ ← lift (check (negb (addr_eqb from ownerEth))
              (Errorf "evm sender %s does not match tenant owner %s"
                 [FStr (Address_Hex from); FStr (Address_Hex ownerEth)]));
  let chain := u64 (etx_ChainId tx) in
  let isHome := negb (bool_decide (chain ∈ h_ForeignChains h)) in
  let '(router, wsvp) := default (zero_address, zero_address) (h_Uniswap h) in
  let transferOut : gmap string Z :=
    if isHome then decodeTransferOut (etx_To tx) (Some (etx_Value tx)) (etx_Data tx) ownerEth router wsvp else ∅ in
  _ ← range transferOut (check_out (tp_Owner tp));
  r ← evm_send (if isHome then -1 else chain) tx;
  let '(txHash, outcome, reason) :=
    match r with
    | Ok hash => (hash, "broadcast"%string, ""%string)
    | Err e => (etx_Hash tx, "chain_reject"%string, env_error_text e)
    end in
  _ ← append_audit (audit_evm tp clientID txHash outcome reason);
  _ ← lift (match r with Ok _ => Ok tt | Err e => Err (Errorf "broadcast evm tx: %w" [FErr e]) end);
  _ ← range transferOut (record_out (tp_Owner tp));
  mret txHash.

End Broadcast.

(** ** What a computation leaves alone *)

Section Keeps.
Context {RL : RateLib} {E : Env}.

(** The books: the withdraw ledger and the transfer-out store.  The outbox: what
    the node clients were handed.  The registry: who the tenants are.  The last
    component is what the HTTP clients were handed, and the disk. *)
Definition books (s : srv) : option MemoryLedger * option store := (s_ledger s, s_out s).
Definition outbox (s : srv) : list bytes * list (Z * EthTx) := (s_sent s, s_evm_sent s).
Definition registry (s : srv) : gmap string TenantPolicy * DynamicTenantStore := (s_static s, s_tenants s).
(** The stores of the handshake: nonces, addresses, sessions. *)
Definition door (s : srv) := (s_nonces s, s_ips s, s_sessions s).
Definition effects (s : srv) := (books s, outbox s, registry s, (s_http s, (s_disk s, door s))).

(** A view that depends on these only. *)
Class View {X} (v : srv -> X) : Prop := view_effects s s' : effects s = effects s' -> v s = v s'.
#[export] Instance View_effects : View effects.
Proof. by intros s s'. Qed.
#[export] Instance View_books : View books.
Proof. intros s s' H. exact (f_equal (fun x => fst (fst (fst x))) H). Qed.
#[export] Instance View_outbox : View outbox.
Proof. intros s s' H. exact (f_equal (fun x => snd (fst (fst x))) H). Qed.
#[export] Instance View_registry : View registry.
Proof. intros s s' H. exact (f_equal (fun x => snd (fst x)) H). Qed.
#[export] Instance View_http : View s_http.
Proof. intros s s' H. exact (f_equal (fun x => fst (snd x)) H). Qed.
#[export] Instance View_door : View door.
Proof. intros s s' H. exact (f_equal (fun x => snd (snd (snd x))) H). Qed.

(** The transfer-out store and the file it is written to. *)
Definition cap_state (s : srv) : option store * disk := (s_out s, s_disk s).
#[export] Instance View_cap_state : View cap_state.
Proof. intros s s' H. exact (f_equal (fun x => (snd (fst (fst (fst x))), fst (snd (snd x)))) H). Qed.

Definition keeps {X A} (v : srv -> X) (m : M srv A) : Prop := forall s, v (snd (m s)) = v s.

Context {X : Type} (v : srv -> X).

Lemma keeps_ret {A} (a : A) : keeps v (mret a).
Proof. done. Qed.
Lemma keeps_fail {A} e : keeps v (fail (A := A) e).
Proof. done. Qed.
Lemma keeps_lift {A} (r : result A) : keeps v (lift r).
Proof. done. Qed.
Lemma keeps_get {A} (f : srv -> A) : keeps v (get f).
Proof. done. Qed.

Lemma keeps_bind {A B} (m : M srv A) (f : A -> M srv B) :
  keeps v m -> (forall a, keeps v (f a)) -> keeps v (m ≫= f).
Proof.
  intros Hm Hf s. unfold mbind, M_bind. specialize (Hm s). destruct (m s) as [[a|e] s1]; [|done].
  by rewrite (Hf a s1).
Qed.

Lemma keeps_run {A} (f : srv -> result A * srv) :
  (forall s, v (snd (f s)) = v s) -> keeps v (run_state f).
Proof. done. Qed.

Lemma keeps_modify f : (forall s, v (f s) = v s) -> keeps v (modify f).
Proof. done. Qed.

Lemma keeps_wrapM {A} f (m : M srv A) : keeps v m -> keeps v (wrapM f m).
Proof. intros H s. specialize (H s). unfold wrapM. by destruct (m s) as [r s1]. Qed.

Lemma keeps_ignore {A} (m : M srv A) : keeps v m -> keeps v (ignore m).
Proof. intros H s. specialize (H s). unfold ignore. by destruct (m s) as [r s1]. Qed.

(** What has no effect at all keeps every view. *)
Lemma keeps_view {A} (m : M srv A) `{!View v} : keeps effects m -> keeps v m.
Proof. intros H s. apply view_effects, H. Qed.

Lemma keeps_tick `{!View v} : keeps v tick.
Proof. by apply keeps_view. Qed.
Lemma keeps_now `{!View v} : keeps v now.
Proof. by apply keeps_view. Qed.
Lemma keeps_policy {A} (f : Time -> Engine DynamicTenantStore -> result A) `{!View v} : keeps v (policy f).
Proof. by apply keeps_view. Qed.
Lemma keeps_rate_allow key `{!View v} : keeps v (rate_allow key).
Proof. apply keeps_view; [done|]. intros s. by rewrite rate_allow_eq. Qed.

End Keeps.

Create HintDb keeps.
#[export] Hint Extern 2 (keeps _ _) => (apply keeps_view; [apply _|]) : keeps.

(** Walk the binds and branches of a handler. *)
Ltac keeps_step :=
  first
    [ done
    | apply keeps_ret | apply keeps_fail | apply keeps_lift | apply keeps_get
    | apply keeps_tick; apply _ | apply keeps_now; apply _ | apply keeps_policy; apply _
    | apply keeps_rate_allow; apply _
    | solve [auto with keeps nocore]
    | apply keeps_wrapM | apply keeps_ignore
    | apply keeps_bind; [|intros ?]
    | apply keeps_modify; intros ?; reflexivity
    | apply keeps_run; intros ?; repeat case_match; reflexivity
    | case_match ].
Ltac keeps_tac := repeat keeps_step.

Section Triples.
Context {RL : RateLib} {E : Env} {L : ChainLib}.

Lemma keeps_authorize ctx tool : keeps effects (authorize ctx tool).
Proof. unfold authorize. keeps_tac. Qed.

Lemma keeps_claim t c : keeps effects (claim t c).
Proof. unfold claim. keeps_tac. Qed.

Lemma keeps_append_audit e : keeps effects (append_audit e).
Proof. unfold append_audit. keeps_tac. Qed.

Lemma keeps_broadcast_sync raw : keeps (fun s => (books s, registry s)) (broadcast_sync raw).
Proof. done. Qed.

Lemma keeps_evm_send c tx : keeps (fun s => (books s, registry s)) (evm_send c tx).
Proof. done. Qed.

Lemma keeps_check_out ow k a : keeps (fun s => (outbox s, registry s)) (check_out ow k a).
Proof. unfold check_out. apply keeps_bind; [done|]. intros t. apply keeps_bind; [done|]. intros n. keeps_tac. Qed.

Lemma keeps_record_out ow k a : keeps (fun s => (outbox s, registry s)) (record_out ow k a).
Proof. unfold record_out. do 3 (apply keeps_bind; [done|]; intros ?). intros s. cbn. by case_match. Qed.

Lemma keeps_enforce h t q : keeps (fun s => (outbox s, registry s)) (enforce_withdraw h t q).
Proof. unfold enforce_withdraw. apply keeps_bind; [done|]. intros n. keeps_tac. Qed.

Lemma keeps_record_withdraw t q : keeps (fun s => (outbox s, registry s)) (record_withdraw t q).
Proof. done. Qed.

Lemma keeps_fst {X Y A} (v : srv -> X) (w : srv -> Y) (m : M srv A) : keeps (fun s => (v s, w s)) m -> keeps v m.
Proof. intros H s. exact (f_equal fst (H s)). Qed.
Lemma keeps_snd {X Y A} (v : srv -> X) (w : srv -> Y) (m : M srv A) : keeps (fun s => (v s, w s)) m -> keeps w m.
Proof. intros H s. exact (f_equal snd (H s)). Qed.

Lemma keeps_range {X} (v : srv -> X) `{!View v} m f : (forall k a, keeps v (f k a)) -> keeps v (range m f).
Proof.
  intros Hf. unfold range. keeps_tac. generalize (env_range a m) as l.
  induction l as [|[k x] l IH]; cbn [for_each]; keeps_tac.
Qed.

(** ** Triples over the books *)

Abbreviation book := (option MemoryLedger * option store)%type.
Abbreviation on F := (fun s : srv => F (books s)) (only parsing).

Lemma triple_keeps {A B} (F : book -> Prop) (m : M srv A) (f : A -> M srv B) Q (R : srv -> Prop) :
  keeps books m -> (forall s, F (books s) -> R s) -> (forall a, triple (on F) (f a) Q R) -> triple (on F) (m ≫= f) Q R.
Proof.
  intros Hk HR Hf. apply (triple_bind _ _ (fun _ => on F)); [|exact Hf].
  intros s Hs. specialize (Hk s). destruct (m s) as [[a|e] s1]; cbn [snd] in Hk; rewrite <- Hk in Hs; auto.
Qed.

Lemma triple_lift_bind {A B} (P : srv -> Prop) (r : result A) (f : A -> M srv B) Q (R : srv -> Prop) :
  (forall s, P s -> R s) -> (forall a, r = Ok a -> triple P (f a) Q R) -> triple P (lift r ≫= f) Q R.
Proof.
  intros HR Hf s Hs. unfold mbind, M_bind, lift. destruct r as [a|e]; [by apply (Hf a eq_refl)|by apply HR].
Qed.

(** The four operations that change the books, as transformers of them. *)
Lemma triple_check_out (F F' R : book -> Prop) ow k a :
  (forall n o d l s, F (l, s) ->
     let '(r, (s', _)) := TransferOut.Check (env_clock n) o ow k (Some a) s d in
     match r with Ok _ => F' (l, s') | Err _ => R (l, s') end) ->
  triple (on F) (check_out ow k a) (fun _ => on F') (on R).
Proof.
  intros H s Hs. unfold check_out, mbind, M_bind. rewrite now_eq. unfold tick, run_state.
  cbn [s_reads set_reads s_out s_disk].
  specialize (H (s_reads s) (env_io (S (s_reads s))) (s_disk s) (s_ledger s) (s_out s) Hs).
  destruct (TransferOut.Check _ _ _ _ _ _ _) as [[[]|e] [s' d']]; exact H.
Qed.

Lemma triple_record_out (F F' R : book -> Prop) ow k a :
  (forall n o1 o2 d l s, F (l, s) -> F' (l, fst (RecordOut (env_clock n) o1 o2 ow k (Some a) s d))) ->
  triple (on F) (record_out ow k a) (fun _ => on F') (on R).
Proof.
  intros H s Hs. unfold record_out, mbind, M_bind. rewrite now_eq. unfold tick, modify.
  cbn [s_reads set_reads s_out s_disk].
  specialize (H (s_reads s) (env_io (S (s_reads s))) (env_io (S (S (s_reads s)))) (s_disk s)
    (s_ledger s) (s_out s) Hs).
  destruct (RecordOut _ _ _ _ _ _ _ _) as [s' d']. exact H.
Qed.

Lemma triple_enforce h (F F' R : book -> Prop) t q :
  (forall n l s, F (l, s) ->
     let '(r, l') := Enforce (h_Limits h) (env_clock n) t ToolWithdraw q l in
     match r with Ok _ => F' (l', s) | Err _ => R (l', s) end) ->
  triple (on F) (enforce_withdraw h t q) (fun _ => on F') (on R).
Proof.
  intros H s Hs. unfold enforce_withdraw, mbind, M_bind. rewrite now_eq. unfold run_state. cbn [set_reads s_ledger].
  specialize (H (s_reads s) (s_ledger s) (s_out s) Hs).
  destruct (Enforce _ _ _ _ _ _) as [[[]|e] l']; exact H.
Qed.

Lemma triple_record_withdraw (F F' R : book -> Prop) t q :
  (forall n l s, F (l, s) -> F' (RecordSpend (env_clock n) t q <$> l, s)) ->
  triple (on F) (record_withdraw t q) (fun _ => on F') (on R).
Proof.
  intros H s Hs. unfold record_withdraw, mbind, M_bind. rewrite now_eq. unfold modify. cbn [set_reads s_ledger].
  apply (H (s_reads s) (s_ledger s) (s_out s) Hs).
Qed.

End Triples.
#[export] Hint Resolve keeps_authorize keeps_claim keeps_append_audit : keeps.
#[export] Hint Extern 1 (keeps _ (broadcast_sync _)) =>
  first [eapply keeps_fst; apply keeps_broadcast_sync | eapply keeps_snd; apply keeps_broadcast_sync] : keeps.
#[export] Hint Extern 1 (keeps _ (evm_send _ _)) =>
  first [eapply keeps_fst; apply keeps_evm_send | eapply keeps_snd; apply keeps_evm_send] : keeps.
#[export] Hint Extern 1 (keeps _ (check_out _ _ _)) =>
  first [eapply keeps_fst; apply keeps_check_out | eapply keeps_snd; apply keeps_check_out] : keeps.
#[export] Hint Extern 1 (keeps _ (record_out _ _ _)) =>
  first [eapply keeps_fst; apply keeps_record_out | eapply keeps_snd; apply keeps_record_out] : keeps.
#[export] Hint Extern 1 (keeps _ (enforce_withdraw _ _ _)) =>
  first [eapply keeps_fst; apply keeps_enforce | eapply keeps_snd; apply keeps_enforce] : keeps.
#[export] Hint Extern 1 (keeps _ (record_withdraw _ _)) =>
  first [eapply keeps_fst; apply keeps_record_withdraw | eapply keeps_snd; apply keeps_record_withdraw] : keeps.
#[export] Hint Extern 1 (keeps _ (range _ _)) => apply keeps_range; [apply _|intros] : keeps.

(** The errors the money-market readers catch change nothing by themselves. *)
Lemma keeps_try {RL : RateLib} {X A} (v : srv -> X) (m : M srv A) : keeps v m -> keeps v (lendora.try m).
Proof. intros H s. specialize (H s). unfold lendora.try. by destruct (m s). Qed.
#[export] Hint Extern 1 (keeps _ (lendora.try _)) => (apply keeps_try; keeps_tac) : keeps.


(** ** The caps hold across broadcasts *)

Section Safe.
Context {RL : RateLib} {E : Env} {EL : EnvLaws E} {L : ChainLib} (h : Handlers).

(** No tenant is over the daily withdraw cap and no capped symbol of an owner
    is over its transfer-out cap, on any day. *)
Definition ledger_safe (l : option MemoryLedger) : Prop :=
  forall ml, l = Some ml -> under_cap ml /\ dailyCapQuantums (h_Limits h) = Some (ledger_cap ml).
Definition out_safe (o : option store) : Prop := forall st, o = Some st -> within_caps st.
Definition safe (b : option MemoryLedger * option store) : Prop := ledger_safe (fst b) /\ out_safe (snd b).

Definition ledger_room (l : option MemoryLedger) (t : string) (q : Z) : Prop :=
  forall ml, l = Some ml -> spend_room ml t q.
Definition out_room (o : option store) (ow k : string) (a : Z) : Prop :=
  forall st, o = Some st -> room st ow k a.

(** Every entry of a list of transfers has room. *)
Definition out_rooms (ow : string) (l : list (string * Z)) (o : option store) : Prop :=
  Forall (fun ka => out_room o ow (fst ka) (snd ka)) l.

Lemma Check_safe t io ow k a o d :
  out_safe o ->
  out_safe (fst (snd (TransferOut.Check t io ow k (Some a) o d)))
  /\ (forall ow' k' a', out_room o ow' k' a' -> out_room (fst (snd (TransferOut.Check t io ow k (Some a) o d))) ow' k' a')
  /\ (fst (TransferOut.Check t io ow k (Some a) o d) = Ok tt ->
      out_room (fst (snd (TransferOut.Check t io ow k (Some a) o d))) ow k a).
Proof.
  destruct o as [st|]; intros Ho; [|done]. unfold TransferOut.Check.
  destruct (check_room t io ow k a st d (Ho st eq_refl)) as (H1 & H2 & H3).
  destruct (checkLocked t io ow k (Some a) st d) as [r [st' d']]. cbn [fst snd] in *.
  split_and!.
  - by intros ? [= <-].
  - intros ow' k' a' Hr ? [= <-]. by apply H2, Hr.
  - intros Hok ? [= <-]. by apply H3.
Qed.

Lemma RecordOut_safe t o1 o2 ow k a o d :
  out_safe o -> out_room o ow k a ->
  out_safe (fst (RecordOut t o1 o2 ow k (Some a) o d))
  /\ forall ow' k' a', (ow', k') <> (ow, k) -> out_room o ow' k' a' ->
     out_room (fst (RecordOut t o1 o2 ow k (Some a) o d)) ow' k' a'.
Proof.
  destruct o as [st|]; intros Ho Hr; [|done]. unfold RecordOut, nilsafe.
  destruct (record_room t o1 o2 ow k a st d (Ho st eq_refl) (Hr st eq_refl)) as (H1 & H2).
  destruct (recordLocked t o1 o2 ow k (Some a) st d) as [st' d']. cbn [fst] in *. split.
  - by intros ? [= <-].
  - intros ow' k' a' Hne Hr' ? [= <-]. by apply H2, Hr'.
Qed.

(** The loop of checks gives every entry room at the end. *)
Lemma checks_safe (G : option MemoryLedger -> Prop) ow l done_ :
  triple (fun s => (safe (books s) /\ G (s_ledger s)) /\ out_rooms ow done_ (s_out s))
    (for_each (check_out ow) l)
    (fun _ s => (safe (books s) /\ G (s_ledger s)) /\ out_rooms ow (done_ ++ l) (s_out s))
    (fun s => safe (books s)).
Proof.
  revert done_. induction l as [|[k a] l IH]; intros done_; cbn [for_each].
  - rewrite app_nil_r. apply (triple_ret tt (fun _ s => _)).
  - apply (triple_bind _ _ (fun _ s => (safe (books s) /\ G (s_ledger s)) /\ out_rooms ow (done_ ++ [(k, a)]) (s_out s))).
    + apply (triple_check_out (fun b => (safe b /\ G (fst b)) /\ out_rooms ow done_ (snd b))
               (fun b => (safe b /\ G (fst b)) /\ out_rooms ow (done_ ++ [(k, a)]) (snd b)) safe).
      intros n io d ml o [[[Hl Ho] HG] Hr]. cbn [fst snd] in *. set (t := env_clock n).
      destruct (Check_safe t io ow k a o d Ho) as (H1 & H2 & H3).
      destruct (TransferOut.Check t io ow k (Some a) o d) as [[[]|e] [o' d']]; cbn [fst snd] in *; [|done].
      split; [done|]. apply Forall_app. split; [|by apply Forall_singleton, H3].
      eapply Forall_impl; [exact Hr|]. intros ka. apply H2.
    + intros []. specialize (IH (done_ ++ [(k, a)])). by rewrite <- app_assoc in IH.
Qed.

(** The loop of records, on entries with room and distinct symbols. *)
Lemma records_safe ow l :
  NoDup (l.*1) ->
  triple (fun s => safe (books s) /\ out_rooms ow l (s_out s))
    (for_each (record_out ow) l) (fun _ s => safe (books s)) (fun s => safe (books s)).
Proof.
  induction l as [|[k a] l IH]; intros Hnd; cbn [for_each].
  - intros s [Hs _]. exact Hs.
  - rewrite fmap_cons in Hnd. cbn [fst] in Hnd. apply NoDup_cons in Hnd as [Hk Hnd].
    apply (triple_bind _ _ (fun _ s => safe (books s) /\ out_rooms ow l (s_out s))); [|intros []; by apply IH].
    apply (triple_record_out (fun b => safe b /\ out_rooms ow ((k, a) :: l) (snd b))
             (fun b => safe b /\ out_rooms ow l (snd b)) safe).
    intros n o1 o2 d ml o [[Hl Ho] Hr]. cbn [fst snd] in *. set (t := env_clock n). apply Forall_cons in Hr as [Hr0 Hr].
    destruct (RecordOut_safe t o1 o2 ow k a o d Ho Hr0) as [H1 H2]. split; [done|].
    apply Forall_forall. intros [k' a'] Hin. cbn [fst snd]. apply H2.
    + intros [= ->]. apply Hk. apply list_elem_of_fmap. by exists (k, a').
    + by apply (proj1 (Forall_forall _ _) Hr (k', a')).
Qed.

Lemma range_nodup n (m : gmap string Z) : NoDup ((env_range n m).*1).
Proof. rewrite (range_perm n m). apply NoDup_fst_map_to_list. Qed.

(** Ranging twice over a map, in two orders: the rooms follow the entries. *)
Lemma rooms_perm ow l l' o : l ≡ₚ l' -> out_rooms ow l o -> out_rooms ow l' o.
Proof. intros Hp. unfold out_rooms. by rewrite Hp. Qed.

Definition rooms_for (ow : string) (m : gmap string Z) (o : option store) : Prop := out_rooms ow (map_to_list m) o.

Lemma range_checks_safe (G : option MemoryLedger -> Prop) ow m :
  triple (fun s => safe (books s) /\ G (s_ledger s)) (range m (check_out ow))
    (fun _ s => (safe (books s) /\ G (s_ledger s)) /\ rooms_for ow m (s_out s)) (fun s => safe (books s)).
Proof.
  unfold range. eapply (triple_bind _ _ (fun _ s => safe (books s) /\ G (s_ledger s))); [by intros s Hs|].
  intros n. eapply triple_weaken; [apply (checks_safe G ow _ [])| | |done].
  - intros s Hs. split; [done|]. constructor.
  - intros [] s [Hs Hr]. split; [done|]. eapply rooms_perm; [apply range_perm|exact Hr].
Qed.

Lemma range_records_safe ow m :
  triple (fun s => safe (books s) /\ rooms_for ow m (s_out s)) (range m (record_out ow))
    (fun _ s => safe (books s)) (fun s => safe (books s)).
Proof.
  unfold range. eapply (triple_bind _ _ (fun _ s => safe (books s) /\ rooms_for ow m (s_out s))); [by intros s Hs|].
  intros n. eapply triple_weaken; [apply (records_safe ow _ (range_nodup n m))| |done|done].
  intros s [Hs Hr]. split; [done|]. eapply rooms_perm; [symmetry; apply range_perm|exact Hr].
Qed.

Lemma sum_withdraws_range msgs : forall total q,
  0 <= total <= maxU64 -> sum_withdraws total msgs = Ok q -> 0 <= q <= maxU64.
Proof.
  induction msgs as [|a msgs IH]; intros total q H0 H; cbn [sum_withdraws] in H; [by simplify_eq|].
  destruct (m ← unpacked a; usdc_withdraw m) as [x|]; [|by eapply IH].
  destruct (u64 (total + x) <? total); [done|]. eapply IH; [|exact H].
  unfold u64, maxU64. pose proof (Z.mod_pos_bound (total + x) (2 ^ 64)). lia.
Qed.

Lemma extract_range raw q : extractWithdrawQuantums raw = Ok q -> 0 <= q <= maxU64.
Proof.
  unfold extractWithdrawQuantums. destruct (decode_body raw) as [msgs|]; [|done].
  apply sum_withdraws_range. unfold maxU64. lia.
Qed.

Lemma enforce_safe t q :
  0 <= q ->
  triple (fun s => safe (books s)) (enforce_withdraw h t q)
    (fun _ s => safe (books s) /\ ledger_room (s_ledger s) t q) (fun s => safe (books s)).
Proof.
  intros Hq. apply (triple_enforce h safe (fun b => safe b /\ ledger_room (fst b) t q) safe).
  intros n [ml|] o [Hl Ho]; set (now := env_clock n).
  2: { unfold Enforce. by destruct (CheckPerTx _ _ _). }
  destruct (Hl ml eq_refl) as [Hu Hd].
  destruct (enforce_room (h_Limits h) now t q ml Hd ltac:(lia) Hu) as (ml' & E1 & Hu' & Hc & Hr).
  assert (safe (Some ml', o)) as Hs' by (split; [intros ? [= <-]; by rewrite Hc|done]).
  destruct (Enforce (h_Limits h) now t ToolWithdraw q (Some ml)) as [[[]|e] l']; cbn [fst snd] in *; subst l';
    [|done].
  split; [done|]. intros ? [= <-]. by apply Hr.
Qed.

Lemma record_withdraw_safe t q ow m :
  0 <= q <= maxU64 ->
  triple (fun s => (safe (books s) /\ ledger_room (s_ledger s) t q) /\ rooms_for ow m (s_out s))
    (record_withdraw t q) (fun _ s => safe (books s) /\ rooms_for ow m (s_out s)) (fun s => safe (books s)).
Proof.
  intros Hq.
  apply (triple_record_withdraw (fun b => (safe b /\ ledger_room (fst b) t q) /\ rooms_for ow m (snd b))
           (fun b => safe b /\ rooms_for ow m (snd b)) safe).
  intros n l o [[[Hl Ho] Hr] Hm]. cbn [fst snd] in *. set (now := env_clock n). split; [|done]. split; [|done].
  intros ml' E'. destruct l as [ml|]; [|done]. injection E' as <-. destruct (Hl ml eq_refl) as [Hu Hd].
  destruct (record_under_cap now t q ml Hu Hq (Hr ml eq_refl)) as [Hu' Hc].
  split; [exact Hu'|]. rewrite Hd. f_equal. symmetry. exact Hc.
Qed.

Lemma BroadcastSignedTx_safe ctx clientID tx : preserves (fun s => safe (books s)) (BroadcastSignedTx h ctx clientID tx).
Proof.
  unfold BroadcastSignedTx. apply (triple_keeps safe); [auto with keeps|done|]. intros tp.
  apply (triple_keeps safe); [auto with keeps|done|]. intros [].
  apply triple_lift_bind; [done|]. intros raw _. apply triple_lift_bind; [done|]. intros signer _.
  apply triple_lift_bind; [done|]. intros [] _. apply triple_lift_bind; [done|]. intros q Hq%wrap_ok%extract_range.
  set (G := fun l => if 0 <? q then ledger_room l (tp_TenantID tp) q else True).
  apply (triple_bind _ _ (fun _ s => safe (books s) /\ G (s_ledger s))).
  { unfold G. destruct (Z.ltb_spec 0 q); [apply enforce_safe; lia|]. by intros s Hs. }
  intros []. apply triple_lift_bind; [by intros s [Hs _]|]. intros out _.
  eapply triple_bind; [apply (range_checks_safe G)|]. intros [].
  apply (triple_keeps (fun b => (safe b /\ G (fst b)) /\ rooms_for (tp_Owner tp) out (snd b)));
    [auto with keeps|by intros s [[Hs _] _]|]. intros r.
  apply (triple_keeps (fun b => (safe b /\ G (fst b)) /\ rooms_for (tp_Owner tp) out (snd b)));
    [auto with keeps|by intros s [[Hs _] _]|]. intros [].
  do 2 (apply triple_lift_bind; [by intros s [[Hs _] _]|]; intros [] _).
  eapply (triple_bind _ _ (fun _ s => safe (books s) /\ rooms_for (tp_Owner tp) out (s_out s))).
  - destruct (br_Code _ =? 0); cbn [andb]; [|by intros s [[Hs _] Hr]].
    unfold G. destruct (Z.ltb_spec 0 q); [by apply record_withdraw_safe|by intros s [[Hs _] Hr]].
  - intros []. apply (triple_bind _ _ (fun _ s => safe (books s))); [|intros [] s Hs; exact Hs].
    case_match; [apply range_records_safe|by intros s [Hs _]].
Qed.

Lemma BroadcastEVMTx_safe ctx clientID tx : preserves (fun s => safe (books s)) (BroadcastEVMTx h ctx clientID tx).
Proof.
  unfold BroadcastEVMTx. apply (triple_keeps safe); [auto with keeps|done|]. intros tp.
  apply triple_lift_bind; [done|]. intros [] _.
  apply (triple_keeps safe); [auto with keeps|done|]. intros [].
  do 3 (apply triple_lift_bind; [done|]; intros ? _). apply triple_lift_bind; [done|]. intros ownerEth _.
  apply triple_lift_bind; [done|]. intros [] _. destruct (default _ _) as [router wsvp].
  cbv zeta. match goal with |- context [range ?m (check_out _)] => set (out := m) end.
  eapply triple_bind.
  { eapply triple_weaken; [apply (range_checks_safe (fun _ => True))|by intros s Hs|done|done]. }
  intros [].
  apply (triple_keeps (fun b => (safe b /\ True) /\ rooms_for (tp_Owner tp) out (snd b)));
    [auto with keeps|by intros s [[Hs _] _]|]. intros r.
  destruct (match r with Ok _ => _ | Err _ => _ end) as [[txHash outcome] reason].
  apply (triple_keeps (fun b => (safe b /\ True) /\ rooms_for (tp_Owner tp) out (snd b)));
    [auto with keeps|by intros s [[Hs _] _]|]. intros [].
  apply triple_lift_bind; [by intros s [[Hs _] _]|]. intros [] _.
  apply (triple_bind _ _ (fun _ s => safe (books s))); [|intros [] s Hs; exact Hs].
  eapply triple_weaken; [apply range_records_safe|by intros s [[Hs _] Hr]|done|done].
Qed.

End Safe.

(** ** What must hold before anything is sent *)

Section Guards.
Context {RL : RateLib} {E : Env} {L : ChainLib} (h : Handlers).

Lemma bind_or {X A B} (v : srv -> X) (m : M srv A) (f : A -> M srv B) s r s' :
  keeps v m -> (m ≫= f) s = (r, s') ->
  v s' = v s \/ exists a s1, m s = (Ok a, s1) /\ v s1 = v s /\ f a s1 = (r, s').
Proof.
  intros Hk H. specialize (Hk s). apply M_bind_cases in H as [(e & H & ->)|(a & s1 & H1 & H)].
  - rewrite H in Hk. by left.
  - rewrite H1 in Hk. right. eauto.
Qed.

Lemma outbox_eq s s' : outbox s = outbox s' -> s_sent s = s_sent s' /\ s_evm_sent s = s_evm_sent s'.
Proof. by intros [= -> ->]. Qed.

Lemma claim_ok t c s u s' :
  claim t c s = (Ok u, s') ->
  fst (Claim t c (env_clock (s_reads s)) (s_idem s)) = Ok tt /\ books s' = books s /\ s_reads s' = S (s_reads s).
Proof.
  intros H. pose proof (keeps_claim t c s) as Hk. rewrite H in Hk. unfold claim in H. m_inv H as now s1 H1.
  rewrite now_eq in H1. injection H1 as <- <-. unfold run_state in H. cbn [s_idem set_reads] in H.
  destruct (Claim t c _ (s_idem s)) as [r i]. injection H as -> <-.
  destruct u. split_and!; [done| |done]. exact (f_equal (fun x => fst (fst (fst x))) Hk).
Qed.

Lemma enforce_ok t q s u s' :
  enforce_withdraw h t q s = (Ok u, s') ->
  fst (Enforce (h_Limits h) (env_clock (s_reads s)) t ToolWithdraw q (s_ledger s)) = Ok tt /\ s_reads s' = S (s_reads s).
Proof.
  intros H. unfold enforce_withdraw in H. m_inv H as now s1 H1. rewrite now_eq in H1. injection H1 as <- <-.
  unfold run_state in H. cbn [s_ledger set_reads] in H.
  destruct (Enforce _ _ _ _ _ _) as [r l]. injection H as -> <-. by destruct u.
Qed.

(** A request that may act on the chain: its tenant authorized, and its client id
    held by nobody at the clock reading with which it is claimed. *)
Definition admitted (ctx : context) (clientID : string) (tp : TenantPolicy) (s : srv) : Prop :=
  authorized ctx tp s /\ unclaimed (tp_TenantID tp) clientID (reading s 3) (s_idem s).

Lemma admitted_intro ctx clientID tool tp s s1 u s2 :
  authorize ctx tool s = (Ok tp, s1) -> claim (tp_TenantID tp) clientID s1 = (Ok u, s2) ->
  admitted ctx clientID tp s /\ books s2 = books s /\ s_reads s2 = (s_reads s + 4)%nat.
Proof.
  intros H1 H2. apply authorize_ok in H1 as [Ha (rt & ->)]. apply claim_ok in H2 as (Hcl & Hb & Hr).
  cbn [s_reads set_rate set_reads] in Hr. split_and!; [split; [done|]|done|].
  - apply Claim_unclaimed. exact Hcl.
  - rewrite Hr. by rewrite (Nat.add_succ_r _ 3).
Qed.

(** The rest of the handler once the transaction was sent. *)
Lemma sent_once raw {A} (f : result BroadcastResult -> M srv A) s r s' :
  (forall x, keeps outbox (f x)) -> (broadcast_sync raw ≫= f) s = (r, s') ->
  s_sent s' = s_sent s ++ [raw] /\ s_evm_sent s' = s_evm_sent s.
Proof.
  intros Hf H. unfold broadcast_sync, tick, run_state, mbind, M_bind in H. cbn [set_reads] in H.
  pose proof (Hf (env_broadcast (s_reads s) raw) (set_sent (s_sent s ++ [raw]) (set_reads (S (s_reads s)) s))) as Hk.
  cbn [s_sent set_reads] in H. rewrite H in Hk. by injection Hk as -> ->.
Qed.

Lemma evm_sent_once c tx {A} (f : result string -> M srv A) s r s' :
  (forall x, keeps outbox (f x)) -> (evm_send c tx ≫= f) s = (r, s') ->
  s_evm_sent s' = s_evm_sent s ++ [(c, tx)] /\ s_sent s' = s_sent s.
Proof.
  intros Hf H. unfold evm_send, tick, run_state, mbind, M_bind in H. cbn [set_reads] in H.
  pose proof (Hf (env_evm_send (s_reads s) c tx) (set_evm_sent (s_evm_sent s ++ [(c, tx)]) (set_reads (S (s_reads s)) s))) as Hk.
  cbn [s_evm_sent set_reads] in H. rewrite H in Hk. by injection Hk as -> ->.
Qed.

(** Peel one bind: an early return leaves the outbox alone. *)
Ltac peel H a s1 H1 H2 :=
  eapply (bind_or outbox) in H as [H|(a & s1 & H1 & H2 & H)];
  [left; congruence| |solve [keeps_tac]].

(** What the state after a signed broadcast, [s'], says about the one before. *)
Definition signed_guard (ctx : context) (clientID : string) (tx : SignedTx) (s s' : srv) : Prop :=
  outbox s' = outbox s
  \/ exists tp raw q out,
       s_sent s' = s_sent s ++ [raw] /\ s_evm_sent s' = s_evm_sent s
       /\ admitted ctx clientID tp s
       /\ Base64Decode (st_TxRawBytesB64 tx) = Ok raw
       /\ signerAddressFromTxRaw raw = Ok (tp_Owner tp)
       /\ extractWithdrawQuantums raw = Ok q /\ extractBankSends raw (tp_Owner tp) = Ok out
       /\ (0 < q -> withdrawable (h_Limits h) (reading s 4) (tp_TenantID tp) q (s_ledger s)).

Lemma signed_guarded ctx clientID tx s r s' :
  BroadcastSignedTx h ctx clientID tx s = (r, s') -> signed_guard ctx clientID tx s s'.
Proof.
  intros H. unfold BroadcastSignedTx in H.
  peel H tp s1 H1 K1. peel H u s2 H2 K2. destruct (admitted_intro _ _ _ _ _ _ _ _ H1 H2) as (Ha & Hb & Hrd).
  peel H raw s3 H3 K3. apply lift_ok in H3 as [H3%wrap_ok ->].
  peel H signer s4 H4 K4. apply lift_ok in H4 as [H4%wrap_ok ->].
  peel H u5 s5 H5 K5. apply lift_ok in H5 as [H5 ->].
  destruct (String.eqb_spec signer (tp_Owner tp)) as [->|]; [|done].
  peel H q s6 H6 K6. apply lift_ok in H6 as [H6%wrap_ok ->].
  peel H u7 s7 H7 K7. peel H out s8 H8 K8. apply lift_ok in H8 as [H8%wrap_ok ->].
  peel H u9 s9 H9 K9. right. apply sent_once in H as [Hs He].
  - rewrite Hs, He. exists tp, raw, q, out.
    destruct (outbox_eq s9 s ltac:(congruence)) as [-> ->].
    split_and!; try done. intros Hq. rewrite (proj2 (Z.ltb_lt 0 q) Hq) in H7.
    apply enforce_ok in H7 as [H7 _]. injection Hb as Hl _. rewrite Hl, Hrd in H7. by apply Enforce_within.
  - intros x. keeps_tac.
Qed.

(** C17: broadcast_signed_tx hands a transaction to the node at most once per
    call, and only when the policy of the caller's tenant is in force at the clock
    readings of the prelude and not kill-switched, the client id is held by
    nobody at the reading with which it is claimed, the bytes decode, their single
    signer is the tenant's owner, and what they withdraw is within the cap per
    transaction and, with what the tenant has spent on the day of the next
    reading, within the daily cap; otherwise nothing is sent. *)
Theorem broadcast_guarded (ctx : context) (clientID : string) (tx : SignedTx) (s : srv) :
  let '(_, s') := BroadcastSignedTx h ctx clientID tx s in
  outbox s' = outbox s
  \/ exists tp raw q out,
       s_sent s' = s_sent s ++ [raw] /\ s_evm_sent s' = s_evm_sent s
       /\ admitted ctx clientID tp s
       /\ Base64Decode (st_TxRawBytesB64 tx) = Ok raw
       /\ signerAddressFromTxRaw raw = Ok (tp_Owner tp)
       /\ extractWithdrawQuantums raw = Ok q /\ extractBankSends raw (tp_Owner tp) = Ok out
       /\ (0 < q -> withdrawable (h_Limits h) (reading s 4) (tp_TenantID tp) q (s_ledger s)).
Proof.
  destruct (BroadcastSignedTx h ctx clientID tx s) as [r s'] eqn:H. exact (signed_guarded _ _ _ _ _ _ H).
Qed.

(** The chain a transaction goes to: -1 is the home chain. *)
Definition route (tx : EthTx) : Z :=
  if bool_decide (u64 (etx_ChainId tx) ∈ h_ForeignChains h) then u64 (etx_ChainId tx) else -1.

(** The node a transaction may go to: the one of a configured foreign chain whose
    id it was signed for (the low 64 bits of it, which is what the server
    compares), and the home node for every other id, which is the one to refuse
    an id that is not its own. *)
Definition destined (tx : EthTx) (chain : Z) : Prop :=
  (chain ∈ h_ForeignChains h /\ chain = etx_ChainId tx mod 2 ^ 64)
  \/ (chain = -1 /\ (etx_ChainId tx mod 2 ^ 64)%Z ∉ h_ForeignChains h).

Lemma route_destined tx : destined tx (route tx).
Proof.
  unfold destined, route. fold (u64 (etx_ChainId tx)).
  destruct (bool_decide_reflect (u64 (etx_ChainId tx) ∈ h_ForeignChains h)); [by left|by right].
Qed.

Definition evm_guard (ctx : context) (clientID : string) (tx : EVMSignedTx) (s s' : srv) : Prop :=
  outbox s' = outbox s
  \/ exists tp raw etx from,
       s_evm_sent s' = s_evm_sent s ++ [(route etx, etx)] /\ s_sent s' = s_sent s
       /\ h_EVM h = true /\ admitted ctx clientID tp s
       /\ hexutil_Decode (ev_RawTxHex tx) = Ok raw /\ EthTx_UnmarshalBinary raw = Ok etx
       /\ EthTx_Sender etx = Ok from /\ ownerEthAddress (tp_Owner tp) = Ok from.

Lemma evm_guarded ctx clientID tx s r s' :
  BroadcastEVMTx h ctx clientID tx s = (r, s') -> evm_guard ctx clientID tx s s'.
Proof.
  intros H. unfold BroadcastEVMTx in H.
  peel H tp s1 H1 K1. peel H u0 s0 H0 K0. apply lift_ok in H0 as [H0 ->]. destruct (h_EVM h) eqn:Eevm; [|done].
  peel H u s2 H2 K2. destruct (admitted_intro _ _ _ _ _ _ _ _ H1 H2) as (Ha & Hb & Hrd).
  peel H raw s3 H3 K3. apply lift_ok in H3 as [H3%wrap_ok ->].
  peel H etx s4 H4 K4. apply lift_ok in H4 as [H4%wrap_ok ->].
  peel H from s5 H5 K5. apply lift_ok in H5 as [H5%wrap_ok ->].
  peel H ownerEth s6 H6 K6. apply lift_ok in H6 as [H6 ->].
  peel H u7 s7 H7 K7. apply lift_ok in H7 as [H7 ->].
  destruct (addr_eqb from ownerEth) eqn:Ea; [|done]. apply bool_decide_eq_true in Ea as ->.
  destruct (default _ _) as [router wsvp]. cbv zeta in H. peel H u9 s9 H9 K9. right.
  apply evm_sent_once in H as [Hs He].
  - rewrite Hs, He. exists tp, raw, etx, ownerEth.
    destruct (outbox_eq s9 s ltac:(congruence)) as [-> ->].
    split_and!; try done. unfold route. by destruct (bool_decide _).
  - intros x. destruct (match x with Ok _ => _ | Err _ => _ end) as [[? ?] ?]. keeps_tac.
Qed.

(** C18: broadcast_evm_tx hands a transaction to a node at most once per call:
    only with EVM enabled, for a tenant whose policy is in force and not
    kill-switched and a client id held by nobody, at the clock readings of the
    call, with a sender recovered from the signature that is the tenant owner's
    EVM address; the node is that of a configured foreign chain only if the
    transaction was signed for that chain's id (compared in 64 bits), and the home
    node only if it was signed for none of them. *)
Theorem evm_broadcast_guarded (ctx : context) (clientID : string) (tx : EVMSignedTx) (s : srv) :
  let '(_, s') := BroadcastEVMTx h ctx clientID tx s in
  outbox s' = outbox s
  \/ exists tp raw etx from chain,
       s_evm_sent s' = s_evm_sent s ++ [(chain, etx)] /\ s_sent s' = s_sent s /\ destined etx chain
       /\ h_EVM h = true /\ admitted ctx clientID tp s
       /\ hexutil_Decode (ev_RawTxHex tx) = Ok raw /\ EthTx_UnmarshalBinary raw = Ok etx
       /\ EthTx_Sender etx = Ok from /\ ownerEthAddress (tp_Owner tp) = Ok from.
Proof.
  destruct (BroadcastEVMTx h ctx clientID tx s) as [r s'] eqn:H.
  apply evm_guarded in H as [H|(tp & raw & etx & from & H1 & H2 & H3)]; [by left|right].
  exists tp, raw, etx, from, (route etx). pose proof (route_destined etx). destruct H3 as (? & ? & ? & ? & ? & ?). by split_and!.
Qed.

End Guards.

(** ** What a broadcast costs

    On a day of the clock, a broadcast that the chain accepts is charged once,
    in full, to its tenant and to its owner; any other is free. *)

Section Accounting.
Context {RL : RateLib} {E : Env} {EL : EnvLaws E} {L : ChainLib} (h : Handlers) (t0 : Time).
Hypothesis Hday : forall n, utc_day (env_clock n) = utc_day t0.

(** The two books read on the day of [t0]. *)
Definition balance (lf : string -> Z) (mf : string -> string -> Z) (b : option MemoryLedger * option store) : Prop :=
  (exists l, fst b = Some l /\ mem_ok l /\ forall t, mem_spent l t0 t = lf t)
  /\ (exists o, snd b = Some o /\ forall ow k, moved o t0 ow k = mf ow k).

Definition charge_out (ow : string) (m : gmap string Z) (mf : string -> string -> Z) (ow' k : string) : Z :=
  mf ow' k + (if String.eqb ow' ow then Z.max 0 (default 0 (m !! k)) else 0).
Definition charge_withdraw (t : string) (q : Z) (lf : string -> Z) (t' : string) : Z :=
  if String.eqb t' t then Z.min maxU64 (lf t + q) else lf t'.

Lemma balance_ext lf mf mf' b : (forall ow k, mf ow k = mf' ow k) -> balance lf mf b -> balance lf mf' b.
Proof. intros H (Hl & o & Ho & Hm). split; [done|]. exists o. split; [done|]. intros. by rewrite Hm. Qed.

Abbreviation on F := (fun s : srv => F (books s)) (only parsing).
Abbreviation bal lf mf := (fun s : srv => balance lf mf (books s)) (only parsing).

Lemma mem_ledger_ok (l : MemoryLedger) : mem_ok l -> ledger_ok l.
Proof. done. Qed.

Lemma check_balance lf mf ow k a : preserves (bal lf mf) (check_out ow k a).
Proof.
  apply (triple_check_out (balance lf mf) (balance lf mf) (balance lf mf)).
  intros n io d l s (Hl & o & Ho & Hm). cbn [fst snd] in *. subst s. unfold TransferOut.Check.
  rewrite checkLocked_eq. destruct (a <=? 0); [split; [done|]; by exists o|].
  pose proof (fun ow k => moved_rollover (env_clock n) io o d t0 ow k) as Hr.
  destruct (rolloverLocked (env_clock n) io o d) as [o' d']. cbn [fst] in Hr.
  assert (balance lf mf (l, Some o')); [|by destruct (match _ ≫= _ with Some _ => _ | None => _ end)].
  split; [done|]. exists o'. split; [done|]. intros ow' k'. by rewrite Hr, Hday, Z.eqb_refl.
Qed.

Lemma record_balance lf mf ow k a R :
  triple (bal lf mf) (record_out ow k a)
    (fun _ => bal lf (fun ow' k' => mf ow' k' + if decide (ow = ow' /\ k = k') then Z.max 0 a else 0)) (on R).
Proof.
  apply triple_record_out. intros n o1 o2 d l s (Hl & o & Ho & Hm). cbn [fst snd] in *. subst s.
  split; [done|]. unfold RecordOut, nilsafe. cbn [fst snd].
  destruct (recordLocked (env_clock n) o1 o2 ow k (Some a) o d) as [o' d'] eqn:Er. cbn [fst]. exists o'. split; [done|].
  intros ow' k'. rewrite <- Hm. apply (f_equal fst) in Er. cbn [fst] in Er. subst o'.
  destruct (Z.le_gt_cases a 0) as [Ha|Ha].
  - unfold recordLocked. rewrite (proj2 (Z.leb_le a 0) Ha). cbn [fst]. case_decide; lia.
  - rewrite recordLocked_moved, Hday, Z.eqb_refl by done. case_decide; lia.
Qed.

Lemma enforce_balance lf mf t q : preserves (bal lf mf) (enforce_withdraw h t q).
Proof.
  apply (triple_enforce h (balance lf mf) (balance lf mf) (balance lf mf)).
  intros n l s ((ml & Hl & Hok & Hs) & Ho). cbn [fst snd] in *. subst l. unfold Enforce.
  assert (balance lf mf (Some ml, s)) as H0 by (split; [by exists ml|done]).
  destruct (CheckPerTx _ _ _); [|done]. cbn [negb]. destruct (negb _); [done|].
  destruct (dailyCapQuantums _); [|done].
  destruct (Remaining_state (env_clock n) t ml (mem_ledger_ok ml Hok)) as (Hok' & _ & Hsp).
  destruct (Remaining (env_clock n) t ml) as [rem ml']. cbn [snd] in Hok', Hsp.
  assert (balance lf mf (Some ml', s)); [|by destruct (rem <? q)].
  split; [|done]. exists ml'. split_and!; [done..|]. intros t'. rewrite <- Hs.
  change (spent ml' t0 t' = spent ml t0 t'). by rewrite Hsp, Hday, Z.eqb_refl.
Qed.

Lemma record_withdraw_balance lf mf t q R :
  0 <= q <= maxU64 -> triple (bal lf mf) (record_withdraw t q) (fun _ => bal (charge_withdraw t q lf) mf) (on R).
Proof.
  intros Hq. apply triple_record_withdraw. intros n l s ((ml & Hl & Hok & Hs) & Ho). cbn [fst snd] in *. subst l.
  destruct (Record_state (env_clock n) t q ml (mem_ledger_ok ml Hok) Hq) as (Hok' & _ & Hsp).
  split; [|done]. eexists. split_and!; [done..|]. intros t'. unfold charge_withdraw. rewrite <- !Hs.
  change (spent (RecordSpend (env_clock n) t q ml) t0 t' = if String.eqb t' t then Z.min maxU64 (spent ml t0 t + q) else spent ml t0 t').
  by rewrite Hsp, Hday, Z.eqb_refl.
Qed.

Lemma range_check_balance lf mf ow m : preserves (bal lf mf) (range m (check_out ow)).
Proof.
  unfold range. eapply (triple_bind _ _ (fun _ => bal lf mf)); [by intros s Hs|]. intros n.
  generalize (env_range n m) as l. induction l as [|[k a] l IH]; cbn [for_each]; [by intros s Hs|].
  eapply triple_bind; [apply check_balance|]. by intros [].
Qed.

Lemma for_each_record_balance R lf ow l : NoDup (l.*1) -> forall mf,
  triple (bal lf mf) (for_each (record_out ow) l) (fun _ => bal lf (charge_out ow (list_to_map l) mf)) (on R).
Proof.
  induction l as [|[k a] l IH]; intros Hnd mf; cbn [for_each].
  - intros s Hs. eapply balance_ext; [|exact Hs]. intros ow' k'. unfold charge_out.
    cbn [list_to_map foldr]. rewrite lookup_empty. cbn [default from_option id]. destruct (String.eqb ow' ow); lia.
  - rewrite fmap_cons in Hnd. apply NoDup_cons in Hnd as [Hk Hnd]. cbn [fst] in Hk.
    eapply triple_bind; [apply record_balance|]. intros []. eapply triple_weaken; [apply (IH Hnd)|intros s Hs; exact Hs| |done].
    intros [] s Hs. eapply balance_ext; [|exact Hs]. intros ow' k'. unfold charge_out.
    cbn [list_to_map foldr uncurry fst snd]. rewrite lookup_insert. destruct (String.eqb_spec ow' ow) as [->|Ho].
    + destruct (decide (k = k')) as [->|Hne].
      * rewrite !decide_True by done. rewrite (not_elem_of_list_to_map_1 (M := gmap string) l k' Hk).
        cbn [default from_option id]. lia.
      * rewrite !decide_False by naive_solver. lia.
    + rewrite decide_False by naive_solver. lia.
Qed.

Lemma range_record_balance R lf mf ow m :
  triple (bal lf mf) (range m (record_out ow)) (fun _ => bal lf (charge_out ow m mf)) (on R).
Proof.
  unfold range. eapply (triple_bind _ _ (fun _ => bal lf mf)); [by intros s Hs|]. intros n.
  eapply triple_weaken; [apply (for_each_record_balance R lf ow _ (range_nodup n m) mf)|done| |done].
  intros [] s. by rewrite (list_to_map_proper (M := gmap string) _ (map_to_list m) (range_nodup n m) (range_perm n m)),
    list_to_map_to_list.
Qed.

(** The part of the handler after [authorize]. *)
Definition charged (tx : SignedTx) (tp : TenantPolicy) lf mf (res : BroadcastResult) (s : srv) : Prop :=
  if br_Code res =? 0 then
    exists raw q out, Base64Decode (st_TxRawBytesB64 tx) = Ok raw
    /\ extractWithdrawQuantums raw = Ok q /\ extractBankSends raw (tp_Owner tp) = Ok out
    /\ balance (charge_withdraw (tp_TenantID tp) q lf) (charge_out (tp_Owner tp) out mf) (books s)
  else balance lf mf (books s).

Lemma charge_zero t lf mf b : balance lf mf b -> balance (charge_withdraw t 0 lf) mf b.
Proof.
  intros [(ml & Hl & Hok & Hs) Ho]. split; [|done]. exists ml. split_and!; [done..|]. intros t'.
  unfold charge_withdraw. destruct (String.eqb_spec t' t) as [->|]; [|done].
  rewrite <- Hs. pose proof (mem_spent_range ml t0 t Hok). lia.
Qed.

(** The two recording steps at the end. *)
Lemma settle_balance lf mf t ow q out (c : bool) (res : BroadcastResult) :
  0 <= q <= maxU64 ->
  triple (bal lf mf)
    (_ ← (if c && (0 <? q) then record_withdraw t q else mret tt);
     _ ← (if c then range out (record_out ow) else mret tt); mret res)
    (fun res' s => res' = res
       /\ if c then balance (charge_withdraw t q lf) (charge_out ow out mf) (books s) else balance lf mf (books s))
    (bal lf mf).
Proof.
  intros Hq. destruct c; cbn [andb]; [|by intros s Hs].
  apply (triple_bind _ _ (fun _ => bal (charge_withdraw t q lf) mf)).
  - destruct (Z.ltb_spec 0 q); [by apply (record_withdraw_balance _ _ _ _ (balance lf mf))|].
    intros s Hs. replace q with 0 by lia. by apply charge_zero.
  - intros []. eapply triple_bind; [apply (range_record_balance (balance lf mf))|]. by intros [] s Hs.
Qed.

Lemma signed_balance ctx clientID tx lf mf s0 :
  triple (fun s => balance lf mf (books s) /\ s = s0) (BroadcastSignedTx h ctx clientID tx)
    (fun res s => exists tp, fst (authorize ctx "broadcast_signed_tx" s0) = Ok tp /\ charged tx tp lf mf res s)
    (bal lf mf).
Proof.
  unfold BroadcastSignedTx.
  apply (triple_bind _ _ (fun tp s => balance lf mf (books s) /\ fst (authorize ctx "broadcast_signed_tx" s0) = Ok tp)).
  { intros s [Hs ->]. pose proof (keeps_view books _ (keeps_authorize ctx "broadcast_signed_tx") s0) as Hk.
    destruct (authorize _ _ s0) as [[tp|e] s1]; cbn [fst snd] in *; by rewrite Hk. }
  intros tp. apply triple_pure. intros Hau. apply (triple_keeps (balance lf mf)); [auto with keeps|done|]. intros [].
  apply triple_lift_bind; [done|]. intros raw H1%wrap_ok. apply triple_lift_bind; [done|]. intros signer _.
  apply triple_lift_bind; [done|]. intros [] H2.
  destruct (String.eqb_spec signer (tp_Owner tp)) as [E2|]; [|done]. rewrite E2. clear E2 H2.
  apply triple_lift_bind; [done|]. intros q H3%wrap_ok. pose proof (extract_range raw q H3) as Hq.
  eapply (triple_bind _ _ (fun _ => bal lf mf)); [destruct (0 <? q); [apply enforce_balance|by intros s Hs]|].
  intros []. apply triple_lift_bind; [done|]. intros out H4%wrap_ok.
  eapply triple_bind; [apply range_check_balance|]. intros [].
  do 2 (apply (triple_keeps (balance lf mf)); [auto with keeps|done|]; intros ?).
  do 2 (apply triple_lift_bind; [done|]; intros [] _).
  eapply triple_weaken; [exact (settle_balance lf mf (tp_TenantID tp) (tp_Owner tp) q out (br_Code _ =? 0) _ Hq)|done| |done].
  intros res s [-> Hs]. exists tp. split; [done|]. unfold charged. case_match; [|done]. by exists raw, q, out.
Qed.

End Accounting.

(** ** A concrete tenant and transaction *)

Definition demo_tenant : TenantPolicy := mkTenantPolicy "t1" "svp1a" {[0]} false.
Definition demo_ctx : context := WithTenant background (mkTenantContext "t1" "svp1a").
Definition demo_handlers : Handlers :=
  mkHandlers "svp-2517-1" (Build_Config 0 0 0 1) (NewAssembler "svp-2517-1" "asvp" "1000" 0) true [11155111] None.

(** A clock that stands still: what one day looks like. *)
Definition demo_still : Env := {|
  env_clock := fun _ => 7; env_rand := @env_rand demo_env; env_io := fun _ => IOok; env_write := fun _ => Ok tt;
  env_range := fun _ m => map_to_list m; env_account := @env_account demo_env;
  env_broadcast := @env_broadcast demo_env; env_evm_send := @env_evm_send demo_env;
  env_error_text := @env_error_text demo_env |}.

#[export] Instance demo_still_laws : EnvLaws demo_still.
Proof. constructor. done. Qed.

Definition demo_live : srv (RL := demo_rate) :=
  mkSrv {["t1"%string := demo_tenant]} (s_tenants demo_srv) (s_nonces demo_srv) (s_ips demo_srv) (s_sessions demo_srv)
    (s_rate demo_srv) (s_idem demo_srv) [] (s_ledger demo_srv) (s_out demo_srv) ∅ (s_markets demo_srv)
    (s_lendora demo_srv) [] [] [] 0.

Lemma demo_srv_safe : safe demo_handlers (books demo_srv).
Proof.
  destruct (NewMemoryLedger_under_cap (Build_Config 0 0 0 1) ltac:(done) ltac:(done)) as (Hu & _ & Hd).
  split.
  - intros ml Hml. cbn [books fst s_ledger demo_srv] in Hml. apply (inj Some) in Hml. subst ml. split; [exact Hu|exact Hd].
  - intros st Hst ow k c b Hc Hb now. cbn [books snd s_out demo_srv] in Hst. apply (inj Some) in Hst. subst st.
    cbn [caps setCapLocked fst NewMemoryTransferOutStore] in Hc.
    rewrite at2_insert in Hc. destruct (decide _); [|by rewrite at2_empty in Hc]. injection Hc as <-.
    injection Hb as <-. unfold moved. cbn [s_used setCapLocked fst NewMemoryTransferOutStore]. rewrite at2_empty.
    destruct (String.eqb _ _); cbn; lia.
Qed.

(** A withdrawal of 0.5 USDC. *)
Definition demo_signed : SignedTx := mkSignedTx "NTAwMDAw" "" "".

Definition demo_sent := BroadcastSignedTx (RL := demo_rate) (E := demo_still) (L := demo_lib) demo_handlers demo_ctx "c1"
  demo_signed demo_live.

Example demo_sent_value : fst demo_sent = Ok (mkBroadcastResult "HASH" 0 "") /\ s_sent (snd demo_sent) = [chars "500000"].
Proof. split; vm_compute; reflexivity. Qed.

(** C4: accounting.  With the clock on one UTC day, a broadcast the chain accepts
    (code 0) adds exactly the withdrawn quantums to what its tenant spent that
    day (saturating at 2^64-1) and exactly the signer's sends to what its owner
    moved, per symbol, and nothing to anyone else; a broadcast that ends in an
    error or in a non-zero code leaves every total as it was. *)
Theorem broadcast_accounting {RL : RateLib} {E : Env} {EL : EnvLaws E} {L : ChainLib} (h : Handlers) (t0 : Time)
    (Hday : forall n, utc_day (env_clock n) = utc_day t0)
    (ctx : context) (clientID : string) (tx : SignedTx) (s : srv) (l : MemoryLedger) (o : store)
    (Hl : s_ledger s = Some l) (Hok : mem_ok l) (Ho : s_out s = Some o) :
  let '(r, s') := BroadcastSignedTx h ctx clientID tx s in
  exists l' o', s_ledger s' = Some l' /\ s_out s' = Some o' /\
  match r with
  | Ok res =>
      if br_Code res =? 0 then
        exists tp raw q out,
          fst (authorize ctx "broadcast_signed_tx" s) = Ok tp
          /\ Base64Decode (st_TxRawBytesB64 tx) = Ok raw
          /\ extractWithdrawQuantums raw = Ok q /\ extractBankSends raw (tp_Owner tp) = Ok out
          /\ (forall t, mem_spent l' t0 t = charge_withdraw (tp_TenantID tp) q (mem_spent l t0) t)
          /\ (forall ow k, moved o' t0 ow k = charge_out (tp_Owner tp) out (moved o t0) ow k)
      else (forall t, mem_spent l' t0 t = mem_spent l t0 t) /\ (forall ow k, moved o' t0 ow k = moved o t0 ow k)
  | Err _ => (forall t, mem_spent l' t0 t = mem_spent l t0 t) /\ (forall ow k, moved o' t0 ow k = moved o t0 ow k)
  end.
Proof.
  pose proof (signed_balance h t0 Hday ctx clientID tx (mem_spent l t0) (moved o t0) s s) as H.
  destruct (BroadcastSignedTx h ctx clientID tx s) as [r s'].
  assert (balance t0 (mem_spent l t0) (moved o t0) (books s)) as H0 by (split; [by exists l|by exists o]).
  specialize (H (conj H0 eq_refl)). destruct r as [res|e].
  - destruct H as (tp & Hau & H). unfold charged in H. destruct (br_Code res =? 0).
    + destruct H as (raw & q & out & H1 & H2 & H3 & (l' & E1 & _ & Hs) & (o' & E2 & Hm)).
      exists l', o'. split_and!; [done..|]. by exists tp, raw, q, out.
    + destruct H as ((l' & E1 & _ & Hs) & (o' & E2 & Hm)). by exists l', o'.
  - destruct H as ((l' & E1 & _ & Hs) & (o' & E2 & Hm)). by exists l', o'.
Qed.

Lemma broadcast_accounting_witness :
  exists l', s_ledger (snd demo_sent) = Some l' /\ mem_spent l' 7 "t1" = 500000.
Proof.
  pose proof (broadcast_accounting (EL := demo_still_laws) (L := demo_lib) demo_handlers 7 (fun _ => eq_refl) demo_ctx "c1"
    demo_signed demo_live (NewMemoryLedger 1) _ eq_refl
    (proj1 (proj1 (NewMemoryLedger_under_cap (Build_Config 0 0 0 1) ltac:(done) ltac:(done)))) eq_refl) as H.
  fold demo_sent in H. destruct demo_sent_value as [Hv _]. destruct demo_sent as [r s']. cbn [fst snd] in *. subst r.
  destruct H as (l' & o' & E1 & _ & tp & raw & q & out & Hau & Hb & Hq & _ & Hs & _).
  exists l'. split; [exact E1|]. rewrite Hs. vm_compute in Hau. injection Hau as <-.
  vm_compute in Hb. injection Hb as <-. vm_compute in Hq. injection Hq as <-. vm_compute. reflexivity.
Defined.
