(* ===== verification/Indexer.v ===== *)
(** * The client of the indexer (indexer/client.go and the endpoints beside it)

    Every endpoint is one GET through [get]: it waits for the outbound limiter,
    builds the URL, sends, and maps the status.  What the transport, the limiter
    and the JSON decoder answer is the class [HttpEnv], one interaction per call;
    a request that is sent is appended to [s_http].  A slice or map that may be
    nil after decoding is an [option]. *)

From S2P Require Import Prelude GoStrings GoNum GoTime GoEncoding Http Limits TransferOut NonceStore IPRateLimiter.
From S2P Require Import SessionBearers DynamicTenants Policy Markets Units ChainLib Payload Assembler Assets.
From S2P Require Import TxInspect LendoraCache Server Broadcast.

(** ** errors.Is

    A wrapped error is the [FErr] argument of an [Errorf]. *)
Definition same_error (e target : goerr) : bool :=
  match e, target with ErrNew a, ErrNew b => String.eqb a b | _, _ => false end.

Fixpoint errors_Is (target e : goerr) : bool :=
  same_error e target
  || match e with
     | Errorf _ args =>
         (fix any (l : list fmtarg) : bool :=
            match l with FErr x :: l' => errors_Is target x || any l' | _ :: l' => any l' | [] => false end) args
     | _ => false
     end.

Definition ErrNotFound : goerr := ErrNew "indexer: not found".

(** ** Responses *)

Class JsonLib : Type := {
  JsonObject : Type;                      (* a non-nil map[string]any *)
  json_empty : JsonObject;                (* map[string]any{} *)
  float64 : Type;
}.

Section Responses.
Context {J : JsonLib}.

(** []map[string]any, nil or not; an element may be a nil map. *)
Abbreviation Objects := (option (list (option JsonObject))) (only parsing).

(** [[]map[string]any{}] where the slice is nil. *)
Definition or_empty {A} (x : option (list A)) : option (list A) := match x with None => Some [] | Some l => Some l end.

Record Subaccount : Type := mkSubaccount {
  sb_Address : string; sb_SubaccountNumber : Z; sb_Equity : string; sb_FreeCollateral : string;
  sb_OpenPerpetualPositions : option JsonObject; sb_AssetPositions : option JsonObject; sb_MarginEnabled : bool;
  sb_UpdatedAtHeight : string; sb_LatestProcessedBlockHeight : string }.

Record PerpetualMarket : Type := mkPerpetualMarket {
  pm_ClobPairID : string; pm_Ticker : string; pm_Status : string; pm_OraclePrice : string; pm_PriceChange24H : string;
  pm_Volume24H : string; pm_Trades24H : Z; pm_NextFundingRate : string; pm_InitialMarginFraction : string;
  pm_MaintenanceMarginFraction : string; pm_OpenInterest : string; pm_AtomicResolution : Z;
  pm_QuantumConversionExponent : Z; pm_TickSize : string; pm_StepSize : string; pm_StepBaseQuantums : Z;
  pm_SubticksPerTick : Z; pm_MarketType : string; pm_OpenInterestLowerCap : string; pm_OpenInterestUpperCap : string;
  pm_BaseOpenInterest : string; pm_DefaultFundingRate1H : string }.

Record PerpetualMarketsResponse : Type := mkPerpetualMarketsResponse { pr_Markets : option (gmap string PerpetualMarket) }.

Record OrderbookPriceLevel : Type := mkOrderbookPriceLevel { pl_Price : string; pl_Size : string }.
Record Orderbook : Type := mkOrderbook {
  ob_Bids : option (list OrderbookPriceLevel); ob_Asks : option (list OrderbookPriceLevel) }.

Record CandlesResponse : Type := mkCandlesResponse { cs_Candles : Objects }.
Record GetCandlesArgs : Type := mkGetCandlesArgs {
  gc_Resolution : string; gc_Limit : Z; gc_FromISO : string; gc_ToISO : string }.
Record TradesResponse : Type := mkTradesResponse {
  tr_Trades : Objects; tr_PageSize : Z; tr_TotalResults : Z; tr_Offset : Z }.
Record FillsResponse : Type := mkFillsResponse {
  fr_Fills : Objects; fr_PageSize : Z; fr_TotalResults : Z; fr_Offset : Z }.
Record TransfersResponse : Type := mkTransfersResponse {
  xr_Transfers : Objects; xr_PageSize : Z; xr_TotalResults : Z; xr_Offset : Z }.
Record PnlResponse : Type := mkPnlResponse { nr_HistoricalPnl : Objects }.
Record HistoricalPnlResponse : Type := mkHistoricalPnlResponse {
  hp_HistoricalPnl : Objects; hp_PageSize : Z; hp_TotalResults : Z; hp_Offset : Z }.
Record HistoricalFundingResponse : Type := mkHistoricalFundingResponse { hf_HistoricalFunding : Objects }.
Record FundingPaymentsResponse : Type := mkFundingPaymentsResponse { fp_FundingPayments : Objects }.
Record HeightResponse : Type := mkHeightResponse { ht_Height : string; ht_Time : string }.
Record TimeResponse : Type := mkTimeResponse { tm_ISO : string; tm_Epoch : float64 }.

(** SparklinesResponse: a map, nil or not, of slices, nil or not. *)
Abbreviation Sparklines := (option (gmap string (option (list string)))) (only parsing).

(** encoding/json on the response types: [None] stays where the body has null or
    omits the field. *)
Class JsonDecoders : Type := {
  dec_Subaccount : bytes -> result Subaccount;
  dec_Markets : bytes -> result PerpetualMarketsResponse;
  dec_Orderbook : bytes -> result Orderbook;
  dec_Candles : bytes -> result CandlesResponse;
  dec_Trades : bytes -> result TradesResponse;
  dec_Sparklines : bytes -> result Sparklines;
  dec_HistoricalFunding : bytes -> result HistoricalFundingResponse;
  dec_Height : bytes -> result HeightResponse;
  dec_Time : bytes -> result TimeResponse;
  dec_Orders : bytes -> result Objects;
  dec_Order : bytes -> result (option JsonObject);
  dec_Fills : bytes -> result FillsResponse;
  dec_Transfers : bytes -> result TransfersResponse;
  dec_Pnl : bytes -> result PnlResponse;
  dec_HistoricalPnl : bytes -> result HistoricalPnlResponse;
  dec_FundingPayments : bytes -> result FundingPaymentsResponse;
}.

End Responses.

(** The outbound limiter, the parsing of a URL and the round trip: a status and
    the body. *)
Class HttpEnv : Type := {
  http_wait : nat -> error;
  http_new_request : string -> string -> error;
  http_do : nat -> HttpRequest -> result (Z * bytes);
}.

Record Client : Type := mkClient {
  cl_baseURL : string;
  cl_timeout : Duration;
  cl_bearerToken : string;
  cl_rps : Z;                             (* requests per second and burst of the limiter *)
  cl_burst : Z;
}.

Record Options : Type := mkOptions { op_BearerToken : string; op_Timeout : Duration; op_RateLimitRPS : Z; op_RateLimitBurst : Z }.

Definition NewClient (baseURL : string) (opts : Options) : Client :=
  mkClient (TrimRight1 baseURL "/")
    (if op_Timeout opts =? 0 then 30 * Second else op_Timeout opts) (op_BearerToken opts)
    (if op_RateLimitRPS opts =? 0 then 20 else op_RateLimitRPS opts)
    (if op_RateLimitBurst opts =? 0 then 5 else op_RateLimitBurst opts).

Section Requests.
Context {RL : RateLib} {HE : HttpEnv}.

(** The request leaves; the answer is the value. *)
Definition http_send (req : HttpRequest) : M srv (result (Z * bytes)) :=
  n ← tick;
  run_state (fun s => (Ok (http_do n req), set_http (s_http s ++ [req]) s)).

Definition limiter_wait : M srv unit :=
  n ← tick; lift (wrap (fun e => Errorf "rate limit wait: %w" [FErr e]) (http_wait n)).

Definition endpoint (c : Client) (path : string) (query : Values) : string :=
  let e := (cl_baseURL c +:+ "/v4" +:+ path)%string in
  if 0 <? Z.of_nat (List.length query) then (e +:+ "?" +:+ Encode query)%string else e.

Definition get_headers (c : Client) : list (string * string) :=
  (if negb (String.eqb (cl_bearerToken c) "") then [("Authorization"%string, ("Bearer " +:+ cl_bearerToken c)%string)] else [])
  ++ [("Accept", "application/json")]%string.

Definition get {A} (c : Client) (decode : bytes -> result A) (path : string) (query : Values) : M srv A :=
  _ ← limiter_wait;
  let url := endpoint c path query in
  _ ← lift (wrap (fun e => Errorf "new request %s: %w" [FStr url; FErr e]) (http_new_request "GET" url));
  r ← http_send (mkHttpRequest "GET" url (get_headers c) None);
  resp ← lift (wrap (fun e => Errorf "GET %s: %w" [FStr url; FErr e]) r);
  let '(status, body) := resp in
  if status =? StatusNotFound then fail ErrNotFound
  else if (status <? 200) || (300 <=? status) then
    fail (Errorf "GET %s: status %d: %s" [FStr url; FInt status; FStr (TrimSpace (str (take 1024 body)))])
  else lift (wrap (fun e => Errorf "decode %s: %w" [FStr url; FErr e]) (decode body)).

(** ** Endpoints *)

Context {J : JsonLib} {JD : JsonDecoders} (c : Client).

(** [q.Set("address", ...); q.Set("subaccountNumber", ...)] *)
Definition owner_query (address : string) (number : Z) : Values :=
  Set_ "subaccountNumber" (FormatUint number) (Set_ "address" address []).

Definition owner_err (name address : string) (number : Z) (e : goerr) : goerr :=
  Errorf (name +:+ " %s/%d: %w")%string [FStr address; FInt number; FErr e].

Definition cli_GetSubaccount (address : string) (number : Z) : M srv Subaccount :=
  sa ← wrapM (owner_err "GetSubaccount" address number)
         (get c dec_Subaccount ("/addresses/" +:+ address +:+ "/subaccountNumber/" +:+ FormatUint number)%string []);
  mret (mkSubaccount (sb_Address sa) (sb_SubaccountNumber sa) (sb_Equity sa) (sb_FreeCollateral sa)
          (Some (default json_empty (sb_OpenPerpetualPositions sa))) (Some (default json_empty (sb_AssetPositions sa)))
          (sb_MarginEnabled sa) (sb_UpdatedAtHeight sa) (sb_LatestProcessedBlockHeight sa)).

(** The loop over the filters: the iteration order does not matter, the keys
    being distinct and kept in order. *)
Fixpoint add_filters (filters : list (string * string)) (q : Values) : Values :=
  match filters with
  | [] => q
  | (k, v) :: fs => add_filters fs (if negb (String.eqb v "") then Set_ k v q else q)
  end.

Definition cli_GetOrders (address : string) (number : Z) (filters : list (string * string)) : M srv (option (list (option JsonObject))) :=
  wrapM (owner_err "GetOrders" address number) (get c dec_Orders "/orders" (add_filters filters (owner_query address number))).

Definition cli_GetOrder (orderID : string) : M srv (option JsonObject) :=
  wrapM (fun e => Errorf "GetOrder %s: %w" [FStr orderID; FErr e]) (get c dec_Order ("/orders/" +:+ orderID)%string []).

Definition cli_GetFills (address : string) (number : Z) (market : string) : M srv FillsResponse :=
  let q := owner_query address number in
  let q := if negb (String.eqb market "") then Set_ "market" market q else q in
  resp ← wrapM (owner_err "GetFills" address number) (get c dec_Fills "/fills" q);
  mret (mkFillsResponse (or_empty (fr_Fills resp)) (fr_PageSize resp) (fr_TotalResults resp) (fr_Offset resp)).

Definition cli_GetTransfers (address : string) (number : Z) : M srv TransfersResponse :=
  resp ← wrapM (owner_err "GetTransfers" address number) (get c dec_Transfers "/transfers" (owner_query address number));
  mret (mkTransfersResponse (or_empty (xr_Transfers resp)) (xr_PageSize resp) (xr_TotalResults resp) (xr_Offset resp)).

Definition cli_GetPnl (address : string) (number : Z) : M srv PnlResponse :=
  resp ← wrapM (owner_err "GetPnl" address number) (get c dec_Pnl "/pnl" (owner_query address number));
  mret (mkPnlResponse (or_empty (nr_HistoricalPnl resp))).

Definition cli_GetHistoricalPnl (address : string) (number : Z) : M srv HistoricalPnlResponse :=
  resp ← wrapM (owner_err "GetHistoricalPnl" address number)
           (get c dec_HistoricalPnl "/historical-pnl" (owner_query address number));
  mret (mkHistoricalPnlResponse (or_empty (hp_HistoricalPnl resp)) (hp_PageSize resp) (hp_TotalResults resp) (hp_Offset resp)).

Definition cli_GetFundingPayments (address : string) (number : Z) : M srv FundingPaymentsResponse :=
  resp ← wrapM (owner_err "GetFundingPayments" address number)
           (get c dec_FundingPayments "/fundingPayments" (owner_query address number));
  mret (mkFundingPaymentsResponse (or_empty (fp_FundingPayments resp))).

Definition ticker_err (name ticker : string) (e : goerr) : goerr :=
  Errorf (name +:+ " %q: %w")%string [FStr ticker; FErr e].

Definition ListPerpetualMarkets : M srv PerpetualMarketsResponse :=
  resp ← wrapM (fun e => Errorf "ListPerpetualMarkets: %w" [FErr e]) (get c dec_Markets "/perpetualMarkets" []);
  mret (mkPerpetualMarketsResponse (Some (default ∅ (pr_Markets resp)))).

Definition GetPerpetualMarket (ticker : string) : M srv PerpetualMarket :=
  resp ← wrapM (ticker_err "GetPerpetualMarket" ticker) (get c dec_Markets "/perpetualMarkets" (Set_ "ticker" ticker []));
  lift (from_opt (default ∅ (pr_Markets resp) !! ticker)
          (Errorf "GetPerpetualMarket %q: not found in response" [FStr ticker])).

Definition cli_GetOrderbook (ticker : string) : M srv Orderbook :=
  ob ← wrapM (ticker_err "GetOrderbook" ticker) (get c dec_Orderbook ("/orderbooks/perpetualMarket/" +:+ ticker)%string []);
  mret (mkOrderbook (or_empty (ob_Bids ob)) (or_empty (ob_Asks ob))).

Definition candles_query (args : GetCandlesArgs) : Values :=
  let q := [] in
  let q := if negb (String.eqb (gc_Resolution args) "") then Set_ "resolution" (gc_Resolution args) q else q in
  let q := if 0 <? gc_Limit args then Set_ "limit" (FormatUint (gc_Limit args)) q else q in
  let q := if negb (String.eqb (gc_FromISO args) "") then Set_ "fromISO" (gc_FromISO args) q else q in
  if negb (String.eqb (gc_ToISO args) "") then Set_ "toISO" (gc_ToISO args) q else q.

Definition cli_GetCandles (ticker : string) (args : GetCandlesArgs) : M srv CandlesResponse :=
  resp ← wrapM (ticker_err "GetCandles" ticker)
           (get c dec_Candles ("/candles/perpetualMarkets/" +:+ ticker)%string (candles_query args));
  mret (mkCandlesResponse (or_empty (cs_Candles resp))).

Definition cli_GetTrades (ticker : string) (limit : Z) : M srv TradesResponse :=
  let q := if 0 <? limit then Set_ "limit" (FormatUint limit) [] else [] in
  resp ← wrapM (ticker_err "GetTrades" ticker) (get c dec_Trades ("/trades/perpetualMarket/" +:+ ticker)%string q);
  mret (mkTradesResponse (or_empty (tr_Trades resp)) (tr_PageSize resp) (tr_TotalResults resp) (tr_Offset resp)).

(** A nil map becomes an empty one, and each nil slice in it an empty slice. *)
Definition cli_GetSparklines (timePeriod : string) : M srv (option (gmap string (option (list string)))) :=
  let q := if negb (String.eqb timePeriod "") then Set_ "timePeriod" timePeriod [] else [] in
  resp ← wrapM (fun e => Errorf "GetSparklines: %w" [FErr e]) (get c dec_Sparklines "/sparklines" q);
  mret (Some (or_empty <$> default ∅ resp)).

Definition cli_GetHistoricalFunding (ticker : string) : M srv HistoricalFundingResponse :=
  resp ← wrapM (ticker_err "GetHistoricalFunding" ticker)
           (get c dec_HistoricalFunding ("/historicalFunding/" +:+ ticker)%string []);
  mret (mkHistoricalFundingResponse (or_empty (hf_HistoricalFunding resp))).

Definition cli_GetHeight : M srv HeightResponse :=
  wrapM (fun e => Errorf "GetHeight: %w" [FErr e]) (get c dec_Height "/height" []).

Definition cli_GetTime : M srv TimeResponse :=
  wrapM (fun e => Errorf "GetTime: %w" [FErr e]) (get c dec_Time "/time" []).

End Requests.

(** ** What a request does to the server *)

Section Asks.
Context {RL : RateLib} {HE : HttpEnv}.

(** The books, the outbox of transactions, the tenants and the disk. *)
Definition stores (s : srv) := (books s, outbox s, (registry s, (s_disk s, door s))).
#[export] Instance View_stores : View stores.
Proof. intros s s' H. exact (f_equal (fun x => (fst (fst x), (snd (fst x), snd (snd x)))) H). Qed.

(** At most one request is sent, and it satisfies [P]. *)
Definition asked (P : HttpRequest -> Prop) (s s' : srv) : Prop :=
  stores s' = stores s /\ (s_http s' = s_http s \/ exists req, P req /\ s_http s' = s_http s ++ [req]).
Definition asks {A} (P : HttpRequest -> Prop) (m : M srv A) : Prop := forall s, asked P s (snd (m s)).

Lemma asks_wrapM {A} P f (m : M srv A) : asks P m -> asks P (wrapM f m).
Proof. intros H s. specialize (H s). unfold wrapM. by destruct (m s). Qed.

Lemma asks_try {A} P (m : M srv A) : asks P m -> asks P (lendora.try m).
Proof. intros H s. specialize (H s). unfold lendora.try. by destruct (m s). Qed.

Lemma asks_then {A B} P (m : M srv A) (f : A -> M srv B) :
  asks P m -> (forall a, keeps effects (f a)) -> asks P (m ≫= f).
Proof.
  intros H Hf s. specialize (H s). unfold mbind, M_bind. destruct (m s) as [[a|e] s1]; [|exact H].
  cbn [snd] in H |- *. unfold asked. rewrite (keeps_view stores _ (Hf a) s1), (keeps_view s_http _ (Hf a) s1). exact H.
Qed.

(** After a step without effect. *)
Lemma asked_after {A B} P (m : M srv A) (f : A -> M srv B) s :
  keeps effects m -> (forall a s1, m s = (Ok a, s1) -> asked P s1 (snd (f a s1))) -> asked P s (snd ((m ≫= f) s)).
Proof.
  intros Hk Hf. pose proof (keeps_view stores _ Hk s) as H1. pose proof (keeps_view s_http _ Hk s) as H2.
  unfold mbind, M_bind. destruct (m s) as [[a|e] s1]; cbn [snd] in *.
  - specialize (Hf a s1 eq_refl). unfold asked in *. by rewrite <- H1, <- H2.
  - split; [done|by left].
Qed.

Lemma asks_get {A} c (dec : bytes -> result A) path q :
  asks (eq (mkHttpRequest "GET" (endpoint c path q) (get_headers c) None)) (get c dec path q).
Proof.
  intros s. unfold get. apply asked_after; [unfold limiter_wait; keeps_tac|]. intros _ s1 _.
  apply asked_after; [keeps_tac|]. intros _ s2 _. apply (asks_then _ (http_send _)).
  - intros s3. unfold http_send, mbind, M_bind, tick, run_state. cbn. split; [done|]. right. by eexists.
  - intros r. keeps_tac.
Qed.

End Asks.

Lemma errors_Is_wrapped target f l e :
  errors_Is target e = true -> errors_Is target (Errorf f (l ++ [FErr e])) = true.
Proof.
  intros H. cbn [errors_Is]. apply orb_true_iff. right. induction l as [|x l IH]; cbn [app]; [by rewrite H|].
  destruct x; [exact IH|exact IH|]. apply orb_true_iff. by right.
Qed.
