(* ===== verification/Tools.v ===== *)
(** * The build, cap and status tools
      (tools/trade.go, trade_v022.go, funds.go, funds_caps.go, cross.go
       get_tx_status, evm.go evm_tx_status, deps.go EVMClientFor)

    Each handler is a computation over the server state.  The handlers have the
    names of the builders they call; the builders are qualified by their file. *)

From S2P Require Import Prelude GoStrings GoNum GoTime GoEncoding Limits TransferOut NonceStore IPRateLimiter.
From S2P Require Import SessionBearers DynamicTenants Policy Markets Units ChainLib Payload Assembler Assets.
From S2P Require Import TxInspect Cancels Orders FundsBuilder Builders Server AuthTools Broadcast.

(** ** Inputs *)

Record BuildPlaceLimitOrderInput : Type := mkBuildPlaceLimitOrderInput {
  il_SubaccountNumber : Z; il_Ticker : string; il_Side : string; il_Size : string; il_Price : string;
  il_TimeInForce : string; il_ReduceOnly : bool; il_GoodTilBlock : Z; il_OrderClientID : Z;
  il_PayloadClientID : string;
}.

Record BuildPlaceMarketOrderInput : Type := mkBuildPlaceMarketOrderInput {
  im_SubaccountNumber : Z; im_Ticker : string; im_Side : string; im_Size : string; im_WorstPrice : string;
  im_OraclePrice : string; im_SlippageBps : Z; im_ReduceOnly : bool; im_GoodTilBlock : Z; im_OrderClientID : Z;
  im_PayloadClientID : string;
}.

Record BuildPlaceConditionalOrderInput : Type := mkBuildPlaceConditionalOrderInput {
  ic_SubaccountNumber : Z; ic_Ticker : string; ic_Side : string; ic_Size : string; ic_Price : string;
  ic_ConditionType : string; ic_TriggerPrice : string; ic_TimeInForce : string; ic_ReduceOnly : bool;
  ic_GoodTilBlockTime : Z; ic_OrderClientID : Z; ic_PayloadClientID : string;
}.

Record BuildCancelOrderInput : Type := mkBuildCancelOrderInput {
  ix_SubaccountNumber : Z; ix_ClobPairID : Z; ix_OrderClientID : Z; ix_OrderFlags : Z; ix_GoodTilBlock : Z;
  ix_GoodTilBlockTime : Z; ix_PayloadClientID : string;
}.

Record BuildBatchCancelOrdersInputBatch : Type := mkBatchInput { ibb_ClobPairID : Z; ibb_ClientIDs : list Z }.

Record BuildBatchCancelOrdersInput : Type := mkBuildBatchCancelOrdersInput {
  ib_SubaccountNumber : Z; ib_Batches : list BuildBatchCancelOrdersInputBatch; ib_GoodTilBlock : Z;
  ib_PayloadClientID : string;
}.

Record BuildDepositToSubaccountInput : Type := mkBuildDepositToSubaccountInput {
  id_SubaccountNumber : Z; id_HumanUSDC : string; id_PayloadClientID : string;
}.

Record BuildWithdrawFromSubaccountInput : Type := mkBuildWithdrawFromSubaccountInput {
  iw_SubaccountNumber : Z; iw_HumanUSDC : string; iw_PayloadClientID : string;
}.

Record BuildBankSendInput : Type := mkBuildBankSendInput {
  is_Recipient : string; is_Denom : string; is_Amount : string; is_PayloadClientID : string;
}.

Record BuildTransferBetweenSubaccountsInput : Type := mkBuildTransferBetweenSubaccountsInput {
  it_SenderSubaccountNumber : Z; it_RecipientSubaccountNumber : Z; it_HumanUSDC : string; it_PayloadClientID : string;
}.

Section Build.
Context {RL : RateLib} {E : Env} {L : ChainLib} {DL : DydxLib} {D : DecLib} (h : Handlers).

(** [acc, err := h.Deps.Chain.Account.Account(ctx, tp.Owner)] *)
Definition account (owner : string) : M srv (Z * Z) :=
  n ← tick; lift (wrap (fun e => Errorf "read account state: %w" [FErr e]) (env_account n owner)).

(** A call of a builder, which reads the market cache and the clock; the
    handler keeps the payload. *)
Definition built (f : Cache -> Time -> result (Msg * TxPayload)) : M srv TxPayload :=
  t ← now; c ← get s_markets; mp ← lift (f c t); mret (snd mp).

Definition BuildPlaceLimitOrder (ctx : context) (inp : BuildPlaceLimitOrderInput) : M srv TxPayload :=
  tp ← authorizeSubaccount ctx "build_place_limit_order" (il_SubaccountNumber inp);
  acc ← account (tp_Owner tp);
  built (fun cache t =>
    Orders.BuildPlaceLimitOrder
      (mkPlaceLimitOrderInput (tp_Owner tp) (il_SubaccountNumber inp) (il_Ticker inp) (il_Side inp) (il_Size inp)
         (il_Price inp) (il_TimeInForce inp) (il_ReduceOnly inp) (il_GoodTilBlock inp) (il_OrderClientID inp)
         (il_PayloadClientID inp))
      cache (h_Builder h) (fst acc) (snd acc) t).

Definition BuildPlaceMarketOrder (ctx : context) (inp : BuildPlaceMarketOrderInput) : M srv TxPayload :=
  tp ← authorizeSubaccount ctx "build_place_market_order" (im_SubaccountNumber inp);
  acc ← account (tp_Owner tp);
  built (fun cache t =>
    Orders.BuildPlaceMarketOrder
      (mkPlaceMarketOrderInput (tp_Owner tp) (im_SubaccountNumber inp) (im_Ticker inp) (im_Side inp) (im_Size inp)
         (im_WorstPrice inp) (im_OraclePrice inp) (im_SlippageBps inp) (im_ReduceOnly inp) (im_GoodTilBlock inp)
         (im_OrderClientID inp) (im_PayloadClientID inp))
      cache (h_Builder h) (fst acc) (snd acc) t).

Definition BuildPlaceConditionalOrder (ctx : context) (inp : BuildPlaceConditionalOrderInput) : M srv TxPayload :=
  tp ← authorizeSubaccount ctx "build_place_conditional_order" (ic_SubaccountNumber inp);
  acc ← account (tp_Owner tp);
  built (fun cache t =>
    Orders.BuildPlaceConditionalOrder
      (mkPlaceConditionalOrderInput (tp_Owner tp) (ic_SubaccountNumber inp) (ic_Ticker inp) (ic_Side inp)
         (ic_Size inp) (ic_Price inp) (ic_ConditionType inp) (ic_TriggerPrice inp) (ic_TimeInForce inp)
         (ic_ReduceOnly inp) (ic_GoodTilBlockTime inp) (ic_OrderClientID inp) (ic_PayloadClientID inp))
      cache (h_Builder h) (fst acc) (snd acc) t).

Definition BuildCancelOrder (ctx : context) (inp : BuildCancelOrderInput) : M srv TxPayload :=
  tp ← authorizeSubaccount ctx "build_cancel_order" (ix_SubaccountNumber inp);
  acc ← account (tp_Owner tp);
  built (fun _ t =>
    Cancels.BuildCancelOrder
      (mkCancelOrderInput (tp_Owner tp) (ix_SubaccountNumber inp) (ix_ClobPairID inp) (ix_OrderClientID inp)
         (ix_OrderFlags inp) (ix_GoodTilBlock inp) (ix_GoodTilBlockTime inp) (ix_PayloadClientID inp))
      (h_Builder h) (fst acc) (snd acc) t).

Definition BuildBatchCancelOrders (ctx : context) (inp : BuildBatchCancelOrdersInput) : M srv TxPayload :=
  tp ← authorizeSubaccount ctx "build_batch_cancel_orders" (ib_SubaccountNumber inp);
  acc ← account (tp_Owner tp);
  let batches := map (fun b => mkOrderBatchInput (ibb_ClobPairID b) (ibb_ClientIDs b)) (ib_Batches inp) in
  built (fun _ t =>
    Cancels.BuildBatchCancelOrders
      (mkBatchCancelOrdersInput (tp_Owner tp) (ib_SubaccountNumber inp) batches (ib_GoodTilBlock inp)
         (ib_PayloadClientID inp))
      (h_Builder h) (fst acc) (snd acc) t).

(** ** Funds *)

Definition human_quantums (human : string) : result Z :=
  wrap (fun e => Errorf "human_usdc: %w" [FErr e]) (HumanToQuantums human).

Definition BuildDepositToSubaccount (ctx : context) (inp : BuildDepositToSubaccountInput) : M srv TxPayload :=
  tp ← authorizeSubaccount ctx "build_deposit_to_subaccount" (id_SubaccountNumber inp);
  quantums ← lift (human_quantums (id_HumanUSDC inp));
  _ ← lift (CheckPerTx (h_Limits h) ToolDeposit quantums);
  acc ← account (tp_Owner tp);
  built (fun _ t =>
    FundsBuilder.BuildDepositToSubaccount
      (mkDepositToSubaccountInput (tp_Owner tp) (id_SubaccountNumber inp) (id_HumanUSDC inp) (id_PayloadClientID inp))
      (h_Builder h) (fst acc) (snd acc) t).

Definition BuildWithdrawFromSubaccount (ctx : context) (inp : BuildWithdrawFromSubaccountInput) : M srv TxPayload :=
  tp ← authorizeSubaccount ctx "build_withdraw_from_subaccount" (iw_SubaccountNumber inp);
  quantums ← lift (human_quantums (iw_HumanUSDC inp));
  _ ← enforce_withdraw h (tp_TenantID tp) quantums;
  acc ← account (tp_Owner tp);
  built (fun _ t =>
    FundsBuilder.BuildWithdrawFromSubaccount
      (mkWithdrawFromSubaccountInput (tp_Owner tp) (iw_SubaccountNumber inp) (iw_HumanUSDC inp)
         (iw_PayloadClientID inp))
      (h_Builder h) (fst acc) (snd acc) t).

Definition BuildBankSend (ctx : context) (inp : BuildBankSendInput) : M srv TxPayload :=
  tp ← authorize ctx "build_bank_send";
  ca ← lift (resolveSendAmount (is_Denom inp) (is_Amount inp));
  acc ← account (tp_Owner tp);
  built (fun _ t =>
    FundsBuilder.BuildBankSend
      (mkBankSendInput (tp_Owner tp) (is_Recipient inp) (fst ca) (snd ca) (is_PayloadClientID inp))
      (h_Builder h) (fst acc) (snd acc) t).

Definition BuildTransferBetweenSubaccounts (ctx : context) (inp : BuildTransferBetweenSubaccountsInput)
  : M srv TxPayload :=
  tp ← authorize ctx "build_transfer_between_subaccounts";
  _ ← wrapM (fun e => Errorf "sender: %w" [FErr e]) (policy (CheckSubaccount (tp_TenantID tp) (it_SenderSubaccountNumber inp)));
  _ ← wrapM (fun e => Errorf "recipient: %w" [FErr e]) (policy (CheckSubaccount (tp_TenantID tp) (it_RecipientSubaccountNumber inp)));
  quantums ← lift (human_quantums (it_HumanUSDC inp));
  _ ← lift (CheckPerTx (h_Limits h) ToolTransfer quantums);
  acc ← account (tp_Owner tp);
  built (fun _ t =>
    FundsBuilder.BuildTransferBetweenSubaccounts
      (mkTransferBetweenSubaccountsInput (tp_Owner tp) (it_SenderSubaccountNumber inp)
         (it_RecipientSubaccountNumber inp) (it_HumanUSDC inp) (it_PayloadClientID inp))
      (h_Builder h) (fst acc) (snd acc) t).

(** The nine tools behind one type. *)
Inductive build_tool : Type :=
| TLimit (inp : BuildPlaceLimitOrderInput)
| TMarket (inp : BuildPlaceMarketOrderInput)
| TConditional (inp : BuildPlaceConditionalOrderInput)
| TCancel (inp : BuildCancelOrderInput)
| TBatch (inp : BuildBatchCancelOrdersInput)
| TDeposit (inp : BuildDepositToSubaccountInput)
| TWithdraw (inp : BuildWithdrawFromSubaccountInput)
| TBankSend (inp : BuildBankSendInput)
| TTransfer (inp : BuildTransferBetweenSubaccountsInput).

Definition run_tool (ctx : context) (c : build_tool) : M srv TxPayload :=
  match c with
  | TLimit i => BuildPlaceLimitOrder ctx i
  | TMarket i => BuildPlaceMarketOrder ctx i
  | TConditional i => BuildPlaceConditionalOrder ctx i
  | TCancel i => BuildCancelOrder ctx i
  | TBatch i => BuildBatchCancelOrders ctx i
  | TDeposit i => BuildDepositToSubaccount ctx i
  | TWithdraw i => BuildWithdrawFromSubaccount ctx i
  | TBankSend i => BuildBankSend ctx i
  | TTransfer i => BuildTransferBetweenSubaccounts ctx i
  end.

End Build.

(** ** Caps *)

Record TransferOutCapDTO : Type := mkTransferOutCapDTO {
  dto_Symbol : string; dto_Cap : string; dto_UsedToday : string; dto_Remaining : string;
}.

Section Caps.
Context {RL : RateLib} {E : Env} {L : ChainLib} {D : DecLib} {U : Unicode}.

Definition set_unlimited (owner sym : string) : M srv unit :=
  n ← tick;
  modify (fun s => let '(o, d) := SetUnlimited (env_io n) owner sym (s_out s) (s_disk s) in set_out o d s).

Definition set_cap (owner : string) (c : SymbolCap) : M srv unit :=
  n ← tick;
  modify (fun s => let '(o, d) := SetCap (env_io n) owner c (s_out s) (s_disk s) in set_out o d s).

Definition unknown_symbol (sym : string) : goerr :=
  userErrf "unknown token symbol %q (known: svp, usdc, usdv)" [FStr sym].

(** The output: the symbol and its cap as text. *)
Definition SetTransferOutCap (ctx : context) (symbol amount : string) : M srv (string * string) :=
  tp ← authorize ctx "set_transfer_out_cap";
  a ← lift (from_opt (assetForSymbol symbol) (unknown_symbol symbol));
  if String.eqb (TrimSpace amount) "0" then
    _ ← set_unlimited (tp_Owner tp) (as_symbol a);
    mret (as_symbol a, "unlimited"%string)
  else
    base ← lift (wrap (fun e => Errorf "amount: %w" [FErr e]) (humanToBaseUnits amount (as_decimals a)));
    _ ← set_cap (tp_Owner tp) (mkSymbolCap (as_symbol a) (as_decimals a) (Some base));
    mret (as_symbol a, humanAmount base (as_decimals a)).

Definition used_today (owner sym : string) : M srv Z :=
  t ← now; n ← tick;
  run_state (fun s => let '(v, (o, d)) := Used t (env_io n) owner sym (s_out s) (s_disk s) in (Ok v, set_out o d s)).

(** One row of the report. *)
Definition cap_row (a : assetSymbol) (cap : option SymbolCap) (used : Z) : TransferOutCapDTO :=
  let hum x := humanAmount x (as_decimals a) in
  match c ← cap; CapBase c with
  | Some b =>
      let rem := b - used in
      let rem := if rem <? 0 then 0 else rem in
      mkTransferOutCapDTO (as_symbol a) (hum b) (hum used) (hum rem)
  | None => mkTransferOutCapDTO (as_symbol a) "unlimited" (hum used) "unlimited"
  end.

Fixpoint transferOutCapView (owner : string) (assets : list assetSymbol) : M srv (list TransferOutCapDTO) :=
  match assets with
  | [] => mret []
  | a :: assets' =>
      used ← used_today owner (as_symbol a);
      cap ← get (fun s => Cap owner (as_symbol a) (s_out s));
      rest ← transferOutCapView owner assets';
      mret (cap_row a cap used :: rest)
  end.

Definition GetTransferOutCap (ctx : context) (symbol : string) : M srv (list TransferOutCapDTO) :=
  tp ← authorize ctx "get_transfer_out_cap";
  let s := TrimSpace symbol in
  assets ← lift (if negb (String.eqb s "")
                 then a ← from_opt (assetForSymbol s) (unknown_symbol symbol); Ok [a]
                 else Ok transferOutAssets);
  transferOutCapView (tp_Owner tp) assets.

End Caps.

(** ** Status *)

Record TxStatus : Type := mkTxStatus { ts_TxHash : string; ts_Height : Z; ts_Code : Z; ts_RawLog : string }.
Record Receipt : Type := mkReceipt { rc_Status : Z; rc_BlockNumber : Z; rc_GasUsed : Z }.

(** The node queries: CometBFT's tx status; an EVM receipt, [None] when the node
    answers [ethereum.NotFound]. *)
Class StatusEnv : Type := {
  env_tx_status : nat -> string -> result TxStatus;
  env_receipt : nat -> Z -> string -> result (option Receipt);
}.

Record EVMTxStatusOutput : Type := mkEVMTxStatusOutput {
  eo_TxHash : string; eo_Status : string; eo_BlockNumber : Z; eo_GasUsed : Z;
}.

Section Status.
Context {RL : RateLib} {E : Env} {SE : StatusEnv} (h : Handlers) (homeChainID : Z).

Definition GetTxStatus (ctx : context) (txHash : string) : M srv TxStatus :=
  _ ← authorize ctx "get_tx_status";
  n ← tick;
  st ← lift (env_tx_status n txHash);
  mret (mkTxStatus (ts_TxHash st) (ts_Height st) (ts_Code st) (ts_RawLog st)).

(** The client of a chain: -1 names the home client. *)
Definition EVMClientFor (chainID : Z) : option Z :=
  if (chainID =? homeChainID) && h_EVM h then Some (-1)
  else if bool_decide (chainID ∈ h_ForeignChains h) then Some chainID else None.

Definition EVMTxStatus (ctx : context) (txHash : string) (chainID : Z) : M srv EVMTxStatusOutput :=
  _ ← authorize ctx "evm_tx_status";
  _ ← lift (check (negb (h_EVM h)) (userErrf "EVM is not enabled on this server (no evm_rpc_url configured)" []));
  client ← lift (if negb (chainID =? 0) && negb (chainID =? homeChainID) then
                   if bool_decide (chainID ∈ h_ForeignChains h) then Ok chainID
                   else Err (userErrf "chain id %d is not configured on this server" [FInt chainID])
                 else Ok (-1));
  n ← tick;
  receipt ← lift (wrap (fun e => Errorf "evm receipt %s: %w" [FStr txHash; FErr e]) (env_receipt n client txHash));
  match receipt with
  | None => mret (mkEVMTxStatusOutput txHash "pending" 0 0)
  | Some r => mret (mkEVMTxStatusOutput txHash (if rc_Status r =? 1 then "success" else "failed")
                      (i64 (rc_BlockNumber r)) (rc_GasUsed r))
  end.

End Status.

(** ** Lemmas on the build tools *)

(** Every policy is filed under the id it carries, as both tenant tables keep
    it. *)
Definition filed {RL : RateLib} (s : srv) : Prop := forall id t tp, Tenant id t (engine s) = Ok tp -> tp_TenantID tp = id.

Section BuildLemmas.
Context {RL : RateLib} {E : Env} {L : ChainLib} {DL : DydxLib} {D : DecLib} (h : Handlers).

(** A subaccount the tenant may use at an instant. *)
Definition may_use (tp : TenantPolicy) (sub : Z) (t : Time) (s : srv) : Prop :=
  exists tp', in_force (tp_TenantID tp) t tp' (engine s) /\ sub ∈ tp_AllowedSubaccounts tp'.

Lemma authorize_inv ctx tool s tp s' :
  authorize ctx tool s = (Ok tp, s') -> authorized ctx tp s /\ same_stores s s'.
Proof. intros H. apply authorize_ok in H as [Ha Hl]. split; [done|by eapply later_same]. Qed.

(** A tenant that was authorized and is looked up again. *)
Lemma authorized_again ctx tp s t tp' :
  filed s -> authorized ctx tp s -> in_force (tp_TenantID tp) t tp' (engine s) -> tp' = tp.
Proof.
  intros Hids (tc & _ & H1 & _ & _) H. pose proof (Hids _ _ _ (proj2 (Tenant_in_force _ _ _ _) H1)) as Hid.
  rewrite Hid in H. by eapply in_force_fun.
Qed.

Lemma same_stores_engine s s' : same_stores s s' -> engine s' = engine s /\ s_ledger s' = s_ledger s.
Proof. by intros (n & r & ->). Qed.

Lemma account_inv owner s a s' :
  account owner s = (Ok a, s') -> env_account (s_reads s) owner = Ok a /\ s' = set_reads (S (s_reads s)) s.
Proof.
  intros H. unfold account in H. m_inv H as n s1 H1. apply lift_ok in H as [H%wrap_ok ->].
  unfold tick in H1. by injection H1 as <- <-.
Qed.

Lemma built_inv f s p s' : built f s = (Ok p, s') -> exists m, f (s_markets s) (env_clock (s_reads s)) = Ok (m, p).
Proof.
  intros H. unfold built in H. m_inv H as t s1 H1. rewrite now_eq in H1. injection H1 as <- <-. m_inv H as c s2 H2.
  unfold get in H2. injection H2 as <- <-. m_inv H as mp s3 H3.
  apply lift_ok in H3 as [H3 _]. injection H as <- _. destruct mp as [m p]. by exists m.
Qed.

(** The subaccounts a tool names, and its idempotency key. *)
Definition tool_subaccounts (c : build_tool) : list Z :=
  match c with
  | TLimit i => [il_SubaccountNumber i] | TMarket i => [im_SubaccountNumber i]
  | TConditional i => [ic_SubaccountNumber i] | TCancel i => [ix_SubaccountNumber i]
  | TBatch i => [ib_SubaccountNumber i] | TDeposit i => [id_SubaccountNumber i]
  | TWithdraw i => [iw_SubaccountNumber i] | TBankSend _ => []
  | TTransfer i => [it_SenderSubaccountNumber i; it_RecipientSubaccountNumber i]
  end.

Definition tool_client (c : build_tool) : string :=
  match c with
  | TLimit i => il_PayloadClientID i | TMarket i => im_PayloadClientID i | TConditional i => ic_PayloadClientID i
  | TCancel i => ix_PayloadClientID i | TBatch i => ib_PayloadClientID i | TDeposit i => id_PayloadClientID i
  | TWithdraw i => iw_PayloadClientID i | TBankSend i => is_PayloadClientID i | TTransfer i => it_PayloadClientID i
  end.

(** Who receives what a tool moves. *)
Definition tool_destination (owner : string) (c : build_tool) : option string :=
  match c with
  | TDeposit _ | TWithdraw _ | TTransfer _ => Some owner
  | TBankSend i => Some (is_Recipient i)
  | _ => None
  end.

(** The order a tool asks for: of the owner's subaccount, on the pair of the
    ticker, for the size and price of the request in the units of that market. *)
Definition places (cache : Cache) (owner : string) (sub clientID flags : Z) (ticker side size : string) (tif : result Order_TimeInForce)
    (reduceOnly : bool) (cond : result Order_ConditionType) (til : GoodTil) (price trigger : MarketMeta -> result Z) (o : Order) : Prop :=
  exists meta, ResolveTicker ticker cache = Some meta
  /\ o_OrderId o = mkOrderId (mkSubaccountId owner sub) clientID flags (mm_ClobPairID meta)
  /\ (side = "BUY"%string /\ o_Side o = SIDE_BUY \/ side = "SELL"%string /\ o_Side o = SIDE_SELL)
  /\ SizeToQuantums size meta = Ok (o_Quantums o) /\ price meta = Ok (o_Subticks o)
  /\ tif = Ok (o_TimeInForce o) /\ o_ReduceOnly o = reduceOnly
  /\ cond = Ok (o_ConditionType o) /\ trigger meta = Ok (o_ConditionalOrderTriggerSubticks o) /\ o_GoodTilOneof o = til.

(** The message a tool asks for, in the terms of its request. *)
Definition tool_message (cache : Cache) (owner : string) (c : build_tool) (m : Msg) : Prop :=
  match c, m with
  | TLimit i, MsgPlaceOrder o =>
      places cache owner (il_SubaccountNumber i) (il_OrderClientID i) OrderIdFlags_ShortTerm (il_Ticker i) (il_Side i) (il_Size i)
        (parseTimeInForce (il_TimeInForce i)) (il_ReduceOnly i) (Ok CONDITION_TYPE_UNSPECIFIED) (GoodTilBlock (il_GoodTilBlock i))
        (PriceToSubticks (il_Price i)) (fun _ => Ok 0) o
  | TMarket i, MsgPlaceOrder o =>
      places cache owner (im_SubaccountNumber i) (im_OrderClientID i) OrderIdFlags_ShortTerm (im_Ticker i) (im_Side i) (im_Size i)
        (Ok TIME_IN_FORCE_IOC) (im_ReduceOnly i) (Ok CONDITION_TYPE_UNSPECIFIED) (GoodTilBlock (im_GoodTilBlock i))
        (fun meta => if String.eqb (im_WorstPrice i) "" then AggressiveSubticks (im_Side i) (im_OraclePrice i) (im_SlippageBps i) meta
                     else PriceToSubticks (im_WorstPrice i) meta) (fun _ => Ok 0) o
  | TConditional i, MsgPlaceOrder o =>
      places cache owner (ic_SubaccountNumber i) (ic_OrderClientID i) OrderIdFlags_Conditional (ic_Ticker i) (ic_Side i) (ic_Size i)
        (parseTimeInForce (ic_TimeInForce i)) (ic_ReduceOnly i) (parseConditionType (ic_ConditionType i))
        (GoodTilBlockTime (ic_GoodTilBlockTime i)) (PriceToSubticks (ic_Price i)) (PriceToSubticks (ic_TriggerPrice i)) o
  | TCancel i, MsgCancelOrder id til =>
      id = mkOrderId (mkSubaccountId owner (ix_SubaccountNumber i)) (ix_OrderClientID i) (ix_OrderFlags i) (ix_ClobPairID i)
      /\ til = (if 0 <? ix_GoodTilBlock i then GoodTilBlock (ix_GoodTilBlock i) else GoodTilBlockTime (ix_GoodTilBlockTime i))
  | TBatch i, MsgBatchCancel id batches til =>
      id = mkSubaccountId owner (ib_SubaccountNumber i) /\ til = ib_GoodTilBlock i
      /\ batches = map (fun b => mkOrderBatch (ibb_ClobPairID b) (ibb_ClientIDs b)) (ib_Batches i)
  | TDeposit i, MsgDepositToSubaccount sender recipient asset q =>
      sender = owner /\ recipient = mkSubaccountId owner (id_SubaccountNumber i) /\ asset = AssetUsdc_Id
      /\ HumanToQuantums (id_HumanUSDC i) = Ok q /\ q <> 0
  | TWithdraw i, MsgWithdrawFromSubaccount sender recipient asset q =>
      sender = mkSubaccountId owner (iw_SubaccountNumber i) /\ recipient = owner /\ asset = AssetUsdc_Id
      /\ HumanToQuantums (iw_HumanUSDC i) = Ok q /\ q <> 0
  | TBankSend i, MsgSend from to coins =>
      from = owner /\ to = is_Recipient i
      /\ exists coin text, resolveSendAmount (is_Denom i) (is_Amount i) = Ok (coin, text) /\ coins = NewCoins [coin]
  | TTransfer i, MsgCreateTransfer t =>
      t_Sender t = mkSubaccountId owner (it_SenderSubaccountNumber i)
      /\ t_Recipient t = mkSubaccountId owner (it_RecipientSubaccountNumber i) /\ t_AssetId t = AssetUsdc_Id
      /\ HumanToQuantums (it_HumanUSDC i) = Ok (t_Amount t) /\ t_Amount t <> 0
  | _, _ => False
  end.

(** The builder call behind a tool. *)
Definition tool_call (owner : string) (cache : Cache) (ca : Coin * string) (c : build_tool) : build_call :=
  match c with
  | TLimit i => CLimit (mkPlaceLimitOrderInput owner (il_SubaccountNumber i) (il_Ticker i) (il_Side i) (il_Size i) (il_Price i)
      (il_TimeInForce i) (il_ReduceOnly i) (il_GoodTilBlock i) (il_OrderClientID i) (il_PayloadClientID i)) cache
  | TMarket i => CMarket (mkPlaceMarketOrderInput owner (im_SubaccountNumber i) (im_Ticker i) (im_Side i) (im_Size i)
      (im_WorstPrice i) (im_OraclePrice i) (im_SlippageBps i) (im_ReduceOnly i) (im_GoodTilBlock i) (im_OrderClientID i)
      (im_PayloadClientID i)) cache
  | TConditional i => CConditional (mkPlaceConditionalOrderInput owner (ic_SubaccountNumber i) (ic_Ticker i) (ic_Side i)
      (ic_Size i) (ic_Price i) (ic_ConditionType i) (ic_TriggerPrice i) (ic_TimeInForce i) (ic_ReduceOnly i)
      (ic_GoodTilBlockTime i) (ic_OrderClientID i) (ic_PayloadClientID i)) cache
  | TCancel i => CCancel (mkCancelOrderInput owner (ix_SubaccountNumber i) (ix_ClobPairID i) (ix_OrderClientID i)
      (ix_OrderFlags i) (ix_GoodTilBlock i) (ix_GoodTilBlockTime i) (ix_PayloadClientID i))
  | TBatch i => CBatch (mkBatchCancelOrdersInput owner (ib_SubaccountNumber i)
      (map (fun b => mkOrderBatchInput (ibb_ClobPairID b) (ibb_ClientIDs b)) (ib_Batches i)) (ib_GoodTilBlock i) (ib_PayloadClientID i))
  | TDeposit i => CDeposit (mkDepositToSubaccountInput owner (id_SubaccountNumber i) (id_HumanUSDC i) (id_PayloadClientID i))
  | TWithdraw i => CWithdraw (mkWithdrawFromSubaccountInput owner (iw_SubaccountNumber i) (iw_HumanUSDC i) (iw_PayloadClientID i))
  | TBankSend i => CBankSend (mkBankSendInput owner (is_Recipient i) (fst ca) (snd ca) (is_PayloadClientID i))
  | TTransfer i => CTransfer (mkTransferBetweenSubaccountsInput owner (it_SenderSubaccountNumber i)
      (it_RecipientSubaccountNumber i) (it_HumanUSDC i) (it_PayloadClientID i))
  end.

Lemma parseSide_ok side x :
  parseSide side = Ok x -> side = "BUY"%string /\ x = SIDE_BUY \/ side = "SELL"%string /\ x = SIDE_SELL.
Proof.
  unfold parseSide. destruct (String.eqb_spec side "BUY"); [intros [= <-]; by left|].
  destruct (String.eqb_spec side "SELL"); [intros [= <-]; by right|done].
Qed.

Lemma order_batches_ok bs : forall i out n, order_batches i bs = Ok (out, n) ->
  out = map (fun b => mkOrderBatch (obi_ClobPairID b) (obi_ClientIDs b)) bs.
Proof.
  induction bs as [|b bs IH]; intros i out n H; cbn [order_batches] in H; [by injection H as <- _|].
  bind_inv H. injection H as <- _. cbn [map]. f_equal. by eapply IH.
Qed.

Lemma positive_usdc_ok human q : positive_usdc human = Ok q -> HumanToQuantums human = Ok q /\ q <> 0.
Proof.
  unfold positive_usdc. intros H. bind_inv H. simplify_eq. split; [by eapply wrap_ok|].
  match goal with Hc : check _ _ = Ok ?u |- _ => destruct u; apply check_ok in Hc; by apply Z.eqb_neq end.
Qed.

Lemma call_message cache owner ca c asm acct seq t m p :
  build (tool_call owner cache ca c) asm acct seq t = Ok (m, p) ->
  (forall i, c = TBankSend i -> resolveSendAmount (is_Denom i) (is_Amount i) = Ok ca) -> tool_message cache owner c m.
Proof.
  intros H Hca. destruct c as [i|i|i|i|i|i|i|i|i]; cbn [tool_call build] in H;
    unfold Orders.BuildPlaceLimitOrder, Orders.BuildPlaceMarketOrder, Orders.BuildPlaceConditionalOrder, Cancels.BuildCancelOrder,
      Cancels.BuildBatchCancelOrders, FundsBuilder.BuildDepositToSubaccount, FundsBuilder.BuildTransferBetweenSubaccounts,
      FundsBuilder.BuildBankSend, FundsBuilder.BuildWithdrawFromSubaccount in H; bind_inv H.
  all: pose proof (assemble_msg_ok _ _ _ _ _ _ _ _ _ _ H) as [-> _]; cbn [tool_message t_Sender t_Recipient t_AssetId t_Amount].
  all: repeat match goal with
       | X : from_opt ?o _ = Ok _ |- _ => destruct o eqn:?; [|done]; injection X as ->
       | X : wrap _ _ = Ok _ |- _ => apply wrap_ok in X
       | X : parseSide _ = Ok _ |- _ => apply parseSide_ok in X
       | X : positive_usdc _ = Ok _ |- _ => apply positive_usdc_ok in X as [? ?]
       end.
  2: { eexists. split_and!; try done. cbn [o_Subticks]. match goal with X : market_price _ _ = Ok _ |- _ => revert X end.
       unfold market_price. cbn [mo_WorstPrice mo_OraclePrice mo_SlippageBps mo_Side]. destruct (String.eqb (im_WorstPrice i) ""); cbn [negb].
       - destruct (_ && _); [|done]. destruct (AggressiveSubticks _ _ _ _); [|done]. cbn. by intros [= -> _].
       - destruct (PriceToSubticks _ _); [|done]. cbn. by intros [= -> _]. }
  all: try (by eexists; split_and!). all: try (by split_and!).
  - split_and!; [done..|]. cbn [bc_Batches] in *. match goal with X : order_batches _ _ = Ok _ |- _ => apply order_batches_ok in X as -> end.
    by rewrite map_map.
  - split_and!; [done..|]. destruct ca as [coin text]. exists coin, text. split; [by apply Hca|done].
Qed.

(** The caps a funds tool passed: those on what its message moves. *)
Definition tool_limits (tp : TenantPolicy) (c : build_tool) (m : Msg) (s : srv) : Prop :=
  forall q, usdc_moved m = Some q ->
  match c with
  | TDeposit _ => per_tx (DepositMaxUSDC (h_Limits h)) q
  | TTransfer _ => per_tx (TransferMaxUSDC (h_Limits h)) q
  | TWithdraw _ => withdrawable (h_Limits h) (reading s 4) (tp_TenantID tp) q (s_ledger s)
  | _ => True
  end.

(** The interactions of a tool before it asks the node for the account. *)
Definition tool_delay (c : build_tool) : nat := match c with TBankSend _ => 3 | TWithdraw _ | TTransfer _ => 5 | _ => 4 end.

(** What a returned payload is, when the node was asked at the interaction [n]. *)
Definition tool_payload (tp : TenantPolicy) (c : build_tool) (cache : Cache) (n : nat) (m : Msg) (p : TxPayload) : Prop :=
  exists acct seq, env_account n (tp_Owner tp) = Ok (acct, seq)
  /\ carries (h_Builder h) m (tp_Owner tp) (tool_client c) acct seq (env_clock (S n)) p
  /\ spender m = Some (tp_Owner tp) /\ beneficiary m = tool_destination (tp_Owner tp) c /\ tool_message cache (tp_Owner tp) c m.

(** The common end of the nine tools. *)
Lemma finish_tool tp c f s acc s1 p s' ca :
  account (tp_Owner tp) s = (Ok acc, s1) -> built f s1 = (Ok p, s') ->
  (forall cache t, f cache t = build (tool_call (tp_Owner tp) cache ca c) (h_Builder h) (fst acc) (snd acc) t) ->
  (forall i, c = TBankSend i -> resolveSendAmount (is_Denom i) (is_Amount i) = Ok ca) ->
  exists m, tool_payload tp c (s_markets s) (s_reads s) m p.
Proof.
  intros Ha Hb Hf Hca. apply account_inv in Ha as [Ha ->]. apply built_inv in Hb as (m & Hb).
  rewrite Hf in Hb. cbn [s_markets s_reads set_reads] in Hb. pose proof (call_message _ _ _ _ _ _ _ _ _ _ Hb Hca) as Hm.
  destruct (build_assembled _ _ _ _ _ _ _ Hb) as (sum & Hs & Hsp & Hben).
  apply assemble_msg_ok in Hs as (_ & Hc & _).
  assert (owner_of (tool_call (tp_Owner tp) (s_markets s) ca c) = tp_Owner tp
    /\ client_of (tool_call (tp_Owner tp) (s_markets s) ca c) = tool_client c
    /\ destination (tool_call (tp_Owner tp) (s_markets s) ca c) = tool_destination (tp_Owner tp) c) as (H1 & H2 & H3) by (by destruct c).
  rewrite H1, H2 in Hc. rewrite H1 in Hsp. rewrite H3 in Hben. destruct acc as [acct seq]. by exists m, acct, seq.
Qed.

(** The amount of a funds message is the one of the request. *)
Lemma tool_amount tp c cache n m p q human :
  tool_payload tp c cache n m p -> usdc_moved m = Some q ->
  match c with TDeposit i => human = id_HumanUSDC i | TWithdraw i => human = iw_HumanUSDC i
  | TTransfer i => human = it_HumanUSDC i | _ => False end ->
  HumanToQuantums human = Ok q /\ q <> 0.
Proof.
  intros (acct & seq & _ & _ & _ & _ & Hm) Hq Hh. destruct c, m; cbn [tool_message usdc_moved] in *; try done; subst human.
  - destruct Hm as (_ & _ & -> & H1 & H2). rewrite Z.eqb_refl in Hq. by simplify_eq.
  - destruct Hm as (_ & _ & -> & H1 & H2). rewrite Z.eqb_refl in Hq. by simplify_eq.
  - destruct Hm as (_ & _ & Ha & H1 & H2). rewrite Ha, Z.eqb_refl in Hq. by simplify_eq.
Qed.

Lemma keeps_account owner : keeps effects (account owner).
Proof. unfold account. keeps_tac. Qed.
Lemma keeps_built f : keeps effects (built f).
Proof. unfold built. keeps_tac. Qed.
Lemma keeps_authorizeSubaccount ctx tool sub : keeps effects (authorizeSubaccount ctx tool sub).
Proof. unfold authorizeSubaccount. keeps_tac. Qed.
#[local] Hint Resolve keeps_account keeps_built keeps_authorizeSubaccount : keeps.

Lemma keeps_run_tool ctx c : keeps (fun s => (outbox s, registry s)) (run_tool h ctx c).
Proof.
  assert (View (fun s => (outbox s, registry s))).
  { intros s s' H. exact (f_equal (fun x => (snd (fst (fst x)), snd (fst x))) H). }
  destruct c; cbn [run_tool]; unfold BuildPlaceLimitOrder, BuildPlaceMarketOrder, BuildPlaceConditionalOrder,
    BuildCancelOrder, BuildBatchCancelOrders, BuildDepositToSubaccount, BuildWithdrawFromSubaccount, BuildBankSend,
    BuildTransferBetweenSubaccounts; keeps_tac.
Qed.

End BuildLemmas.
#[export] Hint Resolve keeps_account keeps_built keeps_authorizeSubaccount : keeps.

Section BuildTheorem.
Context {RL : RateLib} {E : Env} {L : ChainLib} {DL : DydxLib} {D : DecLib} (h : Handlers).

(** What a tool that returned a payload did. *)
Definition tool_done (ctx : context) (c : build_tool) (s : srv) (p : TxPayload) : Prop :=
  exists tp m, authorized ctx tp s
  /\ (forall i sub, tool_subaccounts c !! i = Some sub -> may_use tp sub (reading s (3 + i)) s)
  /\ tool_limits h tp c m s /\ tool_payload h tp c (s_markets s) (s_reads s + tool_delay c) m p.

Lemma may_use_first tp sub t s :
  CheckSubaccount (tp_TenantID tp) sub t (engine s) = Ok tt -> may_use tp sub t s.
Proof. intros (tp' & H1 & H2)%CheckSubaccount_ok. by exists tp'. Qed.

Lemma subaccounts_one tp sub s (c : build_tool) :
  tool_subaccounts c = [sub] -> may_use tp sub (reading s 3) s ->
  forall i n, tool_subaccounts c !! i = Some n -> may_use tp n (reading s (3 + i)) s.
Proof. intros -> Hm [|i] n Hn; [by injection Hn as <-|by destruct i]. Qed.

(** A tool that starts with [authorizeSubaccount] and goes straight to its
    builder. *)
Lemma trade_tool ctx tool sub s p s' c (f : TenantPolicy -> Z * Z -> Cache -> Time -> result (Msg * TxPayload)) :
  (tp ← authorizeSubaccount ctx tool sub; acc ← account (tp_Owner tp); built (f tp acc)) s = (Ok p, s') ->
  (forall tp acc cache t, f tp acc cache t = build (tool_call (tp_Owner tp) cache (mkCoin "" None, EmptyString) c) (h_Builder h) (fst acc) (snd acc) t) ->
  tool_subaccounts c = [sub] -> tool_delay c = 4%nat ->
  match c with TDeposit _ | TWithdraw _ | TTransfer _ | TBankSend _ => False | _ => True end -> tool_done ctx c s p.
Proof.
  intros H Hf Hsub Hd Hc. m_inv H as tp s1 H1. apply authorizeSubaccount_ok in H1 as (Ha & Hu%may_use_first & (r & ->)).
  m_inv H as acc s2 H2. destruct (finish_tool h tp c _ _ _ _ _ _ (mkCoin "" None, EmptyString) H2 H) as (m & Hm); [intros; apply Hf|by intros i ->|].
  exists tp, m. rewrite Hd. split_and!; [done|by eapply subaccounts_one|by intros q _; destruct c|done].
Qed.

Lemma tool_ok ctx c s p s' : run_tool h ctx c s = (Ok p, s') -> tool_done ctx c s p.
Proof.
  intros H. destruct c as [i|i|i|i|i|i|i|i|i]; cbn [run_tool] in H.
  1-5: by eapply (trade_tool ctx _ _ s p s') in H.
  - unfold BuildDepositToSubaccount in H. m_inv H as tp s1 H1. apply authorizeSubaccount_ok in H1 as (Ha & Hu%may_use_first & (r & ->)).
    m_inv H as q s2 H2. apply lift_ok in H2 as [H2%wrap_ok ->]. m_inv H as u s3 H3. apply lift_ok in H3 as [H3 ->].
    m_inv H as acc s4 H4. destruct u.
    destruct (finish_tool h _ (TDeposit i) _ _ _ _ _ _ (mkCoin "" None, EmptyString) H4 H ltac:(done) ltac:(done)) as (m & Hm).
    exists tp, m. split_and!; [done|by eapply subaccounts_one| |done].
    intros q' Hq'. destruct (tool_amount h _ _ _ _ _ _ _ _ Hm Hq' eq_refl) as [Hh _]. rewrite H2 in Hh. simplify_eq. by apply CheckPerTx_within.
  - unfold BuildWithdrawFromSubaccount in H. m_inv H as tp s1 H1. apply authorizeSubaccount_ok in H1 as (Ha & Hu%may_use_first & (r & ->)).
    m_inv H as q s2 H2. apply lift_ok in H2 as [H2%wrap_ok ->]. m_inv H as u s3 H3. apply enforce_ok in H3 as [H3 Hr].
    m_inv H as acc s4 H4.
    destruct (finish_tool h _ (TWithdraw i) _ _ _ _ _ _ (mkCoin "" None, EmptyString) H4 H ltac:(done) ltac:(done)) as (m & Hm).
    rewrite Hr in Hm. cbn [s_reads set_rate set_reads s_ledger] in *. exists tp, m.
    split_and!; [done|by eapply subaccounts_one| |cbn [tool_delay]; by rewrite (Nat.add_succ_r _ 4)].
    intros q' Hq'. destruct (tool_amount h _ _ _ _ _ _ _ _ Hm Hq' eq_refl) as [Hh Hne]. rewrite H2 in Hh. simplify_eq.
    apply HumanToQuantums_range in H2 as ?. apply Enforce_within; [lia|exact H3].
  - unfold BuildBankSend in H. m_inv H as tp s1 H1. apply authorize_ok in H1 as (Ha & (r & ->)).
    m_inv H as ca s2 H2. apply lift_ok in H2 as [H2 ->]. m_inv H as acc s3 H3.
    destruct (finish_tool h _ (TBankSend i) _ _ _ _ _ _ ca H3 H ltac:(done) ltac:(by intros ? [= <-])) as (m & Hm).
    exists tp, m. by split_and!.
  - unfold BuildTransferBetweenSubaccounts in H. m_inv H as tp s1 H1. apply authorize_ok in H1 as (Ha & L1).
    m_inv H as u2 s2 H2. apply wrapM_ok, policy_later in H2 as [H2 L2]. m_inv H as u3 s3 H3. apply wrapM_ok, policy_later in H3 as [H3 L3].
    m_inv H as q s4 H4. apply lift_ok in H4 as [H4%wrap_ok ->]. m_inv H as u5 s5 H5. apply lift_ok in H5 as [H5 ->].
    m_inv H as acc s6 H6. destruct u2, u3, u5. destruct (later_reading _ _ _ 0 L1) as [R1 E1]. rewrite R1, E1 in H2.
    pose proof (later_trans _ _ _ _ _ L1 L2) as L12. destruct (later_reading _ _ _ 0 L12) as [R2 E2]. rewrite R2, E2 in H3.
    destruct (later_trans _ _ _ _ _ L12 L3) as (r & ->). apply may_use_first in H2, H3.
    destruct (finish_tool h _ (TTransfer i) _ _ _ _ _ _ (mkCoin "" None, EmptyString) H6 H ltac:(done) ltac:(done)) as (m & Hm).
    exists tp, m. split_and!; [done| | |done].
    + intros [|[|k]] n Hn; [by injection Hn as <-|by injection Hn as <-|by destruct k].
    + intros q' Hq'. destruct (tool_amount h _ _ _ _ _ _ _ _ Hm Hq' eq_refl) as [Hh _]. rewrite H4 in Hh. simplify_eq. by apply CheckPerTx_within.
Qed.

End BuildTheorem.

Section CapLemmas.
Context {RL : RateLib} {E : Env} {L : ChainLib} {D : DecLib} {U : Unicode}.

Lemma SetCap_effect io ow c o d ow' k' :
  let o' := fst (setCapLocked io ow c o d) in
  at2 (caps o') ow' k' = (if decide (ow = ow' /\ Symbol c = k') then Some c else at2 (caps o) ow' k')
  /\ forall now, moved o' now ow' k' = moved o now ow' k'.
Proof.
  cbn [setCapLocked fst caps]. split; [|done]. by rewrite at2_insert.
Qed.

Lemma SetUnlimited_effect io ow k o d ow' k' :
  let o' := fst (setUnlimitedLocked io ow k o d) in
  at2 (caps o') ow' k' = (if decide (ow = ow' /\ k = k') then None else at2 (caps o) ow' k')
  /\ forall now, moved o' now ow' k' = moved o now ow' k'.
Proof. cbn [setUnlimitedLocked fst caps]. split; [|done]. by rewrite at2_delete. Qed.

(** The new cap of the symbol: none for the amount "0". *)
Definition new_cap (amount : string) (a : assetSymbol) (r : option SymbolCap) : Prop :=
  if String.eqb (TrimSpace amount) "0" then r = None
  else exists base, humanToBaseUnits amount (as_decimals a) = Ok base
       /\ r = Some (mkSymbolCap (as_symbol a) (as_decimals a) (Some base)).

Lemma SetTransferOutCap_inv ctx symbol amount s out s' o :
  SetTransferOutCap ctx symbol amount s = (Ok out, s') -> s_out s = Some o ->
  exists tp a o' r, authorized ctx tp s /\ assetForSymbol symbol = Some a /\ fst out = as_symbol a
  /\ s_out s' = Some o' /\ new_cap amount a r
  /\ forall ow k, at2 (caps o') ow k = (if decide (tp_Owner tp = ow /\ as_symbol a = k) then r else at2 (caps o) ow k)
     /\ forall now, moved o' now ow k = moved o now ow k.
Proof.
  intros H Ho. unfold SetTransferOutCap in H. m_inv H as tp s1 H1. apply authorize_inv in H1 as (Ha & (n & rt & ->)).
  m_inv H as a s2 H2. apply lift_ok in H2 as [H2 ->]. destruct (assetForSymbol symbol) as [a'|]; [|done].
  injection H2 as ->. unfold new_cap. destruct (String.eqb (TrimSpace amount) "0").
  - m_inv H as u s3 H3. unfold set_unlimited in H3. m_inv H3 as n4 s4 H4. injection H4 as <- <-.
    unfold modify in H3. cbn [s_out s_disk set_reads set_rate s_reads] in H3. rewrite Ho in H3.
    unfold SetUnlimited, nilsafe in H3. injection H as <- <-.
    pose proof (SetUnlimited_effect (env_io n) (tp_Owner tp) (as_symbol a) o (s_disk s)) as He.
    destruct (setUnlimitedLocked _ _ _ _ _) as [o' d']. injection H3 as _ <-.
    exists tp, a, o', None. by split_and!.
  - m_inv H as base s3 H3. apply lift_ok in H3 as [H3%wrap_ok ->]. m_inv H as u s4 H4. unfold set_cap in H4.
    m_inv H4 as n4 s5 H5. injection H5 as <- <-.
    unfold modify in H4. cbn [s_out s_disk set_reads set_rate s_reads] in H4. rewrite Ho in H4.
    unfold SetCap, nilsafe in H4. injection H as <- <-. set (c := mkSymbolCap (as_symbol a) (as_decimals a) (Some base)) in *.
    pose proof (SetCap_effect (env_io n) (tp_Owner tp) c o (s_disk s)) as He.
    destruct (setCapLocked _ _ _ _ _) as [o' d']. injection H4 as _ <-.
    exists tp, a, o', (Some c). split_and!; try done. by exists base.
Qed.

End CapLemmas.

(** ** Claims *)


Definition demo_tool : build_tool := TWithdraw (mkBuildWithdrawFromSubaccountInput 0 "0.5" "c1").


(** Set_transfer_out_cap changes the cap of one symbol of the caller's own
    wallet, to exactly the requested amount or to unlimited for "0"; every other
    cap, and every amount already moved, stays. *)
Theorem SetTransferOutCap_spec {RL : RateLib} {E : Env} {L : ChainLib} {D : DecLib} {U : Unicode}
    (ctx : context) (symbol amount : string) (s : srv) (out : string * string) (s' : srv) (o : store)
    (H : SetTransferOutCap ctx symbol amount s = (Ok out, s')) (Ho : s_out s = Some o) :
  exists tp a o' r, authorized ctx tp s /\ assetForSymbol symbol = Some a /\ fst out = as_symbol a
  /\ s_out s' = Some o' /\ new_cap amount a r
  /\ forall ow k, at2 (caps o') ow k = (if decide (tp_Owner tp = ow /\ as_symbol a = k) then r else at2 (caps o) ow k)
     /\ forall now, moved o' now ow k = moved o now ow k.
Proof. by eapply SetTransferOutCap_inv. Qed.

Definition demo_out : store := default NewMemoryTransferOutStore (s_out demo_srv).
Definition demo_set_cap :=
  SetTransferOutCap (RL := demo_rate) (E := demo_still) (L := demo_lib) (D := demo_dec) (U := unicode_id)
    demo_ctx "usdc" "1.5" demo_live.

Lemma SetTransferOutCap_spec_witness :
  exists o', s_out (snd demo_set_cap) = Some o' /\ forall now, moved o' now "svp1a" "usdc" = moved demo_out now "svp1a" "usdc".
Proof.
  destruct demo_set_cap as [[out|e] s'] eqn:Es; [|vm_compute in Es; discriminate].
  destruct (SetTransferOutCap_spec (U := unicode_id) demo_ctx "usdc" "1.5" demo_live out s' demo_out Es eq_refl)
    as (tp & a & o' & r & _ & _ & _ & E2 & _ & Hm).
  exists o'. split; [exact E2|]. exact (proj2 (Hm "svp1a"%string "usdc"%string)).
Defined.

Lemma demo_live_filed : filed demo_live.
Proof.
  intros id t tp H. unfold Tenant, engine, demo_live in H. cbn [perTenant s_static] in H.
  destruct (decide (id = "t1"%string)) as [->|Hne]; [by injection H as <-|].
  rewrite lookup_singleton_ne in H by done. vm_compute in H. discriminate.
Qed.
