(* ===== verification/Concurrent.v ===== *)
(** * Requests in flight at the same time

    The handlers of [Broadcast] are computations over the whole state; a Go
    server runs each request on its own goroutine, and what is atomic is one
    operation of one store, under the lock of that store, or one call of a node.
    Here the two broadcast handlers are programs of such atomic actions.  Running
    a program without interruption is the handler ([broadcast_programs]); a pool
    of programs takes its actions in any order ([conc_step]).  An outline assigns
    a ghost value to every thread, and shows that each of its actions keeps an
    invariant of the state and of the ghosts of all threads, as a lock invariant
    is restored by every critical section. *)

From S2P Require Import Prelude GoStrings GoNum GoTime GoEncoding Limits TransferOut NonceStore IPRateLimiter.
From S2P Require Import SessionBearers DynamicTenants Policy Markets Units ChainLib Payload Assembler Assets.
From S2P Require Import TxInspect Server AuthTools Broadcast Tools.

(** ** Programs of atomic actions *)

Section Programs.
Context {RL : RateLib}.

Inductive prog (A : Type) : Type :=
| Return (r : result A)
| Atomic {X : Type} (act : srv -> X * srv) (k : X -> prog A).
Arguments Return {A} _.
Arguments Atomic {A X} _ _.

Fixpoint run {A} (p : prog A) (s : srv) : result A * srv :=
  match p with
  | Return r => (r, s)
  | Atomic act k => let '(x, s') := act s in run (k x) s'
  end.

#[export] Instance prog_ret : MRet prog := fun A a => Return (Ok a).

Fixpoint pbind {A B} (f : A -> prog B) (p : prog A) : prog B :=
  match p with
  | Return (Ok a) => f a
  | Return (Err e) => Return (Err e)
  | Atomic act k => Atomic act (fun x => pbind f (k x))
  end.
#[export] Instance prog_bind : MBind prog := fun A B f p => pbind f p.

Definition atomically {A} (m : M srv A) : prog A := Atomic m Return.
Definition plift {A} (r : result A) : prog A := Return r.

(** A program does what a computation does when nothing comes between. *)
Definition runs {A} (p : prog A) (m : M srv A) : Prop := forall s, run p s = m s.

Lemma runs_ret {A} (a : A) : runs (mret a) (mret a).
Proof. done. Qed.
Lemma runs_lift {A} (r : result A) : runs (plift r) (lift r).
Proof. done. Qed.
Lemma runs_fail {A} e : runs (A := A) (plift (Err e)) (fail e).
Proof. done. Qed.
Lemma runs_atomic {A} (m : M srv A) : runs (atomically m) m.
Proof. intros s. cbn. by destruct (m s). Qed.

Lemma run_bind {A B} (p : prog A) (f : A -> prog B) s :
  run (p ≫= f) s = match run p s with (Ok a, s') => run (f a) s' | (Err e, s') => (Err e, s') end.
Proof.
  unfold mbind, prog_bind. revert s. induction p as [[a|e]|X act k IH]; intros s; cbn [pbind run]; [done..|].
  destruct (act s) as [x s']. apply IH.
Qed.

Lemma runs_bind {A B} (p : prog A) m (f : A -> prog B) (g : A -> M srv B) :
  runs p m -> (forall a, runs (f a) (g a)) -> runs (p ≫= f) (m ≫= g).
Proof.
  intros Hp Hf s. rewrite run_bind, Hp. unfold mbind, M_bind. destruct (m s) as [[a|e] s']; [apply Hf|done].
Qed.

End Programs.
Arguments Return {RL A} _.
Arguments Atomic {RL A X} _ _.

(** ** The handlers as programs *)

Section Handlers.
Context {RL : RateLib} {E : Env} {L : ChainLib} (h : Handlers).

Definition authorize_prog (ctx : context) (tool : string) : prog TenantPolicy :=
  match TenantFrom ctx with
  | None => plift (Err ErrNoTenant)
  | Some tc =>
      _ ← atomically (policy (CheckTenant (tc_TenantID tc)));
      tp ← atomically (policy (Tenant (tc_TenantID tc)));
      ok ← atomically (rate_allow (tool +:+ ":" +:+ tc_TenantID tc)%string);
      if negb ok then plift (Err (userErrf "rate limit exceeded" [])) else mret tp
  end.

Fixpoint for_each_prog (f : string -> Z -> prog unit) (l : list (string * Z)) : prog unit :=
  match l with
  | [] => mret tt
  | (sym, amt) :: l' => _ ← f sym amt; for_each_prog f l'
  end.

Definition range_prog (m : gmap string Z) (f : string -> Z -> prog unit) : prog unit :=
  n ← atomically tick; for_each_prog f (env_range n m).

Definition BroadcastSignedTx_prog (ctx : context) (clientID : string) (signedTx : SignedTx) : prog BroadcastResult :=
  tp ← authorize_prog ctx "broadcast_signed_tx";
  _ ← atomically (claim (tp_TenantID tp) clientID);
  rawBytes ← plift (wrap (fun e => Errorf "decode tx_raw_bytes_b64: %w" [FErr e]) (Base64Decode (st_TxRawBytesB64 signedTx)));
  signerAddr ← plift (wrap (fun e => Errorf "decode signed tx: %w" [FErr e]) (signerAddressFromTxRaw rawBytes));
  _ ← plift (check (negb (String.eqb signerAddr (tp_Owner tp)))
              (Errorf "signer address %s does not match tenant owner %s" [FStr signerAddr; FStr (tp_Owner tp)]));
  withdrawQ ← plift (wrap (fun e => Errorf "inspect tx: %w" [FErr e]) (extractWithdrawQuantums rawBytes));
  _ ← (if 0 <? withdrawQ then atomically (enforce_withdraw h (tp_TenantID tp) withdrawQ) else mret tt);
  bankOut ← plift (wrap (fun e => Errorf "inspect tx: %w" [FErr e]) (extractBankSends rawBytes signerAddr));
  _ ← range_prog bankOut (fun sym amt => atomically (check_out (tp_Owner tp) sym amt));
  r ← atomically (broadcast_sync rawBytes);
  let res := match r with Ok res => res | Err _ => mkBroadcastResult "" 0 "" end in
  _ ← atomically (append_audit (audit_broadcast tp clientID res (negb (is_ok r))));
  _ ← plift (match r with Ok _ => Ok tt | Err e => Err e end);
  _ ← plift (if negb (br_Code res =? 0) then
              match ParseBroadcastError res with Some pe => Err pe | None => Ok tt end
            else Ok tt);
  _ ← (if (br_Code res =? 0) && (0 <? withdrawQ) then atomically (record_withdraw (tp_TenantID tp) withdrawQ) else mret tt);
  _ ← (if br_Code res =? 0 then range_prog bankOut (fun sym amt => atomically (record_out (tp_Owner tp) sym amt)) else mret tt);
  mret res.

Definition BroadcastEVMTx_prog (ctx : context) (clientID : string) (signedTx : EVMSignedTx) : prog string :=
  tp ← authorize_prog ctx "broadcast_evm_tx";
  _ ← plift (check (negb (h_EVM h)) (userErrf "EVM is not enabled on this server (no evm_rpc_url configured)" []));
  _ ← atomically (claim (tp_TenantID tp) clientID);
  rawBytes ← plift (wrap (fun e => Errorf "decode raw_tx_hex: %w" [FErr e]) (hexutil_Decode (ev_RawTxHex signedTx)));
  tx ← plift (wrap (fun e => Errorf "decode signed evm tx: %w" [FErr e]) (EthTx_UnmarshalBinary rawBytes));
  from ← plift (wrap (fun e => Errorf "recover evm sender: %w" [FErr e]) (EthTx_Sender tx));
  ownerEth ← plift (ownerEthAddress (tp_Owner tp));
  _ ← plift (check (negb (addr_eqb from ownerEth))
              (Errorf "evm sender %s does not match tenant owner %s"
                 [FStr (Address_Hex from); FStr (Address_Hex ownerEth)]));
  let chain := u64 (etx_ChainId tx) in
  let isHome := negb (bool_decide (chain ∈ h_ForeignChains h)) in
  let '(router, wsvp) := default (zero_address, zero_address) (h_Uniswap h) in
  let transferOut : gmap string Z :=
    if isHome then decodeTransferOut (etx_To tx) (Some (etx_Value tx)) (etx_Data tx) ownerEth router wsvp else ∅ in
  _ ← range_prog transferOut (fun sym amt => atomically (check_out (tp_Owner tp) sym amt));
  r ← atomically (evm_send (if isHome then -1 else chain) tx);
  let '(txHash, outcome, reason) :=
    match r with
    | Ok hash => (hash, "broadcast"%string, ""%string)
    | Err e => (etx_Hash tx, "chain_reject"%string, env_error_text e)
    end in
  _ ← atomically (append_audit (audit_evm tp clientID txHash outcome reason));
  _ ← plift (match r with Ok _ => Ok tt | Err e => Err (Errorf "broadcast evm tx: %w" [FErr e]) end);
  _ ← range_prog transferOut (fun sym amt => atomically (record_out (tp_Owner tp) sym amt));
  mret txHash.

(** A broadcast of a tenant with a client id, as a request in flight. *)
Definition broadcast_of (tid cid : string) (p : prog unit) : Prop :=
  exists ctx tc, TenantFrom ctx = Some tc /\ tc_TenantID tc = tid
  /\ ((exists tx, p = (_ ← BroadcastSignedTx_prog ctx cid tx; mret tt))
      \/ exists tx, p = (_ ← BroadcastEVMTx_prog ctx cid tx; mret tt)).

Lemma runs_authorize ctx tool : runs (authorize_prog ctx tool) (authorize ctx tool).
Proof.
  unfold authorize_prog, authorize. destruct (TenantFrom ctx) as [tc|]; [|done].
  do 3 (apply runs_bind; [apply runs_atomic|intros ?]). by destruct (negb _).
Qed.

Lemma runs_range m f g : (forall k a, runs (f k a) (g k a)) -> runs (range_prog m f) (range m g).
Proof.
  intros H. apply runs_bind; [apply runs_atomic|]. intros n.
  induction (env_range n m) as [|[k a] l IH]; cbn [for_each_prog for_each]; [done|]. by apply runs_bind.
Qed.

End Handlers.

Ltac runs_step :=
  first
    [ apply runs_ret | apply runs_lift | apply runs_atomic | apply runs_authorize
    | apply runs_range; intros ? ?
    | lazymatch goal with |- runs (_ ≫= _) _ => apply runs_bind; [|intros ?] end
    | case_match ].

(** ** Pools of threads *)

Section Pool.
Context {RL : RateLib} {Lbl : Type}.

Abbreviation pool := (list (Lbl * prog unit)).

(** A request starts when [may] allows it beside those in flight, a thread takes
    its next action, a finished one leaves, and [other] requests do what they
    do. *)
Inductive conc_step (may : srv -> list Lbl -> Lbl -> prog unit -> Prop) (other : srv -> srv -> Prop)
  : pool * srv -> pool * srv -> Prop :=
| cs_start ts s lb p : may s (ts.*1) lb p -> conc_step may other (ts, s) ((lb, p) :: ts, s)
| cs_act l1 l2 s s' lb X (act : srv -> X * srv) k x : act s = (x, s') ->
    conc_step may other (l1 ++ (lb, Atomic act k) :: l2, s) (l1 ++ (lb, k x) :: l2, s')
| cs_end l1 l2 s lb r : conc_step may other (l1 ++ (lb, Return r) :: l2, s) (l1 ++ l2, s)
| cs_other ts s s' : other s s' -> conc_step may other (ts, s) (ts, s').

(** The same steps with a history of what was observed of the actions. *)
Inductive hist_step {H : Type} (observe : Lbl -> srv -> srv -> H -> H)
    (may : srv -> list Lbl -> Lbl -> prog unit -> Prop) (other : srv -> srv -> Prop)
  : pool * srv * H -> pool * srv * H -> Prop :=
| hs_start ts s hs lb p : may s (ts.*1) lb p -> hist_step observe may other (ts, s, hs) ((lb, p) :: ts, s, hs)
| hs_act l1 l2 s s' hs lb X (act : srv -> X * srv) k x : act s = (x, s') ->
    hist_step observe may other (l1 ++ (lb, Atomic act k) :: l2, s, hs) (l1 ++ (lb, k x) :: l2, s', observe lb s s' hs)
| hs_end l1 l2 s hs lb r : hist_step observe may other (l1 ++ (lb, Return r) :: l2, s, hs) (l1 ++ l2, s, hs)
| hs_other ts s s' hs : other s s' -> hist_step observe may other (ts, s, hs) (ts, s', hs).

Definition unobserved (lb : Lbl) (s s' : srv) (u : unit) : unit := u.

Lemma conc_hist may other c c' :
  rtc (conc_step may other) c c' -> rtc (hist_step unobserved may other) (c, tt) (c', tt).
Proof.
  induction 1 as [c|c c1 c2 H1 _ IH]; [done|]. eapply rtc_l; [|exact IH].
  destruct H1; [by constructor| |by constructor|by constructor].
  by refine (hs_act unobserved may other l1 l2 s s' tt lb X act k x _).
Qed.

(** Runs the next action of a thread. *)
Definition sched1 (i : nat) (c : pool * srv) : pool * srv :=
  match fst c !! i with
  | Some (lb, Atomic act k) => let '(x, s') := act (snd c) in (<[i := (lb, k x)]> (fst c), s')
  | _ => c
  end.
Definition sched (l : list nat) (c : pool * srv) : pool * srv := foldl (fun c i => sched1 i c) c l.

Lemma sched1_steps may other i c : rtc (conc_step may other) c (sched1 i c).
Proof.
  destruct c as [ts s]. unfold sched1. cbn [fst snd]. destruct (ts !! i) as [[lb [r|X act k]]|] eqn:Ei; [done| |done].
  destruct (act s) as [x s'] eqn:Ea. apply rtc_once.
  rewrite <- (take_drop_middle ts i _ Ei) at 1. rewrite (insert_take_drop ts i) by (by apply lookup_lt_Some in Ei).
  by apply cs_act.
Qed.

Lemma sched_steps may other l c : rtc (conc_step may other) c (sched l c).
Proof.
  revert c. induction l as [|i l IH]; intros c; [done|]. cbn. etrans; [apply sched1_steps|apply IH].
Qed.

Definition hist_sched1 {H : Type} (observe : Lbl -> srv -> srv -> H -> H) (i : nat) (c : pool * srv * H) : pool * srv * H :=
  match c.1.1 !! i with
  | Some (lb, Atomic act k) => (sched1 i c.1, observe lb c.1.2 (sched1 i c.1).2 c.2)
  | _ => c
  end.
Definition hist_sched {H : Type} (observe : Lbl -> srv -> srv -> H -> H) (l : list nat) (c : pool * srv * H) : pool * srv * H :=
  foldl (fun c i => hist_sched1 observe i c) c l.

Lemma hist_sched_steps {H : Type} (observe : Lbl -> srv -> srv -> H -> H) may other l c :
  rtc (hist_step observe may other) c (hist_sched observe l c).
Proof.
  revert c. induction l as [|i l IH]; intros [[ts s] hs]; [done|]. cbn [hist_sched foldl]. etrans; [|apply IH].
  unfold hist_sched1, sched1. cbn [fst snd]. destruct (ts !! i) as [[lb [r|X act k]]|] eqn:Ei; [done| |done].
  destruct (act s) as [x s'] eqn:Ea. apply rtc_once. cbn [fst snd].
  rewrite <- (take_drop_middle ts i _ Ei) at 1. rewrite (insert_take_drop ts i) by (by apply lookup_lt_Some in Ei).
  by apply hs_act.
Qed.

(** ** Outlines with a history *)

Section Histories.
Context {G H : Type} (lbl : G -> Lbl) (observe : Lbl -> srv -> srv -> H -> H) (Inv : H -> srv -> list G -> Prop).

Fixpoint hist_outline {A} (p : prog A) (g : G) (Q : result A -> G -> Prop) : Prop :=
  match p with
  | Return r => Q r g
  | Atomic act k => forall hs s l1 l2, Inv hs s (l1 ++ g :: l2) ->
      let '(x, s') := act s in
      exists g', lbl g' = lbl g /\ Inv (observe (lbl g) s s' hs) s' (l1 ++ g' :: l2) /\ hist_outline (k x) g' Q
  end.

Lemma hist_atomic {A} (m : M srv A) g (Q : result A -> G -> Prop) :
  (forall hs s l1 l2, Inv hs s (l1 ++ g :: l2) ->
     let '(r, s') := m s in exists g', lbl g' = lbl g /\ Inv (observe (lbl g) s s' hs) s' (l1 ++ g' :: l2) /\ Q r g') ->
  hist_outline (atomically m) g Q.
Proof. intros Hm hs s l1 l2 Hi. exact (Hm hs s l1 l2 Hi). Qed.

Lemma hist_bind {A B} (p : prog A) (f : A -> prog B) g (Q : result B -> G -> Prop) :
  hist_outline p g (fun r g' => match r with Ok a => hist_outline (f a) g' Q | Err e => Q (Err e) g' end) ->
  hist_outline (p ≫= f) g Q.
Proof.
  unfold mbind, prog_bind. revert g. induction p as [[a|e]|X act k IH]; intros g; cbn [hist_outline pbind]; [done..|].
  intros Ho hs s l1 l2 Hi. specialize (Ho hs s l1 l2 Hi). destruct (act s) as [x s'].
  destruct Ho as (g' & Hl & Hi' & Ho). exists g'. auto.
Qed.

Lemma hist_mono {A} (p : prog A) g (Q Q' : result A -> G -> Prop) :
  (forall r g, Q r g -> Q' r g) -> hist_outline p g Q -> hist_outline p g Q'.
Proof.
  intros HQ. revert g. induction p as [r|X act k IH]; intros g; cbn [hist_outline]; [apply HQ|].
  intros Ho hs s l1 l2 Hi. specialize (Ho hs s l1 l2 Hi). destruct (act s) as [x s'].
  destruct Ho as (g' & Hl & Hi' & Ho). exists g'. auto.
Qed.

Context (may : srv -> list Lbl -> Lbl -> prog unit -> Prop) (other : srv -> srv -> Prop) (Q : result unit -> G -> Prop).
Context (Hstart : forall hs s gs lb p, may s (map lbl gs) lb p -> Inv hs s gs ->
           exists g, lbl g = lb /\ Inv hs s (g :: gs) /\ hist_outline p g Q).
Context (Hend : forall hs s l1 l2 g r, Q r g -> Inv hs s (l1 ++ g :: l2) -> Inv hs s (l1 ++ l2)).
Context (Hother : forall hs s s' gs, other s s' -> Inv hs s gs -> Inv hs s' gs).

Definition pool_ok (c : pool * srv * H) : Prop :=
  exists gs, Forall2 (fun th g => fst th = lbl g /\ hist_outline (snd th) g Q) c.1.1 gs /\ Inv c.2 c.1.2 gs.

Lemma pool_labels ts gs : Forall2 (fun th g => fst th = lbl g /\ hist_outline (snd th) g Q) ts gs -> ts.*1 = map lbl gs.
Proof. induction 1 as [|[lb p] g ts gs [Hl _] _ IH]; [done|]. cbn in *. by rewrite Hl, IH. Qed.

Lemma hist_step_ok c c' : hist_step observe may other c c' -> pool_ok c -> pool_ok c'.
Proof.
  intros [ts s hs lb p Hm|l1 l2 s s' hs lb X act k x Ha|l1 l2 s hs lb r|ts s s' hs Ho] (gs & Hf & Hi); cbn [fst snd] in *.
  - rewrite (pool_labels _ _ Hf) in Hm. destruct (Hstart hs s gs lb p Hm Hi) as (g & Hl & Hi' & Hout).
    exists (g :: gs). split; [|done]. constructor; [|done]. done.
  - apply Forall2_app_inv_l in Hf as (g1 & gr & H1 & Hr & ->).
    apply Forall2_cons_inv_l in Hr as (g & g2 & [Hl Ho] & H2 & ->). cbn [fst snd hist_outline] in *.
    specialize (Ho hs s g1 g2 Hi). rewrite Ha in Ho. destruct Ho as (g' & Hl' & Hi' & Ho).
    exists (g1 ++ g' :: g2). split; [|by rewrite Hl]. apply Forall2_app; [done|]. constructor; [|done]. split; [|done]. cbn. congruence.
  - apply Forall2_app_inv_l in Hf as (g1 & gr & H1 & Hr & ->).
    apply Forall2_cons_inv_l in Hr as (g & g2 & [Hl Ho] & H2 & ->). cbn [fst snd hist_outline] in *.
    exists (g1 ++ g2). split; [by apply Forall2_app|]. by eapply Hend.
  - exists gs. split; [done|]. by eapply Hother.
Qed.

(** The invariant holds in whatever order the actions are taken. *)
Lemma hist_invariant s hs0 ts s' hs :
  Inv hs0 s [] -> rtc (hist_step observe may other) ([], s, hs0) (ts, s', hs) -> exists gs, map lbl gs = ts.*1 /\ Inv hs s' gs.
Proof.
  intros H0 Hr. assert (pool_ok (ts, s', hs)) as (gs & Hf & Hi).
  { assert (pool_ok ([], s, hs0)) as Hp by (exists []; done). remember ([], s, hs0) as c eqn:Ec. clear Ec.
    remember (ts, s', hs) as c' eqn:Ec'. clear Ec'. induction Hr as [|c c1 c2 H1 _ IH]; [done|]. by eapply IH, hist_step_ok. }
  exists gs. split; [|done]. symmetry. by eapply pool_labels.
Qed.

End Histories.

(** ** Outlines *)

Context {G : Type} (lbl : G -> Lbl) (Inv : srv -> list G -> Prop).

Definition outline {A} (p : prog A) (g : G) (Q : result A -> G -> Prop) : Prop :=
  hist_outline lbl unobserved (fun _ => Inv) p g Q.

Lemma outline_ret {A} (a : A) g (Q : result A -> G -> Prop) : Q (Ok a) g -> outline (mret a) g Q.
Proof. done. Qed.

Lemma outline_lift {A} (r : result A) g (Q : result A -> G -> Prop) : Q r g -> outline (plift r) g Q.
Proof. done. Qed.

Lemma outline_atomic {A} (m : M srv A) g (Q : result A -> G -> Prop) :
  (forall s l1 l2, Inv s (l1 ++ g :: l2) ->
     let '(r, s') := m s in exists g', lbl g' = lbl g /\ Inv s' (l1 ++ g' :: l2) /\ Q r g') ->
  outline (atomically m) g Q.
Proof. intros H _ s l1 l2 Hi. exact (H s l1 l2 Hi). Qed.

Lemma outline_bind {A B} (p : prog A) (f : A -> prog B) g (Q : result B -> G -> Prop) :
  outline p g (fun r g' => match r with Ok a => outline (f a) g' Q | Err e => Q (Err e) g' end) ->
  outline (p ≫= f) g Q.
Proof. apply hist_bind. Qed.

Lemma outline_mono {A} (p : prog A) g (Q Q' : result A -> G -> Prop) :
  (forall r g, Q r g -> Q' r g) -> outline p g Q -> outline p g Q'.
Proof. apply hist_mono. Qed.

(** Soundness. *)
Lemma conc_invariant (may : srv -> list Lbl -> Lbl -> prog unit -> Prop) (other : srv -> srv -> Prop) (Q : result unit -> G -> Prop)
    (Hstart : forall s gs lb p, may s (map lbl gs) lb p -> Inv s gs -> exists g, lbl g = lb /\ Inv s (g :: gs) /\ outline p g Q)
    (Hend : forall s l1 l2 g r, Q r g -> Inv s (l1 ++ g :: l2) -> Inv s (l1 ++ l2))
    (Hother : forall s s' gs, other s s' -> Inv s gs -> Inv s' gs) s ts s' :
  Inv s [] -> rtc (conc_step may other) ([], s) (ts, s') -> exists gs, map lbl gs = ts.*1 /\ Inv s' gs.
Proof.
  intros H0 Hr%conc_hist. by eapply (hist_invariant lbl unobserved (fun _ => Inv) may other Q); [| | | |exact Hr]; eauto.
Qed.

End Pool.

(** ** One client id, many requests *)

Section Once.
Context {RL : RateLib} {E : Env} {L : ChainLib} (h : Handlers).
Context (tid cid : string) (T ttl : Z) (n0 : nat).
Context (Hclk : forall n, T <= env_clock n < T + ttl).

(** How many transactions the node clients were handed. *)
Definition sends (s : srv) : nat := List.length (s_sent s) + List.length (s_evm_sent s).

(** What the idempotency table and the outbox see of a request. *)
Definition once_view (s : srv) := (s_idem s, outbox s, registry s).

(** The ghost of a thread is the number of transactions it may still send; once
    that or what was sent exceeds [n0], the client id is taken for the whole
    window. *)
Definition once_inv (s : srv) (gs : list nat) : Prop :=
  id_ttl (s_idem s) = ttl /\ filed s /\ (sends s + sum_list gs <= n0 + 1)%nat
  /\ ((n0 < sends s + sum_list gs)%nat ->
      exists exp, id_seen (s_idem s) !! claim_key tid cid = Some exp /\ T + ttl <= exp).

Abbreviation outline1 := (outline (fun _ : nat => tt) once_inv).

Lemma once_view_inv s s' gs : once_view s' = once_view s -> once_inv s gs -> once_inv s' gs.
Proof.
  intros [= Ei Eo1 Eo2 Er1 Er2] (H1 & H2 & H3 & H4). unfold once_inv, sends. rewrite Ei, Eo1, Eo2. split_and!; [done| |done..].
  intros id t tp. unfold engine. rewrite Er1, Er2. apply H2.
Qed.

Lemma outline_keeps {A} (m : M srv A) g (Q : result A -> nat -> Prop) :
  keeps once_view m -> (forall s l1 l2, once_inv s (l1 ++ g :: l2) -> Q (fst (m s)) g) -> outline1 (atomically m) g Q.
Proof.
  intros Hk HQ. apply outline_atomic. intros s l1 l2 Hi. specialize (Hk s). specialize (HQ s l1 l2 Hi).
  destruct (m s) as [r s']. exists g. split_and!; [done| |exact HQ]. by eapply once_view_inv.
Qed.

Lemma once_keeps :
  (forall A (f : Time -> Engine DynamicTenantStore -> result A), keeps once_view (policy f))
  /\ (forall key, keeps once_view (rate_allow key)) /\ keeps once_view tick
  /\ (forall e, keeps once_view (append_audit e))
  /\ (forall t q, keeps once_view (enforce_withdraw h t q)) /\ (forall t q, keeps once_view (record_withdraw t q))
  /\ (forall ow k a, keeps once_view (check_out ow k a)) /\ (forall ow k a, keeps once_view (record_out ow k a)).
Proof.
  split_and!; intros; intros s; try done.
  - by rewrite rate_allow_eq.
  - unfold append_audit, mbind, M_bind. rewrite now_eq. unfold tick, ignore, run_state. by destruct (Append _ _ _ _).
  - unfold enforce_withdraw, mbind, M_bind. rewrite now_eq. unfold run_state. by destruct (Enforce _ _ _ _ _ _).
  - unfold check_out, mbind, M_bind. rewrite now_eq. unfold tick, run_state. by destruct (TransferOut.Check _ _ _ _ _ _ _) as [? []].
  - unfold record_out, mbind, M_bind. rewrite now_eq. unfold tick, modify. by destruct (RecordOut _ _ _ _ _ _ _ _).
Qed.

(** The claim is granted to one thread only. *)
Lemma outline_claim (Q : error -> nat -> Prop) :
  (forall e, Q (Err e) 0%nat) -> Q (Ok tt) 1%nat -> outline1 (atomically (claim tid cid)) 0%nat Q.
Proof.
  intros Qe Qo. apply outline_atomic. intros s l1 l2 Hi. pose proof Hi as (H1 & H2 & H3 & H4).
  unfold claim, mbind, M_bind. rewrite now_eq. unfold run_state. cbn [s_idem set_reads].
  destruct (Claim tid cid (env_clock (s_reads s)) (s_idem s)) as [r i] eqn:Ec. unfold Claim in Ec.
  destruct (String.eqb cid ""); [injection Ec as <- <-; exists 0%nat; split_and!; [done| |apply Qe]; exact Hi|].
  assert (forall exp, id_seen (s_idem s) !! claim_key tid cid = Some exp -> T + ttl <= exp ->
            After exp (env_clock (s_reads s)) = true) as Hdup.
  { intros exp _ He. unfold After. apply Z.ltb_lt. specialize (Hclk (s_reads s)). lia. }
  destruct (decide (n0 < sends s + sum_list (l1 ++ 0%nat :: l2))%nat) as [Hn|Hn].
  { destruct (H4 Hn) as (exp & Hs & He). rewrite Hs, (Hdup exp Hs He) in Ec. injection Ec as <- <-.
    exists 0%nat. split_and!; [done| |apply Qe]. exact Hi. }
  assert (exp_case : (exists e, r = Err e /\ i = s_idem s)
    \/ r = Ok tt /\ i = mkIdempotency (id_ttl (s_idem s)) (<[claim_key tid cid := env_clock (s_reads s) + id_ttl (s_idem s)]> (id_seen (s_idem s)))).
  { destruct (id_seen (s_idem s) !! claim_key tid cid); [destruct (After _ _)|]; injection Ec as <- <-; eauto. }
  destruct exp_case as [(e & -> & ->)|[-> ->]].
  { exists 0%nat. split_and!; [done| |apply Qe]. exact Hi. }
  exists 1%nat. split_and!; [done| |exact Qo]. rewrite sum_list_with_app in H3, Hn. cbn in H3, Hn.
  unfold once_inv, sends in *. rewrite sum_list_with_app. cbn in *. split_and!; [done|exact H2|lia|].
  intros _. eexists. rewrite lookup_insert_eq. split; [done|]. specialize (Hclk (s_reads s)). lia.
Qed.

(** A send takes the permission. *)
Lemma outline_send {A} (m : M srv A) (Q : result A -> nat -> Prop) :
  (forall s, s_idem (snd (m s)) = s_idem s /\ registry (snd (m s)) = registry s /\ sends (snd (m s)) = S (sends s)) ->
  (forall r, Q r 0%nat) -> outline1 (atomically m) 1%nat Q.
Proof.
  intros Hm HQ. apply outline_atomic. intros s l1 l2 (H1 & H2 & H3 & H4). destruct (Hm s) as (Ei & Er & Es).
  destruct (m s) as [r s']. cbn [snd] in *. exists 0%nat. split_and!; [done| |apply HQ].
  rewrite sum_list_with_app in H3, H4. cbn in H3, H4. unfold once_inv. rewrite Ei, Es, sum_list_with_app. cbn.
  split_and!; [done| |lia|intros; apply H4; lia].
  injection Er as Er1 Er2. intros id t tp. unfold engine. rewrite Er1, Er2. apply H2.
Qed.

Lemma outline_skip {A} (m : M srv A) g (Q : result A -> nat -> Prop) :
  keeps once_view m -> (forall r, Q r g) -> outline1 (atomically m) g Q.
Proof. intros Hk HQ. by apply outline_keeps. Qed.

Lemma outline_authorize_once ctx tool tc (Q : result TenantPolicy -> nat -> Prop) :
  TenantFrom ctx = Some tc -> tc_TenantID tc = tid -> (forall e, Q (Err e) 0%nat) ->
  (forall tp, tp_TenantID tp = tid -> Q (Ok tp) 0%nat) -> outline1 (authorize_prog ctx tool) 0%nat Q.
Proof.
  intros Ht Hid Qe Qo. unfold authorize_prog. rewrite Ht, Hid. destruct once_keeps as (Kp & Kr & _).
  apply outline_bind, outline_skip; [apply Kp|]. intros [[]|e]; [|apply Qe].
  apply outline_bind, outline_keeps; [apply Kp|]. intros s l1 l2 (_ & Hf & _). rewrite policy_eq. cbn [fst].
  destruct (Tenant tid _ _) as [tp|e] eqn:Et; [|apply Qe]. apply Hf in Et.
  apply outline_bind, outline_skip; [apply Kr|]. intros [ok|e]; [|apply Qe]. destruct (negb ok); [apply Qe|by apply Qo].
Qed.

Lemma outline_range_once m f g (Q : error -> nat -> Prop) :
  (forall k a (Q : error -> nat -> Prop), (forall r, Q r g) -> outline1 (f k a) g Q) -> (forall r, Q r g) ->
  outline1 (range_prog m f) g Q.
Proof.
  intros Hf HQ. unfold range_prog. destruct once_keeps as (_ & _ & Kt & _).
  apply outline_bind, outline_skip; [apply Kt|]. intros [n|e]; [|apply HQ].
  induction (env_range n m) as [|[k a] l IH]; cbn [for_each_prog]; [apply HQ|].
  apply outline_bind, Hf. intros [[]|e]; [exact IH|apply HQ].
Qed.

Lemma sync_sends raw s (s' := snd (broadcast_sync raw s)) :
  s_idem s' = s_idem s /\ registry s' = registry s /\ sends s' = S (sends s).
Proof.
  subst s'. split_and!; [done..|]. unfold sends, broadcast_sync, mbind, M_bind, tick, run_state. cbn [snd s_sent s_evm_sent set_sent set_reads].
  rewrite length_app. cbn. lia.
Qed.

Lemma evm_sends c tx s (s' := snd (evm_send c tx s)) :
  s_idem s' = s_idem s /\ registry s' = registry s /\ sends s' = S (sends s).
Proof.
  subst s'. split_and!; [done..|]. unfold sends, evm_send, mbind, M_bind, tick, run_state. cbn [snd s_sent s_evm_sent set_evm_sent set_reads].
  rewrite length_app. cbn. lia.
Qed.

(** The next step of an outline whose postcondition is trivial: a pure step, a
    branch, an action that leaves the ghost alone. *)
Ltac outline_pure := apply outline_bind, outline_lift; match goal with |- match ?r with _ => _ end => destruct r; [|done] end.
Ltac outline_quiet K :=
  apply outline_bind; first [ apply outline_skip; [apply K|] | apply outline_range_once; [intros ? ? ? ?; by apply outline_skip; [apply K|]|] ];
  intros [?|?]; [|done].

Lemma signed_once ctx tx tc :
  TenantFrom ctx = Some tc -> tc_TenantID tc = tid ->
  outline1 (BroadcastSignedTx_prog h ctx cid tx) 0%nat (fun _ _ => True).
Proof.
  intros Ht Hid. destruct once_keeps as (_ & _ & _ & Ka & Ke & Kw & Kc & Ko). unfold BroadcastSignedTx_prog.
  apply outline_bind. eapply outline_authorize_once; [exact Ht|exact Hid|done|]. intros tp Htp. rewrite Htp.
  apply outline_bind, outline_claim; [done|]. do 4 outline_pure.
  apply outline_bind. assert (forall (b : bool) m (Q : error -> nat -> Prop), keeps once_view m -> (forall r, Q r 1%nat) ->
    outline1 (if b then atomically m else mret tt) 1%nat Q) as Hif.
  { intros [|] m Q Hm HQ; [by apply outline_skip|apply HQ]. }
  apply Hif; [apply Ke|]. intros [[]|e]; [|done]. outline_pure. outline_quiet Kc.
  apply outline_bind, outline_send; [apply sync_sends|]. intros [r|e]; [|done]. cbv zeta. outline_quiet Ka. do 2 outline_pure.
  apply outline_bind. assert (forall (b : bool) p (Q : error -> nat -> Prop), outline1 p 0%nat Q -> (forall r, Q r 0%nat) ->
    outline1 (if b then p else mret tt) 0%nat Q) as Hif0.
  { intros [|] p Q Hp HQ; [done|apply HQ]. }
  apply Hif0; [apply outline_skip; [apply Kw|]|]; (intros [[]|e]; [|done]);
    apply outline_bind; (apply Hif0; [apply outline_range_once; [intros ? ? ? ?; by apply outline_skip; [apply Ko|]|]|]);
    by intros [|].
Qed.

Lemma evm_once ctx tx tc :
  TenantFrom ctx = Some tc -> tc_TenantID tc = tid ->
  outline1 (BroadcastEVMTx_prog h ctx cid tx) 0%nat (fun _ _ => True).
Proof.
  intros Ht Hid. destruct once_keeps as (_ & _ & _ & Ka & Ke & Kw & Kc & Ko). unfold BroadcastEVMTx_prog.
  apply outline_bind. eapply outline_authorize_once; [exact Ht|exact Hid|done|]. intros tp Htp. rewrite Htp.
  outline_pure. apply outline_bind, outline_claim; [done|]. do 5 outline_pure. cbv zeta.
  destruct (default _ _) as [router wsvp]. outline_quiet Kc.
  apply outline_bind, outline_send; [apply evm_sends|]. intros [r|e]; [|done]. destruct (match r with Ok _ => _ | Err _ => _ end) as [[txHash outcome] reason].
  outline_quiet Ka. outline_pure. outline_quiet Ko. done.
Qed.

(** The requests: broadcasts of one tenant with one client id. *)
Definition retry (s : srv) (running : list unit) (lb : unit) (p : prog unit) : Prop := broadcast_of h tid cid p.

(** Requests beside them that claim nothing, send nothing and log nobody in. *)
Definition aside (s s' : srv) : Prop := once_view s' = once_view s.

Lemma retries_once s ts s' :
  n0 = sends s -> id_ttl (s_idem s) = ttl -> filed s -> rtc (conc_step retry aside) ([], s) (ts, s') ->
  (sends s' <= n0 + 1)%nat.
Proof.
  intros Hn Ht Hf Hr.
  destruct (conc_invariant (fun _ : nat => tt) once_inv retry aside (fun _ _ => True)) with (s := s) (ts := ts) (s' := s')
    as (gs & _ & _ & _ & H & _).
  - intros s1 gs [] p (ctx & tc & H1 & H2 & Hp) Hi. exists 0%nat. split_and!; [done|exact Hi|].
    destruct Hp as [(tx & ->)|(tx & ->)]; apply outline_bind;
      (eapply outline_mono; [|first [eapply signed_once; eassumption|eapply evm_once; eassumption]]; by intros [|]).
  - intros s1 l1 l2 g r _ (H1 & H2 & H3 & H4). unfold once_inv. rewrite sum_list_with_app in *. cbn in *.
    split_and!; [done..|lia|intros; apply H4; lia].
  - intros s1 s2 gs Ho. by apply once_view_inv.
  - unfold once_inv. cbn. split_and!; [done..|lia|lia].
  - exact Hr.
  - lia.
Qed.

End Once.

(** ** Claims *)

(** The programs are the handlers.  Run without interruption, from any state,
    the program of each broadcast tool gives the answer and the state that its
    handler gives: the split into critical sections leaves nothing out. *)
Theorem broadcast_programs {RL : RateLib} {E : Env} {L : ChainLib} (h : Handlers) (ctx : context) (clientID : string)
    (tx : SignedTx) (etx : EVMSignedTx) (s : srv) :
  run (BroadcastSignedTx_prog h ctx clientID tx) s = BroadcastSignedTx h ctx clientID tx s
  /\ run (BroadcastEVMTx_prog h ctx clientID etx) s = BroadcastEVMTx h ctx clientID etx s.
Proof.
  split; revert s; [change (runs (BroadcastSignedTx_prog h ctx clientID tx) (BroadcastSignedTx h ctx clientID tx))
                   |change (runs (BroadcastEVMTx_prog h ctx clientID etx) (BroadcastEVMTx h ctx clientID etx))].
  - unfold BroadcastSignedTx_prog, BroadcastSignedTx. repeat runs_step.
  - unfold BroadcastEVMTx_prog, BroadcastEVMTx. repeat runs_step.
Qed.

(** C9: a storm of retries sends one transaction.  Any number of broadcast
    requests of one tenant with one client id, over both rails, with their
    critical sections interleaved in any order among themselves and with requests
    that leave the client ids, the outbox and the tenants alone, hand at most one
    transaction to the nodes as long as the clock stays within the window of
    the idempotency table. *)
Theorem retry_storm_sends_once {RL : RateLib} {E : Env} {L : ChainLib} (h : Handlers) (tid cid : string) (T : Time)
    (s s' : srv) (ts : list (unit * prog unit))
    (Hclk : forall n, T <= env_clock n < T + id_ttl (s_idem s)) (Hf : filed s)
    (Hr : rtc (conc_step (retry h tid cid) aside) ([], s) (ts, s')) :
  (sends s' <= sends s + 1)%nat.
Proof. by apply (retries_once h tid cid T (id_ttl (s_idem s)) (sends s) Hclk s ts s'). Qed.

(** Two retries on the demonstration server, one overtaking the other between
    its claim and its send. *)
Definition demo_retry : prog (RL := demo_rate) unit :=
  _ ← BroadcastSignedTx_prog (E := demo_still) (L := demo_lib) demo_handlers demo_ctx "c1" demo_signed; mret tt.
Definition demo_storm : list (unit * prog unit) * srv :=
  sched (repeat 0%nat 6 ++ repeat 1%nat 12 ++ repeat 0%nat 12) ([(tt, demo_retry); (tt, demo_retry)], demo_live).

Example demo_storm_value :
  sends (snd demo_storm) = 1%nat
  /\ map snd (fst demo_storm)
     = [Return (Ok tt); Return (Err (Errorf "duplicate broadcast: client_id %s already used for tenant %s" [FStr "c1"; FStr "t1"]))].
Proof. split; vm_compute; reflexivity. Qed.

Lemma retry_storm_sends_once_witness : (sends (snd demo_storm) <= sends demo_live + 1)%nat.
Proof.
  apply (retry_storm_sends_once (RL := demo_rate) (E := demo_still) (L := demo_lib) demo_handlers "t1" "c1" 7 demo_live
    (snd demo_storm) (fst demo_storm)); [intros n; split; vm_compute; congruence|exact demo_live_filed|].
  assert (retry (RL := demo_rate) (E := demo_still) (L := demo_lib) demo_handlers "t1" "c1" demo_live [] tt demo_retry) as Hp.
  { exists demo_ctx, (mkTenantContext "t1" "svp1a"). split; [reflexivity|]. split; [reflexivity|]. left. by exists demo_signed. }
  eapply rtc_l; [by apply (cs_start _ _ _ _ tt demo_retry)|]. eapply rtc_l; [by apply (cs_start _ _ _ _ tt demo_retry)|].
  rewrite <- surjective_pairing. apply sched_steps.
Defined.
