(* ===== verification/ConcurrentCaps.v ===== *)
(** * The caps under concurrency

    The check of a cap and the record of what was moved are two critical
    sections.  With at most one broadcast of an owner in flight no order of the
    actions of different owners breaks a cap; with two broadcasts of one owner
    some order does. *)

From S2P Require Import Prelude GoStrings GoNum GoTime GoEncoding Limits TransferOut NonceStore IPRateLimiter.
From S2P Require Import SessionBearers DynamicTenants Policy Markets Units ChainLib Payload Assembler Assets.
From S2P Require Import TxInspect Server AuthTools Broadcast Tools Concurrent.

(** What a thread holds between its checks and its records: room for a spend of
    its tenant and for transfers of its owner. *)
Record ticket : Type := mkTicket {
  tk_owner : string; tk_tenant : string; tk_spend : option Z; tk_rooms : list (string * Z) }.

Definition tk_label (g : ticket) : string * string := (tk_owner g, tk_tenant g).

Section Exclusive.
Context {RL : RateLib} {E : Env} {EL : EnvLaws E} {L : ChainLib} (h : Handlers).

(** The tenant is the owner's, whenever it is looked up. *)
Definition belongs (s : srv) (tid ow : string) : Prop :=
  forall t tp, Tenant tid t (engine s) = Ok tp -> tp_TenantID tp = tid /\ tp_Owner tp = ow.

Definition ticket_ok (s : srv) (g : ticket) : Prop :=
  belongs s (tk_tenant g) (tk_owner g)
  /\ (forall q, tk_spend g = Some q -> 0 <= q <= maxU64 /\ ledger_room (s_ledger s) (tk_tenant g) q)
  /\ out_rooms (tk_owner g) (tk_rooms g) (s_out s).

Definition excl_inv (s : srv) (gs : list ticket) : Prop :=
  safe h (books s) /\ NoDup (map tk_owner gs) /\ NoDup (map tk_tenant gs) /\ Forall (ticket_ok s) gs.

(** What a step of one thread leaves to the others. *)
Definition spares (g : ticket) (s s' : srv) : Prop :=
  registry s' = registry s
  /\ (forall ow k a, ow <> tk_owner g -> out_room (s_out s) ow k a -> out_room (s_out s') ow k a)
  /\ (forall t q, t <> tk_tenant g -> ledger_room (s_ledger s) t q -> ledger_room (s_ledger s') t q).

Lemma belongs_registry s s' tid ow : registry s' = registry s -> belongs s tid ow -> belongs s' tid ow.
Proof. intros [= E1 E2] H t tp. unfold engine. rewrite E1, E2. apply H. Qed.

Lemma spared_ok g g' s s' :
  spares g s s' -> tk_owner g' <> tk_owner g -> tk_tenant g' <> tk_tenant g -> ticket_ok s g' -> ticket_ok s' g'.
Proof.
  intros (Hr & Ho & Hl) N1 N2 (H1 & H2 & H3). split_and!; [by eapply belongs_registry| |].
  - intros q Hq. destruct (H2 q Hq). auto.
  - eapply Forall_impl; [exact H3|]. intros ka. by apply Ho.
Qed.

Lemma excl_step s s' l1 g g' l2 :
  excl_inv s (l1 ++ g :: l2) -> safe h (books s') -> spares g s s' -> tk_label g' = tk_label g -> ticket_ok s' g' ->
  excl_inv s' (l1 ++ g' :: l2).
Proof.
  intros (_ & N1 & N2 & Hf) Hs Hsp [= E1 E2] Hg. rewrite map_app in N1, N2. cbn in N1, N2.
  split; [done|]. rewrite !map_app. cbn. rewrite E1, E2. split; [done|]. split; [done|].
  apply Forall_app in Hf as [F1 F2]. apply Forall_cons in F2 as [_ F2].
  assert (forall x, x ∈ l1 \/ x ∈ l2 -> tk_owner x <> tk_owner g /\ tk_tenant x <> tk_tenant g) as Hne.
  { apply NoDup_app in N1 as (_ & D1 & C1). apply NoDup_cons in C1 as [C1 _].
    apply NoDup_app in N2 as (_ & D2 & C2). apply NoDup_cons in C2 as [C2 _].
    intros x [Hx|Hx]; split; intros Ex.
    - apply (D1 (tk_owner x)); [by apply list_elem_of_fmap_2|]. rewrite Ex. left.
    - apply (D2 (tk_tenant x)); [by apply list_elem_of_fmap_2|]. rewrite Ex. left.
    - apply C1. rewrite <- Ex. by apply list_elem_of_fmap_2.
    - apply C2. rewrite <- Ex. by apply list_elem_of_fmap_2. }
  apply Forall_app. split; [|apply Forall_cons; split; [done|]]; apply Forall_forall; intros x Hx;
    (eapply spared_ok; [exact Hsp|apply Hne; auto..|]); [by eapply (proj1 (Forall_forall _ _) F1)|by eapply (proj1 (Forall_forall _ _) F2)].
Qed.

Lemma excl_here s l1 g l2 : excl_inv s (l1 ++ g :: l2) -> safe h (books s) /\ ticket_ok s g.
Proof. intros (Hs & _ & _ & Hf). split; [done|]. apply Forall_app in Hf as [_ Hf]. by apply Forall_cons in Hf as [? _]. Qed.

Abbreviation outline2 := (outline tk_label excl_inv).

(** An action that touches neither the books nor the tenants; the thread may
    restate what it holds. *)
Lemma excl_restate {A} (m : M srv A) g (Q : result A -> ticket -> Prop) :
  keeps (fun s => (books s, registry s)) m ->
  (forall s, ticket_ok s g -> exists g', tk_label g' = tk_label g /\ ticket_ok s g' /\ Q (fst (m s)) g') ->
  outline2 (atomically m) g Q.
Proof.
  intros Hk HQ. apply outline_atomic. intros s l1 l2 Hi. destruct (excl_here _ _ _ _ Hi) as [Hs Hg].
  specialize (Hk s). destruct (HQ s Hg) as (g' & Hl & Hg' & HQ'). destruct (m s) as [r s']. cbn [fst snd] in *.
  injection Hk as El Eo E1 E2. exists g'. split_and!; [done| |exact HQ'].
  assert (registry s' = registry s) as Er by (unfold registry; by rewrite E1, E2).
  eapply excl_step; [exact Hi| | |done|].
  - unfold books. by rewrite El, Eo.
  - split_and!; [done|by rewrite Eo|by rewrite El].
  - destruct Hg' as (H1 & H2 & H3). unfold ticket_ok. rewrite El, Eo. split; [by eapply belongs_registry|done].
Qed.

Lemma excl_keeps {A} (m : M srv A) g (Q : result A -> ticket -> Prop) :
  keeps (fun s => (books s, registry s)) m -> (forall s, ticket_ok s g -> Q (fst (m s)) g) -> outline2 (atomically m) g Q.
Proof. intros Hk HQ. apply excl_restate; [done|]. intros s Hg. exists g. auto. Qed.

(** The ledger's two critical sections, on the ledger alone: the cap holds, the
    room of others survives, and an accepted amount has room. *)
Lemma enforce_books now t q l :
  0 <= q -> ledger_safe h l ->
  let r := Enforce (h_Limits h) now t ToolWithdraw q l in
  ledger_safe h (snd r) /\ (forall t' q', ledger_room l t' q' -> ledger_room (snd r) t' q')
  /\ (fst r = Ok tt -> ledger_room (snd r) t q).
Proof.
  intros Hq Hl. destruct l as [ml|]; cbv zeta.
  2: { unfold Enforce. by destruct (CheckPerTx _ _ _). }
  destruct (Hl ml eq_refl) as [Hu Hd].
  destruct (enforce_room (h_Limits h) now t q ml Hd Hq Hu) as (ml' & E1 & Hu' & Hc & Hr).
  rewrite E1. split_and!.
  - intros ? [= <-]. by rewrite Hc.
  - intros t' q' Hroom ? [= <-]. eapply enforce_keeps_room; [exact Hd|exact Hu|by apply Hroom|exact E1].
  - intros Hok ? [= <-]. by apply Hr.
Qed.

Lemma record_books now t q l (l' := (fun ml => RecordSpend now t q ml) <$> l) :
  0 <= q <= maxU64 -> ledger_safe h l -> ledger_room l t q ->
  ledger_safe h l' /\ (forall t' q', t' <> t -> ledger_room l t' q' -> ledger_room l' t' q').
Proof.
  intros Hq Hl Hr. destruct l as [ml|]; [|done]. destruct (Hl ml eq_refl) as [Hu Hd].
  destruct (record_under_cap now t q ml Hu Hq (Hr ml eq_refl)) as [Hu' Hc]. split.
  - intros ? [= <-]. split; [done|]. by rewrite Hd, <- Hc.
  - intros t' q' Hne Hroom ? [= <-]. exact (record_keeps_room now t q ml t' q' Hu Hq Hne (Hroom ml eq_refl)).
Qed.

Lemma excl_check g k a (Q : error -> ticket -> Prop) :
  (forall e, Q (Err e) g) ->
  Q (Ok tt) (mkTicket (tk_owner g) (tk_tenant g) (tk_spend g) (tk_rooms g ++ [(k, a)])) ->
  outline2 (atomically (check_out (tk_owner g) k a)) g Q.
Proof.
  intros Qe Qo. apply outline_atomic. intros s l1 l2 Hi. destruct (excl_here _ _ _ _ Hi) as [[Hl Ho] (H1 & H2 & H3)].
  unfold check_out, mbind, M_bind. rewrite now_eq. unfold tick, run_state. cbn [s_reads set_reads s_out s_disk].
  destruct (Check_safe (env_clock (s_reads s)) (env_io (S (s_reads s))) (tk_owner g) k a (s_out s) (s_disk s) Ho)
    as (C1 & C2 & C3).
  destruct (TransferOut.Check _ _ _ _ _ _ _) as [r [o' d']]. cbn [fst snd] in *.
  assert (out_rooms (tk_owner g) (tk_rooms g) o') as Hr.
  { eapply Forall_impl; [exact H3|]. intros ka. apply C2. }
  assert (safe h (s_ledger s, o')) as Hsafe by (by split).
  destruct r as [[]|e].
  - eexists. split; [|split; [|exact Qo]]; [done|]. eapply excl_step; [exact Hi|exact Hsafe|split_and!; [done|by intros; apply C2|done]|done|].
    split_and!; [done|done|]. apply Forall_app. split; [done|]. apply Forall_singleton. by apply C3.
  - exists g. split; [done|]. split; [|apply Qe]. eapply excl_step; [exact Hi|exact Hsafe|split_and!; [done|by intros; apply C2|done]|done|].
    by split_and!.
Qed.

Lemma excl_record g k a l (Q : error -> ticket -> Prop) :
  tk_rooms g = (k, a) :: l -> NoDup (tk_rooms g).*1 ->
  Q (Ok tt) (mkTicket (tk_owner g) (tk_tenant g) (tk_spend g) l) ->
  outline2 (atomically (record_out (tk_owner g) k a)) g Q.
Proof.
  intros Eg Hnd Qo. apply outline_atomic. intros s l1 l2 Hi. destruct (excl_here _ _ _ _ Hi) as [[Hl Ho] (H1 & H2 & H3)].
  unfold record_out, mbind, M_bind. rewrite now_eq. unfold tick, modify. cbn [s_reads set_reads s_out s_disk].
  rewrite Eg in H3, Hnd. apply Forall_cons in H3 as [Hr0 Hr]. apply NoDup_cons in Hnd as [Hk _].
  destruct (RecordOut_safe (env_clock (s_reads s)) (env_io (S (s_reads s))) (env_io (S (S (s_reads s)))) (tk_owner g) k a
    (s_out s) (s_disk s) Ho Hr0) as [C1 C2].
  destruct (RecordOut _ _ _ _ _ _ _ _) as [o' d']. cbn [fst snd] in *.
  eexists. split; [|split; [|exact Qo]]; [done|]. eapply excl_step; [exact Hi|by split| |done|].
  - split_and!; [done| |done]. intros ow k' a' Hne. apply C2. congruence.
  - split_and!; [done|done|]. apply Forall_forall. intros [k' a'] Hin. cbn [fst snd tk_owner tk_rooms] in *. apply C2.
    + intros [= ->]. apply Hk. apply list_elem_of_fmap. by exists (k, a').
    + exact (proj1 (Forall_forall _ _) Hr (k', a') Hin).
Qed.

Lemma excl_enforce g q (Q : error -> ticket -> Prop) :
  0 <= q <= maxU64 -> (forall e, Q (Err e) g) ->
  Q (Ok tt) (mkTicket (tk_owner g) (tk_tenant g) (Some q) (tk_rooms g)) ->
  outline2 (atomically (enforce_withdraw h (tk_tenant g) q)) g Q.
Proof.
  intros Hq Qe Qo. apply outline_atomic. intros s l1 l2 Hi.
  destruct (excl_here _ _ _ _ Hi) as [[Hl Ho] (H1 & H2 & H3)].
  unfold enforce_withdraw, mbind, M_bind. rewrite now_eq. unfold run_state. cbn [s_ledger set_reads].
  destruct (enforce_books (env_clock (s_reads s)) (tk_tenant g) q (s_ledger s) (proj1 Hq) Hl) as (C1 & C2 & C3).
  destruct (Enforce _ _ _ _ _ _) as [r l']. cbn [fst snd] in *.
  assert (safe h (l', s_out s)) as Hsafe by (by split).
  assert (forall q', tk_spend g = Some q' -> 0 <= q' <= maxU64 /\ ledger_room l' (tk_tenant g) q') as Hsp.
  { intros q' Hq'. destruct (H2 q' Hq'). auto. }
  destruct r as [[]|e].
  - eexists. split; [|split; [|exact Qo]]; [done|]. eapply excl_step; [exact Hi|exact Hsafe|split_and!; [done..|by intros; apply C2]|done|].
    split_and!; [done| |done]. intros q' [= <-]. split; [done|]. by apply C3.
  - exists g. split; [done|]. split; [|apply Qe]. eapply excl_step; [exact Hi|exact Hsafe|split_and!; [done..|by intros; apply C2]|done|].
    by split_and!.
Qed.

Lemma excl_record_withdraw g q (Q : error -> ticket -> Prop) :
  tk_spend g = Some q -> Q (Ok tt) (mkTicket (tk_owner g) (tk_tenant g) None (tk_rooms g)) ->
  outline2 (atomically (record_withdraw (tk_tenant g) q)) g Q.
Proof.
  intros Eg Qo. apply outline_atomic. intros s l1 l2 Hi.
  destruct (excl_here _ _ _ _ Hi) as [[Hl Ho] (H1 & H2 & H3)]. destruct (H2 q Eg) as [Hq Hr].
  unfold record_withdraw, mbind, M_bind. rewrite now_eq. unfold modify. cbn [s_ledger set_reads].
  destruct (record_books (env_clock (s_reads s)) (tk_tenant g) q (s_ledger s) Hq Hl Hr) as [C1 C2].
  eexists. split; [|split; [|exact Qo]]; [done|]. eapply excl_step; [exact Hi|by split|split_and!; [done..|by intros; apply C2]|done|].
  by split_and!.
Qed.

(** ** The loops *)

Lemma excl_checks l : forall g (Q : error -> ticket -> Prop),
  (forall e g', Q (Err e) g') ->
  Q (Ok tt) (mkTicket (tk_owner g) (tk_tenant g) (tk_spend g) (tk_rooms g ++ l)) ->
  outline2 (for_each_prog (fun k a => atomically (check_out (tk_owner g) k a)) l) g Q.
Proof.
  induction l as [|[k a] l IH]; intros g Q Qe Qo; cbn [for_each_prog].
  - rewrite app_nil_r in Qo. by destruct g.
  - apply outline_bind, excl_check; [done|]. apply (IH (mkTicket _ _ _ _)); [done|]. cbn [tk_owner tk_tenant tk_spend tk_rooms].
    by rewrite <- app_assoc.
Qed.

Lemma excl_records l : forall g (Q : error -> ticket -> Prop),
  tk_rooms g = l -> NoDup l.*1 -> Q (Ok tt) (mkTicket (tk_owner g) (tk_tenant g) (tk_spend g) []) ->
  outline2 (for_each_prog (fun k a => atomically (record_out (tk_owner g) k a)) l) g Q.
Proof.
  induction l as [|[k a] l IH]; intros g Q Eg Hnd Qo; cbn [for_each_prog].
  - destruct g. cbn in *. by subst.
  - apply outline_bind. eapply excl_record; [exact Eg|by rewrite Eg|]. rewrite fmap_cons in Hnd. apply NoDup_cons in Hnd as [_ Hnd].
    by apply (IH (mkTicket _ _ _ _)).
Qed.

Lemma tick_keeps : keeps (fun s => (books s, registry s)) tick.
Proof. done. Qed.

Lemma excl_range_checks m g (Q : error -> ticket -> Prop) :
  tk_rooms g = [] -> (forall e g', Q (Err e) g') ->
  (forall l, l ≡ₚ map_to_list m -> Q (Ok tt) (mkTicket (tk_owner g) (tk_tenant g) (tk_spend g) l)) ->
  outline2 (range_prog m (fun k a => atomically (check_out (tk_owner g) k a))) g Q.
Proof.
  intros Eg Qe Qo. apply outline_bind, excl_keeps; [apply tick_keeps|]. intros s _. cbn [tick fst].
  apply excl_checks; [done|]. rewrite Eg. apply Qo, range_perm.
Qed.

Lemma excl_range_records m g (Q : error -> ticket -> Prop) :
  tk_rooms g ≡ₚ map_to_list m -> Q (Ok tt) (mkTicket (tk_owner g) (tk_tenant g) (tk_spend g) []) ->
  outline2 (range_prog m (fun k a => atomically (record_out (tk_owner g) k a))) g Q.
Proof.
  intros Eg Qo. apply outline_bind, excl_restate; [apply tick_keeps|]. intros s (H1 & H2 & H3). cbn [tick fst].
  exists (mkTicket (tk_owner g) (tk_tenant g) (tk_spend g) (env_range (s_reads s) m)).
  split; [done|]. split.
  - split_and!; [done..|]. eapply rooms_perm; [|exact H3]. cbn [tk_rooms]. by rewrite range_perm.
  - by apply (excl_records _ (mkTicket _ _ _ _)); [|apply range_nodup|].
Qed.

Lemma excl_authorize ctx tool tc g (Q : result TenantPolicy -> ticket -> Prop) :
  TenantFrom ctx = Some tc -> tc_TenantID tc = tk_tenant g -> (forall e, Q (Err e) g) ->
  (forall tp, tp_TenantID tp = tk_tenant g -> tp_Owner tp = tk_owner g -> Q (Ok tp) g) ->
  outline2 (authorize_prog ctx tool) g Q.
Proof.
  intros Ht Hid Qe Qo. unfold authorize_prog. rewrite Ht, Hid.
  apply outline_bind, excl_keeps; [done|]. intros s1 _. case_match; [|done].
  apply outline_bind, excl_keeps; [done|]. intros s2 (Hb & _). rewrite policy_eq. cbn [fst].
  destruct (Tenant _ _ _) as [tp|e] eqn:Et; [|apply Qe]. apply Hb in Et as [? ?].
  apply outline_bind, excl_keeps; [intros s; by rewrite rate_allow_eq|]. intros s3 _. case_match; [|done].
  destruct (negb _); [apply Qe|by apply Qo].
Qed.

(** ** The handlers *)

Abbreviation anything := (fun _ _ => True).

Lemma quiet_keeps :
  (forall t c, keeps (fun s => (books s, registry s)) (claim t c))
  /\ (forall e, keeps (fun s => (books s, registry s)) (append_audit e))
  /\ (forall raw, keeps (fun s => (books s, registry s)) (broadcast_sync raw))
  /\ (forall c tx, keeps (fun s => (books s, registry s)) (evm_send c tx)).
Proof.
  split_and!; intros; intros s; try done.
  - unfold claim, mbind, M_bind. rewrite now_eq. unfold run_state. by destruct (Claim _ _ _ _).
  - unfold append_audit, mbind, M_bind. rewrite now_eq. unfold tick, ignore, run_state. by destruct (Append _ _ _ _).
Qed.

(** A withdraw is enforced, and recorded, only when there is one. *)
Lemma excl_if_enforce g q (Q : error -> ticket -> Prop) :
  0 <= q <= maxU64 -> (forall e, Q (Err e) g) ->
  (forall sp, (0 < q -> sp = Some q) -> Q (Ok tt) (mkTicket (tk_owner g) (tk_tenant g) sp (tk_rooms g))) ->
  outline2 (if 0 <? q then atomically (enforce_withdraw h (tk_tenant g) q) else mret tt) g Q.
Proof.
  intros Hq Qe Qo. destruct (Z.ltb_spec 0 q); [apply excl_enforce; [done..|]; by apply Qo|].
  apply outline_ret. specialize (Qo (tk_spend g)). destruct g. apply Qo. lia.
Qed.

Lemma excl_if_record (b : bool) g q (Q : error -> ticket -> Prop) :
  (0 < q -> tk_spend g = Some q) -> (forall sp, Q (Ok tt) (mkTicket (tk_owner g) (tk_tenant g) sp (tk_rooms g))) ->
  outline2 (if b && (0 <? q) then atomically (record_withdraw (tk_tenant g) q) else mret tt) g Q.
Proof.
  intros Hq Qo. destruct b; cbn [andb]; [destruct (Z.ltb_spec 0 q)|].
  1: by apply excl_record_withdraw; [apply Hq|].
  all: apply outline_ret; specialize (Qo (tk_spend g)); by destruct g.
Qed.

Ltac excl_pure := apply outline_bind, outline_lift; match goal with |- match ?r with _ => _ end => destruct r; [|done] end.
Ltac excl_quiet K := apply outline_bind, excl_keeps; [apply K|]; intros ? _; match goal with |- match ?r with _ => _ end => destruct r; [|done] end.

Lemma excl_signed ctx cid tx tc g :
  TenantFrom ctx = Some tc -> tc_TenantID tc = tk_tenant g -> tk_rooms g = [] ->
  outline2 (BroadcastSignedTx_prog h ctx cid tx) g anything.
Proof.
  intros Ht Hid Hg. destruct quiet_keeps as (Kc & Ka & Ks & _). unfold BroadcastSignedTx_prog.
  apply outline_bind. eapply excl_authorize; [exact Ht|exact Hid|done|]. intros tp Et Eo. rewrite Et, Eo.
  excl_quiet Kc. do 3 excl_pure. apply outline_bind, outline_lift.
  destruct (wrap _ _) as [q|] eqn:Hq; [|done]. apply wrap_ok, extract_range in Hq.
  apply outline_bind, excl_if_enforce; [done..|]. intros sp Hsp. excl_pure.
  apply outline_bind, (excl_range_checks _ (mkTicket _ _ _ _)); [done..|]. intros l Hl. cbn [tk_owner tk_tenant tk_spend].
  excl_quiet Ks. excl_quiet Ka. do 2 excl_pure.
  apply outline_bind, (excl_if_record _ (mkTicket _ _ _ _)); [done|]. intros sp'. cbn [tk_owner tk_tenant tk_rooms].
  apply outline_bind. destruct (br_Code _ =? 0); [|done]. by apply (excl_range_records _ (mkTicket _ _ _ _)).
Qed.

Lemma excl_evm ctx cid tx tc g :
  TenantFrom ctx = Some tc -> tc_TenantID tc = tk_tenant g -> tk_rooms g = [] ->
  outline2 (BroadcastEVMTx_prog h ctx cid tx) g anything.
Proof.
  intros Ht Hid Hg. destruct quiet_keeps as (Kc & Ka & _ & Ke). unfold BroadcastEVMTx_prog.
  apply outline_bind. eapply excl_authorize; [exact Ht|exact Hid|done|]. intros tp Et Eo. rewrite Et, Eo.
  excl_pure. excl_quiet Kc. do 5 excl_pure. cbv zeta. destruct (default _ _) as [router wsvp].
  apply outline_bind, excl_range_checks; [done..|]. intros l Hl.
  apply outline_bind, excl_keeps; [apply Ke|]. intros ? _. destruct (fst (evm_send _ _ _)) as [r|e]; [|done].
  destruct (match r with Ok _ => _ | Err _ => _ end) as [[txHash outcome] reason].
  excl_quiet Ka. excl_pure. apply outline_bind. by apply (excl_range_records _ (mkTicket _ _ _ _)).
Qed.

(** The requests: a broadcast of an owner and a tenant that have none in flight. *)
Definition exclusive (s : srv) (running : list (string * string)) (lb : string * string) (p : prog unit) : Prop :=
  fst lb ∉ running.*1 /\ snd lb ∉ running.*2 /\ belongs s (snd lb) (fst lb)
  /\ exists cid, broadcast_of h (snd lb) cid p.

(** Requests beside them that neither move funds nor log anybody in or out. *)
Definition harmless (s s' : srv) : Prop := books s' = books s /\ registry s' = registry s.

Lemma excl_start s gs lb p :
  exclusive s (map tk_label gs) lb p -> excl_inv s gs ->
  exists g, tk_label g = lb /\ excl_inv s (g :: gs) /\ outline2 p g anything.
Proof.
  intros (N1 & N2 & Hb & cid & ctx & tc & Ht & Hid & Hp) (Hs & D1 & D2 & Hf).
  assert ((map tk_label gs).*1 = map tk_owner gs /\ (map tk_label gs).*2 = map tk_tenant gs) as [F1 F2].
  { clear. split; induction gs as [|g gs IH]; [done|cbn in *; by rewrite <- IH|done|cbn in *; by rewrite <- IH]. }
  rewrite F1 in N1. rewrite F2 in N2.
  exists (mkTicket (fst lb) (snd lb) None []). split; [by destruct lb|]. split.
  - split_and!; [done|by constructor..|]. constructor; [|done]. split_and!; [done..|]. constructor.
  - destruct Hp as [(tx & ->)|(tx & ->)]; apply outline_bind;
      (eapply outline_mono; [|first [by eapply excl_signed|by eapply excl_evm]]); by intros [|].
Qed.

Lemma excl_hold s ts s' :
  safe h (books s) -> rtc (conc_step exclusive harmless) ([], s) (ts, s') -> safe h (books s').
Proof.
  intros Hs Hr.
  destruct (conc_invariant tk_label excl_inv exclusive harmless anything) with (s := s) (ts := ts) (s' := s')
    as (gs & _ & H & _); [exact excl_start| | | |exact Hr|exact H].
  - intros s1 l1 l2 g r _ (H1 & N1 & N2 & Hf). rewrite map_app in N1, N2. cbn in N1, N2.
    apply NoDup_app in N1 as (A1 & B1 & C1). apply NoDup_cons in C1 as [_ C1].
    apply NoDup_app in N2 as (A2 & B2 & C2). apply NoDup_cons in C2 as [_ C2].
    apply Forall_app in Hf as [F1 F2]. apply Forall_cons in F2 as [_ F2].
    split; [done|]. rewrite !map_app. split_and!; [| |by apply Forall_app]; apply NoDup_app; split_and!; try done.
    + intros x Hx Hx'. apply (B1 x Hx). by right.
    + intros x Hx Hx'. apply (B2 x Hx). by right.
  - intros s1 s2 gs [Eb Er] (H1 & N1 & N2 & Hf). split_and!; [by rewrite Eb|done..|].
    injection Eb as El Eo. eapply Forall_impl; [exact Hf|]. intros g (G1 & G2 & G3). unfold ticket_ok.
    rewrite El, Eo. split; [by eapply belongs_registry|done].
  - split_and!; [done|constructor..].
Qed.

End Exclusive.

(** ** Claims *)

(** C8: one broadcast at a time per owner is enough.  From a server within its
    caps, when a broadcast starts only while none of the same owner or the same
    tenant is in flight, the critical sections of all the broadcasts may be
    interleaved in any order, and with requests that leave the books and the
    tenants alone: on every UTC day every tenant's withdrawals stay within the
    daily cap and every owner's transfers out of a capped symbol within the
    symbol's cap. *)
Theorem concurrent_caps_hold {RL : RateLib} {E : Env} {EL : EnvLaws E} {L : ChainLib} (h : Handlers) (s s' : srv)
    (ts : list ((string * string) * prog unit))
    (Hr : rtc (conc_step (exclusive h) harmless) ([], s) (ts, s')) (Hs : safe h (books s)) :
  (forall l now t, s_ledger s' = Some l -> spent l now t <= ledger_cap l)
  /\ (forall o now ow k c b, s_out s' = Some o -> at2 (caps o) ow k = Some c -> CapBase c = Some b ->
        0 <= moved o now ow k <= b).
Proof.
  destruct (excl_hold h s ts s' Hs Hr) as [Hl Ho]. split.
  - intros l now t El. exact (proj2 (proj1 (Hl l El)) now t).
  - intros o now ow k c b Eo Hc Hb. exact (Ho o Eo ow k c b Hc Hb now).
Qed.

(** ** The race *)

(** Two broadcasts of the tenant of the demonstration server: both pass their
    checks before either records. *)
Definition demo_thread (cid : string) (tx : SignedTx) : prog (RL := demo_rate) unit :=
  _ ← BroadcastSignedTx_prog (E := demo_still) (L := demo_lib) demo_handlers demo_ctx cid tx; mret tt.
Definition demo_race (tx : SignedTx) : list (unit * prog unit) * srv :=
  sched (repeat 0%nat 6 ++ repeat 1%nat 6 ++ repeat 0%nat 12 ++ repeat 1%nat 12)
    ([(tt, demo_thread "c1" tx); (tt, demo_thread "c2" tx)], demo_live).

(** A withdrawal of 0.6 USDC, and a bank send of 600 asvp. *)
Definition demo_withdraw : SignedTx := mkSignedTx "NjAwMDAw" "" "".
Definition demo_send : SignedTx := mkSignedTx "czYwMA==" "" "".

Definition races (s : srv (RL := demo_rate)) (running : list unit) (lb : unit) (p : prog unit) : Prop :=
  exists cid, broadcast_of (RL := demo_rate) (E := demo_still) (L := demo_lib) demo_handlers "t1" cid p.

Lemma demo_race_steps tx : rtc (conc_step races harmless) ([], demo_live) (demo_race tx).
Proof.
  assert (forall cid, races demo_live [] tt (demo_thread cid tx)) as Hp.
  { intros cid. exists cid, demo_ctx, (mkTenantContext "t1" "svp1a"). split_and!; [done..|]. left. by exists tx. }
  eapply rtc_l; [apply (cs_start _ _ _ _ tt (demo_thread "c2" tx)); exact (Hp "c2"%string)|].
  eapply rtc_l; [apply (cs_start _ _ _ _ tt (demo_thread "c1" tx)); exact (Hp "c1"%string)|]. apply sched_steps.
Qed.

(** C27: two broadcasts of one tenant can exceed both caps.  The check and the
    record are two critical sections with the node between them: on a server
    within its caps, two withdrawals of 0.6 USDC interleaved this way spend 1.2
    USDC under a daily cap of 1 USDC, and two sends of 600 base units move 1200
    under a cap of 1000.  The condition of one broadcast in flight per owner
    cannot be dropped. *)
Theorem race_exceeds_cap :
  safe demo_handlers (books demo_live)
  /\ (exists ts s' l, rtc (conc_step races harmless) ([], demo_live) (ts, s')
       /\ s_ledger s' = Some l /\ ledger_cap l = 1000000 /\ spent l 7 "t1" = 1200000)
  /\ (exists ts s' o c, rtc (conc_step races harmless) ([], demo_live) (ts, s')
       /\ s_out s' = Some o /\ at2 (caps o) "svp1a" "svp" = Some c /\ CapBase c = Some 1000 /\ moved o 7 "svp1a" "svp" = 1200).
Proof.
  split; [exact demo_srv_safe|]. split.
  - exists (fst (demo_race demo_withdraw)), (snd (demo_race demo_withdraw)). eexists. rewrite <- surjective_pairing.
    split; [apply demo_race_steps|]. split; [vm_compute; reflexivity|]. split; vm_compute; reflexivity.
  - exists (fst (demo_race demo_send)), (snd (demo_race demo_send)). do 2 eexists. rewrite <- surjective_pairing.
    split; [apply demo_race_steps|]. split_and!; vm_compute; reflexivity.
Qed.

(** One withdrawal in flight. *)
Definition demo_alone : list ((string * string) * prog unit) * srv :=
  sched (repeat 0%nat 12) ([(("svp1a"%string, "t1"%string), demo_thread "c1" demo_withdraw)], demo_live).

Lemma concurrent_caps_hold_witness :
  exists l, s_ledger (snd demo_alone) = Some l /\ spent l 7 "t1" = 600000 /\ spent l 7 "t1" <= ledger_cap l.
Proof.
  destruct (s_ledger (snd demo_alone)) as [l|] eqn:El; [|vm_compute in El; discriminate]. exists l. split; [reflexivity|].
  split; [vm_compute in El; injection El as <-; vm_compute; reflexivity|].
  refine (proj1 (concurrent_caps_hold (RL := demo_rate) (EL := demo_still_laws) (L := demo_lib) demo_handlers demo_live
    (snd demo_alone) (fst demo_alone) _ demo_srv_safe) l 7 "t1"%string El).
  rewrite <- surjective_pairing. eapply rtc_l; [|apply sched_steps]. apply cs_start.
  split; [apply not_elem_of_nil|]. split; [apply not_elem_of_nil|]. split.
  - intros t tp H. cbn in H. injection H as <-. split; reflexivity.
  - exists "c1"%string, demo_ctx, (mkTenantContext "t1" "svp1a"). split; [reflexivity|]. split; [reflexivity|].
    left. by exists demo_withdraw.
Defined.
