(* ===== verification/ConcurrentAuth.v ===== *)
(** * Logins in flight at the same time

    The two tools of the handshake as programs of atomic actions, as [Concurrent]
    has the broadcasts: the nonce store, the tenant store and the session table
    have a lock each, and other requests run between.  What a nonce gives is
    conserved: of the tenants of an owner, the nonces issued to it and the
    requests that consumed one and have not minted yet, no order of the actions
    makes more. *)

From S2P Require Import Prelude GoStrings GoNum GoTime GoEncoding Limits TransferOut Challenge NonceStore IPRateLimiter.
From S2P Require Import SessionBearers DynamicTenants Policy Markets Units ChainLib Payload Assembler Assets.
From S2P Require Import TxInspect Server AuthTools Broadcast Tools Concurrent.

Section Handlers.
Context {RL : RateLib} {E : Env} {L : ChainLib} (chainID : string).

Definition AuthChallenge_prog (ctx : context) (owner : string) : prog AuthChallengeOutput :=
  ok ← atomically (ip_allow (IPFrom ctx));
  if negb ok then plift (Err (userErrf "rate limit exceeded" []))
  else if String.eqb owner "" then plift (Err (Errorf "owner is required" []))
  else
    '(nonce, exp) ← atomically (wrapM (fun e => Errorf "issue nonce: %w" [FErr e]) (issue owner));
    mret (mkAuthChallengeOutput (BuildChallenge chainID nonce exp) nonce (Unix exp)).

Definition AuthVerify_prog (ctx : context) (nonce signature : string) : prog AuthVerifyOutput :=
  '(boundOwner, expiresAt) ← atomically (wrapM consume_error (consume nonce));
  sig ← plift (wrap (fun e => Errorf "decode signature base64: %w" [FErr e]) (Base64Decode signature));
  let challenge := BuildChallenge chainID nonce expiresAt in
  recovered ← plift (wrap (fun e => Errorf "recover address from signature: %w" [FErr e]) (RecoverOwner challenge sig));
  if negb (String.eqb recovered boundOwner) then
    plift (Err (Errorf "recovered address does not match the owner this nonce was issued to" []))
  else
    '(bearer, _, exp) ← atomically (wrapM (fun e => Errorf "mint tenant: %w" [FErr e]) (mint boundOwner));
    _ ← atomically (bind_session (SessionIDFrom ctx) bearer);
    mret (mkAuthVerifyOutput bearer boundOwner (Unix exp)).

Lemma runs_challenge ctx owner : runs (AuthChallenge_prog ctx owner) (AuthChallenge chainID ctx owner).
Proof. unfold AuthChallenge_prog, AuthChallenge. repeat runs_step. Qed.

Lemma runs_verify ctx nonce signature : runs (AuthVerify_prog ctx nonce signature) (AuthVerify chainID ctx nonce signature).
Proof. unfold AuthVerify_prog, AuthVerify. repeat runs_step. Qed.

End Handlers.

(** ** Counting *)

(** How many entries of a map are an owner's. *)
Definition count {A} (f : A -> string) (ow : string) (m : gmap string A) : nat := size (filter (fun kv => f kv.2 = ow) m).

Definition nonces_of (ow : string) (ns : NonceStore) : nat := count ne_owner ow (ns_entries ns).
Definition tenants_of (ow : string) (ts : DynamicTenantStore) : nat := count tr_Owner ow (dt_byTenant ts).

Section Count.
Context {A : Type} (f : A -> string) (ow : string).

Lemma count_delete_le (m : gmap string A) k : (count f ow (delete k m) <= count f ow m)%nat.
Proof. unfold count. rewrite map_filter_delete. apply map_subseteq_size, delete_subseteq. Qed.

Lemma count_delete (m : gmap string A) k x :
  m !! k = Some x -> f x = ow -> count f ow m = S (count f ow (delete k m)).
Proof.
  intros Hk Hx. unfold count. rewrite map_filter_delete.
  assert (filter (fun kv => f kv.2 = ow) m !! k = Some x) as Hf by (by apply map_lookup_filter_Some_2).
  rewrite map_size_delete, Hf. pose proof (map_size_ne_0_lookup_2 _ _ (ex_intro _ x Hf)). lia.
Qed.

Lemma count_insert_le (m : gmap string A) k x : (count f ow (<[k := x]> m) <= S (count f ow m))%nat.
Proof.
  unfold count. rewrite map_filter_insert. destruct (decide _).
  - rewrite map_size_insert. destruct (_ !! k); cbn [id]; lia.
  - rewrite map_filter_delete. pose proof (map_subseteq_size _ _ (delete_subseteq (filter (fun kv => f kv.2 = ow) m) k)). lia.
Qed.

Lemma count_insert_other (m : gmap string A) k x : f x <> ow -> (count f ow (<[k := x]> m) <= count f ow m)%nat.
Proof.
  intros Hx. unfold count. rewrite map_filter_insert_False by done. rewrite map_filter_delete.
  apply map_subseteq_size, delete_subseteq.
Qed.

End Count.

(** ** Conservation *)

Section Conserve.
Context {RL : RateLib} {E : Env} {L : ChainLib} (chainID ow : string) (n0 : nat).

(** The ghost of a thread is 1 while it holds a nonce of the owner it consumed. *)
Definition login_inv (s : srv) (gs : list nat) : Prop :=
  (tenants_of ow (s_tenants s) + nonces_of ow (s_nonces s) + sum_list gs <= n0)%nat.

Abbreviation outline3 := (outline (fun _ : nat => tt) login_inv).

(** An action changes the two counts and what the thread holds. *)
Lemma login_action {A} (m : M srv A) g (Q : result A -> nat -> Prop) :
  (forall s, exists g', Q (fst (m s)) g' /\
     (tenants_of ow (s_tenants (snd (m s))) + nonces_of ow (s_nonces (snd (m s))) + g'
      <= tenants_of ow (s_tenants s) + nonces_of ow (s_nonces s) + g)%nat) ->
  outline3 (atomically m) g Q.
Proof.
  intros H. apply outline_atomic. intros s l1 l2 Hi. destruct (H s) as (g' & HQ & Hle).
  destruct (m s) as [r s']. cbn [fst snd] in *. exists g'. split_and!; [done| |done].
  unfold login_inv in *. rewrite sum_list_with_app in *. cbn in *. lia.
Qed.

(** One that touches neither store. *)
Lemma login_quiet {A} (m : M srv A) g (Q : result A -> nat -> Prop) :
  keeps (fun s => (s_tenants s, s_nonces s)) m -> (forall r, Q r g) -> outline3 (atomically m) g Q.
Proof.
  intros Hk HQ. apply login_action. intros s. exists g. split; [apply HQ|]. specialize (Hk s). injection Hk as -> ->. lia.
Qed.

Lemma login_consume nonce (Q : result (string * Time) -> nat -> Prop) :
  (forall e, Q (Err e) 0%nat) ->
  (forall o t, Q (Ok (o, t)) (if String.eqb o ow then 1 else 0)%nat) ->
  outline3 (atomically (wrapM consume_error (consume nonce))) 0%nat Q.
Proof.
  intros Qe Qo. apply login_action. intros s. unfold wrapM, consume, mbind, M_bind. rewrite now_eq. unfold run_state.
  cbn [s_nonces set_reads]. unfold Consume.
  destruct (ns_entries (s_nonces s) !! nonce) as [e|] eqn:He; cbn [fst snd wrap];
    [|exists 0%nat; split; [apply Qe|cbn [s_tenants s_nonces set_nonces set_reads]; lia]].
  pose proof (count_delete_le ne_owner ow (ns_entries (s_nonces s)) nonce) as Hd.
  destruct (negb (Before _ _)); cbn [fst snd wrap].
  - exists 0%nat. split; [apply Qe|]. unfold nonces_of. cbn [s_tenants s_nonces set_nonces set_reads ns_entries]. lia.
  - eexists. split; [apply Qo|]. unfold nonces_of. cbn [s_tenants s_nonces set_nonces set_reads ns_entries].
    destruct (String.eqb_spec (ne_owner e) ow) as [Ho|_]; [|lia]. pose proof (count_delete ne_owner ow _ _ _ He Ho). lia.
Qed.

Lemma login_mint o (Q : result (string * string * Time) -> nat -> Prop) :
  (forall r, Q r 0%nat) ->
  outline3 (atomically (wrapM (fun e => Errorf "mint tenant: %w" [FErr e]) (mint o))) (if String.eqb o ow then 1 else 0)%nat Q.
Proof.
  intros HQ. apply login_action. intros s. exists 0%nat. split; [apply HQ|].
  unfold wrapM, mint, mbind, M_bind, tick. rewrite now_eq. unfold run_state. cbn [s_tenants s_reads set_reads].
  unfold Mint. destruct (String.eqb o "");
    [cbn [fst snd s_tenants s_nonces set_tenants set_reads]; lia|].
  destruct (env_rand (s_reads s)); [|cbn [fst snd s_tenants s_nonces set_tenants set_reads]; lia].
  destruct (env_rand _) as [tb|]; [|cbn [fst snd s_tenants s_nonces set_tenants set_reads]; lia].
  unfold tenants_of. cbn [fst snd s_tenants s_nonces set_tenants set_reads with_maps dt_byTenant].
  match goal with |- context [<[?k := ?x]> ?m] =>
    pose proof (count_insert_le tr_Owner ow m k x); pose proof (count_insert_other tr_Owner ow m k x) as Ho end.
  cbn [tr_Owner] in Ho. destruct (String.eqb_spec o ow); [lia|]. specialize (Ho ltac:(done)). lia.
Qed.

Lemma login_issue o (Q : result (string * Time) -> nat -> Prop) :
  o <> ow -> (forall r, Q r 0%nat) ->
  outline3 (atomically (wrapM (fun e => Errorf "issue nonce: %w" [FErr e]) (issue o))) 0%nat Q.
Proof.
  intros Hne HQ. apply login_action. intros s. exists 0%nat. split; [apply HQ|].
  unfold wrapM, issue, mbind, M_bind, tick. rewrite now_eq. unfold run_state. cbn [s_nonces s_reads set_reads].
  unfold Issue. destruct (String.eqb o ""); [cbn [fst snd s_tenants s_nonces set_nonces set_reads]; lia|].
  destruct (env_rand (s_reads s)); [|cbn [fst snd s_tenants s_nonces set_nonces set_reads]; lia].
  unfold nonces_of. cbn [fst snd s_tenants s_nonces set_nonces set_reads ns_entries].
  match goal with |- context [<[?k := ?x]> ?m] => pose proof (count_insert_other ne_owner ow m k x Hne) end. lia.
Qed.

Lemma verify_conserves ctx nonce signature : outline3 (AuthVerify_prog chainID ctx nonce signature) 0%nat (fun _ _ => True).
Proof.
  unfold AuthVerify_prog. apply outline_bind, login_consume; [done|]. intros o t.
  do 2 (apply outline_bind, outline_lift; match goal with |- match ?r with _ => _ end => destruct r; [|done] end).
  destruct (negb _); [done|]. apply outline_bind, login_mint. intros [[[b i] exp]|e]; [|done].
  apply outline_bind, login_quiet; [done|]. by intros [|].
Qed.

Lemma challenge_conserves ctx o : o <> ow -> outline3 (AuthChallenge_prog chainID ctx o) 0%nat (fun _ _ => True).
Proof.
  intros Hne. unfold AuthChallenge_prog. apply outline_bind, login_quiet.
  { intros s. unfold ip_allow, mbind, M_bind. rewrite now_eq. unfold run_state. by destruct (Allow _ _ _). }
  intros [ok|e]; [|done]. destruct (negb ok); [done|]. destruct (String.eqb o ""); [done|].
  apply outline_bind, login_issue; [done|]. by intros [[nonce exp]|e].
Qed.

(** The requests: logins with any nonce and signature, and challenges for the
    other owners. *)
Definition logins (s : srv) (running : list unit) (lb : unit) (p : prog unit) : Prop :=
  (exists ctx nonce signature, p = (_ ← AuthVerify_prog chainID ctx nonce signature; mret tt))
  \/ exists ctx o, o <> ow /\ p = (_ ← AuthChallenge_prog chainID ctx o; mret tt).

(** Requests and sweeps beside them that neither issue a nonce to the owner nor
    mint a tenant for it. *)
Definition elsewhere (s s' : srv) : Prop :=
  (nonces_of ow (s_nonces s') <= nonces_of ow (s_nonces s) /\ tenants_of ow (s_tenants s') <= tenants_of ow (s_tenants s))%nat.

Lemma logins_conserve s ts s' :
  (n0 = tenants_of ow (s_tenants s) + nonces_of ow (s_nonces s))%nat ->
  rtc (conc_step logins elsewhere) ([], s) (ts, s') -> (tenants_of ow (s_tenants s') + nonces_of ow (s_nonces s') <= n0)%nat.
Proof.
  intros Hn Hr.
  destruct (conc_invariant (fun _ : nat => tt) login_inv logins elsewhere (fun _ _ => True)) with (s := s) (ts := ts) (s' := s')
    as (gs & _ & H).
  - intros s1 gs [] p Hp Hi. exists 0%nat. split_and!; [done|exact Hi|].
    destruct Hp as [(ctx & nonce & sg & ->)|(ctx & o & Hne & ->)]; apply outline_bind;
      (eapply outline_mono; [|first [apply verify_conserves|by apply challenge_conserves]]; by intros [|]).
  - intros s1 l1 l2 g r _ Hi. unfold login_inv in *. rewrite sum_list_with_app in *. cbn in *. lia.
  - intros s1 s2 gs [H1 H2] Hi. unfold login_inv in *. lia.
  - unfold login_inv. cbn. lia.
  - exact Hr.
  - unfold login_inv in H. lia.
Qed.

End Conserve.

(** ** Claims *)

(** C14: a nonce logs in once, however the requests race.  Any number of
    auth_verify requests with any nonces and signatures, with challenges for other
    owners, their critical sections interleaved in any order among themselves and
    with requests and sweeps that do nothing for the owner, give the owner at most
    as many new tenants as it had nonces outstanding: two requests cannot spend
    one nonce, and without a challenge there is no login. *)
Theorem logins_conserved {RL : RateLib} {E : Env} {L : ChainLib} (chainID ow : string) (s s' : srv)
    (ts : list (unit * prog unit)) (Hr : rtc (conc_step (logins chainID ow) (elsewhere ow)) ([], s) (ts, s')) :
  (tenants_of ow (s_tenants s') <= tenants_of ow (s_tenants s) + nonces_of ow (s_nonces s))%nat.
Proof.
  pose proof (logins_conserve chainID ow (tenants_of ow (s_tenants s) + nonces_of ow (s_nonces s)) s ts s' eq_refl Hr). lia.
Qed.

(** A challenge, then two logins with its nonce and a valid signature, the second
    overtaking the first after the nonce is consumed. *)
Definition demo_waiting : srv (RL := demo_rate) := snd demo_challenged.
Definition demo_login : prog (RL := demo_rate) unit :=
  _ ← AuthVerify_prog (E := demo_env) (L := demo_lib) "svp-2517-1" background "01" demo_sig; mret tt.
Definition demo_logins : list (unit * prog unit) * srv :=
  sched [0; 1; 0; 1; 0; 1; 0]%nat ([(tt, demo_login); (tt, demo_login)], demo_waiting).

Example demo_logins_value :
  map snd (fst demo_logins) = [Return (Ok tt); Return (Err (Errorf "nonce not found or already used" []))]
  /\ tenants_of "svp1a" (s_tenants (snd demo_logins)) = 1%nat /\ nonces_of "svp1a" (s_nonces demo_waiting) = 1%nat.
Proof. split_and!; vm_compute; reflexivity. Qed.

Lemma logins_conserved_witness :
  (tenants_of "svp1a" (s_tenants (snd demo_logins))
   <= tenants_of "svp1a" (s_tenants demo_waiting) + nonces_of "svp1a" (s_nonces demo_waiting))%nat.
Proof.
  apply (logins_conserved (RL := demo_rate) (E := demo_env) (L := demo_lib) "svp-2517-1" "svp1a" demo_waiting
    (snd demo_logins) (fst demo_logins)).
  assert (logins (RL := demo_rate) (E := demo_env) (L := demo_lib) "svp-2517-1" "svp1a" demo_waiting [] tt demo_login) as Hp
    by (left; exists background, "01"%string, demo_sig; reflexivity).
  rewrite <- surjective_pairing. unfold demo_logins.
  eapply rtc_l; [apply (cs_start _ _ _ _ tt demo_login); exact Hp|].
  eapply rtc_l; [apply (cs_start _ _ _ _ tt demo_login); exact Hp|]. apply sched_steps.
Defined.
