(* ===== verification/ChainClients.v ===== *)
(** * The node clients (chain/account.go, broadcast.go, clob_query.go, perpetuals_query.go, evm.go, cometbft.go)

    The thin clients over gRPC, the EVM JSON-RPC and CometBFT's RPC.  The calls
    of the generated and third-party clients are the class [Nodes]; the functions
    here are the answers the environment of the handlers gives when it is made of
    such nodes ([node_env], [node_status], [node_client]). *)

From S2P Require Import Prelude GoStrings GoNum GoTime GoEncoding Limits TransferOut NonceStore IPRateLimiter.
From S2P Require Import SessionBearers DynamicTenants Policy Markets Units ChainLib Payload Assembler Assets.
From S2P Require Import TxInspect EVMBuilder Server Broadcast Tools.

Class Nodes : Type := {
  Any : Type;
  auth_Account : nat -> string -> result Any;                 (* auth.Query/Account *)
  UnpackAccount : Any -> result (Z * Z);                      (* UnpackAny into AccountI: number, sequence *)
  tx_BroadcastSync : nat -> bytes -> result BroadcastResult;  (* BroadcastTx with BROADCAST_MODE_SYNC *)
  clob_ClobPairAll : nat -> result (list ClobPair);
  perp_AllPerpetuals : nat -> result (list Perpetual);
  eth_PendingNonceAt : nat -> Z -> Address -> result Z;
  eth_EstimateGas : nat -> Z -> CallMsg -> result Z;
  eth_SuggestGasTipCap : nat -> Z -> result Z;
  eth_ChainID : nat -> Z -> result Z;
  eth_BlockNumber : nat -> Z -> result Z;
  eth_CallContract : nat -> Z -> Address -> bytes -> result bytes;         (* at the latest block: a nil number *)
  eth_TransactionReceipt : nat -> Z -> string -> result (option Receipt);  (* None: ethereum.NotFound *)
  eth_HeaderBaseFee : nat -> Z -> result (option Z);          (* BaseFee of HeaderByNumber(nil), may be nil *)
  eth_SendTransaction : nat -> Z -> EthTx -> result unit;
  EthTx_Hash : EthTx -> string;                               (* Hash().Hex() *)
  comet_Tx : nat -> bytes -> result (Z * Z * string);         (* height, code, log *)
}.

Section Clients.
Context {NO : Nodes}.

Definition Account (n : nat) (address : string) : result (Z * Z) :=
  resp ← wrap (fun e => Errorf "auth.Query/Account %s: %w" [FStr address; FErr e]) (auth_Account n address);
  wrap (fun e => Errorf "unpack account %s: %w" [FStr address; FErr e]) (UnpackAccount resp).

Definition BroadcastSync (n : nat) (txBytes : bytes) : result BroadcastResult :=
  wrap (fun e => Errorf "Tx.Service/BroadcastTx: %w" [FErr e]) (tx_BroadcastSync n txBytes).

Definition ClobPairAll (n : nat) : result (list ClobPair) :=
  wrap (fun e => Errorf "clob.Query/ClobPairAll: %w" [FErr e]) (clob_ClobPairAll n).

Definition AllPerpetuals (n : nat) : result (list Perpetual) :=
  wrap (fun e => Errorf "perpetuals.Query/AllPerpetuals: %w" [FErr e]) (perp_AllPerpetuals n).

Definition PendingNonceAt (n : nat) (node : Z) (account : Address) : result Z := eth_PendingNonceAt n node account.
Definition EstimateGas (n : nat) (node : Z) (msg : CallMsg) : result Z := eth_EstimateGas n node msg.
Definition SuggestGasTipCap (n : nat) (node : Z) : result Z := eth_SuggestGasTipCap n node.
Definition client_ChainID (n : nat) (node : Z) : result Z := eth_ChainID n node.
Definition BlockNumber (n : nat) (node : Z) : result Z := eth_BlockNumber n node.
Definition CallContract (n : nat) (node : Z) (to : Address) (data : bytes) : result bytes := eth_CallContract n node to data.
Definition TransactionReceipt (n : nat) (node : Z) (txHash : string) : result (option Receipt) := eth_TransactionReceipt n node txHash.

Definition BaseFee (n : nat) (node : Z) : result Z :=
  head ← wrap (fun e => Errorf "header by number: %w" [FErr e]) (eth_HeaderBaseFee n node);
  from_opt head (Errorf "latest block has no base fee (pre-EIP-1559 chain?)" []).

Definition SendTransaction (n : nat) (node : Z) (tx : EthTx) : result string :=
  _ ← eth_SendTransaction n node tx;
  Ok (EthTx_Hash tx).

Definition client_TxStatus (n : nat) (txHash : string) : result TxStatus :=
  hashBytes ← from_opt (HexDecode txHash) (Errorf "invalid tx hash %q: %w" [FStr txHash; FErr (ErrNew "encoding/hex: invalid input")]);
  resp ← wrap (fun e => Errorf "cometbft Tx %s: %w" [FStr txHash; FErr e]) (comet_Tx n hashBytes);
  let '(height, c, log) := resp in
  Ok (mkTxStatus txHash height c log).

(** ** The environment of the handlers, made of nodes *)

Definition node_env (E : Env) : Env := {|
  env_clock := @env_clock E; env_rand := @env_rand E; env_io := @env_io E; env_write := @env_write E;
  env_range := @env_range E;
  env_account := Account;
  env_broadcast := BroadcastSync;
  env_evm_send := SendTransaction;
  env_error_text := @env_error_text E |}.

Definition node_status : StatusEnv := {| env_tx_status := client_TxStatus; env_receipt := TransactionReceipt |}.

(** What the assembler is handed for a node. *)
Definition node_client (n : nat) (node : Z) : EVMClient :=
  mkEVMClient (client_ChainID n node) (PendingNonceAt n node) (SuggestGasTipCap n node) (BaseFee n node) (EstimateGas n node).

(** The queries of a market refresh. *)
Definition node_refresh (n : nat) : M Cache unit := Refresh (ClobPairAll n) (AllPerpetuals (S n)).

(** ** What the clients relay *)

Lemma Account_ok n a r : Account n a = Ok r <-> exists any, auth_Account n a = Ok any /\ UnpackAccount any = Ok r.
Proof.
  unfold Account. destruct (auth_Account n a) as [any|e]; cbn [wrap mbind result_bind]; [|by split; [|intros (? & ? & _)]].
  split; [intros H%wrap_ok; by exists any|]. intros (any' & [= <-] & H). by rewrite H.
Qed.

(** A base fee comes from a header that has one. *)
Lemma BaseFee_ok n node f : BaseFee n node = Ok f <-> eth_HeaderBaseFee n node = Ok (Some f).
Proof.
  unfold BaseFee. destruct (eth_HeaderBaseFee n node) as [[x|]|e]; cbn [wrap mbind result_bind from_opt]; split; congruence.
Qed.

(** A status is of the transaction asked for, and a text that is no hash asks the
    node nothing. *)
Lemma TxStatus_ok n h st :
  client_TxStatus n h = Ok st ->
  ts_TxHash st = h /\ exists b, HexDecode h = Some b /\ comet_Tx n b = Ok (ts_Height st, ts_Code st, ts_RawLog st).
Proof.
  unfold client_TxStatus. destruct (HexDecode h) as [b|]; cbn [from_opt mbind result_bind]; [|done].
  destruct (comet_Tx n b) as [[[x y] z]|e] eqn:Ec; cbn [wrap mbind result_bind]; [|done]. intros [= <-].
  split; [done|]. by exists b.
Qed.

(** The hash returned for a sent transaction is its own, and only a node that
    took it returns one. *)
Lemma SendTransaction_ok n node tx h :
  SendTransaction n node tx = Ok h <-> eth_SendTransaction n node tx = Ok tt /\ h = EthTx_Hash tx.
Proof.
  unfold SendTransaction. destruct (eth_SendTransaction n node tx) as [[]|e]; cbn [mbind result_bind]; split;
    [by intros [= <-]|by intros [_ ->]|done|by intros [? _]].
Qed.

End Clients.
