(* ===== verification/Support.v ===== *)
(** * Codec, logging, metrics (mcpcodec/codec.go, logging/logging.go, metrics/metrics.go)

    The encoding configuration is built once, when the package is initialised, by
    registering types with registries of the SDK.  The registries are shared: the
    codec and the transaction configuration hold the registry that is filled
    after they were made, and the process-wide amino codec is replaced by the one
    built here.  So they are locations of a store, and a panic is an error.  What
    the packages of the chain register is an argument.  Loggers and telemetry are
    what is written to them. *)

From S2P Require Import Prelude GoStrings.

(** ** The packages of the SDK and the chain *)

Class CodecLib : Type := {
  Bech32PrefixAccAddr : string;
  Bech32PrefixValAddr : string;
  ethPubKeyName : string;
  ethPrivKeyName : string;
  std_amino : gset string -> result (gset string);         (* std.RegisterLegacyAminoCodec *)
  std_interfaces : gset string -> result (gset string);    (* std.RegisterInterfaces *)
  module_interfaces : gset string -> result (gset string); (* ModuleBasics.RegisterInterfaces *)
  evm_interfaces : gset string -> result (gset string);    (* evmcryptocodec.RegisterInterfaces *)
  registry_error : string -> string -> option goerr;       (* what NewInterfaceRegistry fails with *)
}.

(** A registration only adds; [adds] are the type names it is for. *)
Class CodecLaws (C : CodecLib) (adds : gset string) : Prop := {
  amino_grows r r' : std_amino r = Ok r' -> r ⊆ r';
  std_grows r r' : std_interfaces r = Ok r' -> r ⊆ r';
  module_grows r r' : module_interfaces r = Ok r' -> r ⊆ r';
  evm_grows r r' : evm_interfaces r = Ok r' -> r ⊆ r';
  all_added r1 r2 r3 r4 : std_interfaces r1 = Ok r2 -> module_interfaces r2 = Ok r3 -> evm_interfaces r3 = Ok r4 -> adds ⊆ r4;
}.

Record Sdk : Type := mkSdk {
  sdk_prefixes : option (string * string);     (* the global bech32 configuration *)
  sdk_registries : list (gset string);         (* the interface registries, by location *)
  sdk_aminos : list (gset string);             (* the amino codecs, by location *)
  sdk_legacy : option nat;                     (* legacy.Cdc *)
}.

Record EncodingConfig : Type := mkEncodingConfig {
  ec_InterfaceRegistry : nat;
  ec_Codec : nat;                              (* the registry it unpacks with *)
  ec_TxConfig : nat;                           (* the registry its codec unpacks with *)
  ec_Amino : nat;
}.

Section Codec.
Context {C : CodecLib}.

Definition NewLegacyAmino : M Sdk nat := fun s =>
  (Ok (List.length (sdk_aminos s)), mkSdk (sdk_prefixes s) (sdk_registries s) (sdk_aminos s ++ [∅]) (sdk_legacy s)).

Definition SetAddressPrefixes : M Sdk unit := fun s =>
  (Ok tt, mkSdk (Some (Bech32PrefixAccAddr, Bech32PrefixValAddr)) (sdk_registries s) (sdk_aminos s) (sdk_legacy s)).

Definition NewInterfaceRegistry (acc val : string) : M Sdk nat := fun s =>
  match registry_error acc val with
  | Some e => (Err e, s)
  | None => (Ok (List.length (sdk_registries s)), mkSdk (sdk_prefixes s) (sdk_registries s ++ [∅]) (sdk_aminos s) (sdk_legacy s))
  end.

(** A registration with the registry, or the amino codec, at a location. *)
Definition on_registry (r : nat) (f : gset string -> result (gset string)) : M Sdk unit := fun s =>
  match f (default ∅ (sdk_registries s !! r)) with
  | Ok x => (Ok tt, mkSdk (sdk_prefixes s) (<[r := x]> (sdk_registries s)) (sdk_aminos s) (sdk_legacy s))
  | Err e => (Err e, s)
  end.
Definition on_amino (a : nat) (f : gset string -> result (gset string)) : M Sdk unit := fun s =>
  match f (default ∅ (sdk_aminos s !! a)) with
  | Ok x => (Ok tt, mkSdk (sdk_prefixes s) (sdk_registries s) (<[a := x]> (sdk_aminos s)) (sdk_legacy s))
  | Err e => (Err e, s)
  end.

(** [Amino.RegisterConcrete] panics when the name is taken. *)
Definition RegisterConcrete (name : string) (r : gset string) : result (gset string) :=
  if bool_decide (name ∈ r) then Err (Errorf "TypeInfo already exists for %v" [FStr name]) else Ok ({[name]} ∪ r).

Definition set_legacy (a : nat) : M Sdk unit := fun s =>
  (Ok tt, mkSdk (sdk_prefixes s) (sdk_registries s) (sdk_aminos s) (Some a)).

Definition makeEncodingConfig : M Sdk EncodingConfig :=
  amino ← NewLegacyAmino;
  _ ← SetAddressPrefixes;
  interfaceRegistry ← NewInterfaceRegistry Bech32PrefixAccAddr Bech32PrefixValAddr;
  let cdc := interfaceRegistry in
  let txCfg := cdc in
  mret (mkEncodingConfig interfaceRegistry cdc txCfg amino).

Definition initEncodingConfig : M Sdk EncodingConfig :=
  encConfig ← makeEncodingConfig;
  _ ← on_amino (ec_Amino encConfig) std_amino;
  _ ← on_registry (ec_InterfaceRegistry encConfig) std_interfaces;
  _ ← on_registry (ec_InterfaceRegistry encConfig) module_interfaces;
  _ ← on_registry (ec_InterfaceRegistry encConfig) evm_interfaces;
  _ ← on_amino (ec_Amino encConfig) (RegisterConcrete ethPubKeyName);
  _ ← on_amino (ec_Amino encConfig) (RegisterConcrete ethPrivKeyName);
  _ ← set_legacy (ec_Amino encConfig);
  mret encConfig.

(** [encodingConfig], the package variable: what initialisation left. *)
Definition GetEncodingConfig (encodingConfig : EncodingConfig) : EncodingConfig := encodingConfig.

(** Whether a codec that unpacks with the registry at [r] knows a type. *)
Definition resolves (s : Sdk) (r : nat) (url : string) : Prop := exists x, sdk_registries s !! r = Some x /\ url ∈ x.

(** The next registration, with the contents of its location. *)
Ltac at_location f H :=
  unfold f at 1; cbn [sdk_aminos sdk_registries sdk_prefixes sdk_legacy]; rewrite (proj1 (H _)); cbn [default from_option id].

(** When initialisation succeeds: the registry and amino codec it filled. *)
Lemma init_inv s ec s' :
  initEncodingConfig s = (Ok ec, s') ->
  exists a r1 r2 r3, std_amino ∅ = Ok a /\ std_interfaces ∅ = Ok r1 /\ module_interfaces r1 = Ok r2 /\ evm_interfaces r2 = Ok r3
  /\ ec = mkEncodingConfig (List.length (sdk_registries s)) (List.length (sdk_registries s)) (List.length (sdk_registries s)) (List.length (sdk_aminos s))
  /\ ethPubKeyName ∉ a /\ ethPrivKeyName ∉ ({[ethPubKeyName]} ∪ a)
  /\ s' = mkSdk (Some (Bech32PrefixAccAddr, Bech32PrefixValAddr)) (sdk_registries s ++ [r3])
            (sdk_aminos s ++ [{[ethPrivKeyName]} ∪ ({[ethPubKeyName]} ∪ a)]) (Some (List.length (sdk_aminos s))).
Proof.
  unfold initEncodingConfig, makeEncodingConfig, NewLegacyAmino, SetAddressPrefixes, NewInterfaceRegistry, mbind, M_bind.
  destruct (registry_error _ _); [done|]. cbn [mret M_ret sdk_registries sdk_aminos sdk_prefixes sdk_legacy ec_Amino ec_InterfaceRegistry].
  set (n := List.length (sdk_registries s)). set (m := List.length (sdk_aminos s)).
  assert (forall x : gset string, (sdk_registries s ++ [x]) !! n = Some x /\ forall y, <[n := y]> (sdk_registries s ++ [x]) = sdk_registries s ++ [y]) as Hr.
  { intros x. split; [by rewrite lookup_app_r, Nat.sub_diag by done|]. intros y. by rewrite insert_app_r_alt, Nat.sub_diag by done. }
  assert (forall x : gset string, (sdk_aminos s ++ [x]) !! m = Some x /\ forall y, <[m := y]> (sdk_aminos s ++ [x]) = sdk_aminos s ++ [y]) as Ha.
  { intros x. split; [by rewrite lookup_app_r, Nat.sub_diag by done|]. intros y. by rewrite insert_app_r_alt, Nat.sub_diag by done. }
  at_location on_amino Ha.
  destruct (std_amino ∅) as [a|] eqn:Ea; [|done]. rewrite (proj2 (Ha _)).
  at_location on_registry Hr.
  destruct (std_interfaces ∅) as [r1|] eqn:E1; [|done]. rewrite (proj2 (Hr _)).
  at_location on_registry Hr.
  destruct (module_interfaces r1) as [r2|] eqn:E2; [|done]. rewrite (proj2 (Hr _)).
  at_location on_registry Hr.
  destruct (evm_interfaces r2) as [r3|] eqn:E3; [|done]. rewrite (proj2 (Hr _)).
  at_location on_amino Ha.
  unfold RegisterConcrete at 1. destruct (bool_decide_reflect (ethPubKeyName ∈ a)); [done|]. rewrite (proj2 (Ha _)).
  at_location on_amino Ha.
  unfold RegisterConcrete at 1. destruct (bool_decide_reflect (ethPrivKeyName ∈ {[ethPubKeyName]} ∪ a)); [done|]. rewrite (proj2 (Ha _)).
  unfold set_legacy. cbn [sdk_aminos sdk_registries sdk_prefixes sdk_legacy]. intros [= <- <-]. exists a, r1, r2, r3. by split_and!.
Qed.

(** The package variable is ready for use when initialisation returns: the codec
    and the transaction configuration, made before the registrations, know every
    type registered after; the amino codec the process uses from then on is this
    one, and knows both Ethereum key types; the address prefixes are set. *)
Lemma codec_ready adds s ec s' :
  CodecLaws C adds -> initEncodingConfig s = (Ok ec, s') ->
  (forall url, url ∈ adds -> resolves s' (ec_Codec ec) url /\ resolves s' (ec_TxConfig ec) url)
  /\ sdk_legacy s' = Some (ec_Amino ec)
  /\ (exists a, sdk_aminos s' !! ec_Amino ec = Some a /\ ethPubKeyName ∈ a /\ ethPrivKeyName ∈ a)
  /\ sdk_prefixes s' = Some (Bech32PrefixAccAddr, Bech32PrefixValAddr)
  /\ (forall r x, sdk_registries s !! r = Some x -> sdk_registries s' !! r = Some x).
Proof.
  intros HL (a & r1 & r2 & r3 & _ & H1 & H2 & H3 & -> & _ & _ & ->)%init_inv. unfold resolves.
  cbn [ec_Codec ec_TxConfig ec_Amino sdk_registries sdk_aminos].
  pose proof (all_added _ _ _ _ H1 H2 H3) as Hadd. split_and!; [|done| |done|].
  - intros url Hu. split; exists r3; (split; [by rewrite lookup_app_r, Nat.sub_diag by done|set_solver]).
  - eexists. split; [by rewrite lookup_app_r, Nat.sub_diag by done|]. set_solver.
  - intros r x Hx. by apply lookup_app_l_Some.
Qed.

End Codec.

(** ** Loggers *)

(** A logger is the fields every line of it carries. *)
Abbreviation Logger := (list (string * string)) (only parsing).
Definition ModuleName : string := "mcp-server".
Definition With (k v : string) (l : Logger) : Logger := l ++ [(k, v)].
Definition NewLogger (moduleKey : string) (parent : Logger) : Logger := With moduleKey ModuleName parent.

(** ** Counters *)

(** A sample: the key, the increment, the labels. *)
Record sample : Type := mkSample { sm_keys : list string; sm_value : Z; sm_labels : list (string * string) }.
Definition IncrCounterWithLabels (keys : list string) (v : Z) (labels : list (string * string)) (out : list sample) : list sample :=
  out ++ [mkSample keys v labels].

Definition ServiceName : string := "mcp_server".

Definition IncToolCall (tool tenantID : string) : list sample -> list sample :=
  IncrCounterWithLabels [ServiceName; "tool_call_count"%string] 1 [("tool"%string, tool); ("tenant"%string, tenantID)].

Definition IncToolError (tool tenantID reason : string) : list sample -> list sample :=
  IncrCounterWithLabels [ServiceName; "tool_error_count"%string] 1
    [("tool"%string, tool); ("tenant"%string, tenantID); ("reason"%string, reason)].

Definition IncBroadcastResult (tenantID outcome : string) : list sample -> list sample :=
  IncrCounterWithLabels [ServiceName; "broadcast_count"%string] 1 [("tenant"%string, tenantID); ("outcome"%string, outcome)].
