(* ===== verification/LendoraFormat.v ===== *)
(** * Decimals and their display (tools/lendora_format.go)

    The arithmetic of the SDK's decimals beyond [Assets.DecLib] is the class
    [DecArith]: as there, a decimal is its value times 10^18, products and
    quotients are rounded to that scale, and an overflow panics. *)

From S2P Require Import Prelude GoStrings GoNum GoEncoding ChainLib Assets.

Class DecArith : Type := {
  LegacyNewDecFromBigIntWithPrec : Z -> Z -> result Z;
  dec_Add : Z -> Z -> result Z;
  dec_Sub : Z -> Z -> result Z;
  dec_Mul : Z -> Z -> result Z;
  dec_Quo : Z -> Z -> result Z;
  dec_MulInt64 : Z -> Z -> result Z;
  dec_QuoInt64 : Z -> Z -> result Z;
  dec_Power : Z -> Z -> result Z;
  dec_RoundInt : Z -> result Z;
  dec_String : Z -> string;
}.

(** Exact sums, products with an integer and scalings; a product, a quotient and
    the rounding to an integer are off by at most half a unit of the last place
    (a quotient by less than one). *)
Class DecArithLaws (A : DecArith) : Prop := {
  with_prec_ok : forall i p r, LegacyNewDecFromBigIntWithPrec i p = Ok r -> 0 <= p <= 18 /\ r = i * 10 ^ (18 - p);
  add_ok : forall a b r, dec_Add a b = Ok r -> r = a + b;
  sub_ok : forall a b r, dec_Sub a b = Ok r -> r = a - b;
  mul_ok : forall a b r, dec_Mul a b = Ok r -> 2 * Z.abs (r * dec_one - a * b) <= dec_one;
  quo_ok : forall a b r, 0 < b -> dec_Quo a b = Ok r -> Z.abs (r * b - a * dec_one) < b;
  mul_int64_ok : forall a n r, dec_MulInt64 a n = Ok r -> r = a * n;
  round_int_ok : forall a r, dec_RoundInt a = Ok r -> 2 * Z.abs (r * dec_one - a) <= dec_one;
}.

Definition mantissaScale : Z := 18.

Section Format.
Context {A : DecArith}.

Definition LegacyNewDecFromBigInt (i : Z) : result Z := LegacyNewDecFromBigIntWithPrec i 0.

(** A nil amount is [None]. *)
Definition decFromBaseUnits (amount : option Z) (decimals : Z) : result Z :=
  match amount with
  | None => Ok 0
  | Some a => LegacyNewDecFromBigIntWithPrec a decimals
  end.

Definition decFromMantissa (m : option Z) : result Z := decFromBaseUnits m mantissaScale.

Definition usdFromFeed (amount : option Z) (tokenDecimals : Z) (feedAnswer : option Z) (feedDecimals : Z) : result Z :=
  amt ← decFromBaseUnits amount tokenDecimals;
  price ← decFromBaseUnits feedAnswer feedDecimals;
  dec_Mul amt price.

Definition nil_or_zero (z : option Z) : bool := match z with None => true | Some v => Z.sgn v =? 0 end.

Definition apyFromRatePerBlock (ratePerBlockMantissa blocksPerYear : option Z) : result Z :=
  if nil_or_zero ratePerBlockMantissa || nil_or_zero blocksPerYear then Ok 0
  else
    ratePerBlock ← decFromMantissa ratePerBlockMantissa;
    years ← LegacyNewDecFromBigInt (default 0 blocksPerYear);
    blocksPerDay ← dec_QuoInt64 years 365;
    dailyRate ← dec_Mul ratePerBlock blocksPerDay;
    base ← dec_Add dec_one dailyRate;
    p ← dec_Power base 365;
    dec_Sub p dec_one.

(** The loop [for i := lead; i < n; i += 3]; the number of digits left is a
    multiple of three, so the slice of three never leaves the text. *)
Fixpoint group_loop (cs : bytes) : bytes :=
  match cs with
  | a :: b :: c :: rest => ","%char :: a :: b :: c :: group_loop rest
  | _ => []
  end.

Definition groupThousands (intDigits : string) : string :=
  let cs := chars intDigits in
  let n := List.length cs in
  if (n <=? 3)%nat then intDigits
  else
    let lead := if (n mod 3 =? 0)%nat then 3%nat else (n mod 3)%nat in
    str (take lead cs ++ group_loop (drop lead cs)).

(** [s[:len(s)-2]] and [s[len(s)-2:]] *)
Definition but_two (s : string) : string := str (take (String.length s - 2) (chars s)).
Definition last_two (s : string) : string := str (drop (String.length s - 2) (chars s)).

Definition formatUSD (d : Z) : result string :=
  let neg := d <? 0 in
  hundredfold ← dec_MulInt64 (Z.abs d) 100;
  cents ← dec_RoundInt hundredfold;
  let s := pad_left 3 (FormatInt cents) in
  let out := ("$" +:+ groupThousands (but_two s) +:+ "." +:+ last_two s)%string in
  Ok (if neg then "-" +:+ out else out)%string.

Definition formatPercent (fraction : Z) : result string :=
  pct ← dec_MulInt64 fraction 100;
  let neg := pct <? 0 in
  hundredfold ← dec_MulInt64 (Z.abs pct) 100;
  hundredths ← dec_RoundInt hundredfold;
  let s := pad_left 3 (FormatInt hundredths) in
  let out := (but_two s +:+ "." +:+ last_two s +:+ "%")%string in
  Ok (if neg then "-" +:+ out else out)%string.

End Format.

(** ** Groups of digits *)

(** Groups separated by commas. *)
Definition comma_join (groups : list bytes) : bytes :=
  match groups with [] => [] | g :: gs => g ++ List.concat (map (cons ","%char) gs) end.

(** Thousands: a first group of one to three digits, the others of three. *)
Definition thousands (groups : list bytes) : Prop :=
  match groups with
  | [] => False
  | g :: gs => (1 <= List.length g <= 3)%nat /\ Forall (fun h => List.length h = 3%nat) gs
  end.

Lemma group_loop_groups k : forall cs, List.length cs = (3 * k)%nat ->
  exists gs, group_loop cs = List.concat (map (cons ","%char) gs) /\ cs = List.concat gs
  /\ Forall (fun h => List.length h = 3%nat) gs.
Proof.
  induction k as [|k IH]; intros cs Hc.
  - destruct cs; [|simpl in Hc; lia]. by exists [].
  - destruct cs as [|a [|b [|c rest]]]; cbn [List.length] in Hc; try lia.
    destruct (IH rest) as (gs & Hg & Hr & Hf); [lia|]. exists ([a; b; c] :: gs). cbn. rewrite Hg. split_and!; [done|by rewrite <- Hr|].
    by constructor.
Qed.

Lemma groupThousands_groups s :
  s <> EmptyString -> exists gs, chars (groupThousands s) = comma_join gs /\ chars s = List.concat gs /\ thousands gs.
Proof.
  intros Hs. unfold groupThousands. assert (List.length (chars s) <> 0%nat) as Hn by (destruct s; done).
  destruct (Nat.leb_spec (List.length (chars s)) 3) as [Hle|Hgt].
  - exists [chars s]. cbn. rewrite !app_nil_r. split_and!; [done..|lia|lia|done].
  - set (n := List.length (chars s)) in *. set (lead := if (n mod 3 =? 0)%nat then 3%nat else (n mod 3)%nat).
    assert ((1 <= lead <= 3)%nat /\ exists k, (n - lead)%nat = (3 * k)%nat) as [Hl [k Hk]].
    { pose proof (Nat.div_mod n 3 ltac:(done)) as Hd. pose proof (Nat.mod_upper_bound n 3 ltac:(done)) as Hb.
      subst lead. destruct (Nat.eqb_spec (n mod 3) 0).
      - split; [lia|]. exists (n / 3 - 1)%nat. lia.
      - split; [lia|]. exists (n / 3)%nat. lia. }
    destruct (group_loop_groups k (drop lead (chars s))) as (gs & Hg & Hr & Hf); [by rewrite length_drop|].
    exists (take lead (chars s) :: gs). rewrite chars_str, Hg. cbn. rewrite <- Hr, take_drop.
    split_and!; [done..| | |done]; rewrite length_take; lia.
Qed.

Lemma split_two s : (2 <= String.length s)%nat ->
  chars s = chars (but_two s) ++ chars (last_two s) /\ List.length (chars (last_two s)) = 2%nat
  /\ List.length (chars (but_two s)) = (String.length s - 2)%nat.
Proof.
  intros Hs. unfold but_two, last_two. rewrite !chars_str, take_drop, length_drop, length_take, length_chars. split; [done|lia].
Qed.

(** The digits of an amount in hundredths, at least three of them. *)
Lemma hundredths_digits n :
  0 <= n ->
  let s := pad_left 3 (FormatInt n) in
  but_two s <> EmptyString /\ List.length (chars (last_two s)) = 2%nat
  /\ parse_digits (chars (but_two s) ++ chars (last_two s)) = Some n.
Proof.
  intros Hn s. assert (FormatInt n = FormatUint n) as Hf by (unfold FormatInt; by destruct (Z.ltb_spec n 0); [lia|]).
  assert (3 <= String.length s)%nat as Hl.
  { subst s. unfold pad_left. rewrite <- length_chars, chars_str, length_app, length_chars. unfold zeros.
    rewrite repeat_length. lia. }
  destruct (split_two s) as (Hs & H2 & H3); [lia|]. split_and!; [|done|].
  - intros E. rewrite E in H3. cbn in H3. lia.
  - rewrite <- Hs. subst s. rewrite Hf. by apply pad_left_parse.
Qed.

(** ** An instance for evaluations *)

Definition bankers (v : Z) : Z :=
  let q := v / dec_one in let r := v mod dec_one in
  if 2 * r <? dec_one then q else if dec_one <? 2 * r then q + 1 else if Z.even q then q else q + 1.

Definition checked (v : Z) : result Z := if Z.abs v <? 2 ^ 315 then Ok v else Err (Panic "Int overflow").

Definition demo_arith : DecArith := {|
  LegacyNewDecFromBigIntWithPrec := fun i p =>
    if (0 <=? p) && (p <=? 18) then Ok (i * 10 ^ (18 - p)) else Err (Panic "too much precision");
  dec_Add := fun a b => checked (a + b);
  dec_Sub := fun a b => checked (a - b);
  dec_Mul := fun a b => checked (bankers (a * b));
  dec_Quo := fun a b => if b =? 0 then Err (Panic "division by zero") else checked (bankers (Z.quot (a * dec_one * dec_one) b));
  dec_MulInt64 := fun a n => checked (a * n);
  dec_QuoInt64 := fun a n => Ok (Z.quot a n);
  dec_Power := fun a n => checked (Nat.iter (Z.to_nat n) (fun r => bankers (r * a)) dec_one);
  dec_RoundInt := fun a => if Z.abs (bankers a) <? 2 ^ 256 then Ok (bankers a) else Err (Panic "Int overflow");
  dec_String := fun a =>
    ((if (a <? 0)%Z then "-" else "") +:+ FormatInt (Z.abs a / dec_one)%Z +:+ "." +:+ pad_left 18 (FormatUint (Z.abs a mod dec_one)%Z))%string;
|}.

Lemma bankers_near v : 2 * Z.abs (bankers v * dec_one - v) <= dec_one.
Proof.
  unfold bankers. pose proof (Z.div_mod v dec_one ltac:(done)) as Hd.
  pose proof (Z.mod_pos_bound v dec_one ltac:(done)) as Hb. set (q := v / dec_one) in *. set (r := v mod dec_one) in *.
  assert (0 < dec_one) by done.
  destruct (Z.ltb_spec (2 * r) dec_one); [nia|]. destruct (Z.ltb_spec dec_one (2 * r)); [nia|].
  destruct (Z.even q); nia.
Qed.

Lemma demo_arith_laws : DecArithLaws demo_arith.
Proof.
  constructor; cbn; unfold checked.
  - intros i p r. destruct (Z.leb_spec 0 p), (Z.leb_spec p 18); cbn; try done. intros [= <-]. lia.
  - intros a b r. destruct (_ <? _); [|done]. by intros [= <-].
  - intros a b r. destruct (_ <? _); [|done]. by intros [= <-].
  - intros a b r. destruct (_ <? _); [|done]. intros [= <-]. apply bankers_near.
  - intros a b r Hb. destruct (Z.eqb_spec b 0); [done|]. destruct (_ <? _); [|done]. intros [= <-].
    pose proof (bankers_near (Z.quot (a * dec_one * dec_one) b)) as Hn.
    pose proof (Z.quot_rem' (a * dec_one * dec_one) b) as Hq.
    pose proof (Z.rem_bound_abs (a * dec_one * dec_one) b ltac:(lia)) as Hr.
    set (q := Z.quot _ _) in *. set (m := Z.rem _ _) in *. set (k := bankers q) in *.
    assert (2 * dec_one * Z.abs (k * b - a * dec_one) <= dec_one * b + 2 * Z.abs m) as Hx.
    { replace (2 * dec_one * Z.abs (k * b - a * dec_one)) with (2 * Z.abs ((k * dec_one - q) * b - m)).
      - pose proof (Z.abs_triangle ((k * dec_one - q) * b) (- m)). rewrite Z.abs_opp, Z.abs_mul, (Z.abs_eq b) in H by lia.
        replace ((k * dec_one - q) * b - m) with ((k * dec_one - q) * b + - m) by lia. nia.
      - replace ((k * dec_one - q) * b - m) with (dec_one * (k * b - a * dec_one)) by lia.
        rewrite Z.abs_mul. change (Z.abs dec_one) with dec_one. lia. }
    assert (2 <= dec_one) by done. nia.
  - intros a n r. destruct (_ <? _); [|done]. by intros [= <-].
  - intros a r. destruct (_ <? _); [|done]. intros [= <-]. apply bankers_near.
Qed.

(** ** Claims *)

(** An amount in dollars reads back as it was rounded.  Whenever [formatUSD]
    returns, its text is an optional minus sign, a dollar sign, groups of digits
    separated by commas (a first group of one to three and then groups of exactly
    three), a point and two digits; removing the punctuation leaves the decimal
    digits of a number of cents that is the amount to within half a cent. *)
Theorem formatUSD_readback {A : DecArith} {AL : DecArithLaws A} (d : Z) (out : string)
    (Hf : formatUSD d = Ok out) :
  exists cents groups frac,
    chars out = (if d <? 0 then ["-"%char] else []) ++ "$"%char :: comma_join groups ++ "."%char :: frac
    /\ thousands groups /\ List.length frac = 2%nat
    /\ parse_digits (List.concat groups ++ frac) = Some cents
    /\ 0 <= cents /\ 2 * Z.abs (cents * dec_one - Z.abs d * 100) <= dec_one.
Proof.
  unfold formatUSD in Hf. destruct (dec_MulInt64 (Z.abs d) 100) as [h|] eqn:Eh; [|done]. cbn [mbind result_bind] in Hf.
  destruct (dec_RoundInt h) as [cents|] eqn:Ec; [|done]. cbn [mbind result_bind] in Hf. injection Hf as <-.
  apply mul_int64_ok in Eh. apply round_int_ok in Ec. subst h.
  assert (0 <= cents) as Hc by (assert (0 < dec_one) by done; nia).
  destruct (hundredths_digits cents Hc) as (Hne & H2 & Hp). set (s := pad_left 3 (FormatInt cents)) in *.
  destruct (groupThousands_groups (but_two s) Hne) as (gs & Hg & Hcat & Ht).
  exists cents, gs, (chars (last_two s)). rewrite Hcat in Hp. split_and!; [|done..].
  destruct (d <? 0); rewrite ?chars_app, Hg; by rewrite <- ?app_assoc.
Qed.

Lemma formatUSD_readback_witness :
  exists groups frac, formatUSD (A := demo_arith) (-1234567895 * 10 ^ 15) = Ok "-$1,234,567.90"%string
  /\ chars "-$1,234,567.90" = ["-"%char] ++ "$"%char :: comma_join groups ++ "."%char :: frac /\ thousands groups.
Proof.
  destruct (formatUSD_readback (A := demo_arith) (AL := demo_arith_laws) (-1234567895 * 10 ^ 15) "-$1,234,567.90"
    ltac:(vm_compute; reflexivity)) as (cents & groups & frac & Hc & Ht & _).
  exists groups, frac. split; [vm_compute; reflexivity|]. split; [exact Hc|exact Ht].
Defined.

(** A percentage likewise: the digits are the fraction in hundredths of a
    percent, to within half of one. *)
Theorem formatPercent_readback {A : DecArith} {AL : DecArithLaws A} (x : Z) (out : string)
    (Hf : formatPercent x = Ok out) :
  exists n whole frac,
    chars out = (if x <? 0 then ["-"%char] else []) ++ whole ++ "."%char :: frac ++ ["%"%char]
    /\ List.length frac = 2%nat /\ parse_digits (whole ++ frac) = Some n
    /\ 0 <= n /\ 2 * Z.abs (n * dec_one - Z.abs x * 10000) <= dec_one.
Proof.
  unfold formatPercent in Hf. destruct (dec_MulInt64 x 100) as [p|] eqn:Ep; [|done]. cbn [mbind result_bind] in Hf.
  destruct (dec_MulInt64 (Z.abs p) 100) as [h|] eqn:Eh; [|done]. cbn [mbind result_bind] in Hf.
  destruct (dec_RoundInt h) as [n|] eqn:Ec; [|done]. cbn [mbind result_bind] in Hf. injection Hf as <-.
  apply mul_int64_ok in Ep, Eh. apply round_int_ok in Ec. subst p h.
  assert (0 <= n) as Hn by (assert (0 < dec_one) by done; nia).
  destruct (hundredths_digits n Hn) as (_ & H2 & Hp). set (s := pad_left 3 (FormatInt n)) in *.
  exists n, (chars (but_two s)), (chars (last_two s)). split_and!; [|done|done|done|].
  - replace (x * 100 <? 0) with (x <? 0) by (destruct (Z.ltb_spec x 0), (Z.ltb_spec (x * 100) 0); lia || done).
    destruct (x <? 0); rewrite ?chars_app; by rewrite <- ?app_assoc.
  - rewrite Z.abs_mul in Ec. change (Z.abs 100) with 100 in Ec. lia.
Qed.
