(* ===== verification/EVMTools.v ===== *)
(** * The ERC-20 and ERC-721 tools (tools/erc.go, with what the EVM tools share)

    The dependencies of the EVM tools are the record [EVMDeps]; a node client is
    a handle, an assembler the handle of the client it is bound to, and what a
    node answers is the class [EVMEnv], one interaction per call.  [requireEVM]
    and the other guards return the pointers they found set. *)

From S2P Require Import Prelude GoStrings GoNum GoTime GoEncoding Limits TransferOut NonceStore IPRateLimiter.
From S2P Require Import SessionBearers DynamicTenants Policy Markets Units ChainLib Payload Assembler Assets.
From S2P Require Import TxInspect EVMBuilder BridgeRegistry Server AuthTools Broadcast Tools ABI.

Record UniswapV2 : Type := mkUniswapV2 { Router : Address; WSVP : Address }.

Record ForeignChain : Type := mkForeignChain { fc_Client : Z; fc_Assembler : Z; fc_Bridge : Address }.

Record EVMDeps : Type := mkEVMDeps {
  ed_EVM : option Z;                       (* Chain.EVM *)
  ed_Assembler : option Z;
  ed_Uniswap : option UniswapV2;
  ed_Oracle : option Address;              (* address of the bound feed *)
  ed_Lendora : option Address;             (* address of the bound Comptroller *)
  ed_Bridge : option Address;
  ed_BridgeRoutes : option Registry;
  ed_BridgeSourceChainID : Z;
  ed_ForeignChains : gmap Z ForeignChain;
  ed_HomeChainID : Z;
  ed_LendoraMarkets : bool;                (* LendoraMarkets is set *)
}.

Class EVMEnv : Type := {
  env_client : nat -> Z -> EVMClient;
  env_call : nat -> Z -> Address -> bytes -> result bytes;  (* CallContract, latest block *)
}.

Definition maxUint256 : Z := 2 ^ 256 - 1.

Definition evm_disabled : goerr := userErrf "EVM is not enabled on this server (no evm_rpc_url configured)" [].

Record BuildERC20TransferInput : Type := mkBuildERC20TransferInput {
  et_Token : string; et_To : string; et_Amount : string; et_ClientID : string }.
Record BuildERC20ApproveInput : Type := mkBuildERC20ApproveInput {
  eap_Token : string; eap_Spender : string; eap_Amount : string; eap_Unlimited : bool; eap_ChainID : Z;
  eap_ClientID : string }.
Record BuildERC20TransferFromInput : Type := mkBuildERC20TransferFromInput {
  ef_Token : string; ef_From : string; ef_To : string; ef_Amount : string; ef_ClientID : string }.
Record BuildERC721TransferInput : Type := mkBuildERC721TransferInput {
  nt_Contract : string; nt_From : string; nt_To : string; nt_TokenID : string; nt_ClientID : string }.
Record BuildERC721ApproveInput : Type := mkBuildERC721ApproveInput {
  na_Contract : string; na_Spender : string; na_TokenID : string; na_ClientID : string }.
Record BuildERC721SetApprovalForAllInput : Type := mkBuildERC721SetApprovalForAllInput {
  ns_Contract : string; ns_Operator : string; ns_Approved : bool; ns_ClientID : string }.

Section Args.
Context {L : ChainLib}.

Definition parseEVMAddress (s field : string) : result Address :=
  let t := TrimSpace s in
  _ ← check (negb (IsHexAddress t)) (userErrf "%s %q is not a valid 0x address" [FStr field; FStr s]);
  Ok (HexToAddress t).

Definition parseTokenID (s : string) : result Z :=
  let t := TrimSpace s in
  _ ← check (String.eqb t "") (userErrf "token_id is required" []);
  v ← from_opt (BigSetString10 t) (userErrf "token_id %q is not a base-10 integer" [FStr s]);
  _ ← check (v <? 0) (userErrf "token_id must not be negative, got %q" [FStr s]);
  Ok v.

End Args.

Section Tools.
Context {RL : RateLib} {E : Env} {N : EVMEnv} {L : ChainLib} {D : DecLib} {B : ABILib} (d : EVMDeps).

(** The home client and assembler. *)
Definition requireEVM : result (Z * Z) :=
  match ed_EVM d, ed_Assembler d with
  | Some client, Some asm => Ok (client, asm)
  | _, _ => Err evm_disabled
  end.

Definition evmCallOn (client : Z) (to : Address) (data : bytes) : M srv bytes :=
  n ← tick; lift (env_call n client to data).

(** [asm.Assemble]: the node reads of one assembly, then the clock. *)
Definition asm_Assemble (asm : Z) (args : EVMArgs) : M srv EVMTxPayload :=
  n ← tick; t ← now; lift (EVMAssemble (env_client n asm) args t).

Definition erc20DecimalsOn (client : Z) (token : Address) : M srv Z :=
  data ← lift PackERC20Decimals;
  out ← wrapM (fun e => Errorf "read decimals for %s (is it an ERC-20?): %w" [FStr (Address_Hex token); FErr e])
          (evmCallOn client token data);
  lift (wrap (fun e => Errorf "read decimals for %s: %w" [FStr (Address_Hex token); FErr e]) (UnpackERC20Decimals out)).

(** The assembler and client for a chain, given the home pair. *)
Definition evmAssemblerFor (home : Z * Z) (chainID : Z) : result (Z * Z) :=
  if (chainID =? 0) || (chainID =? ed_HomeChainID d) then Ok (snd home, fst home)
  else
    fc ← from_opt (ed_ForeignChains d !! chainID)
           (userErrf "chain_id %d is not configured on this server (no home or evm_foreign_chain match)" [FInt chainID]);
    Ok (fc_Assembler fc, fc_Client fc).

Definition assembleERC (asm : Z) (owner : string) (to : Address) (data : bytes) (clientID toolName desc : string)
  : M srv EVMTxPayload :=
  from ← lift (ownerEthAddress owner);
  asm_Assemble asm (mkEVMArgs clientID from to data None (mkEVMSummary toolName desc)).

(** [amount, err := humanToBaseUnits(...)] with its wrapping. *)
Definition amount_arg (human : string) (dec : Z) : result Z :=
  wrap (fun e => Errorf "amount: %w" [FErr e]) (humanToBaseUnits human dec).

Definition BuildERC20Transfer (ctx : context) (inp : BuildERC20TransferInput) : M srv EVMTxPayload :=
  tp ← authorize ctx "build_erc20_transfer";
  home ← lift requireEVM;
  token ← lift (parseEVMAddress (et_Token inp) "token");
  to ← lift (parseEVMAddress (et_To inp) "to");
  dec ← erc20DecimalsOn (fst home) token;
  amount ← lift (amount_arg (et_Amount inp) dec);
  data ← lift (PackERC20Transfer to amount);
  assembleERC (snd home) (tp_Owner tp) token data (et_ClientID inp) "build_erc20_transfer"
    ("transfer " +:+ et_Amount inp +:+ " of " +:+ Address_Hex token +:+ " to " +:+ Address_Hex to)%string.

Definition BuildERC20Approve (ctx : context) (inp : BuildERC20ApproveInput) : M srv EVMTxPayload :=
  tp ← authorize ctx "build_erc20_approve";
  home ← lift requireEVM;
  ac ← lift (evmAssemblerFor home (eap_ChainID inp));
  token ← lift (parseEVMAddress (eap_Token inp) "token");
  spender ← lift (parseEVMAddress (eap_Spender inp) "spender");
  amount ← (if negb (eap_Unlimited inp) then
              dec ← erc20DecimalsOn (snd ac) token;
              lift (amount_arg (eap_Amount inp) dec)
            else mret maxUint256);
  let amountLabel := if negb (eap_Unlimited inp) then eap_Amount inp else "unlimited"%string in
  data ← lift (PackERC20Approve spender amount);
  assembleERC (fst ac) (tp_Owner tp) token data (eap_ClientID inp) "build_erc20_approve"
    ("approve " +:+ Address_Hex spender +:+ " to spend " +:+ amountLabel +:+ " of " +:+ Address_Hex token)%string.

Definition BuildERC20TransferFrom (ctx : context) (inp : BuildERC20TransferFromInput) : M srv EVMTxPayload :=
  tp ← authorize ctx "build_erc20_transfer_from";
  home ← lift requireEVM;
  token ← lift (parseEVMAddress (ef_Token inp) "token");
  from ← lift (parseEVMAddress (ef_From inp) "from");
  to ← lift (parseEVMAddress (ef_To inp) "to");
  dec ← erc20DecimalsOn (fst home) token;
  amount ← lift (amount_arg (ef_Amount inp) dec);
  data ← lift (PackERC20TransferFrom from to amount);
  assembleERC (snd home) (tp_Owner tp) token data (ef_ClientID inp) "build_erc20_transfer_from"
    ("transferFrom " +:+ Address_Hex from +:+ " -> " +:+ Address_Hex to +:+ ", " +:+ ef_Amount inp +:+ " of "
       +:+ Address_Hex token)%string.

Definition buildERC721Transfer (ctx : context) (tool : string) (inp : BuildERC721TransferInput)
    (pack : Address -> Address -> Z -> result bytes) : M srv EVMTxPayload :=
  tp ← authorize ctx tool;
  home ← lift requireEVM;
  contract ← lift (parseEVMAddress (nt_Contract inp) "contract");
  from ← lift (parseEVMAddress (nt_From inp) "from");
  to ← lift (parseEVMAddress (nt_To inp) "to");
  id ← lift (parseTokenID (nt_TokenID inp));
  data ← lift (pack from to id);
  assembleERC (snd home) (tp_Owner tp) contract data (nt_ClientID inp) tool
    (tool +:+ " token " +:+ nt_TokenID inp +:+ " on " +:+ Address_Hex contract +:+ ": " +:+ Address_Hex from
       +:+ " -> " +:+ Address_Hex to)%string.

Definition BuildERC721TransferFrom (ctx : context) (inp : BuildERC721TransferInput) : M srv EVMTxPayload :=
  buildERC721Transfer ctx "build_erc721_transfer_from" inp PackERC721TransferFrom.
Definition BuildERC721SafeTransferFrom (ctx : context) (inp : BuildERC721TransferInput) : M srv EVMTxPayload :=
  buildERC721Transfer ctx "build_erc721_safe_transfer_from" inp PackERC721SafeTransferFrom.

Definition BuildERC721Approve (ctx : context) (inp : BuildERC721ApproveInput) : M srv EVMTxPayload :=
  tp ← authorize ctx "build_erc721_approve";
  home ← lift requireEVM;
  contract ← lift (parseEVMAddress (na_Contract inp) "contract");
  spender ← lift (parseEVMAddress (na_Spender inp) "spender");
  id ← lift (parseTokenID (na_TokenID inp));
  data ← lift (PackERC721Approve spender id);
  assembleERC (snd home) (tp_Owner tp) contract data (na_ClientID inp) "build_erc721_approve"
    ("approve " +:+ Address_Hex spender +:+ " for token " +:+ na_TokenID inp +:+ " on " +:+ Address_Hex contract)%string.

Definition BuildERC721SetApprovalForAll (ctx : context) (inp : BuildERC721SetApprovalForAllInput) : M srv EVMTxPayload :=
  tp ← authorize ctx "build_erc721_set_approval_for_all";
  home ← lift requireEVM;
  contract ← lift (parseEVMAddress (ns_Contract inp) "contract");
  operator ← lift (parseEVMAddress (ns_Operator inp) "operator");
  data ← lift (PackERC721SetApprovalForAll operator (ns_Approved inp));
  let verb := (if ns_Approved inp then "grant operator" else "revoke operator")%string in
  assembleERC (snd home) (tp_Owner tp) contract data (ns_ClientID inp) "build_erc721_set_approval_for_all"
    (verb +:+ " " +:+ Address_Hex operator +:+ " for all of " +:+ Address_Hex contract)%string.

End Tools.

(** One stateless step of a computation that returned a value. *)
Tactic Notation "l_inv" hyp(H) "as" ident(a) ident(H1) :=
  apply M_bind_ok in H as (a & ? & H1 & H); apply lift_ok in H1 as [H1 ->].

(** ** What a payload asks the chain to do *)

Section Requests.
Context {RL : RateLib} {E : Env} {N : EVMEnv} {L : ChainLib} {D : DecLib} {B : ABILib}.

(** The payload calls [to] with this value and data from the owner's own
    address, with the pending nonce of that address on the chain the assembler
    is bound to. *)
Definition requests (asm : Z) (owner clientID : string) (to : Address) (value : Z) (data : bytes)
    (p : EVMTxPayload) : Prop :=
  exists n from chainID nonce,
    ownerEthAddress owner = Ok from
    /\ ep_SignerAddress p = Address_Hex from /\ ep_ClientID p = clientID
    /\ ep_To p = Address_Hex to /\ ep_Value p = FormatInt value /\ ep_Data p = hexutil_Encode data
    /\ evm_ChainID (env_client n asm) = Ok chainID /\ ep_EVMChainID p = FormatInt chainID
    /\ evm_PendingNonceAt (env_client n asm) from = Ok nonce /\ ep_Nonce p = FormatUint nonce.

Lemma EVMAssemble_fields evm args t p :
  EVMAssemble evm args t = Ok p ->
  ep_SignerAddress p = Address_Hex (ea_From args) /\ ep_ClientID p = ea_ClientID args
  /\ ep_To p = Address_Hex (ea_To args) /\ ep_Value p = FormatInt (default 0 (ea_Value args))
  /\ ep_Data p = hexutil_Encode (ea_Data args)
  /\ (exists chainID, evm_ChainID evm = Ok chainID /\ ep_EVMChainID p = FormatInt chainID)
  /\ exists nonce, evm_PendingNonceAt evm (ea_From args) = Ok nonce /\ ep_Nonce p = FormatUint nonce.
Proof.
  unfold EVMAssemble. intros H.
  destruct (evm_ChainID evm) as [chainID|]; cbn [wrap mbind result_bind] in H; [|done].
  destruct (evm_PendingNonceAt evm _) as [nonce|]; cbn [wrap mbind result_bind] in H; [|done].
  destruct (evm_SuggestGasTipCap evm) as [tip|]; cbn [wrap mbind result_bind] in H; [|done].
  destruct (evm_BaseFee evm) as [baseFee|]; cbn [wrap mbind result_bind] in H; [|done].
  destruct (evm_EstimateGas evm _) as [gas|]; cbn [wrap mbind result_bind] in H; [|done].
  injection H as <-. cbn. split_and!; eauto.
Qed.

Lemma asm_Assemble_requests asm owner args s p s' :
  asm_Assemble asm args s = (Ok p, s') -> ownerEthAddress owner = Ok (ea_From args) ->
  requests asm owner (ea_ClientID args) (ea_To args) (default 0 (ea_Value args)) (ea_Data args) p.
Proof.
  intros H Ho. unfold asm_Assemble in H. m_inv H as n s1 H1. m_inv H as t s2 H2. apply lift_ok in H as [H _].
  apply EVMAssemble_fields in H as (? & ? & ? & ? & ? & (c & ? & ?) & (k & ? & ?)).
  by exists n, (ea_From args), c, k.
Qed.

Lemma assembleERC_requests asm owner to data clientID tool desc s p s' :
  assembleERC asm owner to data clientID tool desc s = (Ok p, s') -> requests asm owner clientID to 0 data p.
Proof.
  intros H. unfold assembleERC in H. l_inv H as from Hf.
  by apply (asm_Assemble_requests _ owner) in H.
Qed.

(** The decimals a token's contract answered on a chain. *)
Definition decimals_read (client : Z) (token : Address) (dec : Z) : Prop :=
  exists n data out, PackERC20Decimals = Ok data /\ env_call n client token data = Ok out
  /\ UnpackERC20Decimals out = Ok dec.

Lemma evmCallOn_at client to data s out s' :
  evmCallOn client to data s = (Ok out, s') ->
  env_call (s_reads s) client to data = Ok out /\ s' = set_reads (S (s_reads s)) s.
Proof.
  intros H. unfold evmCallOn in H. m_inv H as n s1 H1. apply lift_ok in H as [H ->]. unfold tick in H1. by injection H1 as <- <-.
Qed.

Lemma evmCallOn_inv client to data s out s' :
  evmCallOn client to data s = (Ok out, s') -> exists n, env_call n client to data = Ok out.
Proof. intros [H _]%evmCallOn_at. eauto. Qed.

Lemma erc20DecimalsOn_inv client token s dec s' :
  erc20DecimalsOn client token s = (Ok dec, s') -> decimals_read client token dec.
Proof.
  intros H. unfold erc20DecimalsOn in H. l_inv H as data Hd. m_inv H as out s1 H1.
  apply wrapM_ok, evmCallOn_inv in H1 as [n Hn]. apply lift_ok in H as [H%wrap_ok _]. by exists n, data, out.
Qed.

Lemma parseEVMAddress_inv s field a :
  parseEVMAddress s field = Ok a -> IsHexAddress (TrimSpace s) = true /\ a = HexToAddress (TrimSpace s).
Proof.
  unfold parseEVMAddress. destruct (IsHexAddress (TrimSpace s)); cbn; [|done]. by intros [= <-].
Qed.

Lemma parseTokenID_inv s v : parseTokenID s = Ok v -> BigSetString10 (TrimSpace s) = Some v /\ 0 <= v.
Proof.
  unfold parseTokenID. destruct (String.eqb (TrimSpace s) ""); [done|].
  destruct (BigSetString10 (TrimSpace s)) as [z|]; [|done]. cbn. destruct (Z.ltb_spec z 0); [done|].
  by intros [= <-].
Qed.

End Requests.

(** ** The seven tools together *)

Inductive erc_tool : Type :=
| E20Transfer (i : BuildERC20TransferInput)
| E20Approve (i : BuildERC20ApproveInput)
| E20TransferFrom (i : BuildERC20TransferFromInput)
| E721Transfer (i : BuildERC721TransferInput)
| E721SafeTransfer (i : BuildERC721TransferInput)
| E721Approve (i : BuildERC721ApproveInput)
| E721ApproveAll (i : BuildERC721SetApprovalForAllInput).

Definition erc_client (c : erc_tool) : string :=
  match c with
  | E20Transfer i => et_ClientID i | E20Approve i => eap_ClientID i | E20TransferFrom i => ef_ClientID i
  | E721Transfer i | E721SafeTransfer i => nt_ClientID i | E721Approve i => na_ClientID i
  | E721ApproveAll i => ns_ClientID i
  end.

Section Run.
Context {RL : RateLib} {E : Env} {N : EVMEnv} {L : ChainLib} {D : DecLib} {B : ABILib} (d : EVMDeps).

Definition run_erc (ctx : context) (c : erc_tool) : M srv EVMTxPayload :=
  match c with
  | E20Transfer i => BuildERC20Transfer d ctx i
  | E20Approve i => BuildERC20Approve d ctx i
  | E20TransferFrom i => BuildERC20TransferFrom d ctx i
  | E721Transfer i => BuildERC721TransferFrom d ctx i
  | E721SafeTransfer i => BuildERC721SafeTransferFrom d ctx i
  | E721Approve i => BuildERC721Approve d ctx i
  | E721ApproveAll i => BuildERC721SetApprovalForAll d ctx i
  end.

(** The pair of assembler and client a request targets: those of the home chain,
    or of the foreign chain an approval names. *)
Definition target_chain (c : erc_tool) (asm client : Z) : Prop :=
  let home := ed_Assembler d = Some asm /\ ed_EVM d = Some client in
  match c with
  | E20Approve i =>
      if (eap_ChainID i =? 0) || (eap_ChainID i =? ed_HomeChainID d) then home
      else exists fc, ed_ForeignChains d !! eap_ChainID i = Some fc /\ fc_Assembler fc = asm /\ fc_Client fc = client
  | _ => home
  end.

(** The address an argument denotes, and a human amount of a token. *)
Definition addr_of (s : string) (a : Address) : Prop :=
  IsHexAddress (TrimSpace s) = true /\ a = HexToAddress (TrimSpace s).
Definition amount_of (client : Z) (token : Address) (human : string) (n : Z) : Prop :=
  exists dec, decimals_read client token dec /\ humanToBaseUnits human dec = Ok n.
Definition id_of (s : string) (n : Z) : Prop := BigSetString10 (TrimSpace s) = Some n /\ 0 <= n.

(** The contract a tool calls and the call it encodes. *)
Definition erc_calls (c : erc_tool) (client : Z) (to : Address) (data : bytes) : Prop :=
  match c with
  | E20Transfer i => addr_of (et_Token i) to /\ exists dst n, addr_of (et_To i) dst
      /\ amount_of client to (et_Amount i) n /\ PackERC20Transfer dst n = Ok data
  | E20Approve i => addr_of (eap_Token i) to /\ exists sp n, addr_of (eap_Spender i) sp
      /\ (if eap_Unlimited i then n = maxUint256 else amount_of client to (eap_Amount i) n)
      /\ PackERC20Approve sp n = Ok data
  | E20TransferFrom i => addr_of (ef_Token i) to /\ exists src dst n, addr_of (ef_From i) src /\ addr_of (ef_To i) dst
      /\ amount_of client to (ef_Amount i) n /\ PackERC20TransferFrom src dst n = Ok data
  | E721Transfer i => addr_of (nt_Contract i) to /\ exists src dst n, addr_of (nt_From i) src /\ addr_of (nt_To i) dst
      /\ id_of (nt_TokenID i) n /\ PackERC721TransferFrom src dst n = Ok data
  | E721SafeTransfer i => addr_of (nt_Contract i) to /\ exists src dst n, addr_of (nt_From i) src
      /\ addr_of (nt_To i) dst /\ id_of (nt_TokenID i) n /\ PackERC721SafeTransferFrom src dst n = Ok data
  | E721Approve i => addr_of (na_Contract i) to /\ exists sp n, addr_of (na_Spender i) sp
      /\ id_of (na_TokenID i) n /\ PackERC721Approve sp n = Ok data
  | E721ApproveAll i => addr_of (ns_Contract i) to /\ exists op, addr_of (ns_Operator i) op
      /\ PackERC721SetApprovalForAll op (ns_Approved i) = Ok data
  end.

Lemma requireEVM_inv home : requireEVM d = Ok home -> ed_Assembler d = Some (snd home) /\ ed_EVM d = Some (fst home).
Proof. unfold requireEVM. destruct (ed_EVM d), (ed_Assembler d); try done. by intros [= <-]. Qed.

Lemma evmAssemblerFor_inv i home ac :
  requireEVM d = Ok home -> evmAssemblerFor d home (eap_ChainID i) = Ok ac -> target_chain (E20Approve i) (fst ac) (snd ac).
Proof.
  intros [Ha He]%requireEVM_inv H. unfold evmAssemblerFor in H. cbn [target_chain]. destruct (_ || _).
  - by injection H as <-.
  - destruct (ed_ForeignChains d !! eap_ChainID i) as [fc|]; [|done]. injection H as <-. by exists fc.
Qed.

(** What a run of a tool establishes. *)
Definition erc_spec (ctx : context) (c : erc_tool) (s : srv) (p : EVMTxPayload) : Prop :=
  exists tp asm client to data, authorized ctx tp s /\ target_chain c asm client /\ erc_calls c client to data
  /\ requests asm (tp_Owner tp) (erc_client c) to 0 data p.

Lemma erc721_transfer_inv ctx tool i pack s p s' :
  buildERC721Transfer d ctx tool i pack s = (Ok p, s') ->
  exists tp home to data, authorized ctx tp s /\ requireEVM d = Ok home
  /\ (addr_of (nt_Contract i) to /\ exists src dst n, addr_of (nt_From i) src /\ addr_of (nt_To i) dst
      /\ id_of (nt_TokenID i) n /\ pack src dst n = Ok data)
  /\ requests (snd home) (tp_Owner tp) (nt_ClientID i) to 0 data p.
Proof.
  intros H. unfold buildERC721Transfer in H. m_inv H as tp s1 H1. apply authorize_inv in H1 as [Ha _].
  l_inv H as home Hh. l_inv H as to Ht. l_inv H as src Hs. l_inv H as dst Hd. l_inv H as id Hi. l_inv H as data Hp.
  apply assembleERC_requests in H. exists tp, home, to, data. split_and!; try done; [by eapply parseEVMAddress_inv|].
  exists src, dst, id. split_and!; [by eapply parseEVMAddress_inv..| |done]. by apply parseTokenID_inv.
Qed.

Lemma erc_tool_inv ctx c s p s' : run_erc ctx c s = (Ok p, s') -> erc_spec ctx c s p.
Proof.
  intros H. destruct c as [i|i|i|i|i|i|i]; cbn [run_erc] in H.
  - unfold BuildERC20Transfer in H. m_inv H as tp s1 H1. apply authorize_inv in H1 as [Ha _].
    l_inv H as home Hh. l_inv H as token Ht. l_inv H as to Hd. m_inv H as dec s2 H2. apply erc20DecimalsOn_inv in H2.
    l_inv H as n Hn. l_inv H as data Hp. apply assembleERC_requests in H.
    exists tp, (snd home), (fst home), token, data. split_and!; [done|by apply requireEVM_inv| |done].
    split; [by eapply parseEVMAddress_inv|]. exists to, n. split_and!; [by eapply parseEVMAddress_inv| |done].
    exists dec. split; [done|by apply wrap_ok in Hn].
  - unfold BuildERC20Approve in H. m_inv H as tp s1 H1. apply authorize_inv in H1 as [Ha _].
    l_inv H as home Hh. l_inv H as ac Hc. l_inv H as token Ht. l_inv H as sp Hd. m_inv H as n s2 H2.
    l_inv H as data Hp. apply assembleERC_requests in H.
    exists tp, (fst ac), (snd ac), token, data. split_and!; [done|by eapply evmAssemblerFor_inv| |done].
    split; [by eapply parseEVMAddress_inv|]. exists sp, n. split_and!; [by eapply parseEVMAddress_inv| |done].
    destruct (eap_Unlimited i); cbn [negb] in H2; [by injection H2 as <- _|].
    m_inv H2 as dec s3 H3. apply erc20DecimalsOn_inv in H3. apply lift_ok in H2 as [H2%wrap_ok _]. by exists dec.
  - unfold BuildERC20TransferFrom in H. m_inv H as tp s1 H1. apply authorize_inv in H1 as [Ha _].
    l_inv H as home Hh. l_inv H as token Ht. l_inv H as src Hs. l_inv H as to Hd. m_inv H as dec s2 H2.
    apply erc20DecimalsOn_inv in H2. l_inv H as n Hn. l_inv H as data Hp. apply assembleERC_requests in H.
    exists tp, (snd home), (fst home), token, data. split_and!; [done|by apply requireEVM_inv| |done].
    split; [by eapply parseEVMAddress_inv|]. exists src, to, n. split_and!; [by eapply parseEVMAddress_inv..| |done].
    exists dec. split; [done|by apply wrap_ok in Hn].
  - apply erc721_transfer_inv in H as (tp & home & to & data & Ha & Hh & Hc & Hr).
    exists tp, (snd home), (fst home), to, data. split_and!; [done|by apply requireEVM_inv|done|done].
  - apply erc721_transfer_inv in H as (tp & home & to & data & Ha & Hh & Hc & Hr).
    exists tp, (snd home), (fst home), to, data. split_and!; [done|by apply requireEVM_inv|done|done].
  - unfold BuildERC721Approve in H. m_inv H as tp s1 H1. apply authorize_inv in H1 as [Ha _].
    l_inv H as home Hh. l_inv H as to Ht. l_inv H as sp Hs. l_inv H as id Hi. l_inv H as data Hp.
    apply assembleERC_requests in H. exists tp, (snd home), (fst home), to, data.
    split_and!; [done|by apply requireEVM_inv| |done]. split; [by eapply parseEVMAddress_inv|].
    exists sp, id. split_and!; [by eapply parseEVMAddress_inv|by apply parseTokenID_inv|done].
  - unfold BuildERC721SetApprovalForAll in H. m_inv H as tp s1 H1. apply authorize_inv in H1 as [Ha _].
    l_inv H as home Hh. l_inv H as to Ht. l_inv H as op Hs. l_inv H as data Hp.
    apply assembleERC_requests in H. exists tp, (snd home), (fst home), to, data.
    split_and!; [done|by apply requireEVM_inv| |done]. split; [by eapply parseEVMAddress_inv|].
    exists op. split; [by eapply parseEVMAddress_inv|done].
Qed.

Lemma keeps_evmCallOn client to data : keeps effects (evmCallOn client to data).
Proof. unfold evmCallOn. keeps_tac. Qed.
Lemma keeps_asm_Assemble asm args : keeps effects (asm_Assemble asm args).
Proof. unfold asm_Assemble. keeps_tac. Qed.
#[local] Hint Resolve keeps_evmCallOn keeps_asm_Assemble : keeps.

Lemma keeps_erc20DecimalsOn client token : keeps effects (erc20DecimalsOn client token).
Proof. unfold erc20DecimalsOn. keeps_tac. Qed.
Lemma keeps_assembleERC asm owner to data cid tool desc : keeps effects (assembleERC asm owner to data cid tool desc).
Proof. unfold assembleERC. keeps_tac. Qed.
#[local] Hint Resolve keeps_erc20DecimalsOn keeps_assembleERC : keeps.

Lemma keeps_run_erc ctx c : keeps effects (run_erc ctx c).
Proof.
  destruct c; cbn [run_erc]; unfold BuildERC20Transfer, BuildERC20Approve, BuildERC20TransferFrom,
    BuildERC721TransferFrom, BuildERC721SafeTransferFrom, buildERC721Transfer, BuildERC721Approve,
    BuildERC721SetApprovalForAll; keeps_tac.
Qed.

End Run.
#[export] Hint Resolve keeps_evmCallOn keeps_asm_Assemble keeps_run_erc : keeps.

(** ** What the broadcast check makes of a built call *)

Section Outflow.
Context {RL : RateLib} {E : Env} {N : EVMEnv} {L : ChainLib} {D : DecLib} {B : ABILib}.
Context {LL : ChainLibLaws L} {DLL : DecLibLaws D} {BL : ABILaws B}.

Lemma decimals_nonneg client token dec : decimals_read client token dec -> 0 <= dec.
Proof.
  intros (n & data & out & _ & _ & H). unfold UnpackERC20Decimals in H.
  destruct (abi_Unpack _ _ out) as [[|v l]|] eqn:Eu; cbn [wrap mbind result_bind as_uint8] in H; try done.
  destruct v; try done. injection H as <-. apply unpack_uint8 in Eu. lia.
Qed.

Lemma amount_pos client token human n : amount_of client token human n -> 0 < n.
Proof.
  intros (dec & Hd%decimals_nonneg & Hh). apply humanToBaseUnits_value in Hh as (v & _ & _ & Hn & _); done.
Qed.

Lemma native_leg_zero to router wsvp : native_leg to (Some 0) router wsvp = ∅.
Proof. by destruct to. Qed.

(** What a call of a capped token takes out of the owner's wallet. *)
Definition erc_outflow (c : erc_tool) (client : Z) (to owner : Address) (sym : string) (out : gmap string Z) : Prop :=
  match c with
  | E20Transfer i => exists n, amount_of client to (et_Amount i) n /\ (n < 2 ^ 256 -> out = {[sym := n]})
  | E20TransferFrom i => exists src n, addr_of (ef_From i) src /\ amount_of client to (ef_Amount i) n
      /\ (n < 2 ^ 256 -> out = if addr_eqb src owner then {[sym := n]} else ∅)
  | E20Approve i => out = ∅
  | _ => True
  end.

Lemma addr_of_length s a : addr_of s a -> List.length a = 20%nat.
Proof. intros [H ->]. by apply hex_address_length. Qed.

Lemma erc_calls_outflow c client to data owner router wsvp sym :
  erc_calls c client to data -> symbolForToken to = Some sym ->
  erc_outflow c client to owner sym (decodeTransferOut (Some to) (Some 0) data owner router wsvp).
Proof.
  destruct c as [i|i|i|i|i|i|i]; cbn [erc_calls erc_outflow]; try done.
  - intros (_ & dst & n & Hd & Hn & Hp) Hs. exists n. split; [done|]. intros Hlt. pose proof (amount_pos _ _ _ _ Hn).
    unfold PackERC20Transfer in Hp. rewrite pack_transfer in Hp by (by eapply addr_of_length || lia).
    injection Hp as <-. rewrite <- (app_nil_r (call_transfer dst n)).
    rewrite (decode_transfer to sym) by (done || by eapply addr_of_length || lia). by rewrite native_leg_zero.
  - intros (_ & sp & n & _ & _ & Hp) Hs. apply pack_approve in Hp. rewrite decode_split, Hs, Hp, native_leg_zero.
    rewrite !bool_decide_eq_false_2 by (vm_compute; discriminate). cbn [andb]. by destruct (4 <=? _).
  - intros (_ & src & dst & n & Hsrc & Hd & Hn & Hp) Hs. exists src, n. split_and!; [done..|]. intros Hlt.
    pose proof (amount_pos _ _ _ _ Hn).
    unfold PackERC20TransferFrom in Hp. rewrite pack_transferFrom in Hp by (by eapply addr_of_length || lia).
    injection Hp as <-. rewrite <- (app_nil_r (call_transferFrom src dst n)).
    rewrite (decode_transferFrom to sym) by (done || by eapply addr_of_length || lia). by rewrite native_leg_zero.
Qed.

End Outflow.

(** ** Claims *)

(** C22: the ERC-20 and ERC-721 tools do what the request says, for the caller.  A
    payload any of the seven tools returns is for a tenant resolved from the
    request, calls the contract the request names on the chain it targets (for an
    approval the foreign chain it names, with the decimals read on that same
    chain), without native value, from the tenant owner's own address with its
    pending nonce; the data encode exactly the requested method, addresses, token
    id and exact amount; and the call changes no book, sends nothing and mints
    nothing. *)
Theorem erc_tool_faithful {RL : RateLib} {E : Env} {N : EVMEnv} {L : ChainLib} {D : DecLib} {B : ABILib} (d : EVMDeps)
    (ctx : context) (c : erc_tool) (s : srv) (p : EVMTxPayload) (s' : srv)
    (H : run_erc d ctx c s = (Ok p, s')) :
  erc_spec d ctx c s p /\ effects s' = effects s.
Proof.
  split; [by eapply erc_tool_inv|]. pose proof (keeps_run_erc d ctx c s) as Hk. by rewrite H in Hk.
Qed.

Definition demo_net : EVMEnv := {|
  env_client := fun _ _ => demo_evm;
  env_call := fun _ _ _ _ => Ok (map chr [200; 0; 0; 0]) |}.

Definition demo_deps : EVMDeps :=
  mkEVMDeps (Some (-1)) (Some (-1)) (Some (mkUniswapV2 (repeat (chr 7) 20) (repeat (chr 8) 20))) None None
    (Some (repeat (chr 9) 20)) (Some demo_registry) 2517
    {[11155111 := mkForeignChain 11155111 11155111 (repeat (chr 10) 20)]} 2517 false.

Definition demo_erc : erc_tool := E20Transfer (mkBuildERC20TransferInput demo_usdc demo_zero "1.5" "c1").

Definition demo_run_erc :=
  run_erc (RL := demo_rate) (E := demo_still) (N := demo_net) (L := demo_lib) (D := demo_dec) (B := demo_abi)
    demo_deps demo_ctx demo_erc demo_live.

Lemma erc_tool_faithful_witness :
  exists p s', demo_run_erc = (Ok p, s') /\ ep_SignerAddress p = "0x61"%string /\ effects s' = effects demo_live.
Proof.
  destruct demo_run_erc as [[p|e] s'] eqn:Er; [|vm_compute in Er; discriminate].
  exists p, s'. split; [reflexivity|].
  pose proof (erc_tool_faithful (N := demo_net) (D := demo_dec) (B := demo_abi) demo_deps demo_ctx demo_erc demo_live p s' Er)
    as [_ He].
  split; [|exact He]. apply (f_equal fst) in Er. vm_compute in Er. by injection Er as <-.
Defined.

(** C34: what a built transfer moves is what the broadcast check will charge.  The
    data of a payload of build_erc20_transfer on a capped token, decoded the way
    broadcast_evm_tx decodes a signed transaction, count exactly the requested
    amount of that token's symbol; build_erc20_transfer_from counts only when the
    tokens are pulled from the owner, and an approval counts nothing. *)
Theorem erc_tool_charged {RL : RateLib} {E : Env} {N : EVMEnv} {L : ChainLib} {D : DecLib} {B : ABILib}
    {LL : ChainLibLaws L} {DLL : DecLibLaws D} {BL : ABILaws B} (d : EVMDeps)
    (ctx : context) (c : erc_tool) (s : srv) (p : EVMTxPayload) (s' : srv) (router wsvp : Address)
    (H : run_erc d ctx c s = (Ok p, s')) :
  exists tp asm client to data owner, authorized ctx tp s /\ target_chain d c asm client
  /\ ownerEthAddress (tp_Owner tp) = Ok owner /\ ep_To p = Address_Hex to
  /\ BigSetString10 (ep_Value p) = Some 0 /\ hexutil_Decode (ep_Data p) = Ok data
  /\ forall sym, symbolForToken to = Some sym ->
       erc_outflow c client to owner sym (decodeTransferOut (Some to) (Some 0) data owner router wsvp).
Proof.
  apply erc_tool_inv in H as (tp & asm & client & to & data & Ha & Ht & Hc & Hr).
  destruct Hr as (n & owner & _ & _ & Ho & _ & _ & Eto & Ev & Ed & _).
  exists tp, asm, client, to, data, owner. rewrite Ev, Ed, BigSetString10_FormatInt, hexutil_roundtrip.
  split_and!; [done..|]. intros sym Hs. by apply erc_calls_outflow.
Qed.

Lemma erc_tool_charged_witness :
  exists p s' data, demo_run_erc = (Ok p, s') /\ @hexutil_Decode demo_lib (ep_Data p) = Ok data
  /\ decodeTransferOut (L := demo_lib) (Some usdc_bytes) (Some 0) data [] [] [] !! "usdc"%string = Some 1500000.
Proof.
  destruct demo_run_erc as [[p|e] s'] eqn:Er; [|vm_compute in Er; discriminate].
  destruct (erc_tool_charged (RL := demo_rate) (E := demo_still) (N := demo_net) (L := demo_lib) (D := demo_dec) (B := demo_abi) (LL := demo_lib_laws) (DLL := demo_dec_laws)
    (BL := demo_abi_laws) demo_deps demo_ctx demo_erc demo_live p s' [] [] Er)
    as (tp & asm & client & to & data & owner & _ & _ & _ & _ & _ & Ed & _).
  exists p, s', data. split; [reflexivity|]. split; [exact Ed|].
  apply (f_equal fst) in Er. vm_compute in Er. injection Er as <-. vm_compute in Ed. injection Ed as <-.
  vm_compute. reflexivity.
Defined.
