(* ===== verification/SwapTools.v ===== *)
(** * The swap tools (tools/swap.go)

    Quoting and building exact-input swaps on the router, and the approval the
    router needs; the pure planning functions come first. *)

From S2P Require Import Prelude GoStrings GoNum GoTime GoEncoding Limits TransferOut NonceStore IPRateLimiter.
From S2P Require Import SessionBearers DynamicTenants Policy Markets Units ChainLib Payload Assembler Assets.
From S2P Require Import TxInspect EVMBuilder BridgeRegistry Server AuthTools Broadcast Tools ABI EVMTools.

Definition defaultSlippageBps : Z := 50.
Definition defaultSwapDeadline : Duration := 20 * Minute.
Definition bpsDenom : Z := 10000.

(** The quotation mark of a format string. *)
Definition dq : string := String "034"%char EmptyString.

Inductive swapKind : Type := kindTokensForTokens | kindSVPForTokens | kindTokensForSVP.

Record swapPlan : Type := mkSwapPlan { sp_kind : swapKind; sp_path : list Address }.

Definition resolveSwapPlan (inAddr : Address) (inNative : bool) (outAddr : Address) (outNative : bool) (wsvp : Address)
  : result swapPlan :=
  match inNative, outNative with
  | true, true => Err (Errorf "token_in and token_out are both native SVP — nothing to swap" [])
  | true, false => Ok (mkSwapPlan kindSVPForTokens [wsvp; outAddr])
  | false, true => Ok (mkSwapPlan kindTokensForSVP [inAddr; wsvp])
  | false, false =>
      if addr_eqb inAddr outAddr then Err (Errorf "token_in and token_out are the same token" [])
      else Ok (mkSwapPlan kindTokensForTokens [inAddr; outAddr])
  end.

Definition applySlippage (out bps : Z) : result Z :=
  _ ← check ((bps <? 0) || (bpsDenom <=? bps))
        (Errorf "slippage_bps must be in [0, %d), got %d" [FInt bpsDenom; FInt bps]);
  Ok (out * (bpsDenom - bps) / bpsDenom).

(** The deadline of a swap in Unix seconds; the duration is an int64 of
    nanoseconds. *)
Definition swap_deadline (deadlineSec : Z) (t : Time) : Z :=
  let deadlineSec := if deadlineSec <=? 0 then defaultSwapDeadline / Second else deadlineSec in
  Unix (t + i64 (deadlineSec * Second)).

(** [fmt.Sprintf("%.2f", float64(bps)/100)] for a number of basis points. *)
Definition percent (bps : Z) : string :=
  (FormatUint (bps / 100) +:+ "." +:+ pad_left 2 (FormatUint (bps mod 100)))%string.

(** [math.NewIntFromBigInt] *)
Definition NewIntFromBigInt (z : Z) : result Z :=
  _ ← check (2 ^ 256 <=? Z.abs z) (Panic "NewIntFromBigInt() out of bound"); Ok z.

Section Labels.
Context {L : ChainLib} {U : Unicode}.

Definition knownTokenSymbol (addr : Address) : option string :=
  kv ← List.find (fun kv => addr_eqb (kt_address (snd kv)) addr) knownSwapTokens;
  Some (ToUpper (fst kv)).

Definition tokenLabel (native : bool) (addr : Address) : string :=
  if native then "native" else default (Address_Hex addr) (knownTokenSymbol addr).

Definition addrsToHex (path : list Address) : list string := map Address_Hex path.

Definition parseSwapToken (s : string) : result (Address * bool) :=
  let t := TrimSpace s in
  let key := ToLower t in
  if String.eqb key "" || String.eqb key "native" || String.eqb key "svp" then Ok (zero_address, true)
  else match List.find (fun kv => String.eqb (fst kv) key) knownSwapTokens with
       | Some kv => Ok (kt_address (snd kv), false)
       | None =>
           _ ← check (negb (IsHexAddress t))
                 (Errorf ("invalid token %q: use a 0x address, a known symbol (usdv), or empty/" +:+ dq +:+ "native"
                            +:+ dq +:+ "/" +:+ dq +:+ "svp" +:+ dq +:+ " for native SVP")%string [FStr s]);
           let addr := HexToAddress t in
           if addr_eqb addr zero_address then Ok (zero_address, true) else Ok (addr, false)
       end.

End Labels.

Record QuoteSwapInput : Type := mkQuoteSwapInput { qi_TokenIn : string; qi_TokenOut : string; qi_AmountIn : string }.

Record QuoteSwapOutput : Type := mkQuoteSwapOutput {
  qo_TokenIn : string; qo_TokenOut : string; qo_Path : list string; qo_AmountIn : string; qo_AmountInBase : string;
  qo_ExpectedOut : string; qo_ExpectedOutBase : string }.

Record BuildTokenApprovalInput : Type := mkBuildTokenApprovalInput {
  ta_Token : string; ta_Amount : string; ta_Unlimited : bool; ta_ClientID : string }.

Record BuildSwapInput : Type := mkBuildSwapInput {
  si_TokenIn : string; si_TokenOut : string; si_AmountIn : string; si_SlippageBps : Z; si_DeadlineSec : Z;
  si_ClientID : string }.

Record BuildSwapOutput : Type := mkBuildSwapOutput {
  so_Payload : EVMTxPayload; so_ExpectedOut : string; so_MinOut : string; so_MinOutBase : string; so_SlippageBps : Z }.

Section Swap.
Context {RL : RateLib} {E : Env} {N : EVMEnv} {L : ChainLib} {D : DecLib} {B : ABILib} {U : Unicode} (d : EVMDeps).

(** The home client and assembler, and the binding of the router. *)
Definition requireSwap : result (Z * Z * UniswapV2) :=
  home ← requireEVM d;
  uni ← from_opt (ed_Uniswap d)
          (userErrf "swaps are not enabled on this server (no evm_uniswap_router_addr / evm_wsvp_addr configured)" []);
  Ok (home, uni).

Definition tokenDecimals (client : Z) (native : bool) (token : Address) : M srv Z :=
  if native then mret 18
  else
    data ← lift PackDecimals;
    out ← wrapM (fun e => Errorf "read decimals for %s (is it an ERC-20?): %w" [FStr (Address_Hex token); FErr e])
            (evmCallOn client token data);
    lift (wrap (fun e => Errorf "read decimals for %s: %w" [FStr (Address_Hex token); FErr e]) (UnpackDecimals out)).

Definition erc20Balance (client : Z) (token account : Address) : M srv Z :=
  data ← lift (PackBalanceOf account);
  out ← wrapM (fun e => Errorf "read balanceOf for %s: %w" [FStr (Address_Hex token); FErr e])
          (evmCallOn client token data);
  lift (UnpackBalanceOf out).

Definition quoteAmountsOut (client : Z) (uni : UniswapV2) (amountIn : Z) (path : list Address) : M srv (list Z) :=
  data ← lift (PackGetAmountsOut amountIn path);
  out ← wrapM (fun e => Errorf "quote getAmountsOut (no liquidity for this path?): %w" [FErr e])
          (evmCallOn client (Router uni) data);
  lift (UnpackAmounts out).

Definition checkAllowance (client : Z) (uni : UniswapV2) (token owner : Address) (amountIn : Z) (amountHuman : string)
  : M srv unit :=
  data ← lift (PackAllowance owner (Router uni));
  out ← wrapM (fun e => Errorf "read allowance for %s: %w" [FStr (Address_Hex token); FErr e])
          (evmCallOn client token data);
  allowance ← lift (UnpackAllowance out);
  lift (check (allowance <? amountIn)
          (userErrf "router allowance for %s is insufficient — call build_token_approval (token %s, amount >= %s) first, then retry build_swap"
             [FStr (Address_Hex token); FStr (Address_Hex token); FStr amountHuman])).

(** [amounts[len(amounts)-1]] *)
Definition last_amount (amounts : list Z) : Z := List.last amounts 0.

Definition QuoteSwap (ctx : context) (inp : QuoteSwapInput) : M srv QuoteSwapOutput :=
  _ ← authorize ctx "quote_swap";
  req ← lift requireSwap;
  let '(client, _, uni) := req in
  tin ← lift (wrap (fun e => Errorf "token_in: %w" [FErr e]) (parseSwapToken (qi_TokenIn inp)));
  let '(inAddr, inNative) := tin in
  tout ← lift (wrap (fun e => Errorf "token_out: %w" [FErr e]) (parseSwapToken (qi_TokenOut inp)));
  let '(outAddr, outNative) := tout in
  plan ← lift (resolveSwapPlan inAddr inNative outAddr outNative (WSVP uni));
  decIn ← tokenDecimals client inNative inAddr;
  amountInBase ← lift (wrap (fun e => Errorf "amount_in: %w" [FErr e]) (humanToBaseUnits (qi_AmountIn inp) decIn));
  amounts ← quoteAmountsOut client uni amountInBase (sp_path plan);
  let expectedOut := last_amount amounts in
  decOut ← tokenDecimals client outNative outAddr;
  expected ← lift (NewIntFromBigInt expectedOut);
  mret {| qo_TokenIn := tokenLabel inNative inAddr;
          qo_TokenOut := tokenLabel outNative outAddr;
          qo_Path := addrsToHex (sp_path plan);
          qo_AmountIn := qi_AmountIn inp;
          qo_AmountInBase := FormatInt amountInBase;
          qo_ExpectedOut := humanAmount expected decOut;
          qo_ExpectedOutBase := FormatInt expectedOut |}.

Definition BuildTokenApproval (ctx : context) (inp : BuildTokenApprovalInput) : M srv EVMTxPayload :=
  tp ← authorize ctx "build_token_approval";
  req ← lift requireSwap;
  let '(client, asm, uni) := req in
  tok ← lift (wrap (fun e => Errorf "token: %w" [FErr e]) (parseSwapToken (ta_Token inp)));
  let '(addr, native) := tok in
  _ ← lift (check native (userErrf "native SVP needs no approval; only ERC-20 input tokens do" []));
  amount ← (if negb (ta_Unlimited inp) then
              dec ← tokenDecimals client false addr;
              lift (wrap (fun e => Errorf "amount: %w" [FErr e]) (humanToBaseUnits (ta_Amount inp) dec))
            else mret maxUint256);
  let amountLabel := if negb (ta_Unlimited inp) then ta_Amount inp else "unlimited"%string in
  data ← lift (PackApprove (Router uni) amount);
  from ← lift (ownerEthAddress (tp_Owner tp));
  asm_Assemble asm (mkEVMArgs (ta_ClientID inp) from addr data None
    (mkEVMSummary "build_token_approval"
       ("approve router " +:+ Address_Hex (Router uni) +:+ " to spend " +:+ amountLabel +:+ " of " +:+ Address_Hex addr)%string)).

(** The call of the router for a plan, and the native value it carries. *)
Definition pack_swap (plan : swapPlan) (amountIn minOut : Z) (to : Address) (deadline : Z) : result bytes :=
  match sp_kind plan with
  | kindTokensForTokens => PackSwapExactTokensForTokens amountIn minOut (sp_path plan) to deadline
  | kindSVPForTokens => PackSwapExactSVPForTokens minOut (sp_path plan) to deadline
  | kindTokensForSVP => PackSwapExactTokensForSVP amountIn minOut (sp_path plan) to deadline
  end.

Definition swap_value (plan : swapPlan) (amountIn : Z) : Z :=
  match sp_kind plan with kindSVPForTokens => amountIn | _ => 0 end.

Definition BuildSwap (ctx : context) (inp : BuildSwapInput) : M srv BuildSwapOutput :=
  tp ← authorize ctx "build_swap";
  req ← lift requireSwap;
  let '(client, asm, uni) := req in
  tin ← lift (wrap (fun e => Errorf "token_in: %w" [FErr e]) (parseSwapToken (si_TokenIn inp)));
  let '(inAddr, inNative) := tin in
  tout ← lift (wrap (fun e => Errorf "token_out: %w" [FErr e]) (parseSwapToken (si_TokenOut inp)));
  let '(outAddr, outNative) := tout in
  plan ← lift (resolveSwapPlan inAddr inNative outAddr outNative (WSVP uni));
  let slippage := if si_SlippageBps inp =? 0 then defaultSlippageBps else si_SlippageBps inp in
  from ← lift (ownerEthAddress (tp_Owner tp));
  decIn ← tokenDecimals client inNative inAddr;
  amountIn ← lift (wrap (fun e => Errorf "amount_in: %w" [FErr e]) (humanToBaseUnits (si_AmountIn inp) decIn));
  _ ← (if negb inNative then checkAllowance client uni inAddr from amountIn (si_AmountIn inp) else mret tt);
  amounts ← quoteAmountsOut client uni amountIn (sp_path plan);
  let expectedOut := last_amount amounts in
  minOut ← lift (applySlippage expectedOut slippage);
  _ ← lift (check (minOut <=? 0)
              (userErrf "quoted output rounds to zero — amount_in is too small for this path" []));
  t ← now;
  let deadline := swap_deadline (si_DeadlineSec inp) t in
  data ← lift (pack_swap plan amountIn minOut from deadline);
  let value := swap_value plan amountIn in
  decOut ← tokenDecimals client outNative outAddr;
  minInt ← lift (NewIntFromBigInt minOut);
  p ← asm_Assemble asm (mkEVMArgs (si_ClientID inp) from (Router uni) data (Some value)
         (mkEVMSummary "build_swap"
            ("swap " +:+ si_AmountIn inp +:+ " " +:+ tokenLabel inNative inAddr +:+ " -> >=" +:+ humanAmount minInt decOut
               +:+ " " +:+ tokenLabel outNative outAddr +:+ " (" +:+ percent slippage +:+ "% max slippage)")%string));
  expected ← lift (NewIntFromBigInt expectedOut);
  mret {| so_Payload := p;
          so_ExpectedOut := humanAmount expected decOut;
          so_MinOut := humanAmount minInt decOut;
          so_MinOutBase := FormatInt minOut;
          so_SlippageBps := slippage |}.

End Swap.

(** ** Lemmas *)

Lemma resolveSwapPlan_inv inA inN outA outN wsvp plan :
  resolveSwapPlan inA inN outA outN wsvp = Ok plan ->
  sp_path plan = [if inN then wsvp else inA; if outN then wsvp else outA]
  /\ inN && outN = false /\ (inN = false -> outN = false -> inA <> outA)
  /\ sp_kind plan = (if inN then kindSVPForTokens else if outN then kindTokensForSVP else kindTokensForTokens).
Proof.
  unfold resolveSwapPlan. destruct inN, outN; try done; [by intros [= <-]..|].
  unfold addr_eqb. case_bool_decide; [done|]. by intros [= <-].
Qed.

Lemma applySlippage_inv out bps m :
  applySlippage out bps = Ok m ->
  0 <= bps < bpsDenom /\ m * bpsDenom <= out * (bpsDenom - bps) < (m + 1) * bpsDenom.
Proof.
  unfold applySlippage. destruct (Z.ltb_spec bps 0); cbn; [done|]. destruct (Z.leb_spec bpsDenom bps); cbn; [done|].
  intros [= <-]. split; [done|]. assert (0 < bpsDenom) by done.
  pose proof (Z.div_mod (out * (bpsDenom - bps)) bpsDenom ltac:(lia)).
  pose proof (Z.mod_pos_bound (out * (bpsDenom - bps)) bpsDenom ltac:(lia)). lia.
Qed.

(** Deadlines of up to 292 years are exact. *)
Lemma swap_deadline_exact sec t :
  sec * Second < 2 ^ 63 -> swap_deadline sec t = Unix t + (if sec <=? 0 then 1200 else sec).
Proof.
  intros Hs. unfold swap_deadline, Unix, i64. change (defaultSwapDeadline / Second) with 1200.
  assert (0 < Second) by done.
  destruct (Z.leb_spec sec 0); rewrite Z.mod_small by (unfold Second in *; lia).
  - replace (t + (1200 * Second + 2 ^ 63 - 2 ^ 63)) with (t + 1200 * Second) by lia. apply Z.div_add. lia.
  - replace (t + (sec * Second + 2 ^ 63 - 2 ^ 63)) with (t + sec * Second) by lia. apply Z.div_add. lia.
Qed.

(** A longer one wraps: the deadline lies before the call. *)
Theorem swap_deadline_wraps : exists sec, 0 < sec < 2 ^ 63 /\ forall t, swap_deadline sec t < Unix t.
Proof.
  exists 9223372037. split; [lia|]. intros t. unfold swap_deadline, Unix.
  change (if 9223372037 <=? 0 then defaultSwapDeadline / Second else 9223372037) with 9223372037.
  change (i64 (9223372037 * Second)) with (-9223372036709551616).
  apply Z.div_lt_upper_bound; [done|]. assert (t < Second * (t / Second) + Second).
  { pose proof (Z.div_mod t Second ltac:(done)). pose proof (Z.mod_pos_bound t Second ltac:(done)). lia. }
  unfold Second in *. lia.
Qed.

Section Facts.
Context {RL : RateLib} {E : Env} {N : EVMEnv} {L : ChainLib} {D : DecLib} {B : ABILib} {U : Unicode} (d : EVMDeps).

(** What the home node answered at an interaction. *)
Definition decimals_of (n : nat) (client : Z) (native : bool) (token : Address) (dec : Z) : Prop :=
  if native then dec = 18
  else exists data out, PackDecimals = Ok data /\ env_call n client token data = Ok out /\ UnpackDecimals out = Ok dec.
Definition quoted (n : nat) (client : Z) (router : Address) (amountIn : Z) (path : list Address) (amounts : list Z) : Prop :=
  exists data out, PackGetAmountsOut amountIn path = Ok data /\ env_call n client router data = Ok out
  /\ UnpackAmounts out = Ok amounts.
Definition allowed_to (n : nat) (client : Z) (token owner spender : Address) (allowance : Z) : Prop :=
  exists data out, PackAllowance owner spender = Ok data /\ env_call n client token data = Ok out
  /\ UnpackAllowance out = Ok allowance.

Lemma tokenDecimals_inv client native token s dec s' :
  tokenDecimals client native token s = (Ok dec, s') ->
  decimals_of (s_reads s) client native token dec /\ s_reads s' = (s_reads s + if native then 0 else 1)%nat.
Proof.
  unfold tokenDecimals, decimals_of. destruct native; [intros [= <- <-]; by rewrite Nat.add_0_r|]. intros H.
  l_inv H as data Hd. m_inv H as out s1 H1. apply wrapM_ok, evmCallOn_at in H1 as [Hn ->].
  apply lift_ok in H as [H%wrap_ok ->]. cbn [s_reads set_reads]. rewrite Nat.add_1_r. split; [by exists data, out|done].
Qed.

Lemma quoteAmountsOut_inv client uni amountIn path s amounts s' :
  quoteAmountsOut client uni amountIn path s = (Ok amounts, s') ->
  quoted (s_reads s) client (Router uni) amountIn path amounts /\ s_reads s' = S (s_reads s).
Proof.
  unfold quoteAmountsOut. intros H. l_inv H as data Hd. m_inv H as out s1 H1.
  apply wrapM_ok, evmCallOn_at in H1 as [Hn ->]. apply lift_ok in H as [H ->]. split; [by exists data, out|done].
Qed.

Lemma checkAllowance_inv client uni token owner amountIn human s u s' :
  checkAllowance client uni token owner amountIn human s = (Ok u, s') ->
  (exists a, allowed_to (s_reads s) client token owner (Router uni) a /\ amountIn <= a) /\ s_reads s' = S (s_reads s).
Proof.
  unfold checkAllowance. intros H. l_inv H as data Hd. m_inv H as out s1 H1.
  apply wrapM_ok, evmCallOn_at in H1 as [Hn ->]. l_inv H as a Ha. apply lift_ok in H as [H ->]. split; [|done].
  exists a. split; [by exists data, out|]. destruct (Z.ltb_spec a amountIn); [done|lia].
Qed.

Lemma requireSwap_inv client asm uni :
  requireSwap d = Ok (client, asm, uni) ->
  ed_EVM d = Some client /\ ed_Assembler d = Some asm /\ ed_Uniswap d = Some uni.
Proof.
  unfold requireSwap. destruct (requireEVM d) as [home|] eqn:Eh; cbn [mbind result_bind]; [|done].
  apply requireEVM_inv in Eh as [H1 H2]. destruct (ed_Uniswap d) as [u|]; cbn; [|done]. intros [= -> <-].
  by split_and!.
Qed.

(** The method of the router for a pair of sides, and its arguments: native input
    is the value of the transaction and no argument. *)
Definition router_call (inNative outNative : bool) (amountIn minOut : Z) (path : list Address) (to : Address) (deadline : Z)
  : string * list abi_value :=
  match inNative, outNative with
  | true, _ => ("swapExactSVPForTokens"%string, [ABig minOut; AAddrs path; AAddr to; ABig deadline])
  | false, true => ("swapExactTokensForSVP"%string, [ABig amountIn; ABig minOut; AAddrs path; AAddr to; ABig deadline])
  | false, false => ("swapExactTokensForTokens"%string, [ABig amountIn; ABig minOut; AAddrs path; AAddr to; ABig deadline])
  end.

(** A swap as requested, from the interaction [n] on: what is spent, where it
    goes, what the router may give. *)
Definition swap_ok (n : nat) (owner : string) (inp : BuildSwapInput) (out : BuildSwapOutput) : Prop :=
  exists client asm uni inA (inN : bool) outA (outN : bool) from decIn amountIn amounts minOut deadline data,
    let path := [if inN then WSVP uni else inA; if outN then WSVP uni else outA] in
    let k := if inN then n else S (S n) in
    ed_EVM d = Some client /\ ed_Assembler d = Some asm /\ ed_Uniswap d = Some uni
    /\ parseSwapToken (si_TokenIn inp) = Ok (inA, inN) /\ parseSwapToken (si_TokenOut inp) = Ok (outA, outN)
    /\ inN && outN = false /\ (inN = false -> outN = false -> inA <> outA)
    /\ ownerEthAddress owner = Ok from
    /\ decimals_of n client inN inA decIn /\ humanToBaseUnits (si_AmountIn inp) decIn = Ok amountIn
    /\ (inN = false -> exists a, allowed_to (S n) client inA from (Router uni) a /\ amountIn <= a)
    /\ quoted k client (Router uni) amountIn path amounts
    /\ so_SlippageBps out = (if si_SlippageBps inp =? 0 then 50 else si_SlippageBps inp)
    /\ 0 <= so_SlippageBps out < 10000
    /\ 0 < minOut
    /\ minOut * 10000 <= last_amount amounts * (10000 - so_SlippageBps out) < (minOut + 1) * 10000
    /\ so_MinOutBase out = FormatInt minOut
    /\ (let '(method, args) := router_call inN outN amountIn minOut path from deadline in
        abi_Pack uniswapV2RouterABI method args = Ok data)
    /\ (si_DeadlineSec inp * Second < 2 ^ 63 ->
        deadline = Unix (env_clock (S k)) + (if si_DeadlineSec inp <=? 0 then 1200 else si_DeadlineSec inp))
    /\ requests asm owner (si_ClientID inp) (Router uni) (if inN then amountIn else 0) data (so_Payload out).

Lemma BuildSwap_inv ctx inp s out s' :
  BuildSwap d ctx inp s = (Ok out, s') -> exists tp, authorized ctx tp s /\ swap_ok (s_reads s + 3) (tp_Owner tp) inp out.
Proof.
  intros H. unfold BuildSwap in H. m_inv H as tp s1 H1. apply authorize_ok in H1 as [Ha (rt & Hs1)]. exists tp. split; [done|].
  assert (s_reads s1 = s_reads s + 3)%nat as Hr by (by rewrite Hs1). clear Hs1. rewrite <- Hr.
  l_inv H as req Hreq. destruct req as [[client asm] uni]. apply requireSwap_inv in Hreq as (R1 & R2 & R3).
  l_inv H as tin Hin. destruct tin as [inA inN]. l_inv H as tout Hout. destruct tout as [outA outN].
  l_inv H as plan Hp. apply resolveSwapPlan_inv in Hp as (P1 & P2 & P3 & P4).
  l_inv H as from Hf. m_inv H as decIn s2 H2. apply tokenDecimals_inv in H2 as [H2 N2]. l_inv H as amountIn Hai.
  m_inv H as u s3 H3. m_inv H as amounts s4 H4. apply quoteAmountsOut_inv in H4 as [H4 N4]. l_inv H as minOut Hm.
  apply applySlippage_inv in Hm as [Hb Hm]. l_inv H as u' Hpos. m_inv H as t s5 H5. rewrite now_eq in H5. injection H5 as <- <-.
  l_inv H as data Hd.
  m_inv H as decOut s6 H6. l_inv H as minInt Hmi. m_inv H as p s7 H7. l_inv H as expected He. injection H as <- _.
  apply (asm_Assemble_requests _ (tp_Owner tp)) in H7; [|done]. rewrite P1 in H4.
  assert ((inN = false -> exists a, allowed_to (S (s_reads s1)) client inA from (Router uni) a /\ amountIn <= a)
    /\ s_reads s3 = if inN then s_reads s1 else S (S (s_reads s1))) as [Hall N3].
  { destruct inN; cbn [negb] in H3; [injection H3 as _ <-; by rewrite N2, Nat.add_0_r|].
    apply checkAllowance_inv in H3 as [H3 N3]. rewrite N2, Nat.add_1_r in H3, N3. done. }
  rewrite N3 in H4, N4. apply wrap_ok in Hin, Hout, Hai. destruct (Z.leb_spec minOut 0); [done|].
  exists client, asm, uni, inA, inN, outA, outN, from, decIn, amountIn, amounts, minOut,
    (swap_deadline (si_DeadlineSec inp) (env_clock (s_reads s4))), data.
  cbn [so_SlippageBps so_MinOutBase so_Payload]. cbn [ea_ClientID ea_To ea_Value ea_Data default id] in H7.
  unfold swap_value in H7. rewrite P4 in H7. unfold pack_swap in Hd. rewrite P4, P1 in Hd.
  unfold defaultSlippageBps, bpsDenom in *. cbv zeta. rewrite <- N4.
  split_and!; try done; try lia; [|apply swap_deadline_exact|]; by destruct inN, outN.
Qed.

Lemma keeps_tokenDecimals client native token : keeps effects (tokenDecimals client native token).
Proof. unfold tokenDecimals. destruct native; keeps_tac. Qed.
Lemma keeps_quoteAmountsOut client uni a path : keeps effects (quoteAmountsOut client uni a path).
Proof. unfold quoteAmountsOut. keeps_tac. Qed.
Lemma keeps_checkAllowance client uni token owner a human : keeps effects (checkAllowance client uni token owner a human).
Proof. unfold checkAllowance. keeps_tac. Qed.
#[local] Hint Resolve keeps_tokenDecimals keeps_quoteAmountsOut keeps_checkAllowance : keeps.

Lemma keeps_BuildSwap ctx inp : keeps effects (BuildSwap d ctx inp).
Proof. unfold BuildSwap. keeps_tac. Qed.
Lemma keeps_BuildTokenApproval ctx inp : keeps effects (BuildTokenApproval d ctx inp).
Proof. unfold BuildTokenApproval. keeps_tac. Qed.
Lemma keeps_QuoteSwap ctx inp : keeps effects (QuoteSwap d ctx inp).
Proof. unfold QuoteSwap. keeps_tac. Qed.

End Facts.
#[export] Hint Resolve keeps_BuildSwap keeps_BuildTokenApproval keeps_QuoteSwap : keeps.

(** ** Claims *)


Definition demo_swap : BuildSwapInput := mkBuildSwapInput "usdc" "svp" "1.5" 100 60 "c1".
Definition demo_BuildSwap :=
  BuildSwap (RL := demo_rate) (E := demo_still) (N := demo_net) (L := demo_lib) (D := demo_dec) (B := demo_abi)
    (U := unicode_id) demo_deps demo_ctx demo_swap demo_live.

