(* ===== verification/AccountTools.v ===== *)
(** * The account tools (tools/account.go, tools/account_v021.go,
      chain/subaccount_query.go, chain/bank_query.go)

    Reads of a tenant's own subaccounts, orders, fills, transfers, profit and
    funding from the indexer, of the live subaccount and the wallet from the
    chain, and [whoami]. *)

From S2P Require Import Prelude GoStrings GoNum GoTime GoEncoding Http Limits TransferOut NonceStore IPRateLimiter.
From S2P Require Import SessionBearers DynamicTenants Policy Markets Units ChainLib Payload Assembler Assets.
From S2P Require Import TxInspect EVMBuilder BridgeRegistry ABI LendoraCache Server AuthTools Broadcast Indexer.
From S2P Require Import Builders Tools EVMTools SwapTools.

(** ** The chain's answers *)

(** dtypes.SerializableInt and its text. *)
Class SerialLib : Type := { SerializableInt : Type; serial_String : SerializableInt -> string }.

Section Types.
Context {SI : SerialLib}.

Record AssetPosition : Type := mkAssetPosition { ap_AssetId : Z; ap_Quantums : SerializableInt; ap_Index : Z }.
Record PerpetualPosition : Type := mkPerpetualPosition {
  pp_PerpetualId : Z; pp_Quantums : SerializableInt; pp_FundingIndex : SerializableInt; pp_QuoteBalance : SerializableInt }.

(** satypes.Subaccount; the positions are pointers. *)
Record ChainSubaccount : Type := mkChainSubaccount {
  cs_Id : option SubaccountId;
  cs_AssetPositions : list (option AssetPosition);
  cs_PerpetualPositions : list (option PerpetualPosition);
  cs_MarginEnabled : bool;
}.

(** The gRPC queries. *)
Class ChainQueries : Type := {
  grpc_Subaccount : nat -> string -> Z -> result ChainSubaccount;
  grpc_AllBalances : nat -> string -> result (list Coin);
}.

Record LiveSubaccountIDDTO : Type := mkLiveId { li_Owner : string; li_Number : Z }.
Record LiveAssetPositionDTO : Type := mkLiveAsset { la_AssetId : Z; la_Quantums : string; la_Index : Z }.
Record LivePerpetualPositionDTO : Type := mkLivePerp {
  lp_PerpetualId : Z; lp_Quantums : string; lp_FundingIndex : string; lp_QuoteBalance : string }.
Record LiveSubaccountDTO : Type := mkLiveSubaccount {
  ls_Id : LiveSubaccountIDDTO;
  ls_AssetPositions : list LiveAssetPositionDTO;
  ls_PerpetualPositions : list LivePerpetualPositionDTO;
  ls_MarginEnabled : bool;
}.

Definition live_asset (ap : AssetPosition) : LiveAssetPositionDTO :=
  mkLiveAsset (ap_AssetId ap) (serial_String (ap_Quantums ap)) (ap_Index ap).
Definition live_perp (pp : PerpetualPosition) : LivePerpetualPositionDTO :=
  mkLivePerp (pp_PerpetualId pp) (serial_String (pp_Quantums pp)) (serial_String (pp_FundingIndex pp))
    (serial_String (pp_QuoteBalance pp)).

(** The loops that skip nil positions. *)
Fixpoint project {X Y} (f : X -> Y) (l : list (option X)) : list Y :=
  match l with
  | [] => []
  | None :: l' => project f l'
  | Some x :: l' => f x :: project f l'
  end.

Definition liveSubaccountFromChain (sub : ChainSubaccount) : LiveSubaccountDTO :=
  mkLiveSubaccount
    (match cs_Id sub with Some id => mkLiveId (sa_Owner id) (sa_Number id) | None => mkLiveId "" 0 end)
    (project live_asset (cs_AssetPositions sub)) (project live_perp (cs_PerpetualPositions sub)) (cs_MarginEnabled sub).

End Types.

Record BalanceDTO : Type := mkBalanceDTO {
  bd_Denom : string; bd_Amount : string; bd_Symbol : string; bd_Display : string; bd_Source : string }.
Record GetBalanceOutput : Type := mkGetBalanceOutput { gb_Owner : string; gb_Balances : list BalanceDTO }.

Record WhoamiOutput : Type := mkWhoamiOutput {
  wo_ChainID : string; wo_TenantID : string; wo_Owner : string; wo_AllowedSubaccounts : list Z; wo_BroadcastMode : string;
  wo_KillSwitch : bool }.

Record GetOrdersInput : Type := mkGetOrdersInput {
  go_Address : string; go_SubaccountNumber : Z; go_Status : string; go_Side : string; go_Type : string;
  go_Ticker : string; go_GoodTilBlockBefore : string; go_ReturnLatestOrders : string }.

(** ** Wallet balances *)

Section Balances.
Context {L : ChainLib} {D : DecLib}.

(** [c.Amount.String()] *)
Definition amount_text (a : option Z) : string := match a with Some z => FormatInt z | None => "<nil>" end.

Definition coin_dto (c : Coin) : result BalanceDTO :=
  match knownDenoms (coin_Denom c) with
  | Some (symbol, decimals) =>
      match coin_Amount c with
      | Some a => Ok (mkBalanceDTO (coin_Denom c) (FormatInt a) symbol (humanAmount a decimals) "")
      | None => Err (Panic "invalid memory address or nil pointer dereference")
      end
  | None => Ok (mkBalanceDTO (coin_Denom c) (amount_text (coin_Amount c)) "" "" "")
  end.

Fixpoint balancesFromCoins (coins : list Coin) : result (list BalanceDTO) :=
  match coins with
  | [] => Ok []
  | c :: cs => d ← coin_dto c; rest ← balancesFromCoins cs; Ok (d :: rest)
  end.

End Balances.

(** sort.Strings *)
Fixpoint insert_string (x : string) (l : list string) : list string :=
  match l with
  | [] => [x]
  | y :: l' => if String.leb x y then x :: y :: l' else y :: insert_string x l'
  end.
Definition sort_strings (l : list string) : list string := foldr insert_string [] l.

Section Account.
Context {RL : RateLib} {E : Env} {HE : HttpEnv} {N : EVMEnv} {SI : SerialLib} {CQ : ChainQueries} {J : JsonLib} {JD : JsonDecoders}.
Context {L : ChainLib} {D : DecLib} {B : ABILib} {U : Unicode}.
Context (indexer : Client) (d : EVMDeps) (chainID broadcastMode : string).

(** The first lines of every read of a subaccount. *)
Definition own_subaccount (ctx : context) (tool address : string) (number : Z) : M srv TenantPolicy :=
  tp ← authorizeOwner ctx tool address;
  _ ← policy (CheckSubaccount (tp_TenantID tp) number);
  mret tp.

(** [errors.Is(err, indexer.ErrNotFound)] turned into an empty answer. *)
Definition not_found_as {A} (empty : A) (m : M srv A) : M srv A :=
  r ← lendora.try m;
  match r with
  | Ok a => mret a
  | Err e => if errors_Is ErrNotFound e then mret empty else fail e
  end.

Definition GetSubaccount (ctx : context) (address : string) (number : Z) : M srv Subaccount :=
  _ ← own_subaccount ctx "get_subaccount" address number;
  cli_GetSubaccount indexer address number.

(** chain.SubaccountQueryClient.Subaccount *)
Definition chain_Subaccount (owner : string) (number : Z) : M srv ChainSubaccount :=
  n ← tick;
  lift (wrap (fun e => Errorf "subaccounts.Query/Subaccount %s/%d: %w" [FStr owner; FInt number; FErr e])
          (grpc_Subaccount n owner number)).

(** chain.BankQueryClient.AllBalances *)
Definition AllBalances (address : string) : M srv (list Coin) :=
  n ← tick;
  lift (wrap (fun e => Errorf "bank.Query/AllBalances %s: %w" [FStr address; FErr e]) (grpc_AllBalances n address)).

Definition GetLiveSubaccount (ctx : context) (owner : string) (number : Z) : M srv LiveSubaccountDTO :=
  _ ← own_subaccount ctx "get_live_subaccount" owner number;
  sub ← chain_Subaccount owner number;
  mret (liveSubaccountFromChain sub).

(** One token of the loop of [erc20Balances]: nothing when a read fails or the
    balance is not positive. *)
Definition erc20_row (client : Z) (ownerEth : Address) (sym : string) : M srv (list BalanceDTO) :=
  match List.find (fun kv => String.eqb (fst kv) sym) knownSwapTokens with
  | None => mret []
  | Some (_, kt) =>
      if kt_bankLinked kt then mret []
      else
        b ← lendora.try (erc20Balance client (kt_address kt) ownerEth);
        match b with
        | Err _ => mret []
        | Ok bal =>
            if Z.sgn bal <=? 0 then mret []
            else
              r ← lendora.try (tokenDecimals client false (kt_address kt));
              match r with
              | Err _ => mret []
              | Ok dec =>
                  i ← lift (NewIntFromBigInt bal);
                  mret [mkBalanceDTO (Address_Hex (kt_address kt)) (FormatInt bal) (ToUpper sym) (humanAmount i dec) "erc20"]
              end
        end
  end.

Fixpoint erc20_loop (client : Z) (ownerEth : Address) (symbols : list string) : M srv (list BalanceDTO) :=
  match symbols with
  | [] => mret []
  | sym :: rest => row ← erc20_row client ownerEth sym; out ← erc20_loop client ownerEth rest; mret (row ++ out)
  end.

Definition erc20Balances (owner : string) : M srv (list BalanceDTO) :=
  match ed_EVM d, ed_Uniswap d with
  | Some client, Some _ =>
      match ownerEthAddress owner with
      | Err _ => mret []
      | Ok ownerEth => erc20_loop client ownerEth (sort_strings (map fst knownSwapTokens))
      end
  | _, _ => mret []
  end.

Definition GetBalance (ctx : context) (owner : string) : M srv GetBalanceOutput :=
  tp ← authorizeOwner ctx "get_balance" owner;
  coins ← AllBalances owner;
  balances ← lift (balancesFromCoins coins);
  erc ← erc20Balances (tp_Owner tp);
  mret (mkGetBalanceOutput (tp_Owner tp) (balances ++ erc)).

(** The subaccounts are listed in the order of [elements]; the source leaves the
    order to the map iteration. *)
Definition Whoami (ctx : context) : M srv WhoamiOutput :=
  match TenantFrom ctx with
  | None => fail ErrNoTenant
  | Some tc =>
      tp ← policy (Tenant (tc_TenantID tc));
      mret (mkWhoamiOutput chainID (tp_TenantID tp) (tp_Owner tp) (elements (tp_AllowedSubaccounts tp)) broadcastMode
              (tp_KillSwitch tp))
  end.

Definition order_filters (inp : GetOrdersInput) : list (string * string) :=
  [("status", go_Status inp); ("side", go_Side inp); ("type", go_Type inp); ("ticker", go_Ticker inp);
   ("goodTilBlockBefore", go_GoodTilBlockBefore inp); ("returnLatestOrders", go_ReturnLatestOrders inp)]%string.

Definition GetOrders (ctx : context) (inp : GetOrdersInput) : M srv (option (list (option JsonObject))) :=
  _ ← own_subaccount ctx "get_orders" (go_Address inp) (go_SubaccountNumber inp);
  not_found_as (Some []) (cli_GetOrders indexer (go_Address inp) (go_SubaccountNumber inp) (order_filters inp)).

Definition GetOrder (ctx : context) (orderID : string) : M srv (option JsonObject) :=
  _ ← authorize ctx "get_order";
  cli_GetOrder indexer orderID.

Definition GetFills (ctx : context) (address : string) (number : Z) (market : string) : M srv FillsResponse :=
  _ ← own_subaccount ctx "get_fills" address number;
  cli_GetFills indexer address number market.

Definition GetTransfers (ctx : context) (address : string) (number : Z) : M srv TransfersResponse :=
  _ ← own_subaccount ctx "get_transfers" address number;
  cli_GetTransfers indexer address number.

Definition GetPnl (ctx : context) (address : string) (number : Z) : M srv PnlResponse :=
  _ ← own_subaccount ctx "get_pnl" address number;
  not_found_as (mkPnlResponse (Some [])) (cli_GetPnl indexer address number).

Definition GetHistoricalPnl (ctx : context) (address : string) (number : Z) : M srv HistoricalPnlResponse :=
  _ ← own_subaccount ctx "get_historical_pnl" address number;
  not_found_as (mkHistoricalPnlResponse (Some []) 0 0 0) (cli_GetHistoricalPnl indexer address number).

Definition GetFundingPayments (ctx : context) (address : string) (number : Z) : M srv FundingPaymentsResponse :=
  _ ← own_subaccount ctx "get_funding_payments" address number;
  not_found_as (mkFundingPaymentsResponse (Some [])) (cli_GetFundingPayments indexer address number).

End Account.

(** ** Lemmas *)

(** The seven reads of a subaccount, as one type of calls. *)
Inductive owner_read : Type :=
| RSubaccount (address : string) (number : Z)
| ROrders (inp : GetOrdersInput)
| RFills (address : string) (number : Z) (market : string)
| RTransfers (address : string) (number : Z)
| RPnl (address : string) (number : Z)
| RHistoricalPnl (address : string) (number : Z)
| RFundingPayments (address : string) (number : Z).

Definition read_address (q : owner_read) : string :=
  match q with
  | RSubaccount a _ | RFills a _ _ | RTransfers a _ | RPnl a _ | RHistoricalPnl a _ | RFundingPayments a _ => a
  | ROrders i => go_Address i
  end.
Definition read_number (q : owner_read) : Z :=
  match q with
  | RSubaccount _ n | RFills _ n _ | RTransfers _ n | RPnl _ n | RHistoricalPnl _ n | RFundingPayments _ n => n
  | ROrders i => go_SubaccountNumber i
  end.

Definition read_tool (q : owner_read) : string :=
  match q with
  | RSubaccount _ _ => "get_subaccount" | ROrders _ => "get_orders" | RFills _ _ _ => "get_fills"
  | RTransfers _ _ => "get_transfers" | RPnl _ _ => "get_pnl" | RHistoricalPnl _ _ => "get_historical_pnl"
  | RFundingPayments _ _ => "get_funding_payments"
  end.

(** The resource and the query of a read. *)
Definition read_path (q : owner_read) : string :=
  match q with
  | RSubaccount a n => "/addresses/" +:+ a +:+ "/subaccountNumber/" +:+ FormatUint n
  | ROrders _ => "/orders" | RFills _ _ _ => "/fills" | RTransfers _ _ => "/transfers" | RPnl _ _ => "/pnl"
  | RHistoricalPnl _ _ => "/historical-pnl" | RFundingPayments _ _ => "/fundingPayments"
  end%string.
Definition read_query (q : owner_read) : Values :=
  match q with
  | RSubaccount _ _ => []
  | ROrders i => add_filters (order_filters i) (owner_query (go_Address i) (go_SubaccountNumber i))
  | RFills a n m => if negb (String.eqb m "") then Set_ "market" m (owner_query a n) else owner_query a n
  | _ => owner_query (read_address q) (read_number q)
  end.

Section Answers.
Context {J : JsonLib}.

Inductive read_answer : Type :=
| ASubaccount (o : Subaccount)
| AOrders (o : option (list (option JsonObject)))
| AFills (o : FillsResponse)
| ATransfers (o : TransfersResponse)
| APnl (o : PnlResponse)
| AHistoricalPnl (o : HistoricalPnlResponse)
| AFundingPayments (o : FundingPaymentsResponse).

(** The answer to a subaccount the indexer does not know, where there is one. *)
Definition empty_answer (q : owner_read) : option read_answer :=
  match q with
  | ROrders _ => Some (AOrders (Some []))
  | RPnl _ _ => Some (APnl (mkPnlResponse (Some [])))
  | RHistoricalPnl _ _ => Some (AHistoricalPnl (mkHistoricalPnlResponse (Some []) 0 0 0))
  | RFundingPayments _ _ => Some (AFundingPayments (mkFundingPaymentsResponse (Some [])))
  | _ => None
  end.

End Answers.

Section ReadLemmas.
Context {RL : RateLib} {E : Env} {HE : HttpEnv} {J : JsonLib} {JD : JsonDecoders} (indexer : Client).

Definition run_read (ctx : context) (q : owner_read) : M srv read_answer :=
  match q with
  | RSubaccount a n => o ← GetSubaccount indexer ctx a n; mret (ASubaccount o)
  | ROrders i => o ← GetOrders indexer ctx i; mret (AOrders o)
  | RFills a n m => o ← GetFills indexer ctx a n m; mret (AFills o)
  | RTransfers a n => o ← GetTransfers indexer ctx a n; mret (ATransfers o)
  | RPnl a n => o ← GetPnl indexer ctx a n; mret (APnl o)
  | RHistoricalPnl a n => o ← GetHistoricalPnl indexer ctx a n; mret (AHistoricalPnl o)
  | RFundingPayments a n => o ← GetFundingPayments indexer ctx a n; mret (AFundingPayments o)
  end.

(** The tenant of the request, its policy in force at each clock reading of the
    guards, owns the address, if there is one, and may use the subaccount.  An
    address left out passes the guard and goes out empty. *)
Definition scoped (ctx : context) (s : srv) (address : string) (number : Z) : Prop :=
  exists tp, authorized ctx tp s
  /\ in_force (tp_TenantID tp) (reading s 3) tp (engine s) /\ in_force (tp_TenantID tp) (reading s 4) tp (engine s)
  /\ (address <> EmptyString -> address = tp_Owner tp) /\ number ∈ tp_AllowedSubaccounts tp.

Lemma own_subaccount_inv ctx tool address number s tp s' :
  filed s -> own_subaccount ctx tool address number s = (Ok tp, s') -> scoped ctx s address number.
Proof.
  intros Hids H. unfold own_subaccount, authorizeOwner in H. m_inv H as tp1 s1 H1. m_inv H1 as tp2 s2 H2.
  apply authorize_ok in H2 as [Ha L2]. m_inv H1 as u s3 H3. injection H1 as -> ->.
  apply policy_later in H3 as [Ho L3]. m_inv H as u' s4 H4. injection H as -> ->. apply policy_later in H4 as [Hs _].
  destruct u, u', (later_reading _ _ _ 0 L2) as [R2 E2], (later_reading _ _ _ 0 (later_trans _ _ _ _ _ L2 L3)) as [R3 E3].
  rewrite R2, E2 in Ho. rewrite R3, E3 in Hs. exists tp.
  apply CheckOwner_ok in Ho as (tp3 & F3 & Ho). apply CheckSubaccount_ok in Hs as (tp4 & F4 & Hs).
  pose proof (authorized_again _ _ _ _ _ Hids Ha F3) as ->. pose proof (authorized_again _ _ _ _ _ Hids Ha F4) as ->.
  by split_and!.
Qed.

Lemma keeps_own_subaccount ctx tool a n : keeps effects (own_subaccount ctx tool a n).
Proof. unfold own_subaccount, authorizeOwner. keeps_tac. Qed.

(** A read after its guards sends the request of the read. *)
Lemma asks_read {A} ctx tool a n path q (m : M srv A) s :
  filed s ->
  asks (eq (mkHttpRequest "GET" (endpoint indexer path q) (get_headers indexer) None)) m ->
  asked (fun req => scoped ctx s a n /\ req = mkHttpRequest "GET" (endpoint indexer path q) (get_headers indexer) None) s
    (snd ((own_subaccount ctx tool a n ≫= fun _ => m) s)).
Proof.
  intros Hf Hm. apply asked_after; [apply keeps_own_subaccount|]. intros tp s1 H1.
  apply own_subaccount_inv in H1; [|done]. destruct (Hm s1) as [Hs [Hh|(req & <- & Hh)]]; (split; [done|]); [by left|].
  right. by eexists.
Qed.

Lemma asks_not_found_as {A} P (e : A) (m : M srv A) : asks P m -> asks P (not_found_as e m).
Proof.
  intros H. unfold not_found_as. apply asks_then; [by apply asks_try|]. intros [a|x]; keeps_tac.
Qed.

Lemma asks_bind_ret {A B} P (m : M srv A) (f : A -> B) s : asked P s (snd (m s)) -> asked P s (snd ((a ← m; mret (f a)) s)).
Proof. unfold mbind, M_bind. by destruct (m s) as [[a|e] s1]. Qed.

Lemma run_read_asks ctx q s :
  filed s ->
  asked (fun req => scoped ctx s (read_address q) (read_number q)
           /\ req = mkHttpRequest "GET" (endpoint indexer (read_path q) (read_query q)) (get_headers indexer) None) s
    (snd (run_read ctx q s)).
Proof.
  intros Hf. destruct q; cbn [run_read]; apply asks_bind_ret; apply asks_read; try done.
  all: try apply asks_not_found_as.
  all: try (apply asks_then; [|intros ?; keeps_tac]); try (apply asks_wrapM, asks_get).
Qed.

(** The client's [get] when the indexer does not know the resource. *)
Definition unknown_resource : Prop :=
  (forall n, http_wait n = Ok tt) /\ (forall m u, http_new_request m u = Ok tt)
  /\ forall n req, exists body, http_do n req = Ok (StatusNotFound, body).

Lemma get_404 {A} (dec : bytes -> result A) path q s : unknown_resource -> fst (get indexer dec path q s) = Err ErrNotFound.
Proof.
  intros (Hw & Hn & Hd). unfold get, limiter_wait, http_send, mbind, M_bind, tick, lift, run_state. rewrite Hw. cbn [wrap].
  rewrite Hn. cbn [wrap fst snd]. match goal with |- context [http_do ?n ?r] => destruct (Hd n r) as [body ->] end. done.
Qed.

(** A wrapped 404 of a client method is still recognised. *)
Lemma method_404 {A B} (f : goerr -> goerr) (dec : bytes -> result A) path q (k : A -> M srv B) s :
  unknown_resource -> (forall e, errors_Is ErrNotFound e = true -> errors_Is ErrNotFound (f e) = true) ->
  exists e, fst ((wrapM f (get indexer dec path q) ≫= k) s) = Err e /\ errors_Is ErrNotFound e = true.
Proof.
  intros Hu Hf. pose proof (get_404 dec path q s Hu) as Hg. unfold mbind, M_bind, wrapM.
  destruct (get indexer dec path q s) as [r s1]. cbn [fst] in Hg. subst r. cbn [wrap fst]. eexists. split; [done|].
  by apply Hf.
Qed.

Lemma owner_err_Is name a n e : errors_Is ErrNotFound e = true -> errors_Is ErrNotFound (owner_err name a n e) = true.
Proof. apply (errors_Is_wrapped _ _ [FStr a; FInt n]). Qed.

Lemma not_found_404 {A} (x : A) (m : M srv A) s :
  (exists e, fst (m s) = Err e /\ errors_Is ErrNotFound e = true) -> fst (not_found_as x m s) = Ok x.
Proof.
  intros (e & Hm & He). unfold not_found_as, mbind, M_bind, lendora.try. destruct (m s) as [r s1]. cbn [fst] in Hm. subst r.
  by rewrite He.
Qed.

Lemma wrapM_404 {A} f (dec : bytes -> result A) path q s :
  unknown_resource -> (forall e, errors_Is ErrNotFound e = true -> errors_Is ErrNotFound (f e) = true) ->
  exists e, fst (wrapM f (get indexer dec path q) s) = Err e /\ errors_Is ErrNotFound e = true.
Proof.
  intros Hu Hf. pose proof (get_404 dec path q s Hu) as Hg. unfold wrapM.
  destruct (get indexer dec path q s) as [r s1]. cbn [fst] in Hg. subst r. eexists. split; [done|]. by apply Hf.
Qed.

Lemma after_guard {A B} ctx tool a n s tp s1 (m : M srv A) (f : A -> B) r :
  own_subaccount ctx tool a n s = (Ok tp, s1) -> fst (m s1) = r ->
  fst ((o ← (own_subaccount ctx tool a n ≫= fun _ => m); mret (f o)) s)
  = match r with Ok x => Ok (f x) | Err e => Err e end.
Proof.
  intros Hg <-. unfold mbind, M_bind. rewrite Hg. by destruct (m s1) as [[x|e] s2].
Qed.

Lemma after_guard_err {A B} ctx tool a n s tp s1 (m : M srv A) (f : A -> B) (P : goerr -> Prop) :
  own_subaccount ctx tool a n s = (Ok tp, s1) -> (exists e, fst (m s1) = Err e /\ P e) ->
  exists e, fst ((o ← (own_subaccount ctx tool a n ≫= fun _ => m); mret (f o)) s) = Err e /\ P e.
Proof. intros Hg (e & He & Hp). exists e. split; [|done]. by rewrite (after_guard ctx tool a n s tp s1 m f _ Hg He). Qed.

End ReadLemmas.

Lemma param_add_filters k fs : forall q,
  Forall (fun f => fst f <> k) fs -> param k (add_filters fs q) = param k q.
Proof.
  induction fs as [|[k' v] fs IH]; intros q Hf; [done|]. apply Forall_cons in Hf as [Hk Hf]. cbn [add_filters].
  rewrite IH by done. destruct (negb _); [|done]. apply param_Set_ne. cbn [fst] in Hk. congruence.
Qed.

Lemma owner_query_params a n :
  param "address" (owner_query a n) = Some a /\ param "subaccountNumber" (owner_query a n) = Some (FormatUint n).
Proof. unfold owner_query. rewrite param_Set, param_Set_ne, param_Set by done. done. Qed.

Lemma read_query_params q :
  (exists a n, q = RSubaccount a n)
  \/ param "address" (read_query q) = Some (read_address q)
     /\ param "subaccountNumber" (read_query q) = Some (FormatUint (read_number q)).
Proof.
  pose proof owner_query_params as Ho. destruct q; [left; eauto|..]; right; cbn [read_query read_address read_number]; try apply Ho.
  - rewrite !param_add_filters by (by repeat constructor). apply Ho.
  - destruct (negb _); [|apply Ho]. rewrite !param_Set_ne by done. apply Ho.
Qed.

(** The keys of a query are distinct. *)
Lemma read_query_unique q : NoDup (map fst (read_query q)).
Proof.
  assert (forall l : list string, bool_decide (NoDup l) = true -> NoDup l) as Hd by (intros l; apply bool_decide_eq_true).
  destruct q; cbn [read_query]; try (by apply Hd).
  - cbn [order_filters add_filters]. repeat case_match; by apply Hd.
  - case_match; by apply Hd.
Qed.

Lemma endpoint_query c path q :
  q <> [] -> endpoint c path q = (cl_baseURL c +:+ "/v4" +:+ path +:+ "?" +:+ Encode q)%string.
Proof.
  intros Hq. unfold endpoint. destruct q as [|kv q]; [done|]. cbn [List.length].
  rewrite (proj2 (Z.ltb_lt 0 _)) by lia. apply chars_inj. rewrite !chars_app. by rewrite <- !app_assoc.
Qed.

(** What the URL of a read with a query says. *)
Lemma read_url c q :
  param "address" (read_query q) = Some (read_address q)
  /\ param "subaccountNumber" (read_query q) = Some (FormatUint (read_number q)) ->
  exists text params, endpoint c (read_path q) (read_query q) = (cl_baseURL c +:+ "/v4" +:+ read_path q +:+ "?" +:+ text)%string
  /\ ParseQuery text = Some params /\ NoDup (map fst params) /\ param "address" params = Some (read_address q)
  /\ param "subaccountNumber" params = Some (FormatUint (read_number q)).
Proof.
  intros Hp. exists (Encode (read_query q)), (read_query q). split_and!; [|apply query_roundtrip|apply read_query_unique|apply Hp|apply Hp].
  apply endpoint_query. intros Eq. rewrite Eq in Hp. by destruct Hp.
Qed.

(** ** Claims *)

(** C12: a read of account data names no account but the caller's own.  Whatever
    any of the seven tools returns, it changed no store and sent at most one
    request; a request was sent only for a tenant resolved from the context, in
    force at every clock reading of the guards, and a subaccount that tenant may
    use; the address in it is the one of the call, which is the tenant's own
    unless the call left it out, when it goes out empty (the server does not put
    the owner in its place); it is a GET of the tool's resource; and where the
    account is given in the query, the query decodes to distinct parameters of
    which the address and the subaccount are those of the call, whatever bytes the
    optional filters hold. *)
Theorem owner_reads_scoped {RL : RateLib} {E : Env} {HE : HttpEnv} {J : JsonLib} {JD : JsonDecoders} (indexer : Client)
    (ctx : context) (q : owner_read) (s : srv) (r : result read_answer) (s' : srv)
    (Hids : filed s) (H : run_read indexer ctx q s = (r, s')) :
  stores s' = stores s
  /\ (s_http s' = s_http s
      \/ exists req, s_http s' = s_http s ++ [req] /\ scoped ctx s (read_address q) (read_number q)
         /\ hr_Method req = "GET"%string
         /\ match q with
            | RSubaccount a n =>
                hr_URL req = (cl_baseURL indexer +:+ "/v4/addresses/" +:+ a +:+ "/subaccountNumber/" +:+ FormatUint n)%string
            | _ => exists text params, hr_URL req = (cl_baseURL indexer +:+ "/v4" +:+ read_path q +:+ "?" +:+ text)%string
                   /\ ParseQuery text = Some params /\ NoDup (map fst params)
                   /\ param "address" params = Some (read_address q)
                   /\ param "subaccountNumber" params = Some (FormatUint (read_number q))
            end).
Proof.
  pose proof (run_read_asks indexer ctx q s Hids) as Hq. rewrite H in Hq. cbn [snd] in Hq.
  destruct Hq as [Hs [Hh|(req & [Hsc ->] & Hh)]]; (split; [done|]); [by left|]. right. eexists. split; [exact Hh|].
  split; [done|]. split; [done|]. cbn [hr_URL]. pose proof (read_query_params q) as Hp.
  pose proof (read_url indexer q) as Hu. destruct q; try done; by destruct Hp as [(? & ? & ?)|Hp]; auto.
Qed.

(** An account the indexer does not know is an empty account, and only where
    that is meant.  When the guards pass and the indexer answers 404, orders,
    profit, historical profit and funding payments return their empty answer,
    with a list in it; subaccount, fills and transfers return an error that is
    still recognised as not-found through its wrapping. *)
Theorem unknown_account_empty {RL : RateLib} {E : Env} {HE : HttpEnv} {J : JsonLib} {JD : JsonDecoders} (indexer : Client)
    (ctx : context) (q : owner_read) (s s1 : srv) (tp : TenantPolicy) (Hu : unknown_resource)
    (Hg : own_subaccount ctx (read_tool q) (read_address q) (read_number q) s = (Ok tp, s1)) :
  match empty_answer q with
  | Some a => fst (run_read indexer ctx q s) = Ok a
  | None => exists e, fst (run_read indexer ctx q s) = Err e /\ errors_Is ErrNotFound e = true
  end.
Proof.
  destruct q; cbn [empty_answer run_read read_tool read_address read_number] in *.
  all: first [ eapply (after_guard _ _ _ _ _ _ _ _ _ (Ok _)); [exact Hg|]; apply not_found_404
             | eapply after_guard_err; [exact Hg|] ].
  all: first [ apply wrapM_404; [exact Hu|apply owner_err_Is] | apply method_404; [exact Hu|apply owner_err_Is] ].
Qed.

(** whoami needs no more than a tenant that resolves: it answers for a
    kill-switched tenant too, and reports the policy the engine holds. *)
Theorem whoami_answers {RL : RateLib} {E : Env} (chainID mode : string) (ctx : context) (tc : TenantContext)
    (tp : TenantPolicy) (s : srv) (Hctx : TenantFrom ctx = Some tc)
    (Ht : Tenant (tc_TenantID tc) (env_clock (s_reads s)) (engine s) = Ok tp) :
  exists o, fst (Whoami chainID mode ctx s) = Ok o /\ wo_Owner o = tp_Owner tp /\ wo_KillSwitch o = tp_KillSwitch tp
  /\ forall n, n ∈ wo_AllowedSubaccounts o <-> n ∈ tp_AllowedSubaccounts tp.
Proof.
  unfold Whoami, mbind, M_bind. rewrite Hctx, policy_eq, Ht. eexists. split_and!; [done..|].
  intros n. cbn [wo_AllowedSubaccounts]. apply elem_of_elements.
Qed.

Section BalanceLemmas.
Context {L : ChainLib} {D : DecLib}.

(** The wallet rows are the coins, one each, in order, with their exact amounts. *)
Lemma balancesFromCoins_rows coins : forall rows,
  balancesFromCoins coins = Ok rows ->
  map bd_Denom rows = map coin_Denom coins /\ map bd_Amount rows = map (fun c => amount_text (coin_Amount c)) coins
  /\ Forall (fun r => bd_Source r = EmptyString) rows.
Proof.
  induction coins as [|c coins IH]; intros rows H; cbn [balancesFromCoins] in H; [injection H as <-; by repeat constructor|].
  bind_inv H. injection H as <-. destruct (IH _ eq_refl) as (H1 & H2 & H3). cbn [map]. rewrite H1, H2.
  match goal with Hc : coin_dto c = Ok _ |- _ => unfold coin_dto in Hc end.
  destruct (knownDenoms _) as [[sym dec]|]; [destruct (coin_Amount c)|]; simplify_eq; by repeat constructor.
Qed.

End BalanceLemmas.

(** ** Witnesses *)

Definition demo_json : JsonLib := {| JsonObject := unit; json_empty := tt; float64 := Z |}.
Definition demo_decoders : JsonDecoders (J := demo_json) :=
  Build_JsonDecoders (fun _ => Err (ErrNew "no body")) (fun _ => Ok (mkPerpetualMarketsResponse None))
    (fun _ => Ok (mkOrderbook None None)) (fun _ => Ok (mkCandlesResponse None)) (fun _ => Ok (mkTradesResponse None 0 0 0))
    (fun _ => Ok None) (fun _ => Ok (mkHistoricalFundingResponse None)) (fun _ => Ok (mkHeightResponse "7" ""))
    (fun _ => Err (ErrNew "no body")) (fun _ => Ok None) (fun _ => Ok None) (fun _ => Ok (mkFillsResponse None 0 0 0))
    (fun _ => Ok (mkTransfersResponse None 0 0 0)) (fun _ => Ok (mkPnlResponse None))
    (fun _ => Ok (mkHistoricalPnlResponse None 0 0 0)) (fun _ => Ok (mkFundingPaymentsResponse None)).
Definition demo_http (status : Z) : HttpEnv :=
  {| http_wait := fun _ => Ok tt; http_new_request := fun _ _ => Ok tt; http_do := fun _ _ => Ok (status, []) |}.
Definition demo_indexer : Client := NewClient "http://indexer:3002/" (mkOptions "" 0 0 0).

(** A filter that tries to smuggle in another address. *)
Definition demo_orders : GetOrdersInput := mkGetOrdersInput "svp1a" 0 "OPEN&address=svp1b" "" "" "" "" "".

Example demo_orders_url :
  map hr_URL (s_http (snd (run_read (RL := demo_rate) (E := demo_still) (HE := demo_http 200) (JD := demo_decoders)
    demo_indexer demo_ctx (ROrders demo_orders) demo_live)))
  = ["http://indexer:3002/v4/orders?address=svp1a&status=OPEN%26address%3Dsvp1b&subaccountNumber=0"]%string.
Proof. vm_compute. reflexivity. Qed.

(** An omitted address is passed on empty. *)
Example omitted_address :
  map hr_URL (s_http (snd (run_read (RL := demo_rate) (E := demo_still) (HE := demo_http 200) (JD := demo_decoders)
    demo_indexer demo_ctx (RPnl "" 0) demo_live))) = [(cl_baseURL demo_indexer +:+ "/v4/pnl?address=&subaccountNumber=0")%string].
Proof. vm_compute. reflexivity. Qed.

Lemma owner_reads_scoped_witness :
  stores (snd (run_read (RL := demo_rate) (E := demo_still) (HE := demo_http 200) (JD := demo_decoders)
    demo_indexer demo_ctx (ROrders demo_orders) demo_live)) = stores demo_live.
Proof.
  exact (proj1 (owner_reads_scoped (RL := demo_rate) (E := demo_still) (HE := demo_http 200) (JD := demo_decoders)
    demo_indexer demo_ctx (ROrders demo_orders) demo_live _ _ demo_live_filed (surjective_pairing _))).
Defined.

Lemma unknown_account_empty_witness :
  fst (run_read (RL := demo_rate) (E := demo_still) (HE := demo_http 404) (JD := demo_decoders)
    demo_indexer demo_ctx (RPnl "svp1a" 0) demo_live) = Ok (APnl (mkPnlResponse (J := demo_json) (Some []))).
Proof.
  destruct (own_subaccount (RL := demo_rate) (E := demo_still) demo_ctx "get_pnl" "svp1a" 0 demo_live) as [[tp|e] s1] eqn:Eg;
    [|by vm_compute in Eg].
  exact (unknown_account_empty (RL := demo_rate) (E := demo_still) (HE := demo_http 404) (JD := demo_decoders) demo_indexer
    demo_ctx (RPnl "svp1a" 0) demo_live s1 tp
    (conj (fun _ => eq_refl) (conj (fun _ _ => eq_refl) (fun _ _ => ex_intro _ [] eq_refl))) Eg).
Defined.
