(* ===== verification/MarketTools.v ===== *)
(** * The market data tools (tools/market.go, tools/market_v021.go)

    Reads of public market data from the indexer and of the price feed on the
    chain; they need a tenant but no owner. *)

From S2P Require Import Prelude GoStrings GoNum GoTime GoEncoding Http Limits TransferOut NonceStore IPRateLimiter.
From S2P Require Import SessionBearers DynamicTenants Policy Markets Units ChainLib Payload Assembler Assets.
From S2P Require Import TxInspect EVMBuilder BridgeRegistry ABI LendoraABI LendoraCache Server AuthTools Broadcast Indexer.
From S2P Require Import Tools EVMTools SwapTools AccountTools.

Record GetCandlesInput : Type := mkGetCandlesInput {
  ci_Ticker : string; ci_Resolution : string; ci_Limit : Z; ci_FromISO : string; ci_ToISO : string }.

Record GetOraclePriceOutput : Type := mkGetOraclePriceOutput {
  op_Oracle : string; op_Description : string; op_Decimals : Z; op_Price : string; op_PriceRaw : string;
  op_RoundID : string; op_UpdatedAt : Z }.

Section Market.
Context {RL : RateLib} {E : Env} {HE : HttpEnv} {N : EVMEnv} {J : JsonLib} {JD : JsonDecoders}.
Context {L : ChainLib} {D : DecLib} {B : ABILib} (indexer : Client) (d : EVMDeps).

Definition ListMarkets (ctx : context) : M srv (option (gmap string PerpetualMarket)) :=
  _ ← authorize ctx "list_markets";
  resp ← ListPerpetualMarkets indexer;
  mret (pr_Markets resp).

Definition GetMarket (ctx : context) (ticker : string) : M srv PerpetualMarket :=
  _ ← authorize ctx "get_market"; GetPerpetualMarket indexer ticker.

Definition GetOrderbook (ctx : context) (ticker : string) : M srv Orderbook :=
  _ ← authorize ctx "get_orderbook"; cli_GetOrderbook indexer ticker.

Definition GetCandles (ctx : context) (inp : GetCandlesInput) : M srv CandlesResponse :=
  _ ← authorize ctx "get_candles";
  cli_GetCandles indexer (ci_Ticker inp) (mkGetCandlesArgs (ci_Resolution inp) (ci_Limit inp) (ci_FromISO inp) (ci_ToISO inp)).

Definition GetTrades (ctx : context) (ticker : string) (limit : Z) : M srv TradesResponse :=
  _ ← authorize ctx "get_trades"; cli_GetTrades indexer ticker limit.

Definition GetSparklines (ctx : context) (timePeriod : string) : M srv (option (gmap string (option (list string)))) :=
  _ ← authorize ctx "get_sparklines"; cli_GetSparklines indexer timePeriod.

Definition GetHistoricalFunding (ctx : context) (ticker : string) : M srv HistoricalFundingResponse :=
  _ ← authorize ctx "get_historical_funding"; cli_GetHistoricalFunding indexer ticker.

Definition GetHeight (ctx : context) : M srv HeightResponse :=
  _ ← authorize ctx "get_height"; cli_GetHeight indexer.

Definition GetTime (ctx : context) : M srv TimeResponse :=
  _ ← authorize ctx "get_time"; cli_GetTime indexer.

(** The home client and the address of the bound feed. *)
Definition requireOracle : result (Z * Address) :=
  match ed_EVM d with
  | None => Err evm_disabled
  | Some client =>
      feed ← from_opt (ed_Oracle d) (userErrf "oracle price feed is not enabled on this server (no evm_oracle_addr configured)" []);
      Ok (client, feed)
  end.

Definition GetOraclePrice (ctx : context) : M srv GetOraclePriceOutput :=
  _ ← authorize ctx "get_oracle_price";
  req ← lift requireOracle;
  let '(client, feed) := req in
  descData ← lift PackDescription;
  descOut ← wrapM (fun e => Errorf "read description for %s (is it an aggregator?): %w" [FStr (Address_Hex feed); FErr e])
              (evmCallOn client feed descData);
  desc ← lift (UnpackDescription descOut);
  decData ← lift PackFeedDecimals;
  decOut ← wrapM (fun e => Errorf "read decimals for %s: %w" [FStr (Address_Hex feed); FErr e]) (evmCallOn client feed decData);
  dec ← lift (UnpackFeedDecimals decOut);
  rdData ← lift PackLatestRoundData;
  rdOut ← wrapM (fun e => Errorf "read latestRoundData for %s: %w" [FStr (Address_Hex feed); FErr e]) (evmCallOn client feed rdData);
  rd ← lift (UnpackLatestRoundData rdOut);
  answer ← lift (NewIntFromBigInt (rd_Answer rd));
  mret (mkGetOraclePriceOutput (Address_Hex feed) desc dec (humanAmount answer dec) (FormatInt (rd_Answer rd))
          (FormatInt (rd_RoundID rd)) (i64 (rd_UpdatedAt rd))).

End Market.

(** ** What the answers look like *)

(** The market reads, and every read of the indexer as one type of calls. *)
Inductive market_read : Type :=
| MList | MMarket (ticker : string) | MOrderbook (ticker : string) | MCandles (inp : GetCandlesInput)
| MTrades (ticker : string) (limit : Z) | MSparklines (timePeriod : string) | MFunding (ticker : string) | MHeight | MTime.

Section Shapes.
Context {J : JsonLib}.

Inductive market_answer : Type :=
| BList (o : option (gmap string PerpetualMarket)) | BMarket (o : PerpetualMarket) | BOrderbook (o : Orderbook)
| BCandles (o : CandlesResponse) | BTrades (o : TradesResponse) | BSparklines (o : option (gmap string (option (list string))))
| BFunding (o : HistoricalFundingResponse) | BHeight (o : HeightResponse) | BTime (o : TimeResponse).

(** No slice or map that the output schema requires is nil. *)
Definition market_shape (a : market_answer) : Prop :=
  match a with
  | BList o => is_Some o
  | BOrderbook o => is_Some (ob_Bids o) /\ is_Some (ob_Asks o)
  | BCandles o => is_Some (cs_Candles o)
  | BTrades o => is_Some (tr_Trades o)
  | BSparklines o => exists m, o = Some m /\ forall k v, m !! k = Some v -> is_Some v
  | BFunding o => is_Some (hf_HistoricalFunding o)
  | BMarket _ | BHeight _ | BTime _ => True
  end.

(** The same for account data.  A list of orders is not normalised, and is
    treated apart below. *)
Definition account_shape (a : read_answer) : Prop :=
  match a with
  | ASubaccount o => is_Some (sb_OpenPerpetualPositions o) /\ is_Some (sb_AssetPositions o)
  | AOrders o => is_Some o
  | AFills o => is_Some (fr_Fills o)
  | ATransfers o => is_Some (xr_Transfers o)
  | APnl o => is_Some (nr_HistoricalPnl o)
  | AHistoricalPnl o => is_Some (hp_HistoricalPnl o)
  | AFundingPayments o => is_Some (fp_FundingPayments o)
  end.

End Shapes.

Section MarketLemmas.
Context {RL : RateLib} {E : Env} {HE : HttpEnv} {J : JsonLib} {JD : JsonDecoders} (indexer : Client).

Definition run_market (ctx : context) (q : market_read) : M srv market_answer :=
  match q with
  | MList => o ← ListMarkets indexer ctx; mret (BList o)
  | MMarket t => o ← GetMarket indexer ctx t; mret (BMarket o)
  | MOrderbook t => o ← GetOrderbook indexer ctx t; mret (BOrderbook o)
  | MCandles i => o ← GetCandles indexer ctx i; mret (BCandles o)
  | MTrades t n => o ← GetTrades indexer ctx t n; mret (BTrades o)
  | MSparklines p => o ← GetSparklines indexer ctx p; mret (BSparklines o)
  | MFunding t => o ← GetHistoricalFunding indexer ctx t; mret (BFunding o)
  | MHeight => o ← GetHeight indexer ctx; mret (BHeight o)
  | MTime => o ← GetTime indexer ctx; mret (BTime o)
  end.

(** Every value a computation returns satisfies [P]. *)
Definition returns {A} (P : A -> Prop) (m : M srv A) : Prop := forall s a s', m s = (Ok a, s') -> P a.

Lemma returns_bind {A B} (P : B -> Prop) (m : M srv A) (f : A -> M srv B) :
  (forall a, returns P (f a)) -> returns P (m ≫= f).
Proof. intros Hf s b s' H. m_inv H as a s1 H1. by eapply Hf. Qed.

Lemma returns_ret {A} (P : A -> Prop) a : P a -> returns P (mret a).
Proof. by intros H s x s' [= <- <-]. Qed.

Lemma returns_map {A B} (P : A -> Prop) (Q : B -> Prop) (m : M srv A) (f : A -> B) :
  returns P m -> (forall a, P a -> Q (f a)) -> returns Q (a ← m; mret (f a)).
Proof. intros Hm Hf s b s' H. m_inv H as a s1 H1. injection H as <- <-. eauto. Qed.

Lemma returns_not_found {A} (P : A -> Prop) e (m : M srv A) : P e -> returns P m -> returns P (not_found_as e m).
Proof.
  intros He Hm s a s' H. unfold not_found_as in H. m_inv H as r s1 H1. unfold lendora.try in H1.
  destruct (m s) as [r' s2] eqn:Em. injection H1 as <- <-. destruct r' as [x|x]; [injection H as <- <-; by eapply Hm|].
  destruct (errors_Is _ _); [by injection H as <- <-|done].
Qed.

Lemma or_empty_Some {A} (x : option (list A)) : is_Some (or_empty x).
Proof. destruct x; by eexists. Qed.

(** A client method normalises what it decoded; a tool returns what its method
    returns. *)
Lemma returns_method {A B} (P : B -> Prop) (m : M srv A) (f : A -> B) : (forall a, P (f a)) -> returns P (a ← m; mret (f a)).
Proof. intros Hf. apply returns_bind. intros a. by apply returns_ret. Qed.

Lemma run_market_shape ctx q : returns market_shape (run_market ctx q).
Proof.
  destruct q; cbn [run_market]; try (by apply returns_method).
  - apply (returns_map (fun o => is_Some o)); [|done]. apply returns_bind. intros _.
    apply (returns_map (fun o => is_Some (pr_Markets o))); [|done]. apply returns_method. by eexists.
  - apply (returns_map (fun o => is_Some (ob_Bids o) /\ is_Some (ob_Asks o))); [|done]. apply returns_bind. intros _.
    apply returns_method. split; apply or_empty_Some.
  - apply (returns_map (fun o => is_Some (cs_Candles o))); [|done]. apply returns_bind. intros _.
    apply returns_method. intros. apply or_empty_Some.
  - apply (returns_map (fun o => is_Some (tr_Trades o))); [|done]. apply returns_bind. intros _.
    apply returns_method. intros. apply or_empty_Some.
  - apply (returns_map (fun o => market_shape (BSparklines o))); [|done]. apply returns_bind. intros _.
    apply returns_method. intros r. eexists. split; [done|]. intros k v. rewrite lookup_fmap.
    destruct (default ∅ r !! k) as [x|]; [|done]. intros [= <-]. apply or_empty_Some.
  - apply (returns_map (fun o => is_Some (hf_HistoricalFunding o))); [|done]. apply returns_bind. intros _.
    apply returns_method. intros. apply or_empty_Some.
Qed.

(** The last exchange of a run was a success of the indexer whose body, a null,
    is decoded as a nil slice of orders. *)
Definition null_body (i : GetOrdersInput) (s' : srv) : Prop :=
  exists status body,
    http_do (Nat.pred (s_reads s'))
      (mkHttpRequest "GET" (endpoint indexer "/orders" (read_query (ROrders i))) (get_headers indexer) None) = Ok (status, body)
    /\ 200 <= status < 300 /\ dec_Orders body = Ok None.

Lemma get_ok {A} (dec : bytes -> result A) path q s a s' :
  get indexer dec path q s = (Ok a, s') ->
  exists status body,
    http_do (Nat.pred (s_reads s')) (mkHttpRequest "GET" (endpoint indexer path q) (get_headers indexer) None) = Ok (status, body)
    /\ 200 <= status < 300 /\ dec body = Ok a.
Proof.
  intros H. unfold get in H. m_inv H as u s1 H1. l_inv H as v Hv. m_inv H as r s2 H2. unfold http_send in H2.
  m_inv H2 as n s3 H3. injection H3 as <- <-. injection H2 as <- <-. l_inv H as resp Hr. apply wrap_ok in Hr.
  destruct resp as [status body]. destruct (status =? StatusNotFound); [done|].
  destruct (_ || _) eqn:Est; [done|]. apply lift_ok in H as [Hd ->]. apply wrap_ok in Hd. cbn [s_reads set_http set_reads Nat.pred].
  exists status, body. split_and!; [done|lia|lia|done].
Qed.

Lemma orders_shape ctx i s a s' :
  run_read indexer ctx (ROrders i) s = (Ok a, s') -> account_shape a \/ (a = AOrders None /\ null_body i s').
Proof.
  cbn [run_read]. intros H. m_inv H as o s1 H1. injection H as <- <-. destruct o as [l|]; [left; by eexists|]. right.
  split; [done|]. unfold GetOrders in H1. m_inv H1 as u s2 H2. unfold not_found_as in H1. m_inv H1 as r s3 H3.
  unfold lendora.try in H3. destruct (cli_GetOrders _ _ _ _ s2) as [r' s4] eqn:Eg. injection H3 as -> ->.
  destruct r as [x|e]; [|by destruct (errors_Is _ e)]. injection H1 as -> ->.
  apply wrapM_ok, get_ok in Eg. exact Eg.
Qed.

Lemma run_read_shape ctx q : (forall i, q <> ROrders i) -> returns account_shape (run_read indexer ctx q).
Proof.
  intros Hq. destruct q; cbn [run_read]; try (by destruct (Hq inp)); try (by apply returns_method).
  - apply (returns_map (fun o => account_shape (ASubaccount o))); [|done]. apply returns_bind. intros _.
    apply returns_method. split; by eexists.
  - apply (returns_map (fun o => is_Some (fr_Fills o))); [|done]. apply returns_bind. intros _.
    apply returns_method. intros. apply or_empty_Some.
  - apply (returns_map (fun o => is_Some (xr_Transfers o))); [|done]. apply returns_bind. intros _.
    apply returns_method. intros. apply or_empty_Some.
  - apply (returns_map (fun o => is_Some (nr_HistoricalPnl o))); [|done]. apply returns_bind. intros _.
    apply returns_not_found; [by eexists|]. apply returns_method. intros. apply or_empty_Some.
  - apply (returns_map (fun o => is_Some (hp_HistoricalPnl o))); [|done]. apply returns_bind. intros _.
    apply returns_not_found; [by eexists|]. apply returns_method. intros. apply or_empty_Some.
  - apply (returns_map (fun o => is_Some (fp_FundingPayments o))); [|done]. apply returns_bind. intros _.
    apply returns_not_found; [by eexists|]. apply returns_method. intros. apply or_empty_Some.
Qed.

(** The market reads send one GET and change nothing. *)
Lemma run_market_asks ctx q : asks (fun req => hr_Method req = "GET"%string) (run_market ctx q).
Proof.
  assert (forall A (dec : bytes -> result A) p v, asks (fun req => hr_Method req = "GET"%string) (get indexer dec p v)) as Hg.
  { intros A dec p v s. destruct (asks_get indexer dec p v s) as [Hs [Hh|(req & <- & Hh)]]; (split; [done|]); [by left|].
    right. eexists; split; [|exact Hh]; done. }
  destruct q; cbn [run_market]; (apply asks_then; [|intros ?; keeps_tac]); intros s;
    (apply asked_after; [apply keeps_authorize|]); intros _ s1 _; revert s1;
    repeat first [apply asks_wrapM, Hg | apply asks_then; [|intros ?; keeps_tac]].
Qed.

End MarketLemmas.

(** ** Claims *)


(** A null body of get_orders: the answer is a nil slice. *)
Example orders_null :
  fst (run_read (RL := demo_rate) (E := demo_still) (HE := demo_http 200) (JD := demo_decoders)
    demo_indexer demo_ctx (ROrders demo_orders) demo_live) = Ok (AOrders None).
Proof. vm_compute. reflexivity. Qed.

(** The order id is part of the path as it is: a text with dots and a question
    mark becomes another path and a query. *)
Example order_id_unescaped :
  map hr_URL (s_http (snd (GetOrder (RL := demo_rate) (E := demo_still) (HE := demo_http 200) (JD := demo_decoders)
    demo_indexer demo_ctx "../fills?address=svp1b&subaccountNumber=0" demo_live)))
  = ["http://indexer:3002/v4/orders/../fills?address=svp1b&subaccountNumber=0"]%string.
Proof. vm_compute. reflexivity. Qed.

