(* ===== verification/FaucetTools.v ===== *)
(** * The faucet (faucet/client.go, tools/faucet.go)

    The HTTP client of the faucet and the two tools over it.  The faucet signs
    and submits a claim itself, so the one thing the server decides is who is
    paid: the request it posts is the interface. *)

From S2P Require Import Prelude GoStrings GoNum GoTime GoEncoding Http Limits TransferOut NonceStore IPRateLimiter.
From S2P Require Import SessionBearers DynamicTenants Policy Markets Units ChainLib Payload Assembler Assets.
From S2P Require Import TxInspect EVMBuilder BridgeRegistry ABI LendoraCache Server AuthTools Broadcast Indexer.
From S2P Require Import Tools EVMTools SwapTools AccountTools.

Module faucet.

Record TokenInfo : Type := mkTokenInfo { ti_Address : string; ti_AmountAllowed : string; ti_Enabled : bool }.
Record ClaimResult : Type := mkClaimResult { cr_TxHash : string; cr_Amount : string; cr_Token : string }.
Record errorBody : Type := mkErrorBody { eb_Error : string; eb_RetryAfter : Z }.

Record Client : Type := mkClient { baseURL : string; timeout : Duration; rps : Z; burst : Z }.
Record Options : Type := mkOptions { Timeout : Duration; RateLimitRPS : Z; RateLimitBurst : Z }.

Definition NewClient (base : string) (opts : Options) : Client :=
  mkClient (TrimRight1 base "/")
    (if Timeout opts =? 0 then 30 * Second else Timeout opts)
    (if RateLimitRPS opts =? 0 then 20 else RateLimitRPS opts)
    (if RateLimitBurst opts =? 0 then 5 else RateLimitBurst opts).

(** encoding/json on the answers; the error envelope is what a lenient decoding
    leaves in it. *)
Class Decoders : Type := {
  dec_Tokens : bytes -> result (list TokenInfo);
  dec_Claim : bytes -> result ClaimResult;
  dec_Error : bytes -> errorBody;
}.

Section Do.
Context {RL : RateLib} {HE : HttpEnv} {FD : Decoders} (c : Client).

(** The error of a response outside 2xx. *)
Definition status_error (method url : string) (status : Z) (raw : bytes) : goerr :=
  let eb := dec_Error raw in
  if status =? StatusTooManyRequests then
    let msg := if String.eqb (eb_Error eb) "" then "rate limited"%string else eb_Error eb in
    if 0 <? eb_RetryAfter eb then Errorf "faucet: %s (retry after %ds)" [FStr msg; FInt (eb_RetryAfter eb)]
    else Errorf "faucet: %s" [FStr msg]
  else if negb (String.eqb (eb_Error eb) "") then Errorf "faucet: %s" [FStr (eb_Error eb)]
  else Errorf "%s %s: status %d: %s" [FStr method; FStr url; FInt status; FStr (TrimSpace (str raw))].

(** [json.Marshal] of a map of strings does not fail. *)
Definition do {A} (decode : bytes -> result A) (method path : string) (reqBody : option (list (string * string))) : M srv A :=
  _ ← limiter_wait;
  let url := (baseURL c +:+ "/api" +:+ path)%string in
  _ ← lift (wrap (fun e => Errorf "new request %s: %w" [FStr url; FErr e]) (http_new_request method url));
  let headers := match reqBody with Some _ => [("Content-Type", "application/json")]%string | None => [] end
                 ++ [("Accept", "application/json")]%string in
  r ← http_send (mkHttpRequest method url headers reqBody);
  resp ← lift (wrap (fun e => Errorf "%s %s: %w" [FStr method; FStr url; FErr e]) r);
  let '(status, body) := resp in
  if (status <? 200) || (300 <=? status) then fail (status_error method url status (take 1024 body))
  else lift (wrap (fun e => Errorf "decode %s: %w" [FStr url; FErr e]) (decode body)).

Definition EnabledTokens : M srv (list TokenInfo) := do dec_Tokens "GET" "/enabledTokens" None.

Definition Claim (token address : string) : M srv ClaimResult :=
  do dec_Claim "POST" "/claim" (Some [("address", address); ("token", token)]%string).

Lemma asks_do {A} (decode : bytes -> result A) method path body :
  asks (fun req => hr_Method req = method /\ hr_URL req = (baseURL c +:+ "/api" +:+ path)%string /\ hr_Body req = body)
    (do decode method path body).
Proof.
  intros s. unfold do. apply asked_after; [unfold limiter_wait; keeps_tac|]. intros _ s1 _.
  apply asked_after; [keeps_tac|]. intros _ s2 _. apply (asks_then _ (http_send _)).
  - intros s3. unfold http_send, mbind, M_bind, tick, run_state. cbn [snd s_http set_http set_reads]. split; [done|].
    right. eexists. split; [|reflexivity]. done.
  - intros r. keeps_tac.
Qed.

End Do.
End faucet.

(** ** The tools *)

Definition nativeTokenAddress : string := "0x0000000000000000000000000000000000000000".

Record FaucetTokenDTO : Type := mkFaucetTokenDTO {
  ft_Address : string; ft_AmountAllowed : string; ft_Enabled : bool; ft_Symbol : string }.

Record FaucetClaimOutput : Type := mkFaucetClaimOutput {
  fc_TxHash : string; fc_Amount : string; fc_Token : string; fc_Symbol : string; fc_Address : string }.

Definition faucet_disabled : goerr := userErrf "faucet is not enabled on this server (no faucet_base_url configured)" [].

Section Faucet.
Context {RL : RateLib} {E : Env} {HE : HttpEnv} {FD : faucet.Decoders} {L : ChainLib} {U : Unicode}.
Context (client : option faucet.Client).

Definition faucetTokenSymbol (address : string) : string :=
  let addr := HexToAddress address in
  if addr_eqb addr zero_address then "SVP" else default EmptyString (knownTokenSymbol addr).

Definition faucetTokensWithSymbols (tokens : list faucet.TokenInfo) : list FaucetTokenDTO :=
  map (fun t => mkFaucetTokenDTO (faucet.ti_Address t) (faucet.ti_AmountAllowed t) (faucet.ti_Enabled t)
                  (faucetTokenSymbol (faucet.ti_Address t))) tokens.

Definition ListFaucetTokens (ctx : context) : M srv (list FaucetTokenDTO) :=
  _ ← authorize ctx "list_faucet_tokens";
  c ← lift (from_opt client faucet_disabled);
  tokens ← faucet.EnabledTokens c;
  mret (faucetTokensWithSymbols tokens).

Definition FaucetClaim (ctx : context) (token : string) : M srv FaucetClaimOutput :=
  tp ← authorize ctx "faucet_claim";
  c ← lift (from_opt client faucet_disabled);
  addr ← lift (ownerEthAddress (tp_Owner tp));
  let address := Address_Hex addr in
  pt ← lift (parseSwapToken token);
  let '(tokenAddr, native) := pt in
  let token := if negb native then Address_Hex tokenAddr else nativeTokenAddress in
  res ← faucet.Claim c token address;
  mret (mkFaucetClaimOutput (faucet.cr_TxHash res) (faucet.cr_Amount res) (faucet.cr_Token res)
          (faucetTokenSymbol (faucet.cr_Token res)) address).

(** A claim that pays the owner of a tenant resolved from the context. *)
Definition own_claim (ctx : context) (token : string) (s : srv) (req : HttpRequest) : Prop :=
  exists tp c addr tokenAddr native,
    authorized ctx tp s /\ client = Some c /\ ownerEthAddress (tp_Owner tp) = Ok addr
    /\ parseSwapToken token = Ok (tokenAddr, native)
    /\ hr_Method req = "POST"%string /\ hr_URL req = (faucet.baseURL c +:+ "/api/claim")%string
    /\ hr_Body req = Some [("address", Address_Hex addr);
                           ("token", if native then nativeTokenAddress else Address_Hex tokenAddr)]%string.

Lemma FaucetClaim_asks ctx token s : asked (own_claim ctx token s) s (snd (FaucetClaim ctx token s)).
Proof.
  unfold FaucetClaim. apply asked_after; [apply keeps_authorize|]. intros tp s1 H1. apply authorize_inv in H1 as [Ha _].
  apply asked_after; [keeps_tac|]. intros c s2 H2. apply asked_after; [keeps_tac|]. intros addr s3 H3.
  apply asked_after; [keeps_tac|]. intros [tokenAddr native] s4 H4.
  apply lift_ok in H2 as [H2 _], H3 as [H3 _], H4 as [H4 _].
  apply (asks_then (own_claim ctx token s)); [|intros res; keeps_tac]. intros s5. unfold faucet.Claim.
  destruct (faucet.asks_do c faucet.dec_Claim "POST" "/claim"
    (Some [("address", Address_Hex addr); ("token", if negb native then Address_Hex tokenAddr else nativeTokenAddress)]%string) s5)
    as [Hs [Hh|(req & (Hm & Hu & Hb) & Hh)]]; (split; [done|]); [by left|].
  right. exists req. split; [|exact Hh]. assert (client = Some c) as Hc by (destruct client; [by injection H2 as ->|done]).
  exists tp, c, addr, tokenAddr, native. split_and!; [done..|]. rewrite Hb. by destruct native.
Qed.

End Faucet.

(** ** Claims *)

(** C16: the faucet pays the caller and nobody else.  Whatever faucet_claim
    returns, it changed no store and posted at most one claim; a claim was posted
    only for a tenant resolved from the context, to the configured faucet, for
    the token the argument denotes (the zero address for the native token), and
    its recipient is the tenant's own address, which no argument can change; the
    address reported back is that recipient. *)
Theorem faucet_pays_caller {RL : RateLib} {E : Env} {HE : HttpEnv} {FD : faucet.Decoders} {L : ChainLib} {U : Unicode}
    (client : option faucet.Client) (ctx : context) (token : string) (s s' : srv) (r : result FaucetClaimOutput)
    (H : FaucetClaim client ctx token s = (r, s')) :
  stores s' = stores s
  /\ (s_http s' = s_http s \/ exists req, own_claim client ctx token s req /\ s_http s' = s_http s ++ [req])
  /\ forall o, r = Ok o -> exists tp addr, authorized ctx tp s /\ ownerEthAddress (tp_Owner tp) = Ok addr
     /\ fc_Address o = Address_Hex addr.
Proof.
  pose proof (FaucetClaim_asks client ctx token s) as Ha. rewrite H in Ha. cbn [snd] in Ha. destruct Ha as [Hs Hh].
  split_and!; [done..|]. intros o ->. unfold FaucetClaim in H. m_inv H as tp s1 H1. apply authorize_inv in H1 as [Ha _].
  m_inv H as c s2 H2. m_inv H as addr s3 H3. apply lift_ok in H3 as [H3 _]. m_inv H as pt s4 H4. destruct pt as [ta nat].
  m_inv H as res s5 H5. injection H as <- _. by exists tp, addr.
Qed.

(** A rejected claim is reported with the faucet's own reason, and the time to
    wait when there is one; a claim outside 2xx never counts as made. *)
Theorem faucet_rejection {RL : RateLib} {HE : HttpEnv} {FD : faucet.Decoders} (c : faucet.Client) (token address : string)
    (s : srv) (status : Z) (body : bytes)
    (Hw : forall n, http_wait n = Ok tt) (Hn : forall m u, http_new_request m u = Ok tt)
    (Hd : forall n req, http_do n req = Ok (status, body)) (Hst : status < 200 \/ 300 <= status) :
  fst (faucet.Claim c token address s)
  = Err (faucet.status_error "POST" (faucet.baseURL c +:+ "/api" +:+ "/claim")%string status (take 1024 body)).
Proof.
  unfold faucet.Claim, faucet.do, limiter_wait, http_send, mbind, M_bind, tick, lift, run_state. rewrite Hw. cbn [wrap].
  rewrite Hn. cbn [wrap]. rewrite Hd. cbn [wrap].
  destruct (Z.ltb_spec status 200), (Z.leb_spec 300 status); cbn [orb]; try done. lia.
Qed.

(** ** Witnesses *)

Definition demo_faucet_decoders : faucet.Decoders := {|
  faucet.dec_Tokens := fun _ => Ok []; faucet.dec_Claim := fun _ => Ok (faucet.mkClaimResult "0xabc" "5" nativeTokenAddress);
  faucet.dec_Error := fun _ => faucet.mkErrorBody "" 0 |}.
Definition demo_faucet : faucet.Client := faucet.NewClient "https://faucet/" (faucet.mkOptions 0 0 0).

Lemma faucet_pays_caller_witness :
  exists o s', FaucetClaim (RL := demo_rate) (E := demo_still) (HE := demo_http 200) (FD := demo_faucet_decoders) (L := demo_lib)
      (U := unicode_id) (Some demo_faucet) demo_ctx "usdv" demo_live = (Ok o, s')
  /\ fc_Address o = @Address_Hex demo_lib (chars "a").
Proof.
  destruct (FaucetClaim (RL := demo_rate) (E := demo_still) (HE := demo_http 200) (FD := demo_faucet_decoders) (L := demo_lib)
    (U := unicode_id) (Some demo_faucet) demo_ctx "usdv" demo_live) as [[o|e] s'] eqn:Er; [|by vm_compute in Er].
  exists o, s'. split; [reflexivity|].
  destruct (faucet_pays_caller (RL := demo_rate) (E := demo_still) (HE := demo_http 200) (FD := demo_faucet_decoders)
    (L := demo_lib) (U := unicode_id) (Some demo_faucet) demo_ctx "usdv" demo_live s' (Ok o) Er) as (_ & _ & Ho).
  destruct (Ho o eq_refl) as (tp & addr & (tc & Htc & Ht & _) & Ha & ->).
  injection Htc as <-. apply Tenant_in_force in Ht. vm_compute in Ht. injection Ht as <-. vm_compute in Ha. injection Ha as <-. reflexivity.
Defined.
