(* ===== verification/ReadTools.v ===== *)
(** * The read tools together

    Everything that is registered and neither builds nor broadcasts: the account,
    market, faucet and status tools as one type of calls, with the handler of
    each (tools/registry.go), and that they leave every store alone. *)

From S2P Require Import Prelude GoStrings GoNum GoTime GoEncoding Http Limits TransferOut NonceStore IPRateLimiter.
From S2P Require Import SessionBearers DynamicTenants Policy Markets Units ChainLib Payload Assembler Assets.
From S2P Require Import TxInspect EVMBuilder BridgeRegistry ABI LendoraABI LendoraCache Server AuthTools Broadcast Indexer.
From S2P Require Import Tools EVMTools SwapTools AccountTools MarketTools FaucetTools.

(** The outside world of the read tools. *)
Class Reads : Type := {
  reads_http :: HttpEnv;
  reads_json :: JsonLib;
  reads_decoders :: JsonDecoders;
  reads_serial :: SerialLib;
  reads_chain :: ChainQueries;
  reads_faucet :: faucet.Decoders;
  reads_status :: StatusEnv;
}.

(** What [Deps] holds for them. *)
Record ReadDeps : Type := mkReadDeps {
  rd_Indexer : Indexer.Client;
  rd_Faucet : option faucet.Client;
  rd_BroadcastMode : string;
}.

Inductive read_call : Type :=
| QOwner (q : owner_read)
| QMarket (q : market_read)
| QOrder (orderID : string)
| QLive (owner : string) (number : Z)
| QBalance (owner : string)
| QWhoami
| QOracle
| QFaucetTokens
| QFaucetClaim (token : string)
| QTxStatus (txHash : string)
| QEVMTxStatus (txHash : string) (chainID : Z).

Definition market_tool_name (q : market_read) : string :=
  match q with
  | MList => "list_markets" | MMarket _ => "get_market" | MOrderbook _ => "get_orderbook" | MCandles _ => "get_candles"
  | MTrades _ _ => "get_trades" | MSparklines _ => "get_sparklines" | MFunding _ => "get_historical_funding"
  | MHeight => "get_height" | MTime => "get_time"
  end.

Definition read_tool_name (c : read_call) : string :=
  match c with
  | QOwner q => read_tool q
  | QMarket q => market_tool_name q
  | QOrder _ => "get_order"
  | QLive _ _ => "get_live_subaccount"
  | QBalance _ => "get_balance"
  | QWhoami => "whoami"
  | QOracle => "get_oracle_price"
  | QFaucetTokens => "list_faucet_tokens"
  | QFaucetClaim _ => "faucet_claim"
  | QTxStatus _ => "get_tx_status"
  | QEVMTxStatus _ _ => "evm_tx_status"
  end.

Section ReadTools.
Context {RL : RateLib} {E : Env} {N : EVMEnv} {L : ChainLib} {D : DecLib} {B : ABILib} {U : Unicode} {RD : Reads}.
Context (h : Handlers) (d : EVMDeps) (rd : ReadDeps).

Definition handle_read (ctx : context) (c : read_call) : M srv unit :=
  match c with
  | QOwner q => ignore (run_read (rd_Indexer rd) ctx q)
  | QMarket q => ignore (run_market (rd_Indexer rd) ctx q)
  | QOrder id => ignore (GetOrder (rd_Indexer rd) ctx id)
  | QLive a n => ignore (GetLiveSubaccount ctx a n)
  | QBalance a => ignore (GetBalance d ctx a)
  | QWhoami => ignore (Whoami (h_ChainID h) (rd_BroadcastMode rd) ctx)
  | QOracle => ignore (GetOraclePrice d ctx)
  | QFaucetTokens => ignore (ListFaucetTokens (rd_Faucet rd) ctx)
  | QFaucetClaim t => ignore (FaucetClaim (rd_Faucet rd) ctx t)
  | QTxStatus t => ignore (GetTxStatus ctx t)
  | QEVMTxStatus t c => ignore (EVMTxStatus h (ed_HomeChainID d) ctx t c)
  end.

Lemma asks_stores {A} P (m : M srv A) : asks P m -> keeps stores m.
Proof. intros H s. apply (H s). Qed.

Lemma keeps_own ctx tool a n : keeps stores (own_subaccount ctx tool a n).
Proof. apply keeps_view; [apply _|]. apply keeps_own_subaccount. Qed.

Lemma keeps_run_read ctx q : keeps stores (run_read (rd_Indexer rd) ctx q).
Proof.
  assert (forall A (dec : bytes -> result A) p v, keeps stores (get (rd_Indexer rd) dec p v)) as Hg.
  { intros. eapply asks_stores, asks_get. }
  destruct q; cbn [run_read]; unfold GetSubaccount, GetOrders, GetFills, GetTransfers, GetPnl, GetHistoricalPnl,
    GetFundingPayments, not_found_as, cli_GetSubaccount, cli_GetOrders, cli_GetFills, cli_GetTransfers, cli_GetPnl,
    cli_GetHistoricalPnl, cli_GetFundingPayments;
    repeat first [apply Hg | apply keeps_own | apply keeps_try | keeps_step].
Qed.

Lemma keeps_evm_reads client : 
  (forall token account, keeps effects (erc20Balance client token account))
  /\ (forall native token, keeps effects (tokenDecimals client native token))
  /\ (forall to data, keeps effects (evmCallOn client to data)).
Proof. split_and!; intros; unfold erc20Balance, tokenDecimals, evmCallOn; keeps_tac. Qed.

Lemma keeps_GetBalance ctx a : keeps effects (GetBalance d ctx a).
Proof.
  assert (forall client eth l, keeps effects (erc20_loop client eth l)) as Hl.
  { intros client eth l. destruct (keeps_evm_reads client) as (H1 & H2 & _).
    induction l as [|sym l IH]; cbn [erc20_loop]; [keeps_tac|]. apply keeps_bind; [|intros row; keeps_tac].
    unfold erc20_row. repeat first [apply H1 | apply H2 | apply keeps_try | keeps_step]. }
  unfold GetBalance, AllBalances, erc20Balances, authorizeOwner. repeat first [apply Hl | keeps_step].
Qed.

Lemma keeps_handle_read ctx c : keeps stores (handle_read ctx c).
Proof.
  assert (forall A (dec : bytes -> result A) p v, keeps stores (get (rd_Indexer rd) dec p v)) as Hg.
  { intros. eapply asks_stores, asks_get. }
  destruct c; cbn [handle_read]; apply keeps_ignore.
  - apply keeps_run_read.
  - eapply asks_stores, run_market_asks.
  - unfold GetOrder, cli_GetOrder. repeat first [apply Hg | keeps_step].
  - unfold GetLiveSubaccount, chain_Subaccount. repeat first [apply keeps_own | keeps_step].
  - apply keeps_view; [apply _|]. apply keeps_GetBalance.
  - unfold Whoami. keeps_tac.
  - apply keeps_view; [apply _|]. unfold GetOraclePrice, evmCallOn. keeps_tac.
  - unfold ListFaucetTokens, faucet.EnabledTokens. apply keeps_bind; [keeps_tac|]. intros tp.
    apply keeps_bind; [keeps_tac|]. intros c. apply keeps_bind; [|intros t; keeps_tac]. eapply asks_stores, faucet.asks_do.
  - intros s. apply (FaucetClaim_asks (rd_Faucet rd) ctx token s).
  - unfold GetTxStatus. keeps_tac.
  - unfold EVMTxStatus. keeps_tac.
Qed.

End ReadTools.

(** The world of the concrete evaluations: an indexer and a faucet that answer
    200, a chain without balances. *)
Definition demo_serial : SerialLib := {| SerializableInt := Z; serial_String := FormatInt |}.
Definition demo_reads : Reads := {|
  reads_http := demo_http 200; reads_json := demo_json; reads_decoders := demo_decoders; reads_serial := demo_serial;
  reads_chain := {| grpc_Subaccount := fun _ _ _ => Ok (mkChainSubaccount None [] [] false);
                    grpc_AllBalances := fun _ _ => Ok [] |};
  reads_faucet := demo_faucet_decoders;
  reads_status := {| env_tx_status := fun _ t => Ok (mkTxStatus t 0 0 ""); env_receipt := fun _ _ _ => Ok None |} |}.
Definition demo_read_deps : ReadDeps := mkReadDeps demo_indexer (Some demo_faucet) "server".
