(* ===== verification/BridgeTools.v ===== *)
(** * The bridge tools (tools/bridge.go)

    Deposits out of and into the home chain: resolving the leg of a request,
    the allowance check, and the shared assembly.  In a result without a payload
    [bo_Payload] is [None], the zero value of the source. *)

From S2P Require Import Prelude GoStrings GoNum GoTime GoEncoding Limits TransferOut NonceStore IPRateLimiter.
From S2P Require Import SessionBearers DynamicTenants Policy Markets Units ChainLib Payload Assembler Assets.
From S2P Require Import TxInspect EVMBuilder BridgeRegistry Server AuthTools Broadcast Tools ABI EVMTools.

Record bridgeLeg : Type := mkBridgeLeg {
  lg_Route : Route;
  lg_SrcChainID : Z;
  lg_DestChainID : Z;
  lg_Bridge : Address;
  lg_Assembler : Z;
  lg_Client : Z;
}.

Record BridgeApproval : Type := mkBridgeApproval {
  ba_Tool : string; ba_Token : string; ba_Spender : string; ba_MinAmount : string; ba_ChainID : Z;
  ba_RetryTool : string; ba_Message : string }.

Record BridgeDepositOutput : Type := mkBridgeDepositOutput {
  bo_Payload : option EVMTxPayload;
  bo_SourceChainID : Z; bo_DestChainID : Z; bo_Symbol : string; bo_SourceToken : string; bo_TargetToken : string;
  bo_Recipient : string; bo_AmountBase : string;
  bo_ApprovalRequired : option BridgeApproval }.

Record BuildBridgeDepositInput : Type := mkBuildBridgeDepositInput {
  bi_DestChain : string; bi_Token : string; bi_Amount : string; bi_Recipient : string; bi_ClientID : string }.
Record BuildBridgeDepositInboundInput : Type := mkBuildBridgeDepositInboundInput {
  bn_SourceChain : string; bn_Token : string; bn_Amount : string; bn_Recipient : string; bn_ClientID : string }.

Definition bridging_disabled : goerr :=
  userErrf "bridging is not enabled on this server (no evm_bridge_addr / evm_bridge_routes_path configured)" [].

Section Bridge.
Context {RL : RateLib} {E : Env} {N : EVMEnv} {L : ChainLib} {D : DecLib} {B : ABILib} {U : Unicode} (d : EVMDeps).

Definition bridgeTokenLabel (addr : Address) : string :=
  if addr_eqb addr zero_address then "native" else Address_Hex addr.

Definition bridgeParties (owner recipientArg : string) : result (Address * Address) :=
  from ← ownerEthAddress owner;
  recipient ← (if negb (String.eqb recipientArg "") then parseEVMAddress recipientArg "recipient" else Ok from);
  Ok (from, recipient).

Definition checkBridgeAllowance (client : Z) (token owner bridgeAddr : Address) (amount : Z)
    (amountHuman retryTool : string) (srcChainID : Z) : M srv (option BridgeApproval) :=
  data ← lift (PackERC20Allowance owner bridgeAddr);
  out ← wrapM (fun e => Errorf "read allowance for %s: %w" [FStr (Address_Hex token); FErr e])
          (evmCallOn client token data);
  allowance ← lift (UnpackERC20Allowance out);
  if allowance <? amount then
    mret (Some
      {| ba_Tool := "build_erc20_approve";
         ba_Token := Address_Hex token;
         ba_Spender := Address_Hex bridgeAddr;
         ba_MinAmount := amountHuman;
         ba_ChainID := srcChainID;
         ba_RetryTool := retryTool;
         ba_Message :=
           ("bridge allowance for " +:+ Address_Hex token +:+ " is insufficient — call build_erc20_approve (token "
              +:+ Address_Hex token +:+ ", spender " +:+ Address_Hex bridgeAddr +:+ ", amount >= " +:+ amountHuman
              +:+ ", chain_id " +:+ FormatUint srcChainID +:+ ") first, then retry " +:+ retryTool)%string |})
  else mret None.

(** The output before a payload or an approval step is added. *)
Definition base_output (leg : bridgeLeg) (recipient : Address) (amount : Z) (p : option EVMTxPayload)
    (approval : option BridgeApproval) : BridgeDepositOutput :=
  {| bo_Payload := p;
     bo_SourceChainID := lg_SrcChainID leg;
     bo_DestChainID := lg_DestChainID leg;
     bo_Symbol := rt_Symbol (lg_Route leg);
     bo_SourceToken := bridgeTokenLabel (rt_SrcToken (lg_Route leg));
     bo_TargetToken := bridgeTokenLabel (rt_TargetToken (lg_Route leg));
     bo_Recipient := Address_Hex recipient;
     bo_AmountBase := FormatInt amount;
     bo_ApprovalRequired := approval |}.

(** The common end: assemble the deposit with its data and value. *)
Definition assemble_deposit (leg : bridgeLeg) (from recipient : Address) (amountHuman clientID toolName : string)
    (amount : Z) (data : bytes) (value : option Z) : M srv BridgeDepositOutput :=
  p ← asm_Assemble (lg_Assembler leg) (mkEVMArgs clientID from (lg_Bridge leg) data value
         (mkEVMSummary toolName
            ("bridge " +:+ amountHuman +:+ " " +:+ rt_Symbol (lg_Route leg) +:+ " from chain "
               +:+ FormatUint (lg_SrcChainID leg) +:+ " to chain " +:+ FormatUint (lg_DestChainID leg)
               +:+ " (recipient " +:+ Address_Hex recipient +:+ ")")%string));
  mret (base_output leg recipient amount (Some p) None).

Definition assembleBridgeDeposit (leg : bridgeLeg) (from recipient : Address) (amountHuman clientID toolName : string)
  : M srv BridgeDepositOutput :=
  amount ← lift (wrap (fun e => Errorf "amount: %w" [FErr e]) (humanToBaseUnits amountHuman (rt_Decimals (lg_Route leg))));
  if NativeSource (lg_Route leg) then
    data ← lift (PackDepositNative (lg_DestChainID leg) (rt_TargetToken (lg_Route leg)) recipient);
    assemble_deposit leg from recipient amountHuman clientID toolName amount data (Some amount)
  else
    approval ← checkBridgeAllowance (lg_Client leg) (rt_SrcToken (lg_Route leg)) from (lg_Bridge leg) amount
                 amountHuman toolName (lg_SrcChainID leg);
    match approval with
    | Some a => mret (base_output leg recipient amount None (Some a))
    | None =>
        data ← lift (PackDeposit (rt_SrcToken (lg_Route leg)) amount (lg_DestChainID leg)
                       (rt_TargetToken (lg_Route leg)) recipient);
        assemble_deposit leg from recipient amountHuman clientID toolName amount data None
    end.

Definition buildBridge (ctx : context) (tool amount recipientArg clientID : string) (resolveLeg : result bridgeLeg)
  : M srv BridgeDepositOutput :=
  tp ← authorize ctx tool;
  parties ← lift (bridgeParties (tp_Owner tp) recipientArg);
  leg ← lift resolveLeg;
  assembleBridgeDeposit leg (fst parties) (snd parties) amount clientID tool.

(** The home client and assembler, the bridge, the registry. *)
Definition requireBridge : result (Z * Z * Address * Registry) :=
  home ← requireEVM d;
  match ed_Bridge d, ed_BridgeRoutes d with
  | Some br, Some routes => Ok (home, br, routes)
  | _, _ => Err bridging_disabled
  end.

Definition text_err (e : goerr) : goerr := userErrf "%s" [FErr e].

Definition outbound_leg (inp : BuildBridgeDepositInput) : result bridgeLeg :=
  req ← requireBridge;
  let '(home, br, routes) := req in
  let srcChainID := ed_BridgeSourceChainID d in
  destChainID ← wrap text_err (ResolveDestChain (bi_DestChain inp) srcChainID routes);
  route ← wrap text_err (Lookup srcChainID destChainID (bi_Token inp) routes);
  Ok (mkBridgeLeg route srcChainID destChainID br (snd home) (fst home)).

Definition BuildBridgeDeposit (ctx : context) (inp : BuildBridgeDepositInput) : M srv BridgeDepositOutput :=
  buildBridge ctx "build_bridge_deposit" (bi_Amount inp) (bi_Recipient inp) (bi_ClientID inp) (outbound_leg inp).

Definition requireInboundBridge : result Registry :=
  routes ← from_opt (ed_BridgeRoutes d) bridging_disabled;
  _ ← check (Nat.eqb (size (ed_ForeignChains d)) 0)
        (userErrf "inbound bridging is not enabled on this server (no evm_foreign_chain configured)" []);
  Ok routes.

Definition inbound_leg (inp : BuildBridgeDepositInboundInput) : result bridgeLeg :=
  routes ← requireInboundBridge;
  let homeChainID := ed_HomeChainID d in
  srcChainID ← wrap text_err (ResolveSourceChain (bn_SourceChain inp) homeChainID routes);
  fc ← from_opt (ed_ForeignChains d !! srcChainID)
         (userErrf "source chain %d has an inbound route but is not configured for inbound bridging (no matching evm_foreign_chain)"
            [FInt srcChainID]);
  route ← wrap text_err (Lookup srcChainID homeChainID (bn_Token inp) routes);
  Ok (mkBridgeLeg route srcChainID homeChainID (fc_Bridge fc) (fc_Assembler fc) (fc_Client fc)).

Definition BuildBridgeDepositInbound (ctx : context) (inp : BuildBridgeDepositInboundInput)
  : M srv BridgeDepositOutput :=
  buildBridge ctx "build_bridge_deposit_inbound" (bn_Amount inp) (bn_Recipient inp) (bn_ClientID inp) (inbound_leg inp).

End Bridge.

(** ** Lemmas *)

Inductive bridge_tool : Type :=
| BOut (i : BuildBridgeDepositInput)
| BIn (i : BuildBridgeDepositInboundInput).

Section Facts.
Context {RL : RateLib} {E : Env} {N : EVMEnv} {L : ChainLib} {D : DecLib} {B : ABILib} {U : Unicode} (d : EVMDeps).

Definition run_bridge (ctx : context) (c : bridge_tool) : M srv BridgeDepositOutput :=
  match c with BOut i => BuildBridgeDeposit d ctx i | BIn i => BuildBridgeDepositInbound d ctx i end.

Definition bridge_name (c : bridge_tool) : string :=
  match c with BOut _ => "build_bridge_deposit" | BIn _ => "build_bridge_deposit_inbound" end.
Definition bridge_token (c : bridge_tool) : string := match c with BOut i => bi_Token i | BIn i => bn_Token i end.
Definition bridge_amount (c : bridge_tool) : string := match c with BOut i => bi_Amount i | BIn i => bn_Amount i end.
Definition bridge_recipient (c : bridge_tool) : string := match c with BOut i => bi_Recipient i | BIn i => bn_Recipient i end.
Definition bridge_client (c : bridge_tool) : string := match c with BOut i => bi_ClientID i | BIn i => bn_ClientID i end.

(** The network the request names: where an outbound deposit goes to, where an
    inbound one comes from. *)
Definition bridge_chain (c : bridge_tool) : string := match c with BOut i => bi_DestChain i | BIn i => bn_SourceChain i end.

(** A chain argument names a chain id: spaces around it aside it is that number,
    or it is no number and the registry has that name, in lower case, for it. *)
Definition names_chain (reg : Registry) (arg : string) (id : Z) : Prop :=
  let q := TrimSpace arg in
  q <> ""%string /\ match ParseUint q with Ok n => id = n | Err _ => nameToID reg !! ToLower q = Some id end.

(** A leg in the direction of the tool, with the network the request names at
    its far end: on the home chain through the home bridge and clients, or on a
    configured foreign chain through that chain's; its route is the first of the
    registry's for exactly this pair of chains that the token selects. *)
Definition leg_ok (c : bridge_tool) (leg : bridgeLeg) : Prop :=
  exists reg, ed_BridgeRoutes d = Some reg
  /\ lg_Route leg ∈ routes reg /\ selects (bridge_token c) (lg_Route leg) = true
  /\ rt_SrcChainID (lg_Route leg) = lg_SrcChainID leg /\ rt_TargetChainID (lg_Route leg) = lg_DestChainID leg
  /\ List.find (selects (bridge_token c)) (routesFor (lg_SrcChainID leg) (lg_DestChainID leg) reg) = Some (lg_Route leg)
  /\ lg_SrcChainID leg <> lg_DestChainID leg
  /\ names_chain reg (bridge_chain c) (match c with BOut _ => lg_DestChainID leg | BIn _ => lg_SrcChainID leg end)
  /\ match c with
     | BOut _ => lg_SrcChainID leg = ed_BridgeSourceChainID d /\ ed_Bridge d = Some (lg_Bridge leg)
                 /\ ed_Assembler d = Some (lg_Assembler leg) /\ ed_EVM d = Some (lg_Client leg)
     | BIn _ => lg_DestChainID leg = ed_HomeChainID d
                /\ ed_ForeignChains d !! lg_SrcChainID leg
                   = Some (mkForeignChain (lg_Client leg) (lg_Assembler leg) (lg_Bridge leg))
     end.

Lemma resolve_names query fixed dir reg id :
  resolveChain query fixed dir reg = Ok id -> id <> fixed /\ names_chain reg query id.
Proof.
  unfold resolveChain, names_chain, chain_named. cbv zeta.
  destruct (String.eqb_spec (TrimSpace query) ""); cbn [check mbind result_bind]; [done|]. intros H.
  destruct (from_opt _ _) as [i|] eqn:Ei in H; cbn [mbind result_bind] in H; [|done].
  destruct (Z.eqb_spec i fixed); cbn [check mbind result_bind] in H; [done|].
  assert (id = i) as -> by (destruct dir, (Nat.eqb _ 0) in H; cbn in H; by simplify_eq).
  split_and!; [done..|]. destruct (ParseUint _); cbn in Ei; [by injection Ei as ->|].
  destruct (nameToID reg !! _); cbn in Ei; by simplify_eq.
Qed.

Lemma Lookup_route src target tq reg rt :
  Lookup src target tq reg = Ok rt ->
  rt ∈ routes reg /\ selects tq rt = true /\ rt_SrcChainID rt = src /\ rt_TargetChainID rt = target.
Proof.
  intros H%Lookup_find. apply find_some in H as [Hi Hs]. apply list_elem_of_In, elem_of_routesFor in Hi. naive_solver.
Qed.

Lemma outbound_leg_inv i leg : outbound_leg d i = Ok leg -> leg_ok (BOut i) leg.
Proof.
  unfold outbound_leg, requireBridge. destruct (requireEVM d) as [home|] eqn:Eh; cbn [mbind result_bind]; [|done].
  apply requireEVM_inv in Eh as [H1 H2]. destruct (ed_Bridge d) as [br|] eqn:Eb; [|done].
  destruct (ed_BridgeRoutes d) as [reg|] eqn:Er; [|done]. cbn [mbind result_bind].
  destruct (ResolveDestChain _ _ _) as [dest|] eqn:Ed; cbn [wrap mbind result_bind]; [|done].
  destruct (Lookup _ _ _ _) as [rt|] eqn:El; cbn [wrap mbind result_bind]; [|done]. intros [= <-].
  apply resolve_names in Ed as [Ed Hn]. pose proof (proj1 (Lookup_find _ _ _ _ _) El) as Hf.
  apply Lookup_route in El as (R1 & R2 & R3 & R4).
  exists reg. cbn. by split_and!.
Qed.

Lemma inbound_leg_inv i leg : inbound_leg d i = Ok leg -> leg_ok (BIn i) leg.
Proof.
  unfold inbound_leg, requireInboundBridge. destruct (ed_BridgeRoutes d) as [reg|] eqn:Er; cbn [from_opt mbind result_bind]; [|done].
  destruct (Nat.eqb _ 0); cbn [check mbind result_bind]; [done|].
  destruct (ResolveSourceChain _ _ _) as [src|] eqn:Es; cbn [wrap mbind result_bind]; [|done].
  destruct (ed_ForeignChains d !! src) as [fc|] eqn:Ef; cbn [from_opt mbind result_bind]; [|done].
  destruct (Lookup _ _ _ _) as [rt|] eqn:El; cbn [wrap mbind result_bind]; [|done]. intros [= <-].
  apply resolve_names in Es as [Es Hn]. pose proof (proj1 (Lookup_find _ _ _ _ _) El) as Hf.
  apply Lookup_route in El as (R1 & R2 & R3 & R4).
  exists reg. cbn. destruct fc. by split_and!.
Qed.

(** The recipient a request names: the owner's own address unless it gives one. *)
Definition recipient_of (arg : string) (from recipient : Address) : Prop :=
  if String.eqb arg "" then recipient = from else addr_of arg recipient.

Lemma bridgeParties_inv owner arg ft :
  bridgeParties owner arg = Ok ft -> ownerEthAddress owner = Ok (fst ft) /\ recipient_of arg (fst ft) (snd ft).
Proof.
  unfold bridgeParties, recipient_of. destruct (ownerEthAddress owner) as [from|]; cbn [mbind result_bind]; [|done].
  destruct (String.eqb arg ""); cbn [negb mbind result_bind]; [by intros [= <-]|].
  destruct (parseEVMAddress arg "recipient") as [r|] eqn:Ep; cbn [mbind result_bind]; [|done].
  intros [= <-]. split; [done|]. by eapply parseEVMAddress_inv.
Qed.

(** The allowance of the bridge that the source chain's node answered. *)
Definition bridge_allowance (leg : bridgeLeg) (owner : Address) (allowance : Z) : Prop :=
  exists n data out, PackERC20Allowance owner (lg_Bridge leg) = Ok data
  /\ env_call n (lg_Client leg) (rt_SrcToken (lg_Route leg)) data = Ok out /\ UnpackERC20Allowance out = Ok allowance.

Lemma checkBridgeAllowance_inv leg owner amount human retry s r s' :
  checkBridgeAllowance (lg_Client leg) (rt_SrcToken (lg_Route leg)) owner (lg_Bridge leg) amount human retry
    (lg_SrcChainID leg) s = (Ok r, s') ->
  exists a, bridge_allowance leg owner a
  /\ match r with
     | None => amount <= a
     | Some ap => a < amount /\ ba_Tool ap = "build_erc20_approve"%string
         /\ ba_Token ap = Address_Hex (rt_SrcToken (lg_Route leg)) /\ ba_Spender ap = Address_Hex (lg_Bridge leg)
         /\ ba_MinAmount ap = human /\ ba_ChainID ap = lg_SrcChainID leg /\ ba_RetryTool ap = retry
     end.
Proof.
  unfold checkBridgeAllowance. intros H. l_inv H as data Hd. m_inv H as out s1 H1.
  apply wrapM_ok, evmCallOn_inv in H1 as [n Hn]. l_inv H as a Ha. exists a. split; [by exists n, data, out|].
  destruct (Z.ltb_spec a amount); by injection H as <- _.
Qed.

(** What the result says: the requested amount on the leg, and either a payload
    for the deposit or the approval that must come first. *)
Definition deposit_ok (c : bridge_tool) (owner : string) (leg : bridgeLeg) (from recipient : Address) (amount : Z)
    (out : BridgeDepositOutput) : Prop :=
  let rt := lg_Route leg in
  out = base_output leg recipient amount (bo_Payload out) (bo_ApprovalRequired out)
  /\ match bo_Payload out, bo_ApprovalRequired out with
     | Some p, None =>
         exists data,
           (if NativeSource rt then PackDepositNative (lg_DestChainID leg) (rt_TargetToken rt) recipient = Ok data
            else PackDeposit (rt_SrcToken rt) amount (lg_DestChainID leg) (rt_TargetToken rt) recipient = Ok data
                 /\ exists a, bridge_allowance leg from a /\ amount <= a)
           /\ requests (lg_Assembler leg) owner (bridge_client c) (lg_Bridge leg)
                (if NativeSource rt then amount else 0) data p
     | None, Some ap =>
         NativeSource rt = false /\ ba_Tool ap = "build_erc20_approve"%string
         /\ ba_Token ap = Address_Hex (rt_SrcToken rt) /\ ba_Spender ap = Address_Hex (lg_Bridge leg)
         /\ ba_MinAmount ap = bridge_amount c /\ ba_ChainID ap = lg_SrcChainID leg /\ ba_RetryTool ap = bridge_name c
         /\ exists a, bridge_allowance leg from a /\ a < amount
     | _, _ => False
     end.

Lemma assemble_deposit_inv owner leg from recipient human cid tool amount data value s out s' :
  assemble_deposit leg from recipient human cid tool amount data value s = (Ok out, s') ->
  ownerEthAddress owner = Ok from ->
  exists p, out = base_output leg recipient amount (Some p) None
  /\ requests (lg_Assembler leg) owner cid (lg_Bridge leg) (default 0 value) data p.
Proof.
  unfold assemble_deposit. intros H Ho. m_inv H as p s1 H1. injection H as <- _. exists p. split; [done|].
  by apply (asm_Assemble_requests _ owner) in H1.
Qed.

Lemma assembleBridgeDeposit_inv c owner leg from recipient s out s' :
  assembleBridgeDeposit leg from recipient (bridge_amount c) (bridge_client c) (bridge_name c) s = (Ok out, s') ->
  ownerEthAddress owner = Ok from ->
  exists amount, humanToBaseUnits (bridge_amount c) (rt_Decimals (lg_Route leg)) = Ok amount
  /\ deposit_ok c owner leg from recipient amount out.
Proof.
  unfold assembleBridgeDeposit. intros H Ho. l_inv H as amount Ha. apply wrap_ok in Ha. exists amount. split; [done|].
  unfold deposit_ok. destruct (NativeSource (lg_Route leg)) eqn:En.
  - l_inv H as data Hd. apply (assemble_deposit_inv owner) in H as (p & -> & Hr); [|done]. cbn. split; [done|]. by exists data.
  - m_inv H as r s1 H1. apply checkBridgeAllowance_inv in H1 as (a & Hall & Hr). destruct r as [ap|].
    + injection H as <- _. cbn. split; [done|]. destruct Hr as (? & ? & ? & ? & ? & ? & ?). split_and!; try done. by exists a.
    + l_inv H as data Hd. apply (assemble_deposit_inv owner) in H as (p & -> & Hq); [|done]. cbn. split; [done|].
      exists data. split; [|done]. split; [done|by exists a].
Qed.

Lemma buildBridge_inv ctx tool amount arg cid resolve s out s' :
  buildBridge ctx tool amount arg cid resolve s = (Ok out, s') ->
  exists tp leg ft s1, authorized ctx tp s /\ resolve = Ok leg /\ ownerEthAddress (tp_Owner tp) = Ok (fst ft)
  /\ recipient_of arg (fst ft) (snd ft) /\ assembleBridgeDeposit leg (fst ft) (snd ft) amount cid tool s1 = (Ok out, s').
Proof.
  unfold buildBridge. intros H. m_inv H as tp s1 H1. apply authorize_inv in H1 as [Ha _]. l_inv H as ft Hf.
  apply bridgeParties_inv in Hf as [Ho Hr]. l_inv H as leg Hl. by exists tp, leg, ft, s1.
Qed.

Lemma bridge_tool_inv ctx c s out s' :
  run_bridge ctx c s = (Ok out, s') ->
  exists tp leg from recipient amount, authorized ctx tp s /\ leg_ok c leg
  /\ ownerEthAddress (tp_Owner tp) = Ok from /\ recipient_of (bridge_recipient c) from recipient
  /\ humanToBaseUnits (bridge_amount c) (rt_Decimals (lg_Route leg)) = Ok amount
  /\ deposit_ok c (tp_Owner tp) leg from recipient amount out.
Proof.
  intros H. assert (exists tp leg ft s1, authorized ctx tp s /\ leg_ok c leg
    /\ ownerEthAddress (tp_Owner tp) = Ok (fst ft) /\ recipient_of (bridge_recipient c) (fst ft) (snd ft)
    /\ assembleBridgeDeposit leg (fst ft) (snd ft) (bridge_amount c) (bridge_client c) (bridge_name c) s1 = (Ok out, s'))
    as (tp & leg & ft & s1 & Ha & Hl & Ho & Hr & Hd).
  { destruct c as [i|i]; apply buildBridge_inv in H as (tp & leg & ft & s1 & Ha & Hl & Ho & Hr & Hd);
      exists tp, leg, ft, s1; [apply outbound_leg_inv in Hl|apply inbound_leg_inv in Hl]; by split_and!. }
  apply (assembleBridgeDeposit_inv c (tp_Owner tp)) in Hd as (amount & Hn & Hd); [|done].
  by exists tp, leg, (fst ft), (snd ft), amount.
Qed.

Lemma keeps_checkBridgeAllowance cl t o b a h r c : keeps effects (checkBridgeAllowance cl t o b a h r c).
Proof. unfold checkBridgeAllowance. keeps_tac. Qed.
#[local] Hint Resolve keeps_checkBridgeAllowance : keeps.

Lemma keeps_run_bridge ctx c : keeps effects (run_bridge ctx c).
Proof.
  destruct c; cbn [run_bridge]; unfold BuildBridgeDeposit, BuildBridgeDepositInbound, buildBridge,
    assembleBridgeDeposit, assemble_deposit; keeps_tac.
Qed.

End Facts.
#[export] Hint Resolve keeps_run_bridge : keeps.

(** ** Claims *)

(** C33: a bridge deposit follows the whitelist and keeps the funds the caller's.
    A result of either bridge tool is for a leg from the home chain to the network
    named by dest_chain, or from the network named by source_chain to the home
    chain, through the bridge, assembler and node of its source chain; its route
    is the registry's first for exactly those two chains with the token the
    request selects; its amount is the requested one in the route's decimals.  With a
    payload, the deposit is sent from the caller's own address to that bridge for
    the route's target token and the requested recipient (by default the caller),
    carrying the amount as native value exactly when the source is the native
    coin, and otherwise covered by the allowance the bridge already has; without
    one, the result names the missing approval on the source chain, and the
    allowance is in fact short. *)
Theorem bridge_deposit_faithful {RL : RateLib} {E : Env} {N : EVMEnv} {L : ChainLib} {D : DecLib} {B : ABILib}
    {U : Unicode} (d : EVMDeps) (ctx : context) (c : bridge_tool) (s : srv) (out : BridgeDepositOutput) (s' : srv)
    (H : run_bridge d ctx c s = (Ok out, s')) :
  (exists tp leg from recipient amount, authorized ctx tp s /\ leg_ok d c leg
   /\ ownerEthAddress (tp_Owner tp) = Ok from /\ recipient_of (bridge_recipient c) from recipient
   /\ humanToBaseUnits (bridge_amount c) (rt_Decimals (lg_Route leg)) = Ok amount
   /\ deposit_ok c (tp_Owner tp) leg from recipient amount out)
  /\ effects s' = effects s.
Proof.
  split; [by eapply bridge_tool_inv|]. pose proof (keeps_run_bridge d ctx c s) as Hk. by rewrite H in Hk.
Qed.

Definition demo_bridge : bridge_tool := BIn (mkBuildBridgeDepositInboundInput "sepolia" "USDC" "1.5" "" "c1").
Definition demo_run_bridge :=
  run_bridge (RL := demo_rate) (E := demo_still) (N := demo_net) (L := demo_lib) (D := demo_dec) (B := demo_abi)
    (U := unicode_id) demo_deps demo_ctx demo_bridge demo_live.

Lemma bridge_deposit_faithful_witness :
  exists out s', demo_run_bridge = (Ok out, s') /\ bo_SourceChainID out = 11155111 /\ bo_DestChainID out = 2517
  /\ effects s' = effects demo_live.
Proof.
  destruct demo_run_bridge as [[out|e] s'] eqn:Er; [|vm_compute in Er; discriminate].
  exists out, s'. split; [reflexivity|].
  pose proof (bridge_deposit_faithful (RL := demo_rate) (E := demo_still) (N := demo_net) (L := demo_lib) (D := demo_dec)
    (B := demo_abi) (U := unicode_id) demo_deps demo_ctx demo_bridge demo_live out s' Er) as [_ He].
  apply (f_equal fst) in Er. vm_compute in Er. injection Er as <-. split; [reflexivity|]. split; [reflexivity|exact He].
Defined.
