(* ===== verification/LendoraRisk.v ===== *)
(** * The shared base and the risk engine of the money-market tools
      (tools/lendora.go, tools/lendora_risk.go)

    The server hosts the market cache ([srv_host]); what the tools read beside
    contract calls is the class [QueryEnv]. *)

From S2P Require Import Prelude GoStrings GoNum GoTime GoEncoding Limits TransferOut NonceStore IPRateLimiter.
From S2P Require Import SessionBearers DynamicTenants Policy Markets Units ChainLib Payload Assembler Assets.
From S2P Require Import TxInspect EVMBuilder BridgeRegistry ABI LendoraABI LendoraCache Server AuthTools Broadcast.
From S2P Require Import Tools LendoraFormat EVMTools SwapTools.

(** [env_balances] is [None] when no bank client is configured. *)
Class QueryEnv : Type := {
  env_block : nat -> Z -> result Z;                              (* eth_blockNumber *)
  env_balances : option (nat -> string -> result (list Coin));   (* bank AllBalances *)
  env_sort : nat -> list lendora.Market -> list lendora.Market;  (* sort.Slice by Symbol, not stable *)
}.

Definition e18 : Z := 10 ^ 18.
Definition hfHighUpper : string := "1.2".
Definition hfMediumUpper : string := "1.5".

Record marketPosition : Type := mkMarketPosition {
  mp_Symbol : string;
  mp_CToken : Address;
  mp_UnderlyingDecimals : Z;
  mp_IsCEther : bool;
  mp_CollateralEnabled : bool;
  mp_SuppliedUnderlying : Z;
  mp_BorrowedUnderlying : Z;
  mp_PriceNative : Z;
  mp_CollateralFactor : Z;
  mp_SuppliedUSD : Z;
  mp_BorrowedUSD : Z;
  mp_FeedOK : bool;
}.

Record riskResult : Type := mkRiskResult {
  rr_BlockNumber : Z;
  rr_Positions : list marketPosition;
  rr_HasDebt : bool;
  rr_HealthFactor : Z;
  rr_SumCollateralNat : Z;
  rr_SumBorrowNat : Z;
  rr_LiquidityNat : Z;
  rr_ShortfallNat : Z;
  rr_TotalSuppliedUSD : Z;
  rr_TotalBorrowedUSD : Z;
  rr_MaxBorrowableUSD : Z;
  rr_MaxBorrowableOK : bool;
  rr_RiskLevel : string;
  rr_RiskEmoji : string;
}.

Record LendoraApproval : Type := mkLendoraApproval {
  la_Tool : string; la_Token : string; la_Spender : string; la_MinAmount : string; la_RetryTool : string;
  la_Message : string }.

Section Band.
Context {D : DecLib}.

Definition LegacyMustNewDecFromStr (s : string) : result Z :=
  match LegacyNewDecFromStr s with Ok v => Ok v | Err _ => Err (Panic "LegacyMustNewDecFromStr") end.

Definition riskBand (hasDebt : bool) (shortfall : option Z) (hf : Z) : result (string * string) :=
  if negb hasDebt then Ok ("Low", "🟢")%string
  else if match shortfall with Some v => 0 <? Z.sgn v | None => false end then Ok ("Critical", "🔴")%string
  else
    high ← LegacyMustNewDecFromStr hfHighUpper;
    medium ← LegacyMustNewDecFromStr hfMediumUpper;
    if hf <? high then Ok ("High", "🟠")%string
    else if hf <? medium then Ok ("Medium", "🟡")%string
    else Ok ("Low", "🟢")%string.

End Band.

(** The server holds the cache and calls its node. *)
#[export] Instance srv_host {RL : RateLib} {N : EVMEnv} : lendora.CacheHost srv := {|
  lendora.host_cache := s_lendora;
  lendora.host_swap := set_lendora;
  lendora.host_call := evmCallOn;
|}.

#[export] Instance srv_host_laws {RL : RateLib} {N : EVMEnv} : lendora.CacheHostLaws srv_host.
Proof. by constructor. Qed.

Section Base.
Context {RL : RateLib} {E : Env} {N : EVMEnv} {Q : QueryEnv} {L : ChainLib} {D : DecLib} {A : DecArith} {B : ABILib}.
Context {U : Unicode} (d : EVMDeps).

Definition lendora_disabled : goerr :=
  userErrf "Lendora is not enabled on this server (no evm_lendora_comptroller_addr configured)" [].

(** The home client and assembler, and the Comptroller of the binding. *)
Definition requireLendora : result (Z * Z * Address) :=
  home ← requireEVM d;
  match ed_Lendora d, ed_LendoraMarkets d with
  | Some comp, true => Ok (home, comp)
  | _, _ => Err lendora_disabled
  end.

Definition unknown_asset (asset : string) : goerr :=
  userErrf ("unknown Lendora asset %q — pass an underlying symbol (e.g. " +:+ dq +:+ "USDC" +:+ dq
              +:+ ") or a market 0x address")%string [FStr asset].

Definition resolveAsset (asset : string) : M srv lendora.Market :=
  c ← get s_lendora;
  match lendora.Resolve c asset with
  | Some m => mret m
  | None =>
      let t := TrimSpace asset in
      if IsHexAddress t then
        o ← lendora.LoadMarket (HexToAddress t);
        match o with Some m => mret m | None => fail (unknown_asset asset) end
      else fail (unknown_asset asset)
  end.

Definition lendoraOwner (ctx : context) (tool addrArg : string) : M srv (TenantPolicy * string * Address) :=
  tp ← authorize ctx tool;
  let arg := TrimSpace addrArg in
  owner ← (if String.eqb arg "" then mret (tp_Owner tp)
           else _ ← policy (CheckOwner (tp_TenantID tp) arg); mret arg);
  eth ← lift (ownerEthAddress owner);
  mret (tp, owner, eth).

(** From here on [client] is the home client and [comp] the Comptroller, as
    [requireLendora] found them. *)
Section Reads.
Context (client : Z) (comp : Address).

Definition lendoraOracle : M srv Address :=
  c ← get s_lendora;
  let '(addr, ok) := lendora.Oracle c in
  if ok : bool then mret addr
  else
    data ← lift PackOracle;
    out ← wrapM (fun e => Errorf "read comptroller.oracle(): %w" [FErr e]) (evmCallOn client comp data);
    lift (UnpackOracle out).

Definition evmBlockNumber : M srv Z :=
  n ← tick; mret (match env_block n client with Ok b => b | Err _ => 0 end).

Definition cTokenUint (cToken : Address) (pack : result bytes) (method : string) : M srv Z :=
  data ← lift pack;
  out ← wrapM (fun e => Errorf "read %s for %s: %w" [FStr method; FStr (Address_Hex cToken); FErr e])
          (evmCallOn client cToken data);
  lift (UnpackCTokenUint method out).

(** The answer and the decimals of the market's feed; [None] is [ok = false]. *)
Definition underlyingUsdPrice (oracle cToken : Address) : M srv (option (Z * Z)) :=
  feedData ← lift (PackCTokenToFeed cToken);
  feedOut ← wrapM (fun e => Errorf "read cTokenToFeed(%s): %w" [FStr (Address_Hex cToken); FErr e])
              (evmCallOn client oracle feedData);
  feed ← lift (UnpackOracleAddress "cTokenToFeed" feedOut);
  if addr_eqb feed zero_address then mret None
  else
    decData ← lift PackFeedDecimals;
    decOut ← wrapM (fun e => Errorf "read decimals for feed %s: %w" [FStr (Address_Hex feed); FErr e])
               (evmCallOn client feed decData);
    feedDec ← lift (UnpackFeedDecimals decOut);
    rdData ← lift PackLatestRoundData;
    rdOut ← wrapM (fun e => Errorf "read latestRoundData for feed %s: %w" [FStr (Address_Hex feed); FErr e])
              (evmCallOn client feed rdData);
    rd ← lift (UnpackLatestRoundData rdOut);
    if Z.sgn (rd_Answer rd) <=? 0 then mret None else mret (Some (rd_Answer rd, feedDec)).

Definition checkLendoraAllowance (underlying owner cToken : Address) (amount : Z) (amountHuman retryTool : string)
  : M srv (option LendoraApproval) :=
  data ← lift (PackERC20Allowance owner cToken);
  out ← wrapM (fun e => Errorf "read allowance for %s: %w" [FStr (Address_Hex underlying); FErr e])
          (evmCallOn client underlying data);
  allowance ← lift (UnpackERC20Allowance out);
  if allowance <? amount then
    mret (Some {| la_Tool := "build_erc20_approve";
                  la_Token := Address_Hex underlying;
                  la_Spender := Address_Hex cToken;
                  la_MinAmount := amountHuman;
                  la_RetryTool := retryTool;
                  la_Message := ("the market's allowance on " +:+ Address_Hex underlying
                    +:+ " is insufficient — call build_erc20_approve (token " +:+ Address_Hex underlying +:+ ", spender "
                    +:+ Address_Hex cToken +:+ ", amount >= " +:+ amountHuman +:+ ") first, then retry " +:+ retryTool)%string |})
  else mret None.

(** ** The risk engine *)

(** [getAssetsIn(owner)] as a set; membership is all that is read of it. *)
Definition lendoraAssetsInSet (owner : Address) : M srv (gset Address) :=
  data ← lift (PackGetAssetsIn owner);
  out ← evmCallOn client comp data;
  addrs ← lift (UnpackGetAssetsIn out);
  mret (list_to_set addrs).

Definition cTokenUnderlyingPriceNative (oracle cToken : Address) : M srv Z :=
  data ← lift (PackGetUnderlyingPrice cToken);
  out ← evmCallOn client oracle data;
  lift (UnpackOracleUint "getUnderlyingPrice" out).

Definition cTokenCollateralFactor (cToken : Address) : M srv Z :=
  data ← lift (PackMarkets cToken);
  out ← evmCallOn client comp data;
  info ← lift (UnpackMarkets out);
  mret (mi_CollateralFactorMantissa info).

Definition readSnapshot (owner cToken : Address) : M srv AccountSnapshot :=
  snapData ← lift (PackGetAccountSnapshot owner);
  snapOut ← evmCallOn client cToken snapData;
  lift (UnpackGetAccountSnapshot snapOut).

(** [None] when no native market or no feed resolves. *)
Definition nativeLiquidityUSD (oracle : Address) (liquidityNat : Z) : M srv (option Z) :=
  c ← get s_lendora;
  let cEther := match List.find lendora.IsCEther (lendora.All c) with
                | Some m => lendora.CToken m | None => zero_address end in
  if addr_eqb cEther zero_address then mret None
  else
    feed ← underlyingUsdPrice oracle cEther;
    match feed with
    | None => mret None
    | Some (answer, feedDec) => usd ← lift (usdFromFeed (Some liquidityNat) 18 (Some answer) feedDec); mret (Some usd)
    end.

(** What the loop accumulates. *)
Record risk_acc : Type := mkAcc {
  ac_Positions : list marketPosition; ac_SumBorrowNat : Z; ac_TotalSuppliedUSD : Z; ac_TotalBorrowedUSD : Z }.

Definition borrow_value (price borrowed : Z) : Z := if 0 <? Z.sgn borrowed then price * borrowed / e18 else 0.

(** The body of the loop over the markets. *)
Definition risk_step (owner oracle : Address) (entered : gset Address) (acc : risk_acc) (m : lendora.Market)
  : M srv risk_acc :=
  snap ← readSnapshot owner (lendora.CToken m);
  if (Z.sgn (as_CTokenBalance snap) =? 0) && (Z.sgn (as_BorrowBalance snap) =? 0) then mret acc
  else
    let supplied := as_CTokenBalance snap * as_ExchangeRate snap / e18 in
    let borrowed := as_BorrowBalance snap in
    price ← cTokenUnderlyingPriceNative oracle (lendora.CToken m);
    let sumBorrow := ac_SumBorrowNat acc + borrow_value price borrowed in
    cf ← cTokenCollateralFactor (lendora.CToken m);
    feed ← underlyingUsdPrice oracle (lendora.CToken m);
    let pos := fun sUSD bUSD ok =>
      mkMarketPosition (lendora.Symbol m) (lendora.CToken m) (lendora.UnderlyingDecimals m) (lendora.IsCEther m)
        (bool_decide (lendora.CToken m ∈ entered)) supplied borrowed price cf sUSD bUSD ok in
    match feed with
    | None => mret (mkAcc (ac_Positions acc ++ [pos 0 0 false]) sumBorrow (ac_TotalSuppliedUSD acc) (ac_TotalBorrowedUSD acc))
    | Some (answer, feedDec) =>
        sUSD ← lift (usdFromFeed (Some supplied) (lendora.UnderlyingDecimals m) (Some answer) feedDec);
        bUSD ← lift (usdFromFeed (Some borrowed) (lendora.UnderlyingDecimals m) (Some answer) feedDec);
        tS ← lift (dec_Add (ac_TotalSuppliedUSD acc) sUSD);
        tB ← lift (dec_Add (ac_TotalBorrowedUSD acc) bUSD);
        mret (mkAcc (ac_Positions acc ++ [pos sUSD bUSD true]) sumBorrow tS tB)
    end.

Fixpoint risk_loop (owner oracle : Address) (entered : gset Address) (markets : list lendora.Market) (acc : risk_acc)
  : M srv risk_acc :=
  match markets with
  | [] => mret acc
  | m :: rest => acc' ← risk_step owner oracle entered acc m; risk_loop owner oracle entered rest acc'
  end.

Definition accountLiquidity (owner : Address) : M srv AccountLiquidity :=
  liqData ← lift (PackGetAccountLiquidity owner);
  liqOut ← evmCallOn client comp liqData;
  lift (UnpackAccountLiquidity "getAccountLiquidity" liqOut).

(** [LegacyNewDecFromBigInt(x).Quo(LegacyNewDecFromBigInt(y))] *)
Definition dec_ratio (x y : Z) : result Z :=
  a ← LegacyNewDecFromBigInt x; b ← LegacyNewDecFromBigInt y; dec_Quo a b.

Definition computeRisk (owner : Address) : M srv riskResult :=
  block ← evmBlockNumber;
  oracle ← lendoraOracle;
  liq ← accountLiquidity owner;
  entered ← lendoraAssetsInSet owner;
  c ← get s_lendora;
  acc ← risk_loop owner oracle entered (lendora.All c) (mkAcc [] 0 0 0);
  let sumBorrow := ac_SumBorrowNat acc in
  let sumCollateral := (al_Liquidity liq - al_Shortfall liq) + sumBorrow in
  let hasDebt := 0 <? Z.sgn sumBorrow in
  hf ← lift (if hasDebt then dec_ratio sumCollateral sumBorrow else Ok 0);
  band ← lift (riskBand hasDebt (Some (al_Shortfall liq)) hf);
  maxUSD ← nativeLiquidityUSD oracle (al_Liquidity liq);
  mret {| rr_BlockNumber := block;
          rr_Positions := ac_Positions acc;
          rr_HasDebt := hasDebt;
          rr_HealthFactor := hf;
          rr_SumCollateralNat := sumCollateral;
          rr_SumBorrowNat := sumBorrow;
          rr_LiquidityNat := al_Liquidity liq;
          rr_ShortfallNat := al_Shortfall liq;
          rr_TotalSuppliedUSD := ac_TotalSuppliedUSD acc;
          rr_TotalBorrowedUSD := ac_TotalBorrowedUSD acc;
          rr_MaxBorrowableUSD := default 0 maxUSD;
          rr_MaxBorrowableOK := bool_decide (is_Some maxUSD);
          rr_RiskLevel := fst band;
          rr_RiskEmoji := snd band |}.

End Reads.

End Base.

(** ** What the node answered *)

Section Answers.
Context {RL : RateLib} {E : Env} {N : EVMEnv} {Q : QueryEnv} {L : ChainLib} {D : DecLib} {A : DecArith} {B : ABILib}.
Context {U : Unicode}.

(** At some interaction the contract answered the call with these bytes. *)
Definition answered (client : Z) (to : Address) (pack : result bytes) (out : bytes) : Prop :=
  exists n data, pack = Ok data /\ env_call n client to data = Ok out.

Definition snapshot_of (client : Z) (owner cToken : Address) (snap : AccountSnapshot) : Prop :=
  exists out, answered client cToken (PackGetAccountSnapshot owner) out /\ UnpackGetAccountSnapshot out = Ok snap.
Definition price_of (client : Z) (oracle cToken : Address) (price : Z) : Prop :=
  exists out, answered client oracle (PackGetUnderlyingPrice cToken) out
  /\ UnpackOracleUint "getUnderlyingPrice" out = Ok price.
Definition factor_of (client : Z) (comp cToken : Address) (cf : Z) : Prop :=
  exists out info, answered client comp (PackMarkets cToken) out /\ UnpackMarkets out = Ok info
  /\ cf = mi_CollateralFactorMantissa info.
Definition liquidity_of (client : Z) (comp owner : Address) (liq : AccountLiquidity) : Prop :=
  exists out, answered client comp (PackGetAccountLiquidity owner) out
  /\ UnpackAccountLiquidity "getAccountLiquidity" out = Ok liq.
Definition entered_of (client : Z) (comp owner : Address) (entered : gset Address) : Prop :=
  exists out l, answered client comp (PackGetAssetsIn owner) out /\ UnpackGetAssetsIn out = Ok l
  /\ entered = list_to_set l.

(** The oracle is the cached one, or the Comptroller's answer before the first
    refresh. *)
Definition oracle_of (client : Z) (comp : Address) (c : lendora.Cache) (oracle : Address) : Prop :=
  if snd (lendora.Oracle c) then oracle = fst (lendora.Oracle c)
  else exists out, answered client comp PackOracle out /\ UnpackOracle out = Ok oracle.

Lemma evmCallOn_answered client to pack data s out s' :
  pack = Ok data -> evmCallOn client to data s = (Ok out, s') -> answered client to pack out.
Proof. intros Hp [n Hn]%evmCallOn_inv. by exists n, data. Qed.

(** An account with no supply and no debt in a market. *)
Definition idle (snap : AccountSnapshot) : Prop := as_CTokenBalance snap = 0 /\ as_BorrowBalance snap = 0.

(** A position is what the market's contracts say of the account. *)
Definition position_of (client : Z) (comp owner oracle : Address) (entered : gset Address) (m : lendora.Market)
    (p : marketPosition) : Prop :=
  mp_Symbol p = lendora.Symbol m /\ mp_CToken p = lendora.CToken m
  /\ mp_UnderlyingDecimals p = lendora.UnderlyingDecimals m /\ mp_IsCEther p = lendora.IsCEther m
  /\ mp_CollateralEnabled p = bool_decide (lendora.CToken m ∈ entered)
  /\ price_of client oracle (lendora.CToken m) (mp_PriceNative p)
  /\ factor_of client comp (lendora.CToken m) (mp_CollateralFactor p)
  /\ exists snap, snapshot_of client owner (lendora.CToken m) snap /\ ~ idle snap
     /\ mp_SuppliedUnderlying p = as_CTokenBalance snap * as_ExchangeRate snap / e18
     /\ mp_BorrowedUnderlying p = as_BorrowBalance snap.

(** The outcome of one market: a position, or none because the account is idle
    there. *)
Definition outcome_of (client : Z) (comp owner oracle : Address) (entered : gset Address) (m : lendora.Market)
    (o : option marketPosition) : Prop :=
  match o with
  | Some p => position_of client comp owner oracle entered m p
  | None => exists snap, snapshot_of client owner (lendora.CToken m) snap /\ idle snap
  end.

Definition sumZ {X} (f : X -> Z) (l : list X) : Z := foldr (fun x a => f x + a) 0 l.

Lemma sumZ_snoc {X} (f : X -> Z) l x : sumZ f (l ++ [x]) = sumZ f l + f x.
Proof. unfold sumZ. induction l as [|y l IH]; cbn in *; lia. Qed.
#[local] Arguments sumZ : simpl never.

(** The sums run over the positions. *)
Definition tallied (acc : risk_acc) : Prop :=
  ac_SumBorrowNat acc = sumZ (fun p => borrow_value (mp_PriceNative p) (mp_BorrowedUnderlying p)) (ac_Positions acc)
  /\ ac_TotalSuppliedUSD acc = sumZ mp_SuppliedUSD (ac_Positions acc)
  /\ ac_TotalBorrowedUSD acc = sumZ mp_BorrowedUSD (ac_Positions acc).

Lemma oracle_inv client comp s a s' :
  lendoraOracle client comp s = (Ok a, s') -> oracle_of client comp (s_lendora s) a.
Proof.
  intros H. unfold lendoraOracle in H. m_inv H as c s1 H1. injection H1 as <- <-. unfold oracle_of.
  unfold lendora.Oracle in *. cbn [fst snd]. destruct (lendora.oracleSet (s_lendora s)); [by injection H as <- _|].
  l_inv H as data Hd. m_inv H as out s2 H2. apply wrapM_ok in H2. apply lift_ok in H as [H _].
  exists out. split; [by eapply evmCallOn_answered|done].
Qed.

Lemma readSnapshot_inv client owner ct s snap s' :
  readSnapshot client owner ct s = (Ok snap, s') -> snapshot_of client owner ct snap.
Proof.
  intros H. unfold readSnapshot in H. l_inv H as data Hd. m_inv H as out s1 H1.
  apply lift_ok in H as [H _]. exists out. split; [by eapply evmCallOn_answered|done].
Qed.

Lemma price_inv client oracle ct s v s' :
  cTokenUnderlyingPriceNative client oracle ct s = (Ok v, s') -> price_of client oracle ct v.
Proof.
  intros H. unfold cTokenUnderlyingPriceNative in H. l_inv H as data Hd. m_inv H as out s1 H1.
  apply lift_ok in H as [H _]. exists out. split; [by eapply evmCallOn_answered|done].
Qed.

Lemma factor_inv client comp ct s v s' :
  cTokenCollateralFactor client comp ct s = (Ok v, s') -> factor_of client comp ct v.
Proof.
  intros H. unfold cTokenCollateralFactor in H. l_inv H as data Hd. m_inv H as out s1 H1. l_inv H as info Hi.
  injection H as <- _. exists out, info. split; [by eapply evmCallOn_answered|done].
Qed.

Lemma liquidity_inv client comp owner s v s' :
  accountLiquidity client comp owner s = (Ok v, s') -> liquidity_of client comp owner v.
Proof.
  intros H. unfold accountLiquidity in H. l_inv H as data Hd. m_inv H as out s1 H1.
  apply lift_ok in H as [H _]. exists out. split; [by eapply evmCallOn_answered|done].
Qed.

Lemma entered_inv client comp owner s v s' :
  lendoraAssetsInSet client comp owner s = (Ok v, s') -> entered_of client comp owner v.
Proof.
  intros H. unfold lendoraAssetsInSet in H. l_inv H as data Hd. m_inv H as out s1 H1. l_inv H as l Hl.
  injection H as <- _. exists out, l. split; [by eapply evmCallOn_answered|done].
Qed.

Lemma idle_dec snap :
  (Z.sgn (as_CTokenBalance snap) =? 0) && (Z.sgn (as_BorrowBalance snap) =? 0) = bool_decide (idle snap).
Proof.
  unfold idle. destruct (Z.eqb_spec (Z.sgn (as_CTokenBalance snap)) 0), (Z.eqb_spec (Z.sgn (as_BorrowBalance snap)) 0);
    cbn; symmetry; (apply bool_decide_eq_true || apply bool_decide_eq_false); lia.
Qed.

Context {AL : DecArithLaws A}.

Lemma risk_step_inv client comp owner oracle entered acc m s acc' s' :
  risk_step client comp owner oracle entered acc m s = (Ok acc', s') ->
  exists o, outcome_of client comp owner oracle entered m o
  /\ ac_Positions acc' = ac_Positions acc ++ (match o with Some p => [p] | None => [] end)
  /\ (tallied acc -> tallied acc').
Proof.
  intros H. unfold risk_step in H. m_inv H as snap s1 H1. apply readSnapshot_inv in H1.
  rewrite idle_dec in H. case_bool_decide as Hid.
  { injection H as <- _. exists None. split_and!; [by exists snap|by rewrite app_nil_r|done]. }
  m_inv H as price s2 H2. apply price_inv in H2. m_inv H as cf s3 H3. apply factor_inv in H3. m_inv H as feed s4 H4.
  destruct feed as [[answer feedDec]|].
  - l_inv H as sU HsU. l_inv H as bU HbU. l_inv H as tS HtS. l_inv H as tB HtB. apply add_ok in HtS, HtB.
    injection H as <- _. cbn [ac_Positions].
    eexists (Some _). split_and!; [|reflexivity|].
    + cbn. split_and!; [done..|]. by exists snap.
    + intros (T1 & T2 & T3). unfold tallied. cbn. rewrite !sumZ_snoc. cbn. lia.
  - injection H as <- _. cbn [ac_Positions]. eexists (Some _). split_and!; [|reflexivity|].
    + cbn. split_and!; [done..|]. by exists snap.
    + intros (T1 & T2 & T3). unfold tallied. cbn. rewrite !sumZ_snoc. cbn. lia.
Qed.

Lemma risk_loop_inv client comp owner oracle entered l : forall acc s acc' s',
  risk_loop client comp owner oracle entered l acc s = (Ok acc', s') ->
  exists outs, Forall2 (outcome_of client comp owner oracle entered) l outs
  /\ ac_Positions acc' = ac_Positions acc ++ omap id outs /\ (tallied acc -> tallied acc').
Proof.
  induction l as [|m l IH]; intros acc s acc' s' H; cbn [risk_loop] in H.
  - injection H as <- _. exists []. by rewrite app_nil_r.
  - m_inv H as acc1 s1 H1. apply risk_step_inv in H1 as (o & Ho & Hp & Ht).
    apply IH in H as (outs & F & Hp' & Ht'). exists (o :: outs). split_and!; [by constructor| |by auto].
    rewrite Hp', Hp, <- app_assoc. by destruct o.
Qed.

(** ** The verdict *)

Definition band_of (r : riskResult) : Prop :=
  if rr_HasDebt r then
    if 0 <? rr_ShortfallNat r then rr_RiskLevel r = "Critical"%string
    else exists high medium, LegacyNewDecFromStr hfHighUpper = Ok high /\ LegacyNewDecFromStr hfMediumUpper = Ok medium
      /\ rr_RiskLevel r = if rr_HealthFactor r <? high then "High"%string
                          else if rr_HealthFactor r <? medium then "Medium"%string else "Low"%string
  else rr_RiskLevel r = "Low"%string.

Lemma sgn_pos z : (0 <? Z.sgn z) = (0 <? z).
Proof. destruct (Z.ltb_spec 0 (Z.sgn z)), (Z.ltb_spec 0 z); lia || done. Qed.

Lemma dec_ratio_near x y r : 0 < y -> dec_ratio x y = Ok r -> Z.abs (r * y - x * dec_one) < y.
Proof.
  intros Hy. unfold dec_ratio, LegacyNewDecFromBigInt.
  destruct (LegacyNewDecFromBigIntWithPrec x 0) as [a|] eqn:Ea; cbn [mbind result_bind]; [|done].
  destruct (LegacyNewDecFromBigIntWithPrec y 0) as [b|] eqn:Eb; cbn [mbind result_bind]; [|done].
  apply with_prec_ok in Ea as [_ ->], Eb as [_ ->]. change (10 ^ (18 - 0)) with dec_one.
  intros Hq. assert (0 < dec_one) by done. apply quo_ok in Hq; [|nia].
  replace (r * (y * dec_one) - x * dec_one * dec_one) with ((r * y - x * dec_one) * dec_one) in Hq by lia.
  rewrite Z.abs_mul in Hq. change (Z.abs dec_one) with dec_one in Hq. nia.
Qed.

Definition risk_spec (client : Z) (comp owner : Address) (c : lendora.Cache) (r : riskResult) : Prop :=
  exists oracle entered liq outs, oracle_of client comp c oracle
    /\ liquidity_of client comp owner liq /\ rr_LiquidityNat r = al_Liquidity liq /\ rr_ShortfallNat r = al_Shortfall liq
    /\ entered_of client comp owner entered
    /\ Forall2 (outcome_of client comp owner oracle entered) (lendora.All c) outs /\ rr_Positions r = omap id outs
    /\ rr_SumBorrowNat r = sumZ (fun p => borrow_value (mp_PriceNative p) (mp_BorrowedUnderlying p)) (rr_Positions r)
    /\ rr_SumCollateralNat r - rr_SumBorrowNat r = rr_LiquidityNat r - rr_ShortfallNat r
    /\ rr_TotalSuppliedUSD r = sumZ mp_SuppliedUSD (rr_Positions r)
    /\ rr_TotalBorrowedUSD r = sumZ mp_BorrowedUSD (rr_Positions r)
    /\ rr_HasDebt r = (0 <? rr_SumBorrowNat r)
    /\ (rr_HasDebt r = true ->
        Z.abs (rr_HealthFactor r * rr_SumBorrowNat r - rr_SumCollateralNat r * dec_one) < rr_SumBorrowNat r)
    /\ band_of r.

(** The reads before the loop leave the cache as it was. *)
Abbreviation quiet := (lendora.quiet (H := srv_host)) (only parsing).

Lemma quiet_run {T} (m : M srv T) s r s' : quiet m -> m s = (r, s') -> s_lendora s' = s_lendora s.
Proof. intros Hq Hm. specialize (Hq s). by rewrite Hm in Hq. Qed.

Lemma quiet_wrapM {T} f (m : M srv T) : quiet m -> quiet (wrapM f m).
Proof. exact (lendora.quiet_wrap f m). Qed.

Lemma quiet_evmCallOn client to data : quiet (evmCallOn client to data).
Proof. done. Qed.

Ltac quiet_srv :=
  repeat first [ apply lendora.quiet_lift | apply quiet_evmCallOn | apply quiet_wrapM
               | apply lendora.quiet_bind; [|intros ?] | by intros ? | case_match ].

Lemma quiet_lendoraOracle client comp : quiet (lendoraOracle client comp).
Proof. unfold lendoraOracle. quiet_srv. Qed.
Lemma quiet_accountLiquidity client comp owner : quiet (accountLiquidity client comp owner).
Proof. unfold accountLiquidity. quiet_srv. Qed.
Lemma quiet_lendoraAssetsInSet client comp owner : quiet (lendoraAssetsInSet client comp owner).
Proof. unfold lendoraAssetsInSet. quiet_srv. Qed.

Lemma computeRisk_inv client comp owner s r s' :
  computeRisk client comp owner s = (Ok r, s') -> risk_spec client comp owner (s_lendora s) r.
Proof.
  intros H. unfold computeRisk in H. m_inv H as block s1 H1. injection H1 as _ H1.
  m_inv H as oracle s2 H2. pose proof (oracle_inv _ _ _ _ _ H2) as Ho. rewrite <- H1 in Ho. apply (quiet_run _ _ _ _ (quiet_lendoraOracle client comp)) in H2.
  m_inv H as liq s3 H3. pose proof (quiet_run _ _ _ _ (quiet_accountLiquidity client comp owner) H3) as Q3.
  apply liquidity_inv in H3. m_inv H as entered s4 H4.
  pose proof (quiet_run _ _ _ _ (quiet_lendoraAssetsInSet client comp owner) H4) as Q4. apply entered_inv in H4.
  assert (s_lendora s4 = s_lendora s) as Ec by (rewrite Q4, Q3, H2, <- H1; done).
  cbn [set_reads s_lendora] in Ho. m_inv H as c s5 H5.
  injection H5 as <- <-. rewrite Ec in H. m_inv H as acc s6 H6.
  apply risk_loop_inv in H6 as (outs & F & Hp & Ht). specialize (Ht ltac:(done)) as (T1 & T2 & T3).
  l_inv H as hf Hh. l_inv H as band Hb. m_inv H as maxUSD s7 H7. injection H as <- _.
  exists oracle, entered, liq, outs. cbn. rewrite sgn_pos in *. split_and!; try done; [lia|..].
  - destruct (Z.ltb_spec 0 (ac_SumBorrowNat acc)); [|done]. intros _. by apply dec_ratio_near.
  - unfold band_of. cbn. unfold riskBand in Hb. rewrite ?sgn_pos in *. destruct (0 <? ac_SumBorrowNat acc); cbn [negb] in Hb.
    + destruct (0 <? al_Shortfall liq); [by injection Hb as <-|]. unfold LegacyMustNewDecFromStr in Hb.
      destruct (LegacyNewDecFromStr hfHighUpper) as [high|]; [|done]. cbn [mbind result_bind] in Hb.
      destruct (LegacyNewDecFromStr hfMediumUpper) as [medium|]; [|done]. cbn [mbind result_bind] in Hb.
      exists high, medium. split_and!; [done..|]. destruct (hf <? high); [by injection Hb as <-|].
      by destruct (hf <? medium); injection Hb as <-.
    + by injection Hb as <-.
Qed.

Lemma quiet_underlyingUsdPrice client o ct : quiet (underlyingUsdPrice client o ct).
Proof. unfold underlyingUsdPrice. quiet_srv. Qed.
Lemma quiet_risk_loop client comp ow o e l : forall acc, quiet (risk_loop client comp ow o e l acc).
Proof.
  induction l as [|m l IH]; intros acc; cbn [risk_loop]; [by intros s|]. apply lendora.quiet_bind; [|done].
  unfold risk_step, readSnapshot, cTokenUnderlyingPriceNative, cTokenCollateralFactor.
  repeat first [ apply quiet_underlyingUsdPrice | progress quiet_srv ].
Qed.
Lemma quiet_computeRisk client comp ow : quiet (computeRisk client comp ow).
Proof.
  unfold computeRisk, nativeLiquidityUSD.
  repeat first [ apply quiet_risk_loop | apply quiet_underlyingUsdPrice | apply quiet_lendoraOracle
               | apply quiet_accountLiquidity | apply quiet_lendoraAssetsInSet
               | apply lendora.quiet_bind; [|intros ?] | by intros ? | case_match ].
Qed.

(** ** The reads have no effect *)

Lemma keeps_wrap_err {T} f (m : M srv T) : keeps effects m -> keeps effects (lendora.wrap_err f m).
Proof. intros H s. specialize (H s). unfold lendora.wrap_err. by destruct (m s). Qed.
Lemma keeps_call to data : keeps effects (lendora.call to data).
Proof. done. Qed.
#[local] Hint Resolve keeps_wrap_err keeps_call : keeps.

Lemma keeps_resolveCEther a : keeps effects (lendora.resolveCEther a).
Proof. unfold lendora.resolveCEther. keeps_tac. Qed.
Lemma keeps_loadMarket c e : keeps effects (lendora.loadMarket c e).
Proof. unfold lendora.loadMarket, lendora.readDecimals, lendora.readSymbol. keeps_tac. Qed.
#[local] Hint Resolve keeps_resolveCEther keeps_loadMarket : keeps.
Lemma keeps_LoadMarket c : keeps effects (lendora.LoadMarket c).
Proof. unfold lendora.LoadMarket, lendora.cached. keeps_tac. Qed.
#[local] Hint Resolve keeps_LoadMarket : keeps.
Lemma keeps_resolveAsset a : keeps effects (resolveAsset a).
Proof. unfold resolveAsset. keeps_tac. Qed.
Lemma keeps_lendoraOwner ctx tool a : keeps effects (lendoraOwner ctx tool a).
Proof. unfold lendoraOwner. keeps_tac. Qed.
Lemma keeps_lendoraOracle client comp : keeps effects (lendoraOracle client comp).
Proof. unfold lendoraOracle. keeps_tac. Qed.
Lemma keeps_evmBlockNumber client : keeps effects (evmBlockNumber client).
Proof. unfold evmBlockNumber. keeps_tac. Qed.
Lemma keeps_cTokenUint client ct pack m : keeps effects (cTokenUint client ct pack m).
Proof. unfold cTokenUint. keeps_tac. Qed.
Lemma keeps_underlyingUsdPrice client o ct : keeps effects (underlyingUsdPrice client o ct).
Proof. unfold underlyingUsdPrice. keeps_tac. Qed.
Lemma keeps_checkLendoraAllowance client u o c a h t : keeps effects (checkLendoraAllowance client u o c a h t).
Proof. unfold checkLendoraAllowance. keeps_tac. Qed.
Lemma keeps_price client o ct : keeps effects (cTokenUnderlyingPriceNative client o ct).
Proof. unfold cTokenUnderlyingPriceNative. keeps_tac. Qed.
Lemma keeps_factor client comp ct : keeps effects (cTokenCollateralFactor client comp ct).
Proof. unfold cTokenCollateralFactor. keeps_tac. Qed.
#[local] Hint Resolve keeps_lendoraOracle keeps_evmBlockNumber keeps_underlyingUsdPrice keeps_price keeps_factor : keeps.
Lemma keeps_risk_step client comp ow o e acc m : keeps effects (risk_step client comp ow o e acc m).
Proof. unfold risk_step, readSnapshot. keeps_tac. Qed.
#[local] Hint Resolve keeps_risk_step : keeps.
Lemma keeps_risk_loop client comp ow o e l : forall acc, keeps effects (risk_loop client comp ow o e l acc).
Proof. induction l as [|m l IH]; intros acc; cbn [risk_loop]; [done|]. apply keeps_bind; [auto with keeps|done]. Qed.
Lemma keeps_computeRisk client comp ow : keeps effects (computeRisk client comp ow).
Proof.
  unfold computeRisk, accountLiquidity, lendoraAssetsInSet, nativeLiquidityUSD.
  repeat first [ apply keeps_risk_loop | keeps_step ].
Qed.

End Answers.

#[export] Hint Resolve keeps_resolveAsset keeps_lendoraOwner keeps_lendoraOracle keeps_evmBlockNumber keeps_cTokenUint : keeps.
#[export] Hint Resolve keeps_underlyingUsdPrice keeps_checkLendoraAllowance keeps_price keeps_factor keeps_computeRisk : keeps.

(** ** A node with an account: one thousand cUSDC supplied and enabled, no debt *)

Definition demo_account (to : Address) (data : bytes) : result bytes :=
  if lendora.demo_is "getAccountLiquidity" data then Ok (List.concat (map lendora.demo_num [0; 5 * e18; 0]))
  else if lendora.demo_is "getHypotheticalAccountLiquidity" data then Ok (List.concat (map lendora.demo_num [0; 4 * e18; 0]))
  else if lendora.demo_is "getAssetsIn" data then Ok (abi_addr (lendora.demo_addr 11))
  else if lendora.demo_is "getAccountSnapshot" data then
    Ok (List.concat (map lendora.demo_num
      (if addr_eqb to (lendora.demo_addr 11) then [0; 100000000000; 3000000; 20000000000000000] else [0; 0; 0; e18])))
  else if lendora.demo_is "getUnderlyingPrice" data then Ok (lendora.demo_num (10 ^ 30))
  else if lendora.demo_is "markets" data then Ok (List.concat (map lendora.demo_num [1; 8 * 10 ^ 17; 1]))
  else if lendora.demo_is "cTokenToFeed" data then Ok (lendora.demo_num 0)
  else if lendora.demo_is "balanceOf" data then Ok (lendora.demo_num 100000000000)
  else if lendora.demo_is "exchangeRateStored" data then Ok (lendora.demo_num 20000000000000000)
  else if (68 <=? Z.of_nat (List.length data)) then Ok (lendora.demo_num (10 ^ 12))
  else lendora.demo_reply to data.

Definition demo_lend_net : EVMEnv := {|
  env_client := fun _ _ => demo_evm; env_call := fun _ _ to data => demo_account to data |}.

Fixpoint demo_insert (m : lendora.Market) (l : list lendora.Market) : list lendora.Market :=
  match l with
  | [] => [m]
  | x :: l' => if String.leb (lendora.Symbol m) (lendora.Symbol x) then m :: l else x :: demo_insert m l'
  end.

Definition demo_queries : QueryEnv := {|
  env_block := fun _ _ => Ok 77; env_balances := Some (fun _ _ => Ok []);
  env_sort := fun _ l => foldr demo_insert [] l |}.

Definition demo_lend_deps : EVMDeps :=
  mkEVMDeps (Some 1) (Some 1) None None (Some (lendora.demo_addr 1)) None None 2517 ∅ 2517 true.

Definition demo_lend_srv : srv (RL := demo_rate) := set_lendora lendora.demo_refreshed demo_live.


(** ** Claims *)

(** C30: the risk report is the Comptroller's own arithmetic.  A successful
    analysis of an account reports the liquidity and shortfall the Comptroller
    answered; one position for each cached market in which the account has a
    balance, with the balances, price and collateral factor its contracts
    answered; total debt equal to the sum over those positions of price times
    debt, rounded down per market, and total collateral exceeding it by exactly
    liquidity less shortfall; totals in dollars equal to the sums of the rows; a
    health factor equal to collateral over debt to within one unit of the
    eighteenth decimal; Critical exactly when there is debt and a shortfall, and
    otherwise the band of the health factor.  It changes and sends nothing. *)
Theorem computeRisk_exact {RL : RateLib} {N : EVMEnv} {Q : QueryEnv} {L : ChainLib} {D : DecLib} {A : DecArith}
    {AL : DecArithLaws A} {B : ABILib} (client : Z) (comp owner : Address) (s : srv) (r : riskResult) (s' : srv)
    (H : computeRisk client comp owner s = (Ok r, s')) :
  risk_spec client comp owner (s_lendora s) r /\ effects s' = effects s /\ s_lendora s' = s_lendora s.
Proof.
  split_and!; [by eapply computeRisk_inv| |].
  - pose proof (keeps_computeRisk client comp owner s) as Hk. by rewrite H in Hk.
  - pose proof (quiet_computeRisk client comp owner s) as Hk. by rewrite H in Hk.
Qed.

Abbreviation demo_risk :=
  (computeRisk (RL := demo_rate) (N := demo_lend_net) (Q := demo_queries) (D := demo_dec)
    (A := demo_arith) (B := demo_lend_abi) (L := demo_lib) 1 (lendora.demo_addr 1) (chars "a") demo_lend_srv).

Definition demo_risk_value : option (Z * Z) :=
  match fst demo_risk with Ok r => Some (rr_SumBorrowNat r, rr_SumCollateralNat r) | Err _ => None end.

Example demo_risk_sums : demo_risk_value = Some (3 * e18, 8 * e18).
Proof. vm_compute. reflexivity. Qed.

Lemma computeRisk_exact_witness :
  exists r s', demo_risk = (Ok r, s') /\ rr_SumBorrowNat r = 3 * e18 /\ rr_SumCollateralNat r = 8 * e18
  /\ effects s' = effects demo_lend_srv.
Proof.
  pose proof demo_risk_sums as Hv. unfold demo_risk_value in Hv.
  destruct demo_risk as [[r|e] s'] eqn:Er; cbn [fst] in Hv; [|discriminate].
  exists r, s'. split; [reflexivity|]. injection Hv as H1 H2. split; [exact H1|]. split; [exact H2|].
  exact (proj1 (proj2 (computeRisk_exact (RL := demo_rate) (N := demo_lend_net) (Q := demo_queries) (D := demo_dec)
    (A := demo_arith) (AL := demo_arith_laws) (B := demo_lend_abi) (L := demo_lib) 1 (lendora.demo_addr 1) (chars "a")
    demo_lend_srv r s' Er))).
Defined.
