(* ===== verification/LendoraOps.v ===== *)
(** * The operation tools of the money markets (tools/lendora_ops.go)

    Supply, withdraw, borrow, repay and collateral: each simulates the position
    after the action and builds an unsigned transaction, or asks for an approval
    first. *)

From S2P Require Import Prelude GoStrings GoNum GoTime GoEncoding Limits TransferOut NonceStore IPRateLimiter.
From S2P Require Import SessionBearers DynamicTenants Policy Markets Units ChainLib Payload Assembler Assets.
From S2P Require Import TxInspect EVMBuilder BridgeRegistry ABI LendoraABI LendoraCache Server AuthTools Broadcast.
From S2P Require Import Tools LendoraFormat EVMTools SwapTools LendoraRisk.

Record LendoraSimulation : Type := mkLendoraSimulation {
  ls_BlockNumber : Z; ls_Action : string; ls_Asset : string; ls_Amount : string; ls_CurrentHealthFactor : string;
  ls_ProjectedHealthFactor : string; ls_ProjectedRiskLevel : string; ls_ProjectedRiskEmoji : string;
  ls_Warnings : list string }.

Record LendoraTxOutput : Type := mkLendoraTxOutput {
  lt_Simulation : LendoraSimulation; lt_Payload : option EVMTxPayload; lt_ApprovalRequired : option LendoraApproval }.

Record lendoraMarketRef : Type := mkLendoraMarketRef {
  mr_CToken : Address; mr_Underlying : Address; mr_Symbol : string; mr_UnderlyingDecimals : Z; mr_IsCEther : bool }.

Record LendoraSupplyInput : Type := mkLendoraSupplyInput { lsi_Asset : string; lsi_Amount : string; lsi_ClientID : string }.
Record LendoraWithdrawInput : Type := mkLendoraWithdrawInput {
  lwi_Asset : string; lwi_Amount : string; lwi_Full : bool; lwi_ClientID : string }.
Record LendoraBorrowInput : Type := mkLendoraBorrowInput { lbi_Asset : string; lbi_Amount : string; lbi_ClientID : string }.
Record LendoraRepayInput : Type := mkLendoraRepayInput {
  lri_Asset : string; lri_Amount : string; lri_Full : bool; lri_ClientID : string }.
Record LendoraCollateralInput : Type := mkLendoraCollateralInput {
  lci_Asset : string; lci_Action : string; lci_ClientID : string }.

(** Go's [big.Int.Div] is Euclidean. *)
Definition big_Div (a b : Z) : Z := if 0 <? b then a / b else - (a / - b).

Definition nativeValue (price amount : Z) : Z := big_Div (price * amount) e18.

Definition weightedNative (price amount cfMantissa : Z) : Z := big_Div (nativeValue price amount * cfMantissa) e18.

Definition hfBlock : Z := dec_one.

Definition nativeUnsupportedOps (tool : string) : option string :=
  if String.eqb tool "lendora_build_supply_tx" then Some "supplying"%string
  else if String.eqb tool "lendora_build_repay_tx" then Some "repaying"%string
  else None.

(** [riskResult.marketPosition] *)
Definition find_position (r : riskResult) (cToken : Address) : option marketPosition :=
  List.find (fun p => addr_eqb (mp_CToken p) cToken) (rr_Positions r).

Section Simulate.
Context {D : DecLib} {A : DecArith}.

Definition hfWarn : result Z := LegacyMustNewDecFromStr "1.2".

(** Health factor, level, emoji and warning. *)
Definition projectHF (postCollateral postBorrow : Z) : result (string * string * string * string) :=
  if Z.sgn postBorrow <=? 0 then Ok ("∞", "Low", "🟢", "")%string
  else
    hf ← dec_ratio postCollateral postBorrow;
    let shortfall := if postCollateral <? postBorrow then 1 else 0 in
    band ← riskBand true (Some shortfall) hf;
    warnBelow ← hfWarn;
    let warn := if (hfBlock <=? hf) && (hf <? warnBelow)
                then ("projected health factor " +:+ dec_String hf
                        +:+ " is close to the 1.0 liquidation threshold — leave a larger buffer")%string
                else EmptyString in
    Ok (dec_String hf, fst band, snd band, warn).

Definition healthFactorString (r : riskResult) : string :=
  if negb (rr_HasDebt r) then "∞" else dec_String (rr_HealthFactor r).

Definition simulation (action asset amount : string) (r : riskResult) (postCollateral postBorrow : Z)
  : result LendoraSimulation :=
  hf ← projectHF postCollateral postBorrow;
  let '(hfStr, level, emoji, warn) := hf in
  Ok (mkLendoraSimulation (rr_BlockNumber r) action asset amount (healthFactorString r) hfStr level emoji
        (if String.eqb warn "" then [] else [warn])).

End Simulate.

Definition add_warning (w : string) (sim : LendoraSimulation) : LendoraSimulation :=
  mkLendoraSimulation (ls_BlockNumber sim) (ls_Action sim) (ls_Asset sim) (ls_Amount sim) (ls_CurrentHealthFactor sim)
    (ls_ProjectedHealthFactor sim) (ls_ProjectedRiskLevel sim) (ls_ProjectedRiskEmoji sim) (ls_Warnings sim ++ [w]).

Section Ops.
Context {RL : RateLib} {E : Env} {N : EVMEnv} {Q : QueryEnv} {L : ChainLib} {D : DecLib} {A : DecArith} {B : ABILib}.
Context {U : Unicode} (d : EVMDeps).

Definition native_refused (verb symbol : string) : goerr :=
  userErrf "%s %s is not supported yet: %s is the native market and its cToken takes a value rather than an amount argument — borrowing, withdrawing, and enabling/disabling collateral do work on %s"
    [FStr verb; FStr symbol; FStr symbol; FStr symbol].

(** The clients and the Comptroller found by the guard are returned with the
    owner, the market and the risk snapshot. *)
Definition opCommon (ctx : context) (tool asset : string)
  : M srv (Z * Z * Address * Address * string * lendoraMarketRef * riskResult) :=
  tp ← authorize ctx tool;
  lend ← lift (requireLendora d);
  let '(client, asm, comp) := lend in
  mk ← resolveAsset asset;
  _ ← lift (if lendora.IsCEther mk then
              match nativeUnsupportedOps tool with
              | Some verb => Err (native_refused verb (lendora.Symbol mk))
              | None => Ok tt
              end
            else Ok tt);
  eth ← lift (ownerEthAddress (tp_Owner tp));
  risk ← computeRisk client comp eth;
  mret (client, asm, comp, eth, tp_Owner tp,
        mkLendoraMarketRef (lendora.CToken mk) (lendora.Underlying mk) (lendora.Symbol mk)
          (lendora.UnderlyingDecimals mk) (lendora.IsCEther mk), risk).

Definition hypotheticalLiquidity (client : Z) (comp owner cToken : Address) (redeemTokens borrowAmount : Z) : M srv (Z * Z) :=
  data ← lift (PackGetHypotheticalAccountLiquidity owner cToken redeemTokens borrowAmount);
  out ← evmCallOn client comp data;
  al ← lift (UnpackAccountLiquidity "getHypotheticalAccountLiquidity" out);
  mret (al_Liquidity al, al_Shortfall al).

Definition erc20BalanceOf (client : Z) (token owner : Address) : M srv Z :=
  data ← lift (PackCTokenBalanceOf owner);
  out ← wrapM (fun e => Errorf "read balanceOf for %s: %w" [FStr (Address_Hex token); FErr e]) (evmCallOn client token data);
  lift (UnpackCTokenBalanceOf out).

Definition cTokenUnderlyingPriceNativeVia (client : Z) (comp cToken : Address) : M srv Z :=
  oracle ← lendoraOracle client comp;
  cTokenUnderlyingPriceNative client oracle cToken.

Definition finishOp (asm : Z) (ownerBech : string) (to : Address) (data : bytes) (clientID tool desc : string)
    (sim : LendoraSimulation) : M srv LendoraTxOutput :=
  p ← assembleERC asm ownerBech to data clientID tool desc;
  mret (mkLendoraTxOutput sim (Some p) None).

Definition not_collateral_warning : string :=
  "this market is not enabled as collateral, so supplying does not change your health factor — enable it with lendora_build_collateral_tx (action=enable)".

Definition LendoraBuildSupplyTx (ctx : context) (inp : LendoraSupplyInput) : M srv LendoraTxOutput :=
  c ← opCommon ctx "lendora_build_supply_tx" (lsi_Asset inp);
  let '(client, asm, comp, owner, ownerBech, m, r) := c in
  amount ← lift (amount_arg (lsi_Amount inp) (mr_UnderlyingDecimals m));
  added ← (match find_position r (mr_CToken m) with
           | Some pos =>
               if mp_CollateralEnabled pos then
                 price ← cTokenUnderlyingPriceNativeVia client comp (mr_CToken m);
                 cf ← cTokenCollateralFactor client comp (mr_CToken m);
                 mret (weightedNative price amount cf, false)
               else mret (0, true)
           | None => mret (0, true)
           end);
  let '(add, warn) := added in
  sim0 ← lift (simulation "supply" (mr_Symbol m) (lsi_Amount inp) r (rr_SumCollateralNat r + add) (rr_SumBorrowNat r));
  let sim := if warn : bool then add_warning not_collateral_warning sim0 else sim0 in
  approval ← checkLendoraAllowance client (mr_Underlying m) owner (mr_CToken m) amount (lsi_Amount inp) "lendora_build_supply_tx";
  match approval with
  | Some ap => mret (mkLendoraTxOutput sim None (Some ap))
  | None =>
      data ← lift (PackMint amount);
      finishOp asm ownerBech (mr_CToken m) data (lsi_ClientID inp) "lendora_build_supply_tx"
        ("supply " +:+ lsi_Amount inp +:+ " " +:+ mr_Symbol m +:+ " to Lendora")%string sim
  end.

Definition LendoraBuildWithdrawTx (ctx : context) (inp : LendoraWithdrawInput) : M srv LendoraTxOutput :=
  c ← opCommon ctx "lendora_build_withdraw_tx" (lwi_Asset inp);
  let '(client, asm, comp, owner, ownerBech, m, r) := c in
  let full := lwi_Full inp || String.eqb (lwi_Amount inp) "" in
  let amountLabel := if full then "full"%string else lwi_Amount inp in
  call ← (if full then
            cBal ← erc20BalanceOf client (mr_CToken m) owner;
            _ ← lift (check (Z.sgn cBal =? 0) (userErrf "you have no supplied %s to withdraw" [FStr (mr_Symbol m)]));
            data ← lift (PackRedeem cBal);
            mret (data, cBal)
          else
            amount ← lift (amount_arg (lwi_Amount inp) (mr_UnderlyingDecimals m));
            exRate ← cTokenUint client (mr_CToken m) PackExchangeRateStored "exchangeRateStored";
            _ ← lift (check (Z.sgn exRate =? 0) (userErrf "market %s has a zero exchange rate" [FStr (mr_Symbol m)]));
            data ← lift (PackRedeemUnderlying amount);
            mret (data, big_Div (amount * e18) exRate));
  let '(data, redeemTokens) := call in
  ls ← hypotheticalLiquidity client comp owner (mr_CToken m) redeemTokens 0;
  let '(liq, short) := ls in
  _ ← lift (check (0 <? Z.sgn short)
              (userErrf "withdrawing %s %s would make your position undercollateralized (health factor below 1.0) — withdraw less or repay debt first"
                 [FStr amountLabel; FStr (mr_Symbol m)]));
  sim ← lift (simulation "withdraw" (mr_Symbol m) amountLabel r (liq - short + rr_SumBorrowNat r) (rr_SumBorrowNat r));
  finishOp asm ownerBech (mr_CToken m) data (lwi_ClientID inp) "lendora_build_withdraw_tx"
    ("withdraw " +:+ amountLabel +:+ " " +:+ mr_Symbol m +:+ " from Lendora")%string sim.

Definition LendoraBuildBorrowTx (ctx : context) (inp : LendoraBorrowInput) : M srv LendoraTxOutput :=
  c ← opCommon ctx "lendora_build_borrow_tx" (lbi_Asset inp);
  let '(client, asm, comp, owner, ownerBech, m, r) := c in
  amount ← lift (amount_arg (lbi_Amount inp) (mr_UnderlyingDecimals m));
  ls ← hypotheticalLiquidity client comp owner (mr_CToken m) 0 amount;
  let '(liq, short) := ls in
  _ ← lift (check (0 <? Z.sgn short)
              (userErrf "borrowing %s %s would make your position undercollateralized (health factor below 1.0) — borrow less or supply more collateral"
                 [FStr (lbi_Amount inp); FStr (mr_Symbol m)]));
  price ← cTokenUnderlyingPriceNativeVia client comp (mr_CToken m);
  let postBorrow := rr_SumBorrowNat r + nativeValue price amount in
  sim ← lift (simulation "borrow" (mr_Symbol m) (lbi_Amount inp) r (liq - short + postBorrow) postBorrow);
  data ← lift (PackBorrow amount);
  finishOp asm ownerBech (mr_CToken m) data (lbi_ClientID inp) "lendora_build_borrow_tx"
    ("borrow " +:+ lbi_Amount inp +:+ " " +:+ mr_Symbol m +:+ " from Lendora")%string sim.

(** The amount to encode, the amount pulled and the label of a repayment. *)
Definition repay_amounts (inp : LendoraRepayInput) (m : lendoraMarketRef) (debt : Z) : result (Z * Z * string) :=
  part ← (if lri_Full inp || String.eqb (lri_Amount inp) "" then Ok None
          else amount ← amount_arg (lri_Amount inp) (mr_UnderlyingDecimals m);
               Ok (if debt <=? amount then None else Some amount));
  match part with
  | Some amount => Ok (amount, amount, lri_Amount inp)
  | None =>
      _ ← check (Z.sgn debt =? 0) (userErrf "you have no outstanding %s borrow to repay" [FStr (mr_Symbol m)]);
      Ok (maxUint256, debt, "full"%string)
  end.

Definition LendoraBuildRepayTx (ctx : context) (inp : LendoraRepayInput) : M srv LendoraTxOutput :=
  c ← opCommon ctx "lendora_build_repay_tx" (lri_Asset inp);
  let '(client, asm, comp, owner, ownerBech, m, r) := c in
  let debt := match find_position r (mr_CToken m) with Some pos => mp_BorrowedUnderlying pos | None => 0 end in
  am ← lift (repay_amounts inp m debt);
  let '(packAmount, pull, amountLabel) := am in
  price ← cTokenUnderlyingPriceNativeVia client comp (mr_CToken m);
  let postBorrow0 := rr_SumBorrowNat r - nativeValue price pull in
  let postBorrow := if postBorrow0 <? 0 then 0 else postBorrow0 in
  sim ← lift (simulation "repay" (mr_Symbol m) amountLabel r (rr_SumCollateralNat r) postBorrow);
  approval ← checkLendoraAllowance client (mr_Underlying m) owner (mr_CToken m) pull amountLabel "lendora_build_repay_tx";
  match approval with
  | Some ap => mret (mkLendoraTxOutput sim None (Some ap))
  | None =>
      data ← lift (PackRepayBorrow packAmount);
      finishOp asm ownerBech (mr_CToken m) data (lri_ClientID inp) "lendora_build_repay_tx"
        ("repay " +:+ amountLabel +:+ " " +:+ mr_Symbol m +:+ " to Lendora")%string sim
  end.

(** The call on the Comptroller and the collateral after it. *)
Definition collateral_call (action : string) (m : lendoraMarketRef) (r : riskResult) (pos : option marketPosition)
    (contribution : Z) : result (bytes * Z) :=
  let alreadyEnabled := match pos with Some p => mp_CollateralEnabled p | None => false end in
  if String.eqb action "enable" then
    data ← PackEnterMarkets [mr_CToken m];
    Ok (data, if negb alreadyEnabled then rr_SumCollateralNat r + contribution else rr_SumCollateralNat r)
  else if String.eqb action "disable" then
    _ ← check (match pos with Some p => 0 <? Z.sgn (mp_BorrowedUnderlying p) | None => false end)
          (userErrf "cannot disable %s as collateral while it has an outstanding borrow — repay it first" [FStr (mr_Symbol m)]);
    let post := if alreadyEnabled then rr_SumCollateralNat r - contribution else rr_SumCollateralNat r in
    _ ← check (alreadyEnabled && (rr_HasDebt r && (post <? rr_SumBorrowNat r)))
          (userErrf "disabling %s as collateral would make your position undercollateralized (health factor below 1.0) — repay debt or disable a different market"
             [FStr (mr_Symbol m)]);
    data ← PackExitMarket (mr_CToken m);
    Ok (data, post)
  else Err (userErrf ("action must be " +:+ dq +:+ "enable" +:+ dq +:+ " or " +:+ dq +:+ "disable" +:+ dq +:+ ", got %q")%string
              [FStr action]).

Definition LendoraBuildCollateralTx (ctx : context) (inp : LendoraCollateralInput) : M srv LendoraTxOutput :=
  c ← opCommon ctx "lendora_build_collateral_tx" (lci_Asset inp);
  let '(client, asm, comp, owner, ownerBech, m, r) := c in
  let pos := find_position r (mr_CToken m) in
  contribution ← (match pos with
                  | Some p =>
                      price ← cTokenUnderlyingPriceNativeVia client comp (mr_CToken m);
                      mret (weightedNative price (mp_SuppliedUnderlying p) (mp_CollateralFactor p))
                  | None => mret 0
                  end);
  dp ← lift (collateral_call (lci_Action inp) m r pos contribution);
  let '(data, postCollateral) := dp in
  let action := if String.eqb (lci_Action inp) "disable" then "disable_collateral"%string else "enable_collateral"%string in
  sim ← lift (simulation action (mr_Symbol m) "" r postCollateral (rr_SumBorrowNat r));
  finishOp asm ownerBech comp data (lci_ClientID inp) "lendora_build_collateral_tx"
    (lci_Action inp +:+ " " +:+ mr_Symbol m +:+ " as Lendora collateral")%string sim.

End Ops.

(** ** The five tools together *)

Inductive lendora_op : Type :=
| OSupply (i : LendoraSupplyInput)
| OWithdraw (i : LendoraWithdrawInput)
| OBorrow (i : LendoraBorrowInput)
| ORepay (i : LendoraRepayInput)
| OCollateral (i : LendoraCollateralInput).

Definition op_asset (o : lendora_op) : string :=
  match o with
  | OSupply i => lsi_Asset i | OWithdraw i => lwi_Asset i | OBorrow i => lbi_Asset i | ORepay i => lri_Asset i
  | OCollateral i => lci_Asset i
  end.
Definition op_client (o : lendora_op) : string :=
  match o with
  | OSupply i => lsi_ClientID i | OWithdraw i => lwi_ClientID i | OBorrow i => lbi_ClientID i | ORepay i => lri_ClientID i
  | OCollateral i => lci_ClientID i
  end.
Definition op_name (o : lendora_op) : string :=
  match o with
  | OSupply _ => "lendora_build_supply_tx" | OWithdraw _ => "lendora_build_withdraw_tx"
  | OBorrow _ => "lendora_build_borrow_tx" | ORepay _ => "lendora_build_repay_tx"
  | OCollateral _ => "lendora_build_collateral_tx"
  end.

(** The operations that pull the underlying token from the wallet. *)
Definition pulls (o : lendora_op) : bool := match o with OSupply _ | ORepay _ => true | _ => false end.

Section Run.
Context {RL : RateLib} {E : Env} {N : EVMEnv} {Q : QueryEnv} {L : ChainLib} {D : DecLib} {A : DecArith} {B : ABILib}.
Context {U : Unicode} (d : EVMDeps).

Definition run_lendora (ctx : context) (o : lendora_op) : M srv LendoraTxOutput :=
  match o with
  | OSupply i => LendoraBuildSupplyTx d ctx i
  | OWithdraw i => LendoraBuildWithdrawTx d ctx i
  | OBorrow i => LendoraBuildBorrowTx d ctx i
  | ORepay i => LendoraBuildRepayTx d ctx i
  | OCollateral i => LendoraBuildCollateralTx d ctx i
  end.

(** ** What an operation means *)

(** The market an asset denotes: the cached one, or, for an address the cache
    does not know, the market read from that address. *)
Definition denotes (c : lendora.Cache) (asset : string) (m : lendora.Market) : Prop :=
  lendora.Resolve c asset = Some m
  \/ lendora.Resolve c asset = None /\ IsHexAddress (TrimSpace asset) = true
     /\ lendora.CToken m = HexToAddress (TrimSpace asset) /\ lendora.market_ok m.

(** The Comptroller's answer to the what-if question. *)
Definition what_if (client : Z) (comp owner cToken : Address) (redeem borrow liq short : Z) : Prop :=
  exists out al, answered client comp (PackGetHypotheticalAccountLiquidity owner cToken redeem borrow) out
  /\ UnpackAccountLiquidity "getHypotheticalAccountLiquidity" out = Ok al /\ liq = al_Liquidity al /\ short = al_Shortfall al.

Definition allowance_of (client : Z) (token owner spender : Address) (allowance : Z) : Prop :=
  exists out, answered client token (PackERC20Allowance owner spender) out /\ UnpackERC20Allowance out = Ok allowance.

Definition debt_of (r : riskResult) (cToken : Address) : Z :=
  match find_position r cToken with Some p => mp_BorrowedUnderlying p | None => 0 end.

(** The amount a supply or a repayment encodes, what it pulls from the wallet,
    and how it is named in the reply: a repayment that covers the debt encodes
    the greatest integer and pulls the debt. *)
Definition pull_spec (o : lendora_op) (m : lendora.Market) (r : riskResult) (encoded pull : Z) (label : string) : Prop :=
  match o with
  | OSupply i => humanToBaseUnits (lsi_Amount i) (lendora.UnderlyingDecimals m) = Ok pull /\ encoded = pull
      /\ label = lsi_Amount i
  | ORepay i =>
      let debt := debt_of r (lendora.CToken m) in
      let whole := encoded = maxUint256 /\ pull = debt /\ debt <> 0 /\ label = "full"%string in
      if lri_Full i || String.eqb (lri_Amount i) "" then whole
      else exists n, humanToBaseUnits (lri_Amount i) (lendora.UnderlyingDecimals m) = Ok n
        /\ if debt <=? n then whole else encoded = n /\ pull = n /\ label = lri_Amount i
  | _ => False
  end.

(** When exiting a market is built: with a position there, without a debt in it
    and, if it is entered and anything is owed, only when the collateral that
    remains covers the debts; without a position, the account is idle in each
    cached market of that address.  A market that is not cached is not
    checked. *)
Definition may_exit (client : Z) (comp owner : Address) (c : lendora.Cache) (r : riskResult) (ct : Address) : Prop :=
  match find_position r ct with
  | Some p => mp_BorrowedUnderlying p <= 0
      /\ (mp_CollateralEnabled p = true -> rr_HasDebt r = true ->
          exists oracle price, oracle_of client comp c oracle /\ price_of client oracle ct price
          /\ rr_SumBorrowNat r <= rr_SumCollateralNat r
               - weightedNative price (mp_SuppliedUnderlying p) (mp_CollateralFactor p))
  | None => forall mk, mk ∈ lendora.All c -> lendora.CToken mk = ct ->
      exists snap, snapshot_of client owner ct snap /\ idle snap
  end.

(** The call an operation encodes and the conditions under which it is built. *)
Definition op_call (o : lendora_op) (client : Z) (comp owner : Address) (c : lendora.Cache) (m : lendora.Market)
    (r : riskResult) (to : Address) (data : bytes) : Prop :=
  let ct := lendora.CToken m in
  match o with
  | OSupply _ => to = ct /\ exists n pull label, pull_spec o m r n pull label /\ PackMint n = Ok data
  | ORepay _ => to = ct /\ exists n pull label, pull_spec o m r n pull label /\ PackRepayBorrow n = Ok data
  | OWithdraw i => to = ct /\ exists redeem liq short, what_if client comp owner ct redeem 0 liq short /\ short <= 0 /\
      if lwi_Full i || String.eqb (lwi_Amount i) "" then
        redeem <> 0 /\ PackRedeem redeem = Ok data
        /\ exists out, answered client ct (PackCTokenBalanceOf owner) out /\ UnpackCTokenBalanceOf out = Ok redeem
      else exists n rate out, humanToBaseUnits (lwi_Amount i) (lendora.UnderlyingDecimals m) = Ok n
        /\ PackRedeemUnderlying n = Ok data
        /\ answered client ct PackExchangeRateStored out /\ UnpackCTokenUint "exchangeRateStored" out = Ok rate
        /\ rate <> 0 /\ redeem = big_Div (n * e18) rate
  | OBorrow i => to = ct /\ exists n liq short, humanToBaseUnits (lbi_Amount i) (lendora.UnderlyingDecimals m) = Ok n
      /\ what_if client comp owner ct 0 n liq short /\ short <= 0 /\ PackBorrow n = Ok data
  | OCollateral i => to = comp /\
      ((lci_Action i = "enable"%string /\ PackEnterMarkets [ct] = Ok data)
       \/ (lci_Action i = "disable"%string /\ PackExitMarket ct = Ok data /\ may_exit client comp owner c r ct))
  end.

(** What an output of an operation is. *)
Definition op_result (o : lendora_op) (client asm : Z) (comp owner : Address) (bech : string) (c : lendora.Cache)
    (m : lendora.Market) (r : riskResult) (out : LendoraTxOutput) : Prop :=
  (pulls o = true -> lendora.IsCEther m = false
     /\ exists n pull label allowance, pull_spec o m r n pull label
        /\ allowance_of client (lendora.Underlying m) owner (lendora.CToken m) allowance
        /\ match lt_ApprovalRequired out with
           | None => pull <= allowance
           | Some ap => allowance < pull /\ la_Tool ap = "build_erc20_approve"%string
               /\ la_Token ap = Address_Hex (lendora.Underlying m) /\ la_Spender ap = Address_Hex (lendora.CToken m)
               /\ la_MinAmount ap = label /\ la_RetryTool ap = op_name o
           end)
  /\ match lt_Payload out, lt_ApprovalRequired out with
     | Some p, None => exists to data, op_call o client comp owner c m r to data
         /\ requests asm bech (op_client o) to 0 data p
     | None, Some _ => pulls o = true
     | _, _ => False
     end.

Definition op_spec (ctx : context) (o : lendora_op) (s : srv) (out : LendoraTxOutput) : Prop :=
  exists tp client asm comp owner m r, authorized ctx tp s /\ requireLendora d = Ok (client, asm, comp)
  /\ ownerEthAddress (tp_Owner tp) = Ok owner /\ denotes (s_lendora s) (op_asset o) m
  /\ risk_spec client comp owner (s_lendora s) r
  /\ op_result o client asm comp owner (tp_Owner tp) (s_lendora s) m r out.

(** ** Lemmas *)

Abbreviation quiet := (lendora.quiet (H := srv_host)) (only parsing).

Context {AL : DecArithLaws A} {BL : ABILaws B}.

Lemma quiet_authorize ctx tool : quiet (authorize ctx tool).
Proof.
  intros s. destruct (authorize ctx tool s) as [r s'] eqn:Ea. cbn [snd]. unfold authorize in Ea.
  destruct (TenantFrom ctx) as [tc|]; [|by injection Ea as _ <-].
  apply M_bind_cases in Ea as [(e & H & _)|(u & s1 & H & Ea)]; rewrite policy_eq in H; injection H as _ <-; [done|].
  apply M_bind_cases in Ea as [(e & H & _)|(tp & s2 & H & Ea)]; rewrite policy_eq in H; injection H as _ <-; [done|].
  apply M_bind_cases in Ea as [(e & H & _)|(ok & s3 & H & Ea)]; rewrite rate_allow_eq in H; injection H as _ <-; [done|].
  by destruct ok; injection Ea as _ <-.
Qed.

Lemma quiet_resolveAsset a : quiet (resolveAsset a).
Proof.
  unfold resolveAsset. apply lendora.quiet_bind; [by intros s|]. intros c. case_match; [by intros s|].
  case_match; [|by intros s]. apply lendora.quiet_bind; [apply lendora.quiet_LoadMarket|]. intros o. by case_match; intros s.
Qed.

Lemma resolveAsset_denotes a s m s' : resolveAsset a s = (Ok m, s') -> denotes (s_lendora s) a m.
Proof.
  intros H. unfold resolveAsset in H. m_inv H as c s1 H1. injection H1 as <- <-. unfold denotes.
  destruct (lendora.Resolve (s_lendora s) a) as [m'|]; [injection H as <- _; by left|]. right.
  destruct (IsHexAddress (TrimSpace a)); [|done]. m_inv H as o s2 H2. destruct o as [m'|]; [|done]. injection H as <- _.
  unfold lendora.LoadMarket in H2. m_inv H2 as c s3 H3. unfold lendora.Oracle in H2. m_inv H2 as ce s4 H4.
  m_inv H2 as lr s5 H5. unfold lendora.try in H5. destruct (lendora.loadMarket _ ce s4) as [lr' s6] eqn:El.
  injection H5 as -> _. destruct lr as [m''|]; [|done]. injection H2 as <- _.
  apply lendora.loadMarket_ok in El as [? ?]. done.
Qed.

(** What the common prelude of the operations establishes. *)
Lemma opCommon_inv ctx tool asset s client asm comp owner bech m r s' :
  opCommon d ctx tool asset s = (Ok (client, asm, comp, owner, bech, m, r), s') ->
  exists tp mk s1, authorized ctx tp s /\ requireLendora d = Ok (client, asm, comp)
  /\ ownerEthAddress (tp_Owner tp) = Ok owner /\ bech = tp_Owner tp /\ denotes (s_lendora s) asset mk
  /\ (is_Some (nativeUnsupportedOps tool) -> lendora.IsCEther mk = false)
  /\ m = mkLendoraMarketRef (lendora.CToken mk) (lendora.Underlying mk) (lendora.Symbol mk)
           (lendora.UnderlyingDecimals mk) (lendora.IsCEther mk)
  /\ risk_spec client comp owner (s_lendora s) r
  /\ computeRisk client comp owner s1 = (Ok r, s') /\ s_lendora s1 = s_lendora s.
Proof.
  intros H. unfold opCommon in H. m_inv H as tp s1 H1. pose proof (quiet_run _ _ _ _ (quiet_authorize _ _) H1) as Q1.
  apply authorize_inv in H1 as [Ha _]. l_inv H as lend Hl. destruct lend as [[cl as'] co]. m_inv H as mk s2 H2.
  pose proof (quiet_run _ _ _ _ (quiet_resolveAsset _) H2) as Q2. apply resolveAsset_denotes in H2. rewrite Q1 in H2.
  l_inv H as u Hu. l_inv H as eth He. m_inv H as risk s3 H3. injection H as <- <- <- <- <- <- <- <-.
  exists tp, mk, s2. split_and!; try done.
  - intros [verb Hv]. rewrite Hv in Hu. by destruct (lendora.IsCEther mk).
  - apply computeRisk_inv in H3. by rewrite Q2, Q1 in H3.
  - by rewrite Q2, Q1.
Qed.

Lemma allowance_inv client u o ct amount human retry s ap s' :
  checkLendoraAllowance client u o ct amount human retry s = (Ok ap, s') ->
  exists a, allowance_of client u o ct a
  /\ match ap with
     | None => amount <= a
     | Some x => a < amount /\ la_Tool x = "build_erc20_approve"%string /\ la_Token x = Address_Hex u
         /\ la_Spender x = Address_Hex ct /\ la_MinAmount x = human /\ la_RetryTool x = retry
     end.
Proof.
  intros H. unfold checkLendoraAllowance in H. l_inv H as data Hd. m_inv H as out s1 H1. apply wrapM_ok in H1.
  l_inv H as a Ha. exists a. split; [exists out; split; [by eapply evmCallOn_answered|done]|].
  destruct (Z.ltb_spec a amount); injection H as <- _; [|done]. by split_and!.
Qed.

Lemma what_if_inv client comp owner ct redeem borrow s liq short s' :
  hypotheticalLiquidity client comp owner ct redeem borrow s = (Ok (liq, short), s') ->
  what_if client comp owner ct redeem borrow liq short.
Proof.
  intros H. unfold hypotheticalLiquidity in H. l_inv H as data Hd. m_inv H as out s1 H1. l_inv H as al Ha.
  injection H as <- <- _. exists out, al. split_and!; [by eapply evmCallOn_answered|done..].
Qed.

Lemma finishOp_inv asm bech to data cid tool desc sim s out s' :
  finishOp asm bech to data cid tool desc sim s = (Ok out, s') ->
  lt_ApprovalRequired out = None /\ exists p, lt_Payload out = Some p /\ requests asm bech cid to 0 data p.
Proof.
  intros H. unfold finishOp in H. m_inv H as p s1 H1. injection H as <- _. apply assembleERC_requests in H1.
  split; [done|]. by exists p.
Qed.

Lemma amount_arg_inv h dec n : amount_arg h dec = Ok n -> humanToBaseUnits h dec = Ok n.
Proof. apply wrap_ok. Qed.

Lemma check_ok_inv b e u : check b e = Ok u -> b = false.
Proof. by destruct b. Qed.

Lemma supply_inv ctx i s out s' : LendoraBuildSupplyTx d ctx i s = (Ok out, s') -> op_spec ctx (OSupply i) s out.
Proof.
  intros H. unfold LendoraBuildSupplyTx in H. m_inv H as c s1 H1. destruct c as [[[[[[cl asm] comp] ow] bech] m] r].
  apply opCommon_inv in H1 as (tp & mk & s0 & Ha & Hl & Ho & -> & Hd & Hn & -> & Hr & _).
  cbn [mr_CToken mr_Underlying mr_UnderlyingDecimals mr_Symbol] in H. l_inv H as n Hh. apply amount_arg_inv in Hh.
  m_inv H as added s2 H2. destruct added as [add warn]. l_inv H as sim Hs. m_inv H as ap s3 H3.
  apply allowance_inv in H3 as (a & Hal & Hap).
  assert (pull_spec (OSupply i) mk r n n (lsi_Amount i)) as Hp by done.
  exists tp, cl, asm, comp, ow, mk, r. split_and!; try done. split.
  - intros _. split; [by apply Hn; eexists|]. exists n, n, (lsi_Amount i), a. split_and!; [done..|].
    destruct ap as [x|]; [by injection H as <- _|]. l_inv H as data Hpk. apply finishOp_inv in H as [-> _]. done.
  - destruct ap as [x|]; [by injection H as <- _|]. l_inv H as data Hpk.
    apply finishOp_inv in H as (-> & p & -> & Hq). exists (lendora.CToken mk), data. split; [|done].
    split; [done|]. by exists n, n, (lsi_Amount i).
Qed.

Lemma repay_amounts_inv i m mk r n pull label :
  mr_UnderlyingDecimals m = lendora.UnderlyingDecimals mk ->
  repay_amounts i m (debt_of r (lendora.CToken mk)) = Ok (n, pull, label) -> pull_spec (ORepay i) mk r n pull label.
Proof.
  intros Ed. unfold repay_amounts. cbn [pull_spec]. rewrite Ed. destruct (lri_Full i || _).
  - cbn [mbind result_bind]. destruct (Z.eqb_spec (Z.sgn (debt_of r (lendora.CToken mk))) 0); [done|]. cbn.
    intros [= <- <- <-]. split_and!; [done..| |done]. lia.
  - destruct (amount_arg (lri_Amount i) _) as [x|] eqn:Ex; [|done]. cbn [mbind result_bind].
    apply amount_arg_inv in Ex. intros H. exists x. split; [done|]. destruct (_ <=? x).
    + cbn [mbind result_bind] in H. destruct (Z.eqb_spec (Z.sgn (debt_of r (lendora.CToken mk))) 0); [done|]. cbn in H.
      injection H as <- <- <-. split_and!; [done..| |done]. lia.
    + cbn in H. by injection H as <- <- <-.
Qed.

Lemma repay_inv ctx i s out s' : LendoraBuildRepayTx d ctx i s = (Ok out, s') -> op_spec ctx (ORepay i) s out.
Proof.
  intros H. unfold LendoraBuildRepayTx in H. m_inv H as c s1 H1. destruct c as [[[[[[cl asm] comp] ow] bech] m] r].
  apply opCommon_inv in H1 as (tp & mk & s0 & Ha & Hl & Ho & -> & Hd & Hn & -> & Hr & _).
  cbn [mr_CToken mr_Underlying mr_UnderlyingDecimals mr_Symbol] in H. l_inv H as am Hp. destruct am as [[n pull] label].
  apply (repay_amounts_inv i _ mk r) in Hp; [|done].
  m_inv H as price s2 H2. l_inv H as sim Hs. m_inv H as ap s3 H3. apply allowance_inv in H3 as (a & Hal & Hap).
  exists tp, cl, asm, comp, ow, mk, r. split_and!; try done. split.
  - intros _. split; [by apply Hn; eexists|]. exists n, pull, label, a. split_and!; [done..|].
    destruct ap as [x|]; [by injection H as <- _|]. l_inv H as data Hpk. apply finishOp_inv in H as [-> _]. done.
  - destruct ap as [x|]; [by injection H as <- _|]. l_inv H as data Hpk.
    apply finishOp_inv in H as (-> & p & -> & Hq). exists (lendora.CToken mk), data. split; [|done].
    split; [done|]. by exists n, pull, label.
Qed.

Lemma withdraw_inv ctx i s out s' : LendoraBuildWithdrawTx d ctx i s = (Ok out, s') -> op_spec ctx (OWithdraw i) s out.
Proof.
  intros H. unfold LendoraBuildWithdrawTx in H. m_inv H as c s1 H1. destruct c as [[[[[[cl asm] comp] ow] bech] m] r].
  apply opCommon_inv in H1 as (tp & mk & s0 & Ha & Hl & Ho & -> & Hd & Hn & -> & Hr & _).
  cbn [mr_CToken mr_Underlying mr_UnderlyingDecimals mr_Symbol] in H. m_inv H as call s2 H2. destruct call as [data redeem].
  m_inv H as ls s3 H3. destruct ls as [liq short]. apply what_if_inv in H3. l_inv H as u Hu. apply check_ok_inv in Hu.
  rewrite sgn_pos in Hu. apply Z.ltb_ge in Hu. l_inv H as sim Hs. apply finishOp_inv in H as (E1 & p & E2 & Hq).
  exists tp, cl, asm, comp, ow, mk, r. split_and!; try done. split; [done|]. rewrite E1, E2.
  exists (lendora.CToken mk), data. split; [|done]. split; [done|]. exists redeem, liq, short. split_and!; [done..|].
  destruct (lwi_Full i || _).
  - m_inv H2 as bal s4 H4. l_inv H2 as u2 Hz. apply check_ok_inv in Hz. l_inv H2 as dt Hp. injection H2 as <- <- _.
    unfold erc20BalanceOf in H4. l_inv H4 as bd Hbd. m_inv H4 as out4 s5 H5. apply wrapM_ok in H5.
    apply lift_ok in H4 as [H4 _]. split_and!; [apply Z.eqb_neq in Hz; lia|done|].
    exists out4. split; [by eapply evmCallOn_answered|done].
  - l_inv H2 as n Hh. apply amount_arg_inv in Hh. m_inv H2 as rate s4 H4. l_inv H2 as u2 Hz. apply check_ok_inv in Hz.
    l_inv H2 as dt Hp. injection H2 as <- <- _. unfold cTokenUint in H4. l_inv H4 as bd Hbd. m_inv H4 as out4 s5 H5.
    apply wrapM_ok in H5. apply lift_ok in H4 as [H4 _]. exists n, rate, out4.
    split_and!; [done|done|by eapply evmCallOn_answered|done|apply Z.eqb_neq in Hz; lia|done].
Qed.

Lemma borrow_inv ctx i s out s' : LendoraBuildBorrowTx d ctx i s = (Ok out, s') -> op_spec ctx (OBorrow i) s out.
Proof.
  intros H. unfold LendoraBuildBorrowTx in H. m_inv H as c s1 H1. destruct c as [[[[[[cl asm] comp] ow] bech] m] r].
  apply opCommon_inv in H1 as (tp & mk & s0 & Ha & Hl & Ho & -> & Hd & Hn & -> & Hr & _).
  cbn [mr_CToken mr_Underlying mr_UnderlyingDecimals mr_Symbol] in H. l_inv H as n Hh. apply amount_arg_inv in Hh.
  m_inv H as ls s3 H3. destruct ls as [liq short]. apply what_if_inv in H3. l_inv H as u Hu. apply check_ok_inv in Hu.
  rewrite sgn_pos in Hu. apply Z.ltb_ge in Hu. m_inv H as price s4 H4. l_inv H as sim Hs. l_inv H as data Hp.
  apply finishOp_inv in H as (E1 & p & E2 & Hq).
  exists tp, cl, asm, comp, ow, mk, r. split_and!; try done. split; [done|]. rewrite E1, E2.
  exists (lendora.CToken mk), data. split; [|done]. split; [done|]. by exists n, liq, short.
Qed.


Lemma collateral_call_inv i mk r contribution data post :
  let m := mkLendoraMarketRef (lendora.CToken mk) (lendora.Underlying mk) (lendora.Symbol mk)
             (lendora.UnderlyingDecimals mk) (lendora.IsCEther mk) in
  collateral_call (lci_Action i) m r (find_position r (lendora.CToken mk)) contribution = Ok (data, post) ->
  (lci_Action i = "enable"%string /\ PackEnterMarkets [lendora.CToken mk] = Ok data)
  \/ (lci_Action i = "disable"%string /\ PackExitMarket (lendora.CToken mk) = Ok data
      /\ forall p, find_position r (lendora.CToken mk) = Some p -> mp_BorrowedUnderlying p <= 0
         /\ (mp_CollateralEnabled p = true -> rr_HasDebt r = true ->
             rr_SumBorrowNat r <= rr_SumCollateralNat r - contribution)).
Proof.
  unfold collateral_call. cbn [mr_CToken mr_Symbol]. destruct (String.eqb_spec (lci_Action i) "enable").
  { destruct (PackEnterMarkets _) as [dt|] eqn:Ep; [|done]. cbn [mbind result_bind]. intros [= <- _]. by left. }
  destruct (String.eqb_spec (lci_Action i) "disable"); [|done]. intros H. right. split; [done|].
  apply bind_check_ok in H as [H1 H]. apply bind_check_ok in H as [H2 H].
  destruct (PackExitMarket _) as [dt|] eqn:Ep; [|done]. injection H as <- _. split; [done|]. intros p Hp.
  rewrite Hp, ?sgn_pos in *. apply Z.ltb_ge in H1. split; [done|]. intros He Hdebt. rewrite He, Hdebt in H2. cbn in H2.
  by apply Z.ltb_ge in H2.
Qed.

Lemma price_via_inv client comp ct s v s' :
  cTokenUnderlyingPriceNativeVia client comp ct s = (Ok v, s') ->
  exists oracle, oracle_of client comp (s_lendora s) oracle /\ price_of client oracle ct v.
Proof.
  intros H. unfold cTokenUnderlyingPriceNativeVia in H. m_inv H as o s1 H1. apply oracle_inv in H1. apply price_inv in H.
  by exists o.
Qed.

(** Without a position in the report the account is idle in the market. *)
Lemma unseen_idle client comp owner c r ct mk :
  risk_spec client comp owner c r -> find_position r ct = None -> mk ∈ lendora.All c -> lendora.CToken mk = ct ->
  exists snap, snapshot_of client owner ct snap /\ idle snap.
Proof.
  intros (o & e & liq & outs & _ & _ & _ & _ & _ & HF & Hp & _) Hn Hin <-.
  apply list_elem_of_lookup in Hin as [i Hi]. destruct (Forall2_lookup_l _ _ _ _ _ HF Hi) as ([q|] & Hq & Ho); [|done].
  destruct Ho as (_ & Hc & _). assert (q ∈ rr_Positions r) as Hqp.
  { rewrite Hp. apply list_elem_of_omap. exists (Some q). split; [by eapply list_elem_of_lookup_2|done]. }
  apply list_elem_of_In in Hqp. apply (List.find_none _ _ Hn) in Hqp. rewrite Hc in Hqp.
  unfold addr_eqb in Hqp. by rewrite bool_decide_eq_true_2 in Hqp.
Qed.

Lemma collateral_inv ctx i s out s' :
  LendoraBuildCollateralTx d ctx i s = (Ok out, s') -> op_spec ctx (OCollateral i) s out.
Proof.
  intros H. unfold LendoraBuildCollateralTx in H. m_inv H as c s1 H1. destruct c as [[[[[[cl asm] comp] ow] bech] m] r].
  apply opCommon_inv in H1 as (tp & mk & s0 & Ha & Hl & Ho & -> & Hd & Hn & -> & Hr & Hk & Ec).
  apply (quiet_run _ _ _ _ (quiet_computeRisk _ _ _)) in Hk. rewrite Ec in Hk.
  cbn [mr_CToken mr_Symbol] in H. m_inv H as contribution s2 H2. l_inv H as dp Hc. destruct dp as [data post].
  l_inv H as sim Hs. apply finishOp_inv in H as (E1 & p & E2 & Hq). apply collateral_call_inv in Hc.
  exists tp, cl, asm, comp, ow, mk, r. split_and!; try done. split; [done|]. rewrite E1, E2. exists comp, data.
  split; [|done]. split; [done|]. destruct Hc as [Hc|(Hdis & Hp & Hc)]; [by left|]. right. split_and!; [done..|].
  unfold may_exit. destruct (find_position r (lendora.CToken mk)) as [q|] eqn:Hf; [|intros mk' ?; by eapply unseen_idle].
  destruct (Hc q eq_refl) as [Hb Hx]. split; [done|]. intros He Hdebt. specialize (Hx He Hdebt). m_inv H2 as price s3 H3. injection H2 as <- _. apply price_via_inv in H3 as (o & Hor & Hpr).
  rewrite Hk in Hor. by exists o, price.
Qed.

Lemma run_lendora_inv ctx o s out s' : run_lendora ctx o s = (Ok out, s') -> op_spec ctx o s out.
Proof.
  destruct o; cbn [run_lendora];
    [apply supply_inv|apply withdraw_inv|apply borrow_inv|apply repay_inv|apply collateral_inv].
Qed.

(** ** Nothing is sent *)

Lemma keeps_opCommon ctx tool asset : keeps effects (opCommon d ctx tool asset).
Proof. unfold opCommon. keeps_tac. Qed.
Lemma keeps_price_via client comp ct : keeps effects (cTokenUnderlyingPriceNativeVia client comp ct).
Proof. unfold cTokenUnderlyingPriceNativeVia. keeps_tac. Qed.
Lemma keeps_finishOp asm bech to data cid tool desc sim : keeps effects (finishOp asm bech to data cid tool desc sim).
Proof. unfold finishOp, assembleERC. keeps_tac. Qed.
Lemma keeps_what_if client comp owner ct a b : keeps effects (hypotheticalLiquidity client comp owner ct a b).
Proof. unfold hypotheticalLiquidity. keeps_tac. Qed.
Lemma keeps_erc20BalanceOf client token owner : keeps effects (erc20BalanceOf client token owner).
Proof. unfold erc20BalanceOf. keeps_tac. Qed.
#[local] Hint Resolve keeps_opCommon keeps_price_via keeps_finishOp keeps_what_if keeps_erc20BalanceOf : keeps.

Lemma keeps_run_lendora ctx o : keeps effects (run_lendora ctx o).
Proof.
  destruct o; cbn [run_lendora]; unfold LendoraBuildSupplyTx, LendoraBuildWithdrawTx, LendoraBuildBorrowTx,
    LendoraBuildRepayTx, LendoraBuildCollateralTx; keeps_tac.
Qed.

End Run.
#[export] Hint Resolve keeps_erc20BalanceOf keeps_run_lendora : keeps.

(** ** The guardrail *)

Section Guardrail.
Context {RL : RateLib} {E : Env} {N : EVMEnv} {Q : QueryEnv} {L : ChainLib} {D : DecLib} {A : DecArith} {B : ABILib}.
Context {U : Unicode} {AL : DecArithLaws A} {CL : ComptrollerLaws B} (d : EVMDeps).

Lemma UnpackAccountLiquidity_nonneg m out al :
  UnpackAccountLiquidity m out = Ok al -> 0 <= al_Liquidity al /\ 0 <= al_Shortfall al.
Proof.
  unfold UnpackAccountLiquidity. destruct (abi_Unpack _ _ out) as [vs|] eqn:Eu; [|done]. cbn [wrap mbind result_bind].
  destruct vs as [|v0 [|v1 [|v2 [|]]]]; try done. destruct v0; try done. destruct v1; try done. destruct v2; try done.
  cbn [to_big]. intros [_ H]%bind_check_ok. injection H as <-. cbn. split; eapply comptroller_uint; [done|set_solver|done|set_solver].
Qed.

(** A projection that covers the debt is not critical, and its health factor is
    at least one. *)
Lemma projectHF_covered c b hf level emoji warn :
  b <= c -> projectHF c b = Ok (hf, level, emoji, warn) ->
  level <> "Critical"%string /\ (0 < b -> exists h, dec_ratio c b = Ok h /\ hfBlock <= h).
Proof.
  intros Hc. unfold projectHF. destruct (Z.leb_spec (Z.sgn b) 0).
  { intros [= <- <- <- <-]. split; [done|lia]. }
  destruct (dec_ratio c b) as [h|] eqn:Eh; [|done]. cbn [mbind result_bind].
  destruct (Z.ltb_spec c b); [lia|]. unfold riskBand. cbn [negb Z.sgn Z.ltb Z.compare]. unfold LegacyMustNewDecFromStr.
  destruct (LegacyNewDecFromStr hfHighUpper) as [hi|]; [|done]. cbn [mbind result_bind].
  destruct (LegacyNewDecFromStr hfMediumUpper) as [me|]; [|done]. cbn [mbind result_bind].
  intros Hp. split.
  - destruct (h <? hi), (h <? me); cbn [mbind result_bind fst snd] in Hp; unfold hfWarn, LegacyMustNewDecFromStr in Hp;
      destruct (LegacyNewDecFromStr "1.2") as [w|]; cbn [mbind result_bind] in Hp; try done; by injection Hp as <- <- <- <-.
  - intros Hb. exists h. split; [done|]. apply dec_ratio_near in Eh; [|done]. unfold hfBlock.
    assert (0 < dec_one) by done. nia.
Qed.

Lemma simulation_inv action asset amount r c b sim :
  simulation action asset amount r c b = Ok sim ->
  exists hf emoji warn, projectHF c b = Ok (hf, ls_ProjectedRiskLevel sim, emoji, warn).
Proof.
  unfold simulation. destruct (projectHF c b) as [[[[hf level] emoji] warn]|]; [|done]. cbn [mbind result_bind].
  intros [= <-]. by exists hf, emoji, warn.
Qed.

Lemma hypothetical_nonneg client comp owner ct a b s liq short s' :
  hypotheticalLiquidity client comp owner ct a b s = (Ok (liq, short), s') -> 0 <= liq /\ 0 <= short.
Proof.
  intros H. unfold hypotheticalLiquidity in H. l_inv H as data Hd. m_inv H as out s1 H1. l_inv H as al Ha.
  injection H as <- <- _. by eapply UnpackAccountLiquidity_nonneg.
Qed.

Lemma finishOp_sim asm bech to data cid tool desc sim s out s' :
  finishOp asm bech to data cid tool desc sim s = (Ok out, s') -> lt_Simulation out = sim.
Proof. intros H. unfold finishOp in H. m_inv H as p s1 H1. by injection H as <- _. Qed.

Lemma withdraw_not_critical ctx i s out s' :
  LendoraBuildWithdrawTx d ctx i s = (Ok out, s') -> ls_ProjectedRiskLevel (lt_Simulation out) <> "Critical"%string.
Proof.
  intros H. unfold LendoraBuildWithdrawTx in H. m_inv H as c s1 H1. destruct c as [[[[[[cl asm] comp] ow] bech] m] r].
  m_inv H as call s2 H2. destruct call as [data redeem]. m_inv H as ls s3 H3. destruct ls as [liq short].
  apply hypothetical_nonneg in H3 as [Hliq Hsh]. l_inv H as u Hu. apply check_ok_inv in Hu. rewrite sgn_pos in Hu.
  apply Z.ltb_ge in Hu. l_inv H as sim Hs. apply finishOp_sim in H as ->.
  apply simulation_inv in Hs as (hf & em & w & Hs). apply projectHF_covered in Hs as [Hs _]; [done|lia].
Qed.

Lemma borrow_not_critical ctx i s out s' :
  LendoraBuildBorrowTx d ctx i s = (Ok out, s') -> ls_ProjectedRiskLevel (lt_Simulation out) <> "Critical"%string.
Proof.
  intros H. unfold LendoraBuildBorrowTx in H. m_inv H as c s1 H1. destruct c as [[[[[[cl asm] comp] ow] bech] m] r].
  l_inv H as n Hn. m_inv H as ls s3 H3. destruct ls as [liq short].
  apply hypothetical_nonneg in H3 as [Hliq Hsh]. l_inv H as u Hu. apply check_ok_inv in Hu. rewrite sgn_pos in Hu.
  apply Z.ltb_ge in Hu. m_inv H as price s4 H4. l_inv H as sim Hs. l_inv H as data Hd. apply finishOp_sim in H as ->.
  apply simulation_inv in Hs as (hf & em & w & Hs). apply projectHF_covered in Hs as [Hs _]; [done|lia].
Qed.

End Guardrail.

(** ** Claims *)

Abbreviation demo_run_lendora o :=
  (run_lendora (RL := demo_rate) (E := demo_still) (N := demo_lend_net) (Q := demo_queries) (L := demo_lib) (D := demo_dec)
    (A := demo_arith) (B := demo_lend_abi) (U := unicode_id) demo_lend_deps demo_ctx o demo_lend_srv).

Definition demo_supply : lendora_op := OSupply (mkLendoraSupplyInput "usdc" "100.5" "c1").
Definition demo_borrow : lendora_op := OBorrow (mkLendoraBorrowInput "SVP" "1" "c2").

Definition demo_outcome (r : result LendoraTxOutput) : option (bool * bool) :=
  match r with
  | Ok out => Some (bool_decide (is_Some (lt_Payload out)), bool_decide (is_Some (lt_ApprovalRequired out)))
  | Err _ => None
  end.

Example demo_lendora_outcomes :
  demo_outcome (fst (demo_run_lendora demo_supply)) = Some (false, true)
  /\ demo_outcome (fst (demo_run_lendora demo_borrow)) = Some (true, false).
Proof. split; vm_compute; reflexivity. Qed.

(** C26: an operation on the money markets does what was asked, for the caller.
    Whatever any of the five tools returns is for a tenant resolved from the
    request and for the market the asset denotes (the cached one of that name or
    address, or the one read from the address); a payload calls, from the
    owner's own address and without native value, that market's cToken with the
    method and the exact amount asked for (for collateral, the Comptroller with
    that market); a full withdrawal redeems the whole cToken balance and a
    repayment that covers the debt encodes the greatest integer; a supply or a
    repayment is built only for a token market and only when the allowance of
    the cToken covers what will be pulled, and otherwise returns the approval to
    make; a withdrawal or borrow is built only when the Comptroller answered
    that exact what-if question with no shortfall; disabling collateral in a
    cached market is built only when the account is idle there, or has no debt in
    it and the remaining collateral covers its debts (a market outside the
    cache, read from its address, is not checked; see
    [disable_unchecked_outside_cache]).  Nothing is sent and no book changes. *)
Theorem lendora_op_faithful {RL : RateLib} {E : Env} {N : EVMEnv} {Q : QueryEnv} {L : ChainLib} {D : DecLib} {A : DecArith}
    {AL : DecArithLaws A} {B : ABILib} {BL : ABILaws B} {U : Unicode} (d : EVMDeps) (ctx : context) (o : lendora_op)
    (s : srv) (out : LendoraTxOutput) (s' : srv) (H : run_lendora d ctx o s = (Ok out, s')) :
  op_spec d ctx o s out /\ effects s' = effects s.
Proof.
  split; [by eapply run_lendora_inv|]. pose proof (keeps_run_lendora d ctx o s) as Hk. by rewrite H in Hk.
Qed.

Lemma lendora_op_faithful_witness :
  exists out s', demo_run_lendora demo_borrow = (Ok out, s') /\ is_Some (lt_Payload out)
  /\ effects s' = effects demo_lend_srv.
Proof.
  pose proof (proj2 demo_lendora_outcomes) as Hv.
  destruct (demo_run_lendora demo_borrow) as [[out|e] s'] eqn:Er; cbn [fst demo_outcome] in Hv; [|discriminate].
  exists out, s'. split; [reflexivity|].
  destruct (lendora_op_faithful (RL := demo_rate) (E := demo_still) (N := demo_lend_net) (Q := demo_queries) (L := demo_lib)
    (D := demo_dec) (A := demo_arith) (AL := demo_arith_laws) (B := demo_lend_abi) (BL := demo_lend_abi_laws)
    (U := unicode_id) demo_lend_deps demo_ctx demo_borrow demo_lend_srv out s' Er) as [_ He].
  split; [|exact He]. injection Hv as Hp _. by apply bool_decide_eq_true in Hp.
Defined.

(** The guardrail holds.  A withdrawal or a borrow that is built never
    projects a Critical position: the Comptroller's numbers being unsigned, the
    projected collateral covers the projected debt. *)
Theorem lendora_guardrail {RL : RateLib} {E : Env} {N : EVMEnv} {Q : QueryEnv} {L : ChainLib} {D : DecLib} {A : DecArith}
    {AL : DecArithLaws A} {B : ABILib} {CL : ComptrollerLaws B} {U : Unicode} (d : EVMDeps) (ctx : context)
    (o : lendora_op) (s : srv) (out : LendoraTxOutput) (s' : srv)
    (Ho : match o with OWithdraw _ | OBorrow _ => True | _ => False end)
    (H : run_lendora d ctx o s = (Ok out, s')) :
  ls_ProjectedRiskLevel (lt_Simulation out) <> "Critical"%string.
Proof.
  destruct o; cbn [run_lendora] in *; try done; [by eapply withdraw_not_critical|by eapply borrow_not_critical].
Qed.

Lemma demo_comptroller_laws : ComptrollerLaws demo_lend_abi.
Proof.
  assert (forall d n, n ∈ demo_nums d -> 0 <= n) as Hn.
  { intros d n Hi. unfold demo_nums in Hi. apply list_elem_of_fmap in Hi as (w & -> & _). apply SetBytes_nonneg. }
  constructor. intros m data out v. cbn [abi_Unpack demo_lend_abi]. intros H Hin. pose proof (Hn data) as Hd.
  repeat case_match; simplify_eq; rewrite ?elem_of_cons, ?elem_of_nil in Hin; try naive_solver.
  all: try (apply list_elem_of_fmap in Hin as (n & [= <-] & Hin); by apply Hd).
  destruct Hin as [|[[= ->]|[|[]]]]; try done. apply Hd. set_solver.
Qed.

Lemma lendora_guardrail_witness :
  exists out s', demo_run_lendora demo_borrow = (Ok out, s')
  /\ ls_ProjectedRiskLevel (lt_Simulation out) <> "Critical"%string.
Proof.
  pose proof (proj2 demo_lendora_outcomes) as Hv.
  destruct (demo_run_lendora demo_borrow) as [[out|e] s'] eqn:Er; cbn [fst demo_outcome] in Hv; [|discriminate].
  exists out, s'. split; [reflexivity|].
  exact (lendora_guardrail (RL := demo_rate) (E := demo_still) (N := demo_lend_net) (Q := demo_queries) (L := demo_lib)
    (D := demo_dec) (A := demo_arith) (AL := demo_arith_laws) (B := demo_lend_abi) (CL := demo_comptroller_laws)
    (U := unicode_id) demo_lend_deps demo_ctx demo_borrow demo_lend_srv out s' I Er).
Defined.

(** ** Outside the cache

    The guard on disabling collateral looks the market up among the positions,
    which cover the cached markets only: for a market that is read from its
    address the outstanding debt and the remaining collateral are not checked. *)

(** The third market answers after all, and the account's collateral is there. *)
Definition demo_late (to : Address) (data : bytes) : result bytes :=
  if lendora.demo_is "getAccountLiquidity" data then Ok (List.concat (map lendora.demo_num [0; 0; 0]))
  else if lendora.demo_is "getAssetsIn" data then Ok (abi_addr (lendora.demo_addr 13))
  else if lendora.demo_is "getAccountSnapshot" data then
    Ok (List.concat (map lendora.demo_num
      (if addr_eqb to (lendora.demo_addr 11) then [0; 0; 3000000; 20000000000000000]
       else if addr_eqb to (lendora.demo_addr 13) then [0; 100000000000; 0; 20000000000000000] else [0; 0; 0; e18])))
  else if lendora.demo_is "symbol" data then Ok (chars (if addr_eqb to (lendora.demo_addr 13) then "cWBTC" else "WBTC"))
  else if lendora.demo_is "underlying" data then Ok (abi_addr (lendora.demo_addr 23))
  else if bool_decide (data = map chr [1; 2; 3; 4]) then Ok (lendora.demo_num 6)
  else demo_account to data.

Definition demo_late_net : EVMEnv := {|
  env_client := fun _ _ => demo_evm; env_call := fun _ _ to data => demo_late to data |}.

Definition demo_disable : lendora_op :=
  OCollateral (mkLendoraCollateralInput "0x000000000000000000000000000000000000000d" "disable" "c3").

Definition demo_run_late (c : lendora.Cache) : result LendoraTxOutput :=
  fst (run_lendora (RL := demo_rate) (E := demo_still) (N := demo_late_net) (Q := demo_queries) (L := demo_lib) (D := demo_dec)
    (A := demo_arith) (B := demo_lend_abi) (U := unicode_id) demo_lend_deps demo_ctx demo_disable (set_lendora c demo_live)).

(** The cache after the next refresh. *)
Definition demo_late_cache : lendora.Cache :=
  let c := lendora.demo_refreshed in
  let m := lendora.mkMarket "WBTC" (lendora.demo_addr 13) (lendora.demo_addr 23) 6 6 false in
  lendora.mkCache (lendora.client c) (lendora.lend c) (lendora.refreshEvery c)
    (lendora.index_market (L := demo_lib) (U := unicode_id) (lendora.byKey c) (lendora.demo_addr 13) m)
    (lendora.ordered c ++ [m]) (lendora.oracle c) true.

Theorem disable_unchecked_outside_cache :
  demo_run_late demo_late_cache
  = Err (userErrf "disabling %s as collateral would make your position undercollateralized (health factor below 1.0) — repay debt or disable a different market"
           [FStr "WBTC"])
  /\ demo_outcome (demo_run_late lendora.demo_refreshed) = Some (true, false).
Proof. split; vm_compute; reflexivity. Qed.
