(* ===== verification/LendoraRead.v ===== *)
(** * The query tools of the money markets (tools/lendora_read.go)

    Market data, the views of an account and the risk report.  An account view
    is only ever of the caller's own account. *)

From S2P Require Import Prelude GoStrings GoNum GoTime GoEncoding Limits TransferOut NonceStore IPRateLimiter.
From S2P Require Import SessionBearers DynamicTenants Policy Markets Units ChainLib Payload Assembler Assets.
From S2P Require Import TxInspect EVMBuilder BridgeRegistry ABI LendoraABI LendoraCache Server AuthTools Broadcast.
From S2P Require Import Tools LendoraFormat EVMTools SwapTools LendoraRisk LendoraOps.

Record marketStats : Type := mkMarketStats {
  ms_Symbol : string;
  ms_CToken : Address;
  ms_Underlying : Address;
  ms_UnderlyingDecimals : Z;
  ms_IsCEther : bool;
  ms_SupplyAPY : Z;
  ms_BorrowAPY : Z;
  ms_TotalSupplyUnderlying : Z;
  ms_TotalBorrowUnderlying : Z;
  ms_CashUnderlying : Z;
  ms_ReservesUnderlying : Z;
  ms_Utilization : Z;
  ms_CollateralFactor : Z;
  ms_ReserveFactor : Z;
  ms_MintPaused : bool;
  ms_BorrowPaused : bool;
  ms_FeedOK : bool;
  ms_SupplyUSD : Z;
  ms_BorrowUSD : Z;
}.

Record MarketDTO : Type := mkMarketDTO {
  md_Symbol : string; md_CToken : string; md_Underlying : string; md_SupplyAPY : string; md_BorrowAPY : string;
  md_TotalSupply : string; md_TotalBorrow : string; md_TotalSupplyUSD : string; md_TotalBorrowUSD : string;
  md_Utilization : string; md_CollateralFactor : string; md_MintPaused : bool; md_BorrowPaused : bool; md_IsNative : bool }.

Record LendoraGetAllMarketsOutput : Type := mkGetAllMarketsOutput { gm_BlockNumber : Z; gm_Markets : list MarketDTO }.

Record LendoraGetMarketDetailsOutput : Type := mkGetMarketDetailsOutput {
  gd_BlockNumber : Z; gd_Market : MarketDTO; gd_Cash : string; gd_Reserves : string; gd_ReserveFactor : string;
  gd_CloseFactor : string; gd_LiquidationIncentive : string; gd_BorrowCap : string }.

Record LendoraGetProtocolDashboardOutput : Type := mkGetProtocolDashboardOutput {
  gp_BlockNumber : Z; gp_MarketCount : Z; gp_TotalSupplyUSD : string; gp_TotalBorrowUSD : string;
  gp_TotalLiquidityUSD : string }.

Record PositionDTO : Type := mkPositionDTO {
  pd_Symbol : string; pd_CToken : string; pd_Supplied : string; pd_Borrowed : string; pd_SuppliedUSD : string;
  pd_BorrowedUSD : string; pd_CollateralEnabled : bool; pd_IsNative : bool }.

Record LendoraGetAccountSummaryOutput : Type := mkGetAccountSummaryOutput {
  gs_BlockNumber : Z; gs_Owner : string; gs_TotalSuppliedUSD : string; gs_TotalBorrowedUSD : string;
  gs_HealthFactor : string; gs_RiskLevel : string; gs_RiskEmoji : string; gs_MaxBorrowableUSD : string;
  gs_MarketsWithPosition : Z }.

Record LendoraGetAccountPositionsOutput : Type := mkGetAccountPositionsOutput {
  ga_BlockNumber : Z; ga_Owner : string; ga_Positions : list PositionDTO }.

Record WalletBalanceDTO : Type := mkWalletBalanceDTO {
  wb_Symbol : string; wb_Wallet : string; wb_Supplied : string; wb_WalletUSD : string }.

Record LendoraGetBalancesOutput : Type := mkGetBalancesOutput {
  gb_BlockNumber : Z; gb_Owner : string; gb_GasToken : string; gb_Balances : list WalletBalanceDTO }.

Record LendoraAssessRiskOutput : Type := mkAssessRiskOutput {
  gr_BlockNumber : Z; gr_Owner : string; gr_HealthFactor : string; gr_RiskLevel : string; gr_RiskEmoji : string;
  gr_HasDebt : bool; gr_TotalSuppliedUSD : string; gr_TotalBorrowedUSD : string; gr_MaxBorrowableUSD : string;
  gr_Shortfall : bool; gr_Positions : list PositionDTO }.

(** The loops over markets and positions that build a slice. *)
Fixpoint collect {S X Y} (f : X -> M S Y) (l : list X) : M S (list Y) :=
  match l with
  | [] => mret []
  | x :: l' => y ← f x; rest ← collect f l'; mret (y :: rest)
  end.

Section Rows.
Context {L : ChainLib} {D : DecLib} {A : DecArith}.

(** [humanAmount(math.NewIntFromBigInt(x), dec)] *)
Definition human (x dec : Z) : result string := i ← NewIntFromBigInt x; Ok (humanAmount i dec).

(** A dollar figure that is left empty without a feed. *)
Definition usd_if (ok : bool) (v : Z) : result string := if ok then formatUSD v else Ok EmptyString.

Definition marketDTO (st : marketStats) : result MarketDTO :=
  sa ← formatPercent (ms_SupplyAPY st);
  ba ← formatPercent (ms_BorrowAPY st);
  ts ← human (ms_TotalSupplyUnderlying st) (ms_UnderlyingDecimals st);
  tb ← human (ms_TotalBorrowUnderlying st) (ms_UnderlyingDecimals st);
  ut ← formatPercent (ms_Utilization st);
  cf ← formatPercent (ms_CollateralFactor st);
  su ← usd_if (ms_FeedOK st) (ms_SupplyUSD st);
  bu ← usd_if (ms_FeedOK st) (ms_BorrowUSD st);
  Ok (mkMarketDTO (ms_Symbol st) (Address_Hex (ms_CToken st)) (Address_Hex (ms_Underlying st)) sa ba ts tb su bu ut cf
        (ms_MintPaused st) (ms_BorrowPaused st) (ms_IsCEther st)).

Definition positionDTO (p : marketPosition) : result PositionDTO :=
  s ← human (mp_SuppliedUnderlying p) (mp_UnderlyingDecimals p);
  b ← human (mp_BorrowedUnderlying p) (mp_UnderlyingDecimals p);
  su ← usd_if (mp_FeedOK p) (mp_SuppliedUSD p);
  bu ← usd_if (mp_FeedOK p) (mp_BorrowedUSD p);
  Ok (mkPositionDTO (mp_Symbol p) (Address_Hex (mp_CToken p)) s b su bu (mp_CollateralEnabled p) (mp_IsCEther p)).

Fixpoint positionDTOs (l : list marketPosition) : result (list PositionDTO) :=
  match l with
  | [] => Ok []
  | p :: l' => r ← positionDTO p; rest ← positionDTOs l'; Ok (r :: rest)
  end.

(** What the market holds for its suppliers: cash plus loans less reserves, not
    below zero. *)
Definition total_supply (cash borrows reserves : Z) : Z :=
  let supply := cash + borrows - reserves in if Z.sgn supply <? 0 then 0 else supply.

End Rows.

Section Tools.
Context {RL : RateLib} {E : Env} {N : EVMEnv} {Q : QueryEnv} {L : ChainLib} {D : DecLib} {A : DecArith} {B : ABILib}.
Context {U : Unicode} (d : EVMDeps).

Section Market.
Context (client : Z) (comp : Address).

Definition marketBlocksPerYear (cToken : Address) : M srv Z :=
  modelData ← lift PackInterestRateModel;
  modelOut ← wrapM (fun e => Errorf "read interestRateModel for %s: %w" [FStr (Address_Hex cToken); FErr e])
               (evmCallOn client cToken modelData);
  model ← lift (UnpackInterestRateModel modelOut);
  bpyData ← lift PackBlocksPerYear;
  bpyOut ← wrapM (fun e => Errorf "read blocksPerYear for model %s: %w" [FStr (Address_Hex model); FErr e])
             (evmCallOn client model bpyData);
  lift (UnpackBlocksPerYear bpyOut).

Definition comptrollerBool (pack : Address -> result bytes) (method : string) (cToken : Address) : M srv bool :=
  data ← lift (pack cToken);
  out ← evmCallOn client comp data;
  lift (UnpackComptrollerBool method out).

Definition comptrollerUint (pack : result bytes) (method : string) : M srv Z :=
  data ← lift pack;
  out ← evmCallOn client comp data;
  lift (UnpackComptrollerUint method out).

(** [v, _ := ...] of a flag. *)
Definition flag (m : M srv bool) : M srv bool := r ← lendora.try m; mret (match r with Ok b => b | Err _ => false end).

Definition loadMarketStats (oracle : Address) (m : lendora.Market) : M srv marketStats :=
  let ct := lendora.CToken m in
  cash ← cTokenUint client ct PackGetCash "getCash";
  borrows ← cTokenUint client ct PackTotalBorrows "totalBorrows";
  reserves ← cTokenUint client ct PackTotalReserves "totalReserves";
  let supply := total_supply cash borrows reserves in
  utilization ← lift (if 0 <? Z.sgn supply then dec_ratio borrows supply else Ok 0);
  supplyRate ← cTokenUint client ct PackSupplyRatePerBlock "supplyRatePerBlock";
  borrowRate ← cTokenUint client ct PackBorrowRatePerBlock "borrowRatePerBlock";
  blocksPerYear ← marketBlocksPerYear ct;
  supplyAPY ← lift (apyFromRatePerBlock (Some supplyRate) (Some blocksPerYear));
  borrowAPY ← lift (apyFromRatePerBlock (Some borrowRate) (Some blocksPerYear));
  cf ← cTokenCollateralFactor client comp ct;
  collateralFactor ← lift (decFromMantissa (Some cf));
  rf ← lendora.try (cTokenUint client ct PackReserveFactorMantissa "reserveFactorMantissa");
  reserveFactor ← lift (match rf with Ok v => decFromMantissa (Some v) | Err _ => Ok 0 end);
  mintPaused ← flag (comptrollerBool PackMintGuardianPaused "mintGuardianPaused" ct);
  borrowPaused ← flag (comptrollerBool PackBorrowGuardianPaused "borrowGuardianPaused" ct);
  feed ← underlyingUsdPrice client oracle ct;
  usd ← lift (match feed with
              | None => Ok (0, 0)
              | Some (answer, feedDec) =>
                  s ← usdFromFeed (Some supply) (lendora.UnderlyingDecimals m) (Some answer) feedDec;
                  b ← usdFromFeed (Some borrows) (lendora.UnderlyingDecimals m) (Some answer) feedDec;
                  Ok (s, b)
              end);
  mret {| ms_Symbol := lendora.Symbol m; ms_CToken := ct; ms_Underlying := lendora.Underlying m;
          ms_UnderlyingDecimals := lendora.UnderlyingDecimals m; ms_IsCEther := lendora.IsCEther m;
          ms_SupplyAPY := supplyAPY; ms_BorrowAPY := borrowAPY;
          ms_TotalSupplyUnderlying := supply; ms_TotalBorrowUnderlying := borrows;
          ms_CashUnderlying := cash; ms_ReservesUnderlying := reserves;
          ms_Utilization := utilization; ms_CollateralFactor := collateralFactor; ms_ReserveFactor := reserveFactor;
          ms_MintPaused := mintPaused; ms_BorrowPaused := borrowPaused;
          ms_FeedOK := bool_decide (is_Some feed); ms_SupplyUSD := fst usd; ms_BorrowUSD := snd usd |}.

Definition marketUSD (oracle : Address) (m : lendora.Market) : M srv (Z * Z) :=
  let ct := lendora.CToken m in
  cash ← cTokenUint client ct PackGetCash "getCash";
  borrows ← cTokenUint client ct PackTotalBorrows "totalBorrows";
  reserves ← cTokenUint client ct PackTotalReserves "totalReserves";
  let supply := total_supply cash borrows reserves in
  feed ← underlyingUsdPrice client oracle ct;
  lift (match feed with
        | None => Ok (0, 0)
        | Some (answer, feedDec) =>
            s ← usdFromFeed (Some supply) (lendora.UnderlyingDecimals m) (Some answer) feedDec;
            b ← usdFromFeed (Some borrows) (lendora.UnderlyingDecimals m) (Some answer) feedDec;
            Ok (s, b)
        end).

(** The sums over the markets. *)
Fixpoint dashboard_loop (oracle : Address) (l : list lendora.Market) (supplyUSD borrowUSD : Z) : M srv (Z * Z) :=
  match l with
  | [] => mret (supplyUSD, borrowUSD)
  | m :: l' =>
      sb ← marketUSD oracle m;
      supply ← lift (dec_Add supplyUSD (fst sb));
      borrow ← lift (dec_Add borrowUSD (snd sb));
      dashboard_loop oracle l' supply borrow
  end.

(** The native balance in the bank, best effort. *)
Definition nativeGasBalance (owner : string) : M srv string :=
  match env_balances with
  | None => mret "0"%string
  | Some AllBalances =>
      n ← tick;
      match AllBalances n owner with
      | Err _ => mret "0"%string
      | Ok coins =>
          match List.find (fun c => String.eqb (coin_Denom c) "asvp") coins with
          | None => mret "0"%string
          | Some c => a ← lift (from_opt (coin_Amount c) (Panic "nil Int")); mret (humanAmount a 18)
          end
      end
  end.

(** The body of the balances loop: [None] is [continue]. *)
Definition balance_row (oracle ownerEth : Address) (m : lendora.Market) : M srv (option WalletBalanceDTO) :=
  if lendora.IsCEther m then mret None
  else
    walletBal ← erc20BalanceOf client (lendora.Underlying m) ownerEth;
    cBalData ← lift (PackCTokenBalanceOf ownerEth);
    cBalOut ← evmCallOn client (lendora.CToken m) cBalData;
    cBal ← lift (UnpackCTokenBalanceOf cBalOut);
    if (Z.sgn walletBal =? 0) && (Z.sgn cBal =? 0) then mret None
    else
      supplied ← (if 0 <? Z.sgn cBal then
                    exRate ← cTokenUint client (lendora.CToken m) PackExchangeRateStored "exchangeRateStored";
                    mret (big_Div (cBal * exRate) e18)
                  else mret 0);
      wallet ← lift (human walletBal (lendora.UnderlyingDecimals m));
      sup ← lift (human supplied (lendora.UnderlyingDecimals m));
      feed ← lendora.try (underlyingUsdPrice client oracle (lendora.CToken m));
      usd ← lift (match feed with
                  | Ok (Some (answer, feedDec)) =>
                      v ← usdFromFeed (Some walletBal) (lendora.UnderlyingDecimals m) (Some answer) feedDec; formatUSD v
                  | _ => Ok EmptyString
                  end);
      mret (Some (mkWalletBalanceDTO (lendora.Symbol m) wallet sup usd)).

End Market.

Definition LendoraGetAllMarkets (ctx : context) : M srv LendoraGetAllMarketsOutput :=
  _ ← authorize ctx "lendora_get_all_markets";
  lend ← lift (requireLendora d);
  let '(client, _, comp) := lend in
  oracle ← lendoraOracle client comp;
  block ← evmBlockNumber client;
  c ← get s_lendora;
  rows ← collect (fun m => st ← loadMarketStats client comp oracle m; lift (marketDTO st)) (lendora.All c);
  mret (mkGetAllMarketsOutput block rows).

Definition LendoraGetMarketDetails (ctx : context) (asset : string) : M srv LendoraGetMarketDetailsOutput :=
  _ ← authorize ctx "lendora_get_market_details";
  lend ← lift (requireLendora d);
  let '(client, _, comp) := lend in
  m ← resolveAsset asset;
  oracle ← lendoraOracle client comp;
  st ← loadMarketStats client comp oracle m;
  closeFactor ← comptrollerUint client comp PackCloseFactorMantissa "closeFactorMantissa";
  liqIncentive ← comptrollerUint client comp PackLiquidationIncentiveMantissa "liquidationIncentiveMantissa";
  capData ← lift (PackBorrowCaps (lendora.CToken m));
  capOut ← evmCallOn client comp capData;
  borrowCap ← lift (UnpackComptrollerUint "borrowCaps" capOut);
  block ← evmBlockNumber client;
  row ← lift (marketDTO st);
  cash ← lift (human (ms_CashUnderlying st) (ms_UnderlyingDecimals st));
  reserves ← lift (human (ms_ReservesUnderlying st) (ms_UnderlyingDecimals st));
  rf ← lift (formatPercent (ms_ReserveFactor st));
  cl ← lift (v ← decFromMantissa (Some closeFactor); formatPercent v);
  li ← lift (v ← decFromMantissa (Some liqIncentive); formatPercent v);
  cap ← lift (human borrowCap (lendora.UnderlyingDecimals m));
  mret (mkGetMarketDetailsOutput block row cash reserves rf cl li cap).

Definition LendoraGetProtocolDashboard (ctx : context) : M srv LendoraGetProtocolDashboardOutput :=
  _ ← authorize ctx "lendora_get_protocol_dashboard";
  lend ← lift (requireLendora d);
  let '(client, _, comp) := lend in
  oracle ← lendoraOracle client comp;
  c ← get s_lendora;
  sums ← dashboard_loop client oracle (lendora.All c) 0 0;
  let '(supplyUSD, borrowUSD) := sums in
  block ← evmBlockNumber client;
  s ← lift (formatUSD supplyUSD);
  b ← lift (formatUSD borrowUSD);
  l ← lift (v ← dec_Sub supplyUSD borrowUSD; formatUSD v);
  mret (mkGetProtocolDashboardOutput block (Z.of_nat (List.length (lendora.All c))) s b l).

Definition LendoraGetAccountSummary (ctx : context) (address : string) : M srv LendoraGetAccountSummaryOutput :=
  o ← lendoraOwner ctx "lendora_get_account_summary" address;
  let '(_, owner, ownerEth) := o in
  lend ← lift (requireLendora d);
  let '(client, _, comp) := lend in
  r ← computeRisk client comp ownerEth;
  ts ← lift (formatUSD (rr_TotalSuppliedUSD r));
  tb ← lift (formatUSD (rr_TotalBorrowedUSD r));
  mb ← lift (usd_if (rr_MaxBorrowableOK r) (rr_MaxBorrowableUSD r));
  mret (mkGetAccountSummaryOutput (rr_BlockNumber r) owner ts tb (healthFactorString r) (rr_RiskLevel r) (rr_RiskEmoji r)
          mb (Z.of_nat (List.length (rr_Positions r)))).

Definition LendoraGetAccountPositions (ctx : context) (address : string) : M srv LendoraGetAccountPositionsOutput :=
  o ← lendoraOwner ctx "lendora_get_account_positions" address;
  let '(_, owner, ownerEth) := o in
  lend ← lift (requireLendora d);
  let '(client, _, comp) := lend in
  r ← computeRisk client comp ownerEth;
  rows ← lift (positionDTOs (rr_Positions r));
  mret (mkGetAccountPositionsOutput (rr_BlockNumber r) owner rows).

Definition LendoraGetBalances (ctx : context) (address : string) : M srv LendoraGetBalancesOutput :=
  o ← lendoraOwner ctx "lendora_get_balances" address;
  let '(_, owner, ownerEth) := o in
  lend ← lift (requireLendora d);
  let '(client, _, comp) := lend in
  oracle ← lendoraOracle client comp;
  block ← evmBlockNumber client;
  gas ← nativeGasBalance owner;
  c ← get s_lendora;
  n ← tick;
  rows ← collect (balance_row client oracle ownerEth) (env_sort n (lendora.All c));
  mret (mkGetBalancesOutput block owner gas (omap id rows)).

Definition LendoraAssessRisk (ctx : context) (address : string) : M srv LendoraAssessRiskOutput :=
  o ← lendoraOwner ctx "lendora_assess_risk" address;
  let '(_, owner, ownerEth) := o in
  lend ← lift (requireLendora d);
  let '(client, _, comp) := lend in
  r ← computeRisk client comp ownerEth;
  ts ← lift (formatUSD (rr_TotalSuppliedUSD r));
  tb ← lift (formatUSD (rr_TotalBorrowedUSD r));
  mb ← lift (usd_if (rr_MaxBorrowableOK r) (rr_MaxBorrowableUSD r));
  rows ← lift (positionDTOs (rr_Positions r));
  mret (mkAssessRiskOutput (rr_BlockNumber r) owner (healthFactorString r) (rr_RiskLevel r) (rr_RiskEmoji r)
          (rr_HasDebt r) ts tb mb (0 <? Z.sgn (rr_ShortfallNat r)) rows).

End Tools.

(** ** Whose account is shown *)

Inductive account_view : Type :=
| VSummary (address : string) | VPositions (address : string) | VBalances (address : string) | VRisk (address : string).

Inductive view_output : Type :=
| OutSummary (o : LendoraGetAccountSummaryOutput)
| OutPositions (o : LendoraGetAccountPositionsOutput)
| OutBalances (o : LendoraGetBalancesOutput)
| OutRisk (o : LendoraAssessRiskOutput).

Definition view_owner (o : view_output) : string :=
  match o with
  | OutSummary o => gs_Owner o | OutPositions o => ga_Owner o | OutBalances o => gb_Owner o | OutRisk o => gr_Owner o
  end.

Section Views.
Context {RL : RateLib} {E : Env} {N : EVMEnv} {Q : QueryEnv} {L : ChainLib} {D : DecLib} {A : DecArith} {B : ABILib}.
Context {U : Unicode} (d : EVMDeps).

Definition run_view (ctx : context) (v : account_view) : M srv view_output :=
  match v with
  | VSummary a => o ← LendoraGetAccountSummary d ctx a; mret (OutSummary o)
  | VPositions a => o ← LendoraGetAccountPositions d ctx a; mret (OutPositions o)
  | VBalances a => o ← LendoraGetBalances d ctx a; mret (OutBalances o)
  | VRisk a => o ← LendoraAssessRisk d ctx a; mret (OutRisk o)
  end.

(** The figures of a view are those of the risk report. *)
Definition shows (o : view_output) (r : riskResult) : Prop :=
  match o with
  | OutSummary o => formatUSD (rr_TotalSuppliedUSD r) = Ok (gs_TotalSuppliedUSD o)
      /\ formatUSD (rr_TotalBorrowedUSD r) = Ok (gs_TotalBorrowedUSD o) /\ gs_RiskLevel o = rr_RiskLevel r
      /\ gs_MarketsWithPosition o = Z.of_nat (List.length (rr_Positions r))
  | OutPositions o => positionDTOs (rr_Positions r) = Ok (ga_Positions o)
  | OutRisk o => formatUSD (rr_TotalSuppliedUSD r) = Ok (gr_TotalSuppliedUSD o)
      /\ formatUSD (rr_TotalBorrowedUSD r) = Ok (gr_TotalBorrowedUSD o) /\ gr_RiskLevel o = rr_RiskLevel r
      /\ gr_Shortfall o = (0 <? rr_ShortfallNat r) /\ positionDTOs (rr_Positions r) = Ok (gr_Positions o)
  | OutBalances _ => True
  end.

Definition view_spec (ctx : context) (s : srv) (o : view_output) : Prop :=
  exists tp client asm comp eth, authorized ctx tp s /\ view_owner o = tp_Owner tp
  /\ ownerEthAddress (tp_Owner tp) = Ok eth /\ requireLendora d = Ok (client, asm, comp)
  /\ match o with
     | OutBalances _ => True
     | _ => exists r, risk_spec client comp eth (s_lendora s) r /\ shows o r
     end.

Lemma lendoraOwner_inv ctx tool a s tp owner eth s' :
  filed s -> lendoraOwner ctx tool a s = (Ok (tp, owner, eth), s') ->
  authorized ctx tp s /\ owner = tp_Owner tp /\ ownerEthAddress owner = Ok eth /\ s_lendora s' = s_lendora s.
Proof.
  intros Hids H. unfold lendoraOwner in H. m_inv H as tp' s1 H1.
  pose proof (quiet_run _ _ _ _ (quiet_authorize _ _) H1) as Q1. apply authorize_inv in H1 as [Ha S1].
  m_inv H as ow s2 H2. l_inv H as eth' He. injection H as <- <- <- <-.
  assert (ow = tp_Owner tp' /\ s_lendora s2 = s_lendora s1) as [-> Q2].
  { destruct (String.eqb_spec (TrimSpace a) "") as [Ez|Hne]; [by injection H2 as <- <-|].
    m_inv H2 as u s3 H3. injection H2 as <- <-. pose proof H3 as Hq. rewrite policy_eq in Hq. injection Hq as _ <-.
    split; [|done]. apply policy_later in H3 as [Hc _]. destruct (same_stores_engine _ _ S1) as [Ee _]. rewrite Ee in Hc. destruct u.
    apply CheckOwner_ok in Hc as (tp2 & F2 & Hc). by rewrite <- (authorized_again _ _ _ _ _ Hids Ha F2), <- Hc. }
  split_and!; [done..|]. by rewrite Q2, Q1.
Qed.

Context {AL : DecArithLaws A}.

Lemma run_view_inv ctx v s o s' : filed s -> run_view ctx v s = (Ok o, s') -> view_spec ctx s o.
Proof.
  intros Hids H. destruct v as [a|a|a|a]; cbn [run_view] in H; m_inv H as out s1 H1; injection H as <- _.
  - unfold LendoraGetAccountSummary in H1. m_inv H1 as x s2 H2. destruct x as [[tp owner] eth].
    apply lendoraOwner_inv in H2 as (Ha & -> & He & Q2); [|done]. l_inv H1 as lend Hl. destruct lend as [[cl as'] co].
    m_inv H1 as r s3 H3. apply computeRisk_inv in H3. rewrite Q2 in H3. l_inv H1 as ts Hts. l_inv H1 as tb Htb.
    l_inv H1 as mb Hmb. injection H1 as <- _. exists tp, cl, as', co, eth. split_and!; [done..|]. by exists r.
  - unfold LendoraGetAccountPositions in H1. m_inv H1 as x s2 H2. destruct x as [[tp owner] eth].
    apply lendoraOwner_inv in H2 as (Ha & -> & He & Q2); [|done]. l_inv H1 as lend Hl. destruct lend as [[cl as'] co].
    m_inv H1 as r s3 H3. apply computeRisk_inv in H3. rewrite Q2 in H3. l_inv H1 as rows Hr. injection H1 as <- _.
    exists tp, cl, as', co, eth. split_and!; [done..|]. by exists r.
  - unfold LendoraGetBalances in H1. m_inv H1 as x s2 H2. destruct x as [[tp owner] eth].
    apply lendoraOwner_inv in H2 as (Ha & -> & He & Q2); [|done]. l_inv H1 as lend Hl. destruct lend as [[cl as'] co].
    m_inv H1 as orc s3 H3. m_inv H1 as blk s4 H4. m_inv H1 as gas s5 H5. m_inv H1 as c s6 H6. m_inv H1 as n s7 H7.
    m_inv H1 as rows s8 H8. injection H1 as <- _. by exists tp, cl, as', co, eth.
  - unfold LendoraAssessRisk in H1. m_inv H1 as x s2 H2. destruct x as [[tp owner] eth].
    apply lendoraOwner_inv in H2 as (Ha & -> & He & Q2); [|done]. l_inv H1 as lend Hl. destruct lend as [[cl as'] co].
    m_inv H1 as r s3 H3. apply computeRisk_inv in H3. rewrite Q2 in H3. l_inv H1 as ts Hts. l_inv H1 as tb Htb.
    l_inv H1 as mb Hmb. l_inv H1 as rows Hr. injection H1 as <- _. exists tp, cl, as', co, eth. split_and!; [done..|].
    exists r. split; [done|]. cbn. by rewrite sgn_pos.
Qed.

(** ** The reads have no effect *)

Lemma keeps_collect {X Y} (f : X -> M srv Y) l : (forall x, keeps effects (f x)) -> keeps effects (collect f l).
Proof.
  intros Hf. induction l as [|x l IH]; cbn [collect]; [done|].
  apply keeps_bind; [done|]. intros y. apply keeps_bind; [done|]. by intros rest.
Qed.

Lemma keeps_loadMarketStats client comp o m : keeps effects (loadMarketStats client comp o m).
Proof.
  unfold loadMarketStats, marketBlocksPerYear, flag, comptrollerBool.
  repeat first [ apply keeps_try | keeps_step ].
Qed.
Lemma keeps_marketUSD client o m : keeps effects (marketUSD client o m).
Proof. unfold marketUSD. keeps_tac. Qed.
#[local] Hint Resolve keeps_loadMarketStats keeps_marketUSD : keeps.
Lemma keeps_dashboard_loop client o l : forall s b, keeps effects (dashboard_loop client o l s b).
Proof.
  induction l as [|m l IH]; intros s b; cbn [dashboard_loop]; [done|].
  repeat first [ apply IH | keeps_step ].
Qed.
Lemma keeps_balance_row client o eth m : keeps effects (balance_row client o eth m).
Proof. unfold balance_row. repeat first [ apply keeps_try | keeps_step ]. Qed.
Lemma keeps_nativeGasBalance owner : keeps effects (nativeGasBalance owner).
Proof. unfold nativeGasBalance. keeps_tac. Qed.
#[local] Hint Resolve keeps_dashboard_loop keeps_nativeGasBalance : keeps.

Lemma keeps_LendoraGetAllMarkets ctx : keeps effects (LendoraGetAllMarkets d ctx).
Proof.
  unfold LendoraGetAllMarkets. repeat first [ apply keeps_collect; intros ? | keeps_step ].
Qed.
Lemma keeps_LendoraGetMarketDetails ctx a : keeps effects (LendoraGetMarketDetails d ctx a).
Proof. unfold LendoraGetMarketDetails, comptrollerUint. keeps_tac. Qed.
Lemma keeps_LendoraGetProtocolDashboard ctx : keeps effects (LendoraGetProtocolDashboard d ctx).
Proof. unfold LendoraGetProtocolDashboard. keeps_tac. Qed.
Lemma keeps_run_view ctx v : keeps effects (run_view ctx v).
Proof.
  destruct v; cbn [run_view]; unfold LendoraGetAccountSummary, LendoraGetAccountPositions, LendoraGetBalances,
    LendoraAssessRisk; repeat first [ apply keeps_collect; apply keeps_balance_row | keeps_step ].
Qed.

End Views.
#[export] Hint Resolve keeps_LendoraGetAllMarkets keeps_LendoraGetMarketDetails keeps_LendoraGetProtocolDashboard : keeps.
#[export] Hint Resolve keeps_run_view : keeps.

(** ** Claims *)

(** An account view shows the caller's own account.  Whatever address is
    passed to the summary, positions, balances or risk tools, a successful call
    reports the owner of the tenant resolved from the request and nobody else;
    the summary, positions and risk figures are those of the risk report of that
    owner's own address; and the call changes and sends nothing. *)
Theorem lendora_views_own {RL : RateLib} {E : Env} {N : EVMEnv} {Q : QueryEnv} {L : ChainLib} {D : DecLib} {A : DecArith}
    {AL : DecArithLaws A} {B : ABILib} (d : EVMDeps) (ctx : context) (v : account_view) (s : srv) (o : view_output) (s' : srv)
    (Hids : filed s) (H : run_view d ctx v s = (Ok o, s')) :
  view_spec d ctx s o /\ effects s' = effects s.
Proof.
  split; [by eapply run_view_inv|]. pose proof (keeps_run_view d ctx v s) as Hk. by rewrite H in Hk.
Qed.

Lemma demo_filed : filed demo_lend_srv.
Proof.
  intros id t tp H. unfold Tenant, engine, demo_lend_srv, demo_live in H. cbn [perTenant set_lendora s_static] in H.
  destruct (decide (id = "t1"%string)) as [->|Hne]; [by injection H as <-|].
  rewrite lookup_singleton_ne in H by done. vm_compute in H. discriminate.
Qed.

Abbreviation demo_run_view v :=
  (run_view (RL := demo_rate) (E := demo_still) (N := demo_lend_net) (Q := demo_queries) (L := demo_lib) (D := demo_dec)
    (A := demo_arith) (B := demo_lend_abi) demo_lend_deps demo_ctx v demo_lend_srv).

Definition demo_view_owner (r : result view_output) : option string := match r with Ok o => Some (view_owner o) | Err _ => None end.

Example demo_views :
  demo_view_owner (fst (demo_run_view (VRisk ""))) = Some "svp1a"%string
  /\ demo_view_owner (fst (demo_run_view (VBalances " svp1a "))) = Some "svp1a"%string
  /\ demo_view_owner (fst (demo_run_view (VSummary "svp1b"))) = None.
Proof. split_and!; vm_compute; reflexivity. Qed.

Lemma lendora_views_own_witness :
  exists o s', demo_run_view (VRisk "") = (Ok o, s') /\ view_owner o = "svp1a"%string /\ effects s' = effects demo_lend_srv.
Proof.
  pose proof (proj1 demo_views) as Hv. destruct (demo_run_view (VRisk "")) as [[o|e] s'] eqn:Er;
    cbn [fst demo_view_owner] in Hv; [|discriminate].
  exists o, s'. split; [reflexivity|]. injection Hv as Hv. split; [exact Hv|].
  exact (proj2 (lendora_views_own (RL := demo_rate) (E := demo_still) (N := demo_lend_net) (Q := demo_queries) (L := demo_lib)
    (D := demo_dec) (A := demo_arith) (AL := demo_arith_laws) (B := demo_lend_abi) demo_lend_deps demo_ctx (VRisk "")
    demo_lend_srv o s' demo_filed Er)).
Defined.
