(* ===== verification/Config.v ===== *)
(** * Configuration and the wiring of the EVM family
      (cmd/mcp-server/config.go, cmd/mcp-server/wire.go)

    The validation of the server's configuration, and how [BuildServer] turns a
    valid one into the dependencies of the EVM tools and of the broadcast tools.
    Dialling a node and loading the route file are arguments. *)

From S2P Require Import Prelude GoStrings GoPath GoNum GoTime GoDuration GoEncoding Limits TransferOut NonceStore IPRateLimiter.
From S2P Require Import SessionBearers DynamicTenants Policy Markets Units ChainLib Payload Assembler Assets.
From S2P Require Import TxInspect EVMBuilder BridgeRegistry Server AuthTools Broadcast Tools ABI EVMTools BridgeTools.

Record EVMForeignChain : Type := mkEVMForeignChain { cf_ChainID : Z; cf_RPCURL : string; cf_BridgeAddr : string }.

Record FeeConfig : Type := mkFeeConfig { fee_Denom : string; fee_Amount : string; fee_GasLimit : Z }.

(** Caps in whole USDC; zero disables one. *)
Record LimitsConfig : Type := mkLimitsConfig {
  lc_DepositMaxUSDC : Z; lc_WithdrawMaxUSDC : Z; lc_TransferMaxUSDC : Z; lc_DailyWithdrawCapUSDC : Z }.

Record CacheConfig : Type := mkCacheConfig { cc_MarketsRefresh : Duration }.

(** The text of a duration; the field keeps its value when the text is bad. *)
Definition UnmarshalText (b : string) : result Duration :=
  wrap (fun e => Errorf "parse duration %q: %w" [FStr b; FErr e]) (ParseDuration b).

Record Config : Type := mkConfig {
  cf_Chain : string;
  cf_GrpcAddr : string;
  cf_CometRPCURL : string;
  cf_IndexerBaseURL : string;
  cf_ListenAddr : string;
  cf_EVMRPCURL : string;
  cf_EVMUniswapRouterAddr : string;
  cf_EVMWSVPAddr : string;
  cf_EVMOracleAddr : string;
  cf_EVMLendoraComptrollerAddr : string;
  cf_EVMBridgeAddr : string;
  cf_EVMBridgeRoutesPath : string;
  cf_EVMBridgeSourceChainID : Z;
  cf_EVMForeignChains : list EVMForeignChain;
  cf_FaucetBaseURL : string;
  cf_TransferOutCapPath : string;
  cf_BroadcastMode : string;
  cf_Cache : CacheConfig;
  cf_Limits : LimitsConfig;
  cf_Fee : FeeConfig;
}.

Definition DefaultFeeDenom : string := "asvp".
Definition DefaultFeeAmount : string := "25000000000000000".
Definition DefaultFeeGasLimit : Z := 1000000.

Definition empty (s : string) : bool := String.eqb s "".

Definition applyDefaults (f : FeeConfig) : FeeConfig :=
  mkFeeConfig (if empty (fee_Denom f) then DefaultFeeDenom else fee_Denom f)
    (if empty (fee_Amount f) then DefaultFeeAmount else fee_Amount f)
    (if fee_GasLimit f =? 0 then DefaultFeeGasLimit else fee_GasLimit f).

Section Validate.
Context {L : ChainLib} {D : DecLib}.

Definition fee_validate (f : FeeConfig) : error :=
  _ ← check (empty (fee_Denom f)) (Errorf "fee.denom is required" []);
  amt ← from_opt (NewIntFromString (fee_Amount f)) (Errorf "fee.amount %q is not a valid integer" [FStr (fee_Amount f)]);
  check (amt <? 0) (Errorf "fee.amount %q must be non-negative" [FStr (fee_Amount f)]).

Definition validateSwap (c : Config) : error :=
  let router := cf_EVMUniswapRouterAddr c in
  let wsvp := cf_EVMWSVPAddr c in
  if empty router && empty wsvp then Ok tt
  else
    _ ← check (empty router || empty wsvp)
          (Errorf "evm_uniswap_router_addr and evm_wsvp_addr must be set together" []);
    _ ← check (negb (IsHexAddress router)) (Errorf "evm_uniswap_router_addr %q is not a valid 0x address" [FStr router]);
    _ ← check (negb (IsHexAddress wsvp)) (Errorf "evm_wsvp_addr %q is not a valid 0x address" [FStr wsvp]);
    check (empty (cf_EVMRPCURL c))
      (Errorf "evm_rpc_url is required when evm_uniswap_router_addr / evm_wsvp_addr are set" []).

Definition validateOracle (c : Config) : error :=
  let addr := cf_EVMOracleAddr c in
  if empty addr then Ok tt
  else
    _ ← check (negb (IsHexAddress addr)) (Errorf "evm_oracle_addr %q is not a valid 0x address" [FStr addr]);
    check (empty (cf_EVMRPCURL c)) (Errorf "evm_rpc_url is required when evm_oracle_addr is set" []).

Definition validateLendora (c : Config) : error :=
  let addr := cf_EVMLendoraComptrollerAddr c in
  if empty addr then Ok tt
  else
    _ ← check (negb (IsHexAddress addr))
          (Errorf "evm_lendora_comptroller_addr %q is not a valid 0x address" [FStr addr]);
    check (empty (cf_EVMRPCURL c)) (Errorf "evm_rpc_url is required when evm_lendora_comptroller_addr is set" []).

Definition one_if (b : bool) : Z := if b then 1 else 0.

Definition validateBridge (c : Config) : error :=
  let set := one_if (negb (empty (cf_EVMBridgeAddr c))) + one_if (negb (empty (cf_EVMBridgeRoutesPath c)))
             + one_if (negb (cf_EVMBridgeSourceChainID c =? 0)) in
  if set =? 0 then Ok tt
  else
    _ ← check (negb (set =? 3))
          (Errorf "evm_bridge_addr, evm_bridge_routes_path and evm_bridge_source_chain_id must be set together" []);
    _ ← check (negb (IsHexAddress (cf_EVMBridgeAddr c)))
          (Errorf "evm_bridge_addr %q is not a valid 0x address" [FStr (cf_EVMBridgeAddr c)]);
    check (empty (cf_EVMRPCURL c)) (Errorf "evm_rpc_url is required when the bridge is configured" []).

(** The loop over the declared foreign chains, with the ids seen. *)
Fixpoint validate_foreign (home : Z) (i : Z) (seen : gset Z) (l : list EVMForeignChain) : error :=
  match l with
  | [] => Ok tt
  | fc :: l' =>
      _ ← check (cf_ChainID fc =? 0) (Errorf "evm_foreign_chain[%d] chain_id is required" [FInt i]);
      _ ← check (cf_ChainID fc =? home)
            (Errorf "evm_foreign_chain[%d] chain_id %d is the home chain (evm_bridge_source_chain_id)"
               [FInt i; FInt (cf_ChainID fc)]);
      _ ← check (bool_decide (cf_ChainID fc ∈ seen))
            (Errorf "evm_foreign_chain[%d] chain_id %d is declared more than once" [FInt i; FInt (cf_ChainID fc)]);
      _ ← check (empty (cf_RPCURL fc))
            (Errorf "evm_foreign_chain[%d] (chain_id %d) rpc_url is required" [FInt i; FInt (cf_ChainID fc)]);
      _ ← check (negb (IsHexAddress (cf_BridgeAddr fc)))
            (Errorf "evm_foreign_chain[%d] (chain_id %d) bridge_addr %q is not a valid 0x address"
               [FInt i; FInt (cf_ChainID fc); FStr (cf_BridgeAddr fc)]);
      validate_foreign home (i + 1) ({[cf_ChainID fc]} ∪ seen) l'
  end.

Definition validateForeignChains (c : Config) : error :=
  if Nat.eqb (List.length (cf_EVMForeignChains c)) 0 then Ok tt
  else
    _ ← check (empty (cf_EVMBridgeAddr c))
          (Errorf "evm_foreign_chain requires the bridge to be configured (evm_bridge_addr, evm_bridge_routes_path, evm_bridge_source_chain_id)" []);
    validate_foreign (cf_EVMBridgeSourceChainID c) 0 ∅ (cf_EVMForeignChains c).

Definition Validate (c : Config) : error :=
  _ ← check (empty (cf_Chain c)) (Errorf "chain_id is required" []);
  _ ← check (empty (cf_GrpcAddr c)) (Errorf "grpc_addr is required" []);
  _ ← check (empty (cf_CometRPCURL c)) (Errorf "comet_rpc_url is required" []);
  _ ← check (empty (cf_IndexerBaseURL c)) (Errorf "indexer_base_url is required" []);
  _ ← check (empty (cf_ListenAddr c)) (Errorf "listen_addr is required" []);
  _ ← fee_validate (cf_Fee c);
  _ ← validateSwap c;
  _ ← validateOracle c;
  _ ← validateLendora c;
  _ ← validateBridge c;
  validateForeignChains c.

(** A path that is set and relative is taken from the directory of the
    configuration file. *)
Definition resolve_path (config p : string) : string :=
  if negb (empty p) && negb (filepath.IsAbs p) then filepath.Join [filepath.Dir config; p] else p.

(** [decode] is the TOML decoder on a file; it calls back for the durations. *)
Definition LoadConfig (decode : (string -> result Duration) -> string -> result Config) (path : string) : result Config :=
  c ← wrap (fun e => Errorf "decode TOML %s: %w" [FStr path; FErr e]) (decode UnmarshalText path);
  let c := {| cf_Chain := cf_Chain c; cf_GrpcAddr := cf_GrpcAddr c; cf_CometRPCURL := cf_CometRPCURL c;
       cf_IndexerBaseURL := cf_IndexerBaseURL c; cf_ListenAddr := cf_ListenAddr c; cf_EVMRPCURL := cf_EVMRPCURL c;
       cf_EVMUniswapRouterAddr := cf_EVMUniswapRouterAddr c; cf_EVMWSVPAddr := cf_EVMWSVPAddr c;
       cf_EVMOracleAddr := cf_EVMOracleAddr c; cf_EVMLendoraComptrollerAddr := cf_EVMLendoraComptrollerAddr c;
       cf_EVMBridgeAddr := cf_EVMBridgeAddr c;
       cf_EVMBridgeRoutesPath := resolve_path path (cf_EVMBridgeRoutesPath c);
       cf_EVMBridgeSourceChainID := cf_EVMBridgeSourceChainID c; cf_EVMForeignChains := cf_EVMForeignChains c;
       cf_FaucetBaseURL := cf_FaucetBaseURL c;
       cf_TransferOutCapPath := resolve_path path (cf_TransferOutCapPath c);
       cf_BroadcastMode := if empty (cf_BroadcastMode c) then "server" else cf_BroadcastMode c;
       cf_Cache := cf_Cache c; cf_Limits := cf_Limits c; cf_Fee := applyDefaults (cf_Fee c) |} in
  _ ← Validate c;
  Ok c.

End Validate.

(** ** Wiring *)

Section Wire.
Context {L : ChainLib} {U : Unicode} (parse : abi_json -> error) (dial : string -> result Z) (load : string -> result Registry).

(** The bindings of a deployment ([parse] is abi.JSON on an embedded text). *)
Definition NewUniswapV2 (router wsvp : Address) : result UniswapV2 :=
  _ ← wrap (fun e => Errorf "parse router abi: %w" [FErr e]) (parse uniswapV2RouterABI);
  _ ← wrap (fun e => Errorf "parse erc20 abi: %w" [FErr e]) (parse erc20ABI);
  Ok (mkUniswapV2 router wsvp).

Definition NewBridge (addr : Address) : result Address :=
  _ ← wrap (fun e => Errorf "parse bridge abi: %w" [FErr e]) (parse svpBridgeABI);
  Ok addr.

Definition NewOracleFeed (addr : Address) : result Address :=
  _ ← wrap (fun e => Errorf "parse oracle abi: %w" [FErr e]) (parse oracleFeedABI);
  Ok addr.

Definition NewLendora (comptroller : Address) : result Address :=
  _ ← wrap (fun e => Errorf "parse lendora ctoken abi: %w" [FErr e]) (parse lendoraCTokenABI);
  _ ← wrap (fun e => Errorf "parse lendora comptroller abi: %w" [FErr e]) (parse lendoraComptrollerABI);
  _ ← wrap (fun e => Errorf "parse lendora oracle abi: %w" [FErr e]) (parse lendoraOracleABI);
  _ ← wrap (fun e => Errorf "parse lendora irm abi: %w" [FErr e]) (parse lendoraIRMABI);
  Ok comptroller.

(** The loop over the foreign chains of the configuration. *)
Fixpoint wire_foreign (home : Z) (routes : Registry) (foreign : gmap Z ForeignChain) (l : list EVMForeignChain)
  : result (gmap Z ForeignChain) :=
  match l with
  | [] => Ok foreign
  | fc :: l' =>
      _ ← wrap (fun e => Errorf "evm_foreign_chain %d: %w" [FInt (cf_ChainID fc); FErr e])
            (ResolveSourceChain (FormatUint (cf_ChainID fc)) home routes);
      fbr ← wrap (fun e => Errorf "foreign bridge binding (chain %d): %w" [FInt (cf_ChainID fc); FErr e])
              (NewBridge (HexToAddress (cf_BridgeAddr fc)));
      fclient ← wrap (fun e => Errorf "foreign evm client (chain %d): %w" [FInt (cf_ChainID fc); FErr e])
                  (dial (cf_RPCURL fc));
      wire_foreign home routes
        (<[cf_ChainID fc := mkForeignChain fclient fclient fbr]> foreign) l'
  end.

(** A contract that is bound when its address is configured. *)
Definition bind_at (binding : string) (new : Address -> result Address) (addr : string) : result (option Address) :=
  if empty addr then Ok None
  else Some <$> wrap (fun e => Errorf (binding +:+ " binding: %w")%string [FErr e]) (new (HexToAddress addr)).

Definition bind_swap (c : Config) : result (option UniswapV2) :=
  if empty (cf_EVMUniswapRouterAddr c) then Ok None
  else Some <$> wrap (fun e => Errorf "uniswap binding: %w" [FErr e])
                  (NewUniswapV2 (HexToAddress (cf_EVMUniswapRouterAddr c)) (HexToAddress (cf_EVMWSVPAddr c))).

(** The bridge part of the dependencies: the binding, the routes, the source
    chain, the foreign chains, the home chain. *)
Definition wire_bridge (c : Config) : result (option (Address * Registry) * Z * gmap Z ForeignChain) :=
  if empty (cf_EVMBridgeAddr c) then Ok (None, 0, ∅)
  else
    br ← wrap (fun e => Errorf "bridge binding: %w" [FErr e]) (NewBridge (HexToAddress (cf_EVMBridgeAddr c)));
    routes ← wrap (fun e => Errorf "bridge routes: %w" [FErr e]) (load (cf_EVMBridgeRoutesPath c));
    _ ← check (negb (HasSource (cf_EVMBridgeSourceChainID c) routes))
          (Errorf "bridge routes %s has no routes originating from evm_bridge_source_chain_id %d"
             [FStr (cf_EVMBridgeRoutesPath c); FInt (cf_EVMBridgeSourceChainID c)]);
    foreign ← wire_foreign (cf_EVMBridgeSourceChainID c) routes ∅ (cf_EVMForeignChains c);
    Ok (Some (br, routes), cf_EVMBridgeSourceChainID c, foreign).

Definition wire_evm (c : Config) : result EVMDeps :=
  if empty (cf_EVMRPCURL c) then Ok (mkEVMDeps None None None None None None None 0 ∅ 0 false)
  else
    evmClient ← wrap (fun e => Errorf "evm client: %w" [FErr e]) (dial (cf_EVMRPCURL c));
    uni ← bind_swap c;
    oracle ← bind_at "oracle feed" NewOracleFeed (cf_EVMOracleAddr c);
    lend ← bind_at "lendora" NewLendora (cf_EVMLendoraComptrollerAddr c);
    br ← wire_bridge c;
    let '(bridge, source, foreign) := br in
    Ok {| ed_EVM := Some evmClient;
          ed_Assembler := Some evmClient;
          ed_Uniswap := uni;
          ed_Oracle := oracle;
          ed_Lendora := lend;
          ed_Bridge := fst <$> bridge;
          ed_BridgeRoutes := snd <$> bridge;
          ed_BridgeSourceChainID := source;
          ed_ForeignChains := foreign;
          ed_HomeChainID := source;
          ed_LendoraMarkets := negb (empty (cf_EVMLendoraComptrollerAddr c)) |}.

Definition limitsCfg (c : Config) : Limits.Config :=
  {| DepositMaxUSDC := lc_DepositMaxUSDC (cf_Limits c); WithdrawMaxUSDC := lc_WithdrawMaxUSDC (cf_Limits c);
     TransferMaxUSDC := lc_TransferMaxUSDC (cf_Limits c); DailyWithdrawCapUSDC := lc_DailyWithdrawCapUSDC (cf_Limits c) |}.

(** The dependencies of the broadcast and build tools. *)
Definition wire_handlers (c : Config) (d : EVMDeps) : Handlers :=
  {| h_ChainID := cf_Chain c;
     h_Limits := limitsCfg c;
     h_Builder := NewAssembler (cf_Chain c) (fee_Denom (cf_Fee c)) (fee_Amount (cf_Fee c)) (fee_GasLimit (cf_Fee c));
     h_EVM := bool_decide (is_Some (ed_EVM d));
     h_ForeignChains := (map_to_list (ed_ForeignChains d)).*1;
     h_Uniswap := (fun u => (Router u, WSVP u)) <$> ed_Uniswap d |}.

End Wire.

(** ** Lemmas *)

Section Lemmas.
Context {L : ChainLib} {D : DecLib} {U : Unicode}.

Lemma validate_foreign_ok home l : forall i seen,
  validate_foreign home i seen l = Ok tt ->
  NoDup (map cf_ChainID l) /\ Forall (fun fc => cf_ChainID fc <> 0 /\ cf_ChainID fc <> home /\ cf_ChainID fc ∉ seen
    /\ cf_RPCURL fc <> EmptyString /\ IsHexAddress (cf_BridgeAddr fc) = true) l.
Proof.
  induction l as [|fc l IH]; intros i seen; cbn [validate_foreign map]; [by split; constructor|]. intros H.
  apply bind_check_ok in H as [H1%Z.eqb_neq H]. apply bind_check_ok in H as [H2%Z.eqb_neq H].
  apply bind_check_ok in H as [H3%bool_decide_eq_false H]. apply bind_check_ok in H as [H4%String.eqb_neq H].
  apply bind_check_ok in H as [H5%negb_false_iff H]. apply IH in H as [Hn Hf].
  rewrite NoDup_cons, Forall_cons. split_and!; [|done..|].
  - intros (fc' & E & Hi)%list_elem_of_fmap. rewrite Forall_forall in Hf. apply Hf in Hi as (_ & _ & Hs & _).
    rewrite E in Hs. set_solver.
  - eapply Forall_impl; [exact Hf|]. intros fc' (? & ? & ? & ?). split_and!; [done..| |naive_solver|naive_solver]. set_solver.
Qed.

(** What validation establishes about the EVM family. *)
Record valid_evm (c : Config) : Prop := {
  ve_swap : empty (cf_EVMUniswapRouterAddr c) = false -> empty (cf_EVMRPCURL c) = false;
  ve_oracle : empty (cf_EVMOracleAddr c) = false -> empty (cf_EVMRPCURL c) = false;
  ve_lendora : empty (cf_EVMLendoraComptrollerAddr c) = false -> empty (cf_EVMRPCURL c) = false;
  ve_bridge : empty (cf_EVMBridgeAddr c) = false ->
    empty (cf_EVMRPCURL c) = false /\ cf_EVMBridgeSourceChainID c <> 0;
  ve_foreign : cf_EVMForeignChains c <> [] -> empty (cf_EVMBridgeAddr c) = false;
  ve_ids : NoDup (map cf_ChainID (cf_EVMForeignChains c))
    /\ Forall (fun fc => cf_ChainID fc <> 0 /\ cf_ChainID fc <> cf_EVMBridgeSourceChainID c) (cf_EVMForeignChains c);
}.

Lemma Validate_evm c : Validate c = Ok tt -> valid_evm c.
Proof.
  intros H. unfold Validate in H. do 5 apply bind_check_ok in H as [_ H]. apply bind_error_ok in H as [_ H].
  apply bind_error_ok in H as [Hs H]. apply bind_error_ok in H as [Ho H]. apply bind_error_ok in H as [Hl H].
  apply bind_error_ok in H as [Hb Hf]. constructor.
  - intros He. unfold validateSwap in Hs. cbv zeta in Hs. rewrite He in Hs. cbn [andb] in Hs.
    do 3 apply bind_check_ok in Hs as [_ Hs]. by destruct (empty (cf_EVMRPCURL c)).
  - intros He. unfold validateOracle in Ho. cbv zeta in Ho. rewrite He in Ho. apply bind_check_ok in Ho as [_ Ho].
    by destruct (empty (cf_EVMRPCURL c)).
  - intros He. unfold validateLendora in Hl. cbv zeta in Hl. rewrite He in Hl. apply bind_check_ok in Hl as [_ Hl].
    by destruct (empty (cf_EVMRPCURL c)).
  - intros He. unfold validateBridge in Hb. cbv zeta in Hb. rewrite He in Hb. cbn [negb one_if] in Hb.
    destruct (Z.eqb_spec (cf_EVMBridgeSourceChainID c) 0) as [E0|].
    + destruct (empty (cf_EVMBridgeRoutesPath c)); cbn in Hb; done.
    + destruct (empty (cf_EVMBridgeRoutesPath c)); cbn [negb one_if Z.add Z.eqb Pos.add Pos.eqb] in Hb; [done|].
      apply bind_check_ok in Hb as [_ Hb]. apply bind_check_ok in Hb as [_ Hb]. by destruct (empty (cf_EVMRPCURL c)).
  - intros Hn. unfold validateForeignChains in Hf. destruct (cf_EVMForeignChains c); [done|].
    cbn [List.length Nat.eqb] in Hf. by apply bind_check_ok in Hf as [Hf _].
  - unfold validateForeignChains in Hf. destruct (cf_EVMForeignChains c) as [|fc l] eqn:El; [split; constructor|].
    cbn [List.length Nat.eqb] in Hf. apply bind_check_ok in Hf as [_ Hf]. apply validate_foreign_ok in Hf as [Hn Ha].
    split; [done|]. eapply Forall_impl; [exact Ha|]. naive_solver.
Qed.

Lemma FormatUint_trim n : 0 <= n -> TrimSpace (FormatUint n) = FormatUint n.
Proof.
  intros Hn. rewrite <- (str_chars (FormatUint n)). apply TrimSpace_solid_all; [apply FormatUint_nonempty|].
  eapply Forall_impl; [by apply FormatUint_digits|]. intros c. apply digit_solid.
Qed.

(** A numeric source chain that resolves has a route into the home chain. *)
Lemma resolve_numeric id home reg id' :
  0 <= id <= maxU64 -> ResolveSourceChain (FormatUint id) home reg = Ok id' ->
  exists rt, rt ∈ routes reg /\ rt_SrcChainID rt = id /\ rt_TargetChainID rt = home.
Proof.
  intros Hid. unfold ResolveSourceChain, resolveChain, chain_named. cbv zeta.
  rewrite FormatUint_trim, ParseUint_FormatUint by lia.
  destruct (String.eqb _ ""); cbn [check mbind result_bind]; [done|]. cbn [from_opt mbind result_bind].
  destruct (id =? home); cbn [check mbind result_bind]; [done|].
  destruct (routesFor id home reg) as [|rt l] eqn:El; cbn [List.length Nat.eqb check mbind result_bind]; [done|].
  intros _. exists rt. apply elem_of_routesFor. rewrite El. left.
Qed.

(** An address that is configured. *)
Definition bound (addr : string) : option Address := if empty addr then None else Some (HexToAddress addr).

Lemma bind_at_ok b new addr r :
  (forall a a', new a = Ok a' -> a' = a) -> bind_at b new addr = Ok r -> r = bound addr.
Proof.
  intros Hn. unfold bind_at, bound. destruct (empty addr); [by intros [= <-]|].
  destruct (new _) as [a|] eqn:E; [|done]. intros [= <-]. f_equal. by apply Hn.
Qed.

Lemma parsed_ok {A} (parse : abi_json -> error) f j (r : result A) a : (_ ← wrap f (parse j); r) = Ok a -> r = Ok a.
Proof. by destruct (parse j) as [[]|]. Qed.

Lemma NewOracleFeed_ok parse a a' : NewOracleFeed parse a = Ok a' -> a' = a.
Proof. unfold NewOracleFeed. intros H. repeat apply (parsed_ok parse) in H. by injection H as <-. Qed.
Lemma NewLendora_ok parse a a' : NewLendora parse a = Ok a' -> a' = a.
Proof. unfold NewLendora. intros H. repeat apply (parsed_ok parse) in H. by injection H as <-. Qed.
Lemma NewBridge_ok parse a a' : NewBridge parse a = Ok a' -> a' = a.
Proof. unfold NewBridge. intros H. repeat apply (parsed_ok parse) in H. by injection H as <-. Qed.
Lemma bind_swap_ok parse c r :
  bind_swap parse c = Ok r ->
  r = if empty (cf_EVMUniswapRouterAddr c) then None
      else Some (mkUniswapV2 (HexToAddress (cf_EVMUniswapRouterAddr c)) (HexToAddress (cf_EVMWSVPAddr c))).
Proof.
  unfold bind_swap, NewUniswapV2. destruct (empty _); [by intros [= <-]|].
  destruct (parse uniswapV2RouterABI) as [[]|]; [|done]. destruct (parse erc20ABI) as [[]|]; [|done]. by intros [= <-].
Qed.

Lemma wire_foreign_ok parse dial home reg l : forall m m',
  Forall (fun fc => 0 <= cf_ChainID fc <= maxU64) l -> wire_foreign parse dial home reg m l = Ok m' ->
  (forall id, is_Some (m' !! id) <-> is_Some (m !! id) \/ id ∈ map cf_ChainID l)
  /\ forall id fc, m' !! id = Some fc -> m !! id = Some fc \/
       (fc_Client fc = fc_Assembler fc /\ exists rt, rt ∈ routes reg /\ rt_SrcChainID rt = id /\ rt_TargetChainID rt = home).
Proof.
  induction l as [|fc l IH]; intros m m'; cbn [wire_foreign map].
  { intros _ [= <-]. split; [set_solver|]. by left. }
  intros [Hid Hl]%Forall_cons H.
  destruct (ResolveSourceChain _ _ _) as [id'|] eqn:Er; cbn [wrap mbind result_bind] in H; [|done].
  destruct (NewBridge _ _) as [fbr|]; cbn [wrap mbind result_bind] in H; [|done].
  destruct (dial (cf_RPCURL fc)) as [cl|]; cbn [wrap mbind result_bind] in H; [|done].
  apply resolve_numeric in Er; [|done]. apply IH in H as [H1 H2]; [|done]. split.
  - intros id. rewrite H1, lookup_insert_is_Some, elem_of_cons. destruct (decide (cf_ChainID fc = id)); naive_solver.
  - intros id fc' [Hi|Hi]%H2; [|by right]. apply lookup_insert_Some in Hi as [[<- <-]|[_ Hi]]; [by right|by left].
Qed.

(** ** The promise of the wiring to the tools *)

Record deps_ok (c : Config) (d : EVMDeps) : Prop := {
  do_client : ed_Assembler d = ed_EVM d;
  do_rpc : ed_EVM d = None <-> cf_EVMRPCURL c = EmptyString;
  do_swap : ed_Uniswap d = if empty (cf_EVMUniswapRouterAddr c) then None
              else Some (mkUniswapV2 (HexToAddress (cf_EVMUniswapRouterAddr c)) (HexToAddress (cf_EVMWSVPAddr c)));
  do_oracle : ed_Oracle d = bound (cf_EVMOracleAddr c);
  do_lendora : ed_Lendora d = bound (cf_EVMLendoraComptrollerAddr c);
  do_markets : ed_LendoraMarkets d = bool_decide (is_Some (ed_Lendora d));
  do_bridge : ed_Bridge d = bound (cf_EVMBridgeAddr c);
  do_routes : is_Some (ed_BridgeRoutes d) <-> is_Some (ed_Bridge d);
  do_home : ed_HomeChainID d = ed_BridgeSourceChainID d
    /\ (is_Some (ed_Bridge d) -> is_Some (ed_EVM d) /\ ed_HomeChainID d = cf_EVMBridgeSourceChainID c /\ ed_HomeChainID d <> 0);
  do_out : forall reg, ed_BridgeRoutes d = Some reg -> exists rt, rt ∈ routes reg /\ rt_SrcChainID rt = ed_HomeChainID d;
  do_foreign : forall id, is_Some (ed_ForeignChains d !! id) <-> id ∈ map cf_ChainID (cf_EVMForeignChains c);
  do_in : forall id fc, ed_ForeignChains d !! id = Some fc ->
    id <> 0 /\ id <> ed_HomeChainID d /\ fc_Client fc = fc_Assembler fc
    /\ exists reg rt, ed_BridgeRoutes d = Some reg /\ rt ∈ routes reg
       /\ rt_SrcChainID rt = id /\ rt_TargetChainID rt = ed_HomeChainID d;
}.

End Lemmas.

Section Promise.
Context {L : ChainLib} {D : DecLib} {U : Unicode}.

Lemma no_rpc_deps c :
  valid_evm c -> empty (cf_EVMRPCURL c) = true -> deps_ok c (mkEVMDeps None None None None None None None 0 ∅ 0 false).
Proof.
  intros Hv He.
  assert (empty (cf_EVMUniswapRouterAddr c) = true) as Hs by (destruct (empty (cf_EVMUniswapRouterAddr c)) eqn:E; [done|]; apply (ve_swap c Hv) in E; congruence).
  assert (empty (cf_EVMOracleAddr c) = true) as Ho by (destruct (empty (cf_EVMOracleAddr c)) eqn:E; [done|]; apply (ve_oracle c Hv) in E; congruence).
  assert (empty (cf_EVMLendoraComptrollerAddr c) = true) as Hl by (destruct (empty (cf_EVMLendoraComptrollerAddr c)) eqn:E; [done|]; apply (ve_lendora c Hv) in E; congruence).
  assert (empty (cf_EVMBridgeAddr c) = true) as Hb by (destruct (empty (cf_EVMBridgeAddr c)) eqn:E; [done|]; apply (ve_bridge c Hv) in E as [E _]; congruence).
  assert (cf_EVMForeignChains c = []) as Hf.
  { destruct (cf_EVMForeignChains c) eqn:E; [done|]. exfalso. assert (cf_EVMForeignChains c <> []) as Hn by (by rewrite E).
    apply (ve_foreign c Hv) in Hn. congruence. }
  unfold empty in He. apply String.eqb_eq in He. constructor; cbn; unfold bound.
  - done.
  - by split.
  - by rewrite Hs.
  - by rewrite Ho.
  - by rewrite Hl.
  - done.
  - by rewrite Hb.
  - done.
  - split; [done|]. by intros [? ?].
  - done.
  - intros id. rewrite Hf, lookup_empty. cbn. split; [by intros [? ?]|set_solver].
  - intros id fc. by rewrite lookup_empty.
Qed.

Lemma HasSource_route id reg : HasSource id reg = true -> exists rt, rt ∈ routes reg /\ rt_SrcChainID rt = id.
Proof.
  unfold HasSource. intros (rt & Hi & He%Z.eqb_eq)%existsb_exists. exists rt. by rewrite list_elem_of_In.
Qed.

(** What the bridge part of the wiring gives. *)
Lemma wire_bridge_ok parse dial load c br source foreign :
  valid_evm c -> Forall (fun fc => 0 <= cf_ChainID fc <= maxU64) (cf_EVMForeignChains c) ->
  wire_bridge parse dial load c = Ok (br, source, foreign) ->
  fst <$> br = bound (cf_EVMBridgeAddr c)
  /\ (is_Some br -> source = cf_EVMBridgeSourceChainID c /\ source <> 0)
  /\ (forall b reg, br = Some (b, reg) -> exists rt, rt ∈ routes reg /\ rt_SrcChainID rt = source)
  /\ (forall id, is_Some (foreign !! id) <-> id ∈ map cf_ChainID (cf_EVMForeignChains c))
  /\ forall id fc, foreign !! id = Some fc -> id <> 0 /\ id <> source /\ fc_Client fc = fc_Assembler fc
     /\ exists b reg rt, br = Some (b, reg) /\ rt ∈ routes reg /\ rt_SrcChainID rt = id /\ rt_TargetChainID rt = source.
Proof.
  intros Hv Hu H. unfold wire_bridge in H. unfold bound. destruct (empty (cf_EVMBridgeAddr c)) eqn:Eb.
  - injection H as <- <- <-. split_and!; [done|by intros [? ?]|done| |].
    + intros id. rewrite lookup_empty. destruct (cf_EVMForeignChains c) eqn:E; [split; [by intros [? ?]|set_solver]|].
      assert (cf_EVMForeignChains c <> []) as Hn by (by rewrite E). apply (ve_foreign c Hv) in Hn. congruence.
    + intros id fc. by rewrite lookup_empty.
  - destruct (NewBridge _ _) as [b0|] eqn:En; cbn [wrap mbind result_bind] in H; [apply NewBridge_ok in En as ->|done].
    destruct (load _) as [reg|]; cbn [wrap mbind result_bind] in H; [|done].
    apply bind_check_ok in H as [Hs%negb_false_iff H].
    destruct (wire_foreign _ _ _ _ _ _) as [m|] eqn:Ew; cbn [mbind result_bind] in H; [|done]. injection H as <- <- <-.
    apply (ve_bridge c Hv) in Eb as [_ Hn]. apply wire_foreign_ok in Ew as [W1 W2]; [|done].
    pose proof (ve_ids c Hv) as [_ Hids]. rewrite Forall_forall in Hids. split_and!; [done|done| | |].
    + intros b reg' [= <- <-]. by apply HasSource_route.
    + intros id. rewrite W1, lookup_empty. split; [intros [[? ?]|?]; done|by right].
    + intros id fc Hi. assert (id ∈ map cf_ChainID (cf_EVMForeignChains c)) as Hin.
      { destruct (proj1 (W1 id)) as [[? Hx]|Hx]; [by exists fc|by rewrite lookup_empty in Hx|done]. }
      apply list_elem_of_fmap in Hin as (e & -> & He). destruct (Hids e He) as [Hz Hh].
      apply W2 in Hi as [Hi|[Hc (rt & R1 & R2 & R3)]]; [by rewrite lookup_empty in Hi|]. split_and!; [done..|].
      by eexists _, reg, rt.
Qed.

Lemma wire_evm_ok parse dial load c d :
  Forall (fun fc => 0 <= cf_ChainID fc <= maxU64) (cf_EVMForeignChains c) ->
  Validate c = Ok tt -> wire_evm parse dial load c = Ok d -> deps_ok c d.
Proof.
  intros Hu Hv%Validate_evm H. unfold wire_evm in H. destruct (empty (cf_EVMRPCURL c)) eqn:Er.
  { injection H as <-. by apply no_rpc_deps. }
  destruct (dial _) as [cl|]; cbn [wrap mbind result_bind] in H; [|done].
  destruct (bind_swap parse c) as [uni|] eqn:Es; cbn [mbind result_bind] in H; [apply bind_swap_ok in Es as ->|done].
  destruct (bind_at _ (NewOracleFeed parse) _) as [orc|] eqn:Eo; cbn [mbind result_bind] in H;
    [apply (bind_at_ok _ _ _ _ (NewOracleFeed_ok parse)) in Eo as ->|done].
  destruct (bind_at _ (NewLendora parse) _) as [lend|] eqn:El; cbn [mbind result_bind] in H;
    [apply (bind_at_ok _ _ _ _ (NewLendora_ok parse)) in El as ->|done].
  destruct (wire_bridge parse dial load c) as [[[br source] foreign]|] eqn:Eb; cbn [mbind result_bind] in H; [|done].
  injection H as <-. apply wire_bridge_ok in Eb as (B1 & B2 & B3 & B4 & B5); [|done..].
  unfold empty in Er. apply String.eqb_neq in Er. constructor; cbn; try done.
  - unfold bound. by destruct (empty (cf_EVMLendoraComptrollerAddr c)).
  - rewrite !fmap_is_Some. done.
  - split; [done|]. rewrite fmap_is_Some. intros Hb. destruct (B2 Hb). split_and!; [done|congruence|done].
  - intros reg. destruct br as [[b r]|]; [|done]. intros [= <-]. by eapply B3.
  - intros id fc Hi. destruct (B5 id fc Hi) as (H1 & H2 & H3 & b & reg & rt & -> & R). split_and!; [done..|].
    destruct R as (? & ? & ?). exists reg, rt. by split_and!.
Qed.

End Promise.

(** ** Claims *)

(** The refresh interval is read to the nanosecond.  A text of the configuration
    file that writes a duration as numbers with units, with a sign and with
    fractions down to a nanosecond, is decoded to exactly that many nanoseconds,
    the floating-point scaling of the fractions included, or rejected when that
    is beyond 64 bits; and whatever the text, what is accepted is a 64-bit
    duration. *)
Theorem refresh_exact (neg : bool) (ps : list piece) (b : string) (Hne : ps <> []) (Hps : Forall piece_ok ps) :
  UnmarshalText (print_duration neg ps)
  = (if total_ns ps <=? (if neg then 2 ^ 63 else 2 ^ 63 - 1) then Ok (if neg then - total_ns ps else total_ns ps)
     else Err (Errorf "parse duration %q: %w"
                 [FStr (print_duration neg ps); FErr (invalid_duration (chars (print_duration neg ps)))]))
  /\ (forall d, UnmarshalText b = Ok d -> minDuration <= d <= maxDuration).
Proof.
  split.
  - unfold UnmarshalText. rewrite ParseDuration_print by done. by destruct (_ <=? _).
  - intros d H%wrap_ok. by apply ParseDuration_range in H.
Qed.

(** "-1h2.5s" *)
Definition demo_pieces : list piece := [mkPiece 1 [] Uh; mkPiece 2 [5] Us].

Lemma refresh_exact_witness :
  print_duration true demo_pieces = "-1h2.5s"%string /\ UnmarshalText "-1h2.5s" = Ok (- 3602500000000).
Proof.
  assert (print_duration true demo_pieces = "-1h2.5s"%string) as Hp by (vm_compute; reflexivity). split; [exact Hp|].
  rewrite <- Hp. rewrite (proj1 (refresh_exact true demo_pieces "" ltac:(discriminate) ltac:(repeat constructor; vm_compute; congruence))).
  vm_compute. reflexivity.
Defined.

(** A configuration that passes validation is wired as it says.  The client
    and the assembler are set exactly when an RPC URL is; every configured
    contract address (router and wrapper together, oracle, lendora, bridge) is
    bound, none is silently dropped; the bridge comes with a route registry that
    has a route out of the home chain, whose id is the configured one and not
    zero; and the foreign chains are exactly the declared ones, each different
    from the home chain, with one node for reading and assembling and a route
    into the home chain. *)
Theorem wire_sound {L : ChainLib} {D : DecLib} {U : Unicode} (parse : abi_json -> error) (dial : string -> result Z)
    (load : string -> result Registry) (c : Config) (d : EVMDeps)
    (Hu : Forall (fun fc => 0 <= cf_ChainID fc <= maxU64) (cf_EVMForeignChains c))
    (Hv : Validate c = Ok tt) (Hw : wire_evm parse dial load c = Ok d) :
  deps_ok c d.
Proof. by eapply wire_evm_ok. Qed.

Definition demo_config : Config :=
  {| cf_Chain := "svp-1"; cf_GrpcAddr := "g"; cf_CometRPCURL := "c"; cf_IndexerBaseURL := "i"; cf_ListenAddr := "l";
     cf_EVMRPCURL := "home"; cf_EVMUniswapRouterAddr := ""; cf_EVMWSVPAddr := ""; cf_EVMOracleAddr := "";
     cf_EVMLendoraComptrollerAddr := ""; cf_EVMBridgeAddr := demo_usdc; cf_EVMBridgeRoutesPath := "routes.json";
     cf_EVMBridgeSourceChainID := 2517;
     cf_EVMForeignChains := [mkEVMForeignChain 11155111 "sepolia" demo_usdc];
     cf_FaucetBaseURL := "https://faucet/"; cf_TransferOutCapPath := "caps.json"; cf_BroadcastMode := "server";
     cf_Cache := mkCacheConfig 0; cf_Limits := mkLimitsConfig 0 0 0 1; cf_Fee := applyDefaults (mkFeeConfig "" "" 0) |}.

Definition demo_dial (url : string) : result Z := Ok (if String.eqb url "home" then -1 else 11155111).

Definition demo_wired : result EVMDeps :=
  wire_evm (L := demo_lib) (U := unicode_id) (fun _ => Ok tt) demo_dial (fun _ => Ok demo_registry) demo_config.
Definition demo_wired_deps : EVMDeps := match demo_wired with Ok d => d | Err _ => demo_deps end.

Lemma wire_sound_witness :
  exists fc, ed_ForeignChains demo_wired_deps !! 11155111 = Some fc /\ ed_HomeChainID demo_wired_deps <> 11155111.
Proof.
  assert (deps_ok (L := demo_lib) demo_config demo_wired_deps) as Hd.
  { apply (@wire_sound demo_lib demo_dec unicode_id (fun _ => Ok tt) demo_dial (fun _ => Ok demo_registry)).
    - repeat constructor; cbn; unfold maxU64; lia.
    - vm_compute. reflexivity.
    - vm_compute. reflexivity. }
  destruct (proj2 (do_foreign demo_config demo_wired_deps Hd 11155111)) as [fc Hfc]; [left|].
  exists fc. split; [exact Hfc|]. intros E. destruct (do_in demo_config demo_wired_deps Hd 11155111 fc Hfc) as (_ & Hne & _).
  congruence.
Defined.

(** The approval a bridge tool asks for can be built, on the right chain.  On
    wired dependencies, when a bridge tool answers with a missing approval, the
    chain id it names is configured, and build_erc20_approve with that chain id
    uses exactly the assembler and the node of the leg the deposit will run on. *)
Theorem approval_on_deposit_chain {RL : RateLib} {E : Env} {N : EVMEnv} {L : ChainLib} {D : DecLib} {B : ABILib}
    {U : Unicode} (c : Config) (d : EVMDeps) (ctx : context) (t : bridge_tool) (s : srv) (out : BridgeDepositOutput)
    (s' : srv) (ap : BridgeApproval)
    (Hd : deps_ok c d) (H : run_bridge d ctx t s = (Ok out, s')) (Ha : bo_ApprovalRequired out = Some ap) :
  exists leg home, leg_ok d t leg /\ bo_SourceChainID out = lg_SrcChainID leg /\ requireEVM d = Ok home
  /\ evmAssemblerFor d home (ba_ChainID ap) = Ok (lg_Assembler leg, lg_Client leg).
Proof.
  apply bridge_tool_inv in H as (tp & leg & from & recipient & amount & _ & Hl & _ & _ & _ & Hout).
  destruct Hout as [Eout Hm]. rewrite Ha in Hm. destruct (bo_Payload out); [done|].
  destruct Hm as (_ & _ & _ & _ & _ & Ec & _).
  pose proof Hl as (reg & Er & _ & _ & _ & _ & _ & Hne & _ & Hc).
  destruct (proj2 (do_home c d Hd)) as ([cl Ecl] & Eh & Hz).
  { apply (do_routes c d Hd). by exists reg. }
  exists leg, (cl, cl). rewrite Ec. split_and!; [done|by rewrite Eout| |].
  { unfold requireEVM. by rewrite (do_client c d Hd), Ecl. }
  unfold evmAssemblerFor. destruct t as [i|i].
  - destruct Hc as (E1 & _ & E2 & E3). rewrite (do_client c d Hd), Ecl in E2. rewrite Ecl in E3.
    injection E2 as E2. injection E3 as E3.
    rewrite E1, (proj1 (do_home c d Hd)), Z.eqb_refl, orb_true_r. cbn. by rewrite <- E2, <- E3.
  - destruct Hc as (E1 & E2). destruct (do_in c d Hd _ _ E2) as (Hz' & Hh & _).
    rewrite (proj2 (Z.eqb_neq _ _) Hz'), (proj2 (Z.eqb_neq _ _) Hh). cbn [orb]. by rewrite E2.
Qed.

Definition demo_big : bridge_tool := BIn (mkBuildBridgeDepositInboundInput "sepolia" "USDC" "5000000" "" "c1").
Definition demo_run_big :=
  run_bridge (RL := demo_rate) (E := demo_still) (N := demo_net) (L := demo_lib) (D := demo_dec) (B := demo_abi)
    (U := unicode_id) demo_wired_deps demo_ctx demo_big demo_live.

Lemma approval_on_deposit_chain_witness :
  exists out s' ap home, demo_run_big = (Ok out, s') /\ bo_ApprovalRequired out = Some ap
  /\ evmAssemblerFor demo_wired_deps home (ba_ChainID ap) = Ok (11155111, 11155111).
Proof.
  destruct demo_run_big as [[out|e] s'] eqn:Er; [|vm_compute in Er; discriminate].
  assert (deps_ok (L := demo_lib) demo_config demo_wired_deps) as Hd.
  { apply (@wire_evm_ok demo_lib demo_dec unicode_id (fun _ => Ok tt) demo_dial (fun _ => Ok demo_registry)).
    - repeat constructor; cbn; unfold maxU64; lia.
    - vm_compute. reflexivity.
    - vm_compute. reflexivity. }
  destruct (bo_ApprovalRequired out) as [ap|] eqn:Ea.
  2: { exfalso. apply (f_equal fst) in Er. vm_compute in Er. injection Er as <-. discriminate Ea. }
  destruct (approval_on_deposit_chain (RL := demo_rate) (E := demo_still) (N := demo_net) (L := demo_lib)
    (D := demo_dec) (B := demo_abi) (U := unicode_id) demo_config demo_wired_deps demo_ctx demo_big demo_live out s' ap
    Hd Er Ea) as (leg & home & Hl & Es & _ & Ha).
  exists out, s', ap, home. split; [reflexivity|]. split; [exact Ea|]. rewrite Ha.
  apply (f_equal fst) in Er. vm_compute in Er. injection Er as <-. cbn in Es.
  destruct Hl as (? & _ & _ & _ & _ & _ & _ & _ & _ & _ & Hf). rewrite <- Es in Hf.
  assert ((fun f => (fc_Assembler f, fc_Client f)) <$> ed_ForeignChains demo_wired_deps !! 11155111
    = Some (11155111, 11155111)) as Hx by (vm_compute; reflexivity).
  rewrite Hf in Hx. cbn in Hx. by injection Hx as -> ->.
Defined.
