(* ===== verification/System.v ===== *)
(** * The server as a transition system

    A request is served the way the server composes its parts: the middleware
    resolves the caller, a gated call without a tenant is answered softly, and
    any other call runs its handler in the resolved context (cmd/mcp-server
    mcp_auth.go, tools/registry.go).  Between requests the background loops may
    replace the market cache and refresh the money-market cache.  The theorems are invariants of every reachable
    state. *)

From S2P Require Import Prelude GoStrings GoNum GoTime GoEncoding Limits TransferOut NonceStore IPRateLimiter.
From S2P Require Import SessionBearers DynamicTenants Policy Markets Units ChainLib Payload Assembler Assets.
From S2P Require Import TxInspect Cancels Orders FundsBuilder Builders Server AuthTools Broadcast Tools.
From S2P Require Import EVMBuilder BridgeRegistry ABI EVMTools SwapTools BridgeTools LendoraABI LendoraCache.
From S2P Require Import LendoraFormat LendoraRisk LendoraOps LendoraRead Indexer AccountTools MarketTools FaucetTools ReadTools.

Inductive evm_call : Type :=
| VErc (c : erc_tool)
| VQuote (i : QuoteSwapInput)
| VApproval (i : BuildTokenApprovalInput)
| VSwap (i : BuildSwapInput)
| VBridge (c : bridge_tool)
| VLendora (o : lendora_op)
| VLendoraView (v : account_view)
| VLendoraMarkets
| VLendoraDetails (asset : string)
| VLendoraDashboard.

Inductive call : Type :=
| KChallenge (owner : string)
| KVerify (nonce signature : string)
| KBroadcast (clientID : string) (tx : SignedTx)
| KBroadcastEVM (clientID : string) (tx : EVMSignedTx)
| KBuild (c : build_tool)
| KEvm (c : evm_call)
| KSetCap (symbol amount : string)
| KGetCap (symbol : string)
| KRead (c : read_call).

Definition build_tool_name (c : build_tool) : string :=
  match c with
  | TLimit _ => "build_place_limit_order"
  | TMarket _ => "build_place_market_order"
  | TConditional _ => "build_place_conditional_order"
  | TCancel _ => "build_cancel_order"
  | TBatch _ => "build_batch_cancel_orders"
  | TDeposit _ => "build_deposit_to_subaccount"
  | TWithdraw _ => "build_withdraw_from_subaccount"
  | TBankSend _ => "build_bank_send"
  | TTransfer _ => "build_transfer_between_subaccounts"
  end.

Definition evm_tool_name (c : evm_call) : string :=
  match c with
  | VErc (E20Transfer _) => "build_erc20_transfer"
  | VErc (E20Approve _) => "build_erc20_approve"
  | VErc (E20TransferFrom _) => "build_erc20_transfer_from"
  | VErc (E721Transfer _) => "build_erc721_transfer_from"
  | VErc (E721SafeTransfer _) => "build_erc721_safe_transfer_from"
  | VErc (E721Approve _) => "build_erc721_approve"
  | VErc (E721ApproveAll _) => "build_erc721_set_approval_for_all"
  | VQuote _ => "quote_swap"
  | VApproval _ => "build_token_approval"
  | VSwap _ => "build_swap"
  | VBridge c => bridge_name c
  | VLendora o => op_name o
  | VLendoraView (VSummary _) => "lendora_get_account_summary"
  | VLendoraView (VPositions _) => "lendora_get_account_positions"
  | VLendoraView (VBalances _) => "lendora_get_balances"
  | VLendoraView (VRisk _) => "lendora_assess_risk"
  | VLendoraMarkets => "lendora_get_all_markets"
  | VLendoraDetails _ => "lendora_get_market_details"
  | VLendoraDashboard => "lendora_get_protocol_dashboard"
  end.

(** The name a handler is registered under. *)
Definition tool_name (c : call) : string :=
  match c with
  | KChallenge _ => "auth_challenge"
  | KVerify _ _ => "auth_verify"
  | KBroadcast _ _ => "broadcast_signed_tx"
  | KBroadcastEVM _ _ => "broadcast_evm_tx"
  | KBuild c => build_tool_name c
  | KEvm c => evm_tool_name c
  | KSetCap _ _ => "set_transfer_out_cap"
  | KGetCap _ => "get_transfer_out_cap"
  | KRead c => read_tool_name c
  end.

Section System.
Context {RL : RateLib} {E : Env} {N : EVMEnv} {L : ChainLib} {DL : DydxLib} {D : DecLib} {B : ABILib} {U : Unicode}.
Context {DA : DecArith} {Q : QueryEnv} {RD : Reads} (h : Handlers) (d : EVMDeps) (rd : ReadDeps).

Definition handle_evm (ctx : context) (c : evm_call) : M srv unit :=
  match c with
  | VErc c => ignore (run_erc d ctx c)
  | VQuote i => ignore (QuoteSwap d ctx i)
  | VApproval i => ignore (BuildTokenApproval d ctx i)
  | VSwap i => ignore (BuildSwap d ctx i)
  | VBridge c => ignore (run_bridge d ctx c)
  | VLendora o => ignore (run_lendora d ctx o)
  | VLendoraView v => ignore (run_view d ctx v)
  | VLendoraMarkets => ignore (LendoraGetAllMarkets d ctx)
  | VLendoraDetails a => ignore (LendoraGetMarketDetails d ctx a)
  | VLendoraDashboard => ignore (LendoraGetProtocolDashboard d ctx)
  end.

Definition handle (ctx : context) (c : call) : M srv unit :=
  match c with
  | KChallenge owner => ignore (AuthChallenge (h_ChainID h) ctx owner)
  | KVerify nonce sig => ignore (AuthVerify (h_ChainID h) ctx nonce sig)
  | KBroadcast id tx => ignore (BroadcastSignedTx h ctx id tx)
  | KBroadcastEVM id tx => ignore (BroadcastEVMTx h ctx id tx)
  | KBuild t => ignore (run_tool h ctx t)
  | KEvm c => handle_evm ctx c
  | KSetCap sym amount => ignore (SetTransferOutCap ctx sym amount)
  | KGetCap sym => ignore (GetTransferOutCap ctx sym)
  | KRead c => handle_read h d rd ctx c
  end.

Definition serve (hd : option Header) (c : call) : M srv unit :=
  g ← authReceivingMiddleware background (mkRequest hd "tools/call" (Some (tool_name c)));
  match g with
  | AuthRequired => mret tt
  | Forward ctx => handle ctx c
  end.

Definition set_markets (m : Cache) (s : srv) : srv :=
  mkSrv (s_static s) (s_tenants s) (s_nonces s) (s_ips s) (s_sessions s) (s_rate s) (s_idem s) (s_audit s) (s_ledger s)
    (s_out s) (s_disk s) m (s_lendora s) (s_sent s) (s_evm_sent s) (s_http s) (s_reads s).

(** One step of the server, on calls that satisfy [P]. *)
Inductive step (P : call -> Prop) : srv -> srv -> Prop :=
| step_serve hd c s : P c -> step P s (snd (serve hd c s))
| step_markets m s : step P s (set_markets m s)
| step_lendora s : step P s (snd (lendora.Refresh s)).

Definition reachable (P : call -> Prop) : srv -> srv -> Prop := rtc (step P).

Definition keeps_caps (c : call) : Prop := match c with KSetCap _ _ => False | _ => True end.

(** ** What the handlers leave alone *)

Lemma keeps_middleware ctx req : keeps effects (authReceivingMiddleware ctx req).
Proof.
  assert (forall token, keeps effects (LookupTenantByToken token)) as H1.
  { intros token. unfold LookupTenantByToken. keeps_tac. }
  unfold authReceivingMiddleware, resolve, resolve_bearer, resolve_session, session_lookup.
  repeat first [apply H1 | keeps_step].
Qed.

(** A challenge touches the nonces and the addresses only. *)
Definition indoors (s : srv) := (books s, outbox s, registry s, (s_http s, s_disk s)).

Lemma keeps_challenge {X} (v : srv -> X) chain ctx owner :
  (forall s s', indoors s = indoors s' -> v s = v s') -> keeps v (AuthChallenge chain ctx owner).
Proof.
  intros Hv. assert (keeps indoors (AuthChallenge chain ctx owner)) as H.
  { assert (View indoors) by (intros s s' H; exact (f_equal (fun x => (fst x, (fst (snd x), fst (snd (snd x))))) H)).
    unfold AuthChallenge, ip_allow, issue. keeps_tac. }
  intros s. apply Hv, H.
Qed.

Lemma keeps_verify chain ctx nonce sig : keeps (fun s => (books s, outbox s)) (AuthVerify chain ctx nonce sig).
Proof.
  assert (View (fun s => (books s, outbox s))) by (intros s s' H; exact (f_equal (fun x => fst (fst x)) H)).
  unfold AuthVerify, consume, mint, bind_session. keeps_tac.
Qed.

Lemma keeps_evm ctx c : keeps effects (handle_evm ctx c).
Proof. destruct c; cbn [handle_evm]; apply keeps_ignore; auto with keeps nocore. Qed.

(** A refresh of the money-market cache changes that cache only. *)
Lemma keeps_lendora_refresh : keeps effects lendora.Refresh.
Proof.
  assert (forall e l next ord dr, keeps effects (lendora.load_markets e l next ord dr)) as Hl.
  { intros e l. induction l as [|c l IH]; intros next ord dr; cbn [lendora.load_markets]; [done|].
    apply keeps_bind; [apply keeps_try, keeps_loadMarket|]. intros [m|er]; apply IH. }
  unfold lendora.Refresh, lendora.cached.
  repeat first [ apply Hl | apply keeps_wrap_err | apply keeps_resolveCEther | keeps_step ].
Qed.

(** ** The caps hold *)

Context {EL : EnvLaws E}.
Abbreviation Safe := (fun s : srv => safe h (books s)) (only parsing).

Lemma keeps_safe {A} (m : M srv A) : keeps books m -> preserves Safe m.
Proof.
  intros Hk s Hs. specialize (Hk s). destruct (m s) as [[a|e] s1]; cbn [snd] in Hk; by rewrite Hk.
Qed.

Lemma ignore_safe {A} (m : M srv A) : preserves Safe m -> preserves Safe (ignore m).
Proof. intros H s Hs. specialize (H s Hs). unfold ignore. by destruct (m s) as [[a|e] s1]. Qed.

Lemma run_tool_safe ctx c : preserves Safe (run_tool h ctx c).
Proof.
  destruct c as [i|i|i|i|i|i|i|i|i]; cbn [run_tool].
  7: { unfold BuildWithdrawFromSubaccount. apply (triple_keeps (safe h)); [auto with keeps|done|]. intros tp.
       apply triple_lift_bind; [done|]. intros q Hq%wrap_ok%HumanToQuantums_range.
       apply (triple_bind _ _ (fun _ => Safe)).
       - eapply triple_weaken; [apply enforce_safe, Hq|done|by intros [] s [Hs _]|done].
       - intros []. apply keeps_safe. keeps_tac. }
  all: apply keeps_safe; unfold BuildPlaceLimitOrder, BuildPlaceMarketOrder, BuildPlaceConditionalOrder,
    BuildCancelOrder, BuildBatchCancelOrders, BuildDepositToSubaccount, BuildBankSend,
    BuildTransferBetweenSubaccounts; keeps_tac.
Qed.

Lemma used_today_safe ow k : preserves Safe (used_today ow k).
Proof.
  intros s [Hl Ho]. unfold used_today, mbind, M_bind. rewrite now_eq. unfold tick, run_state.
  cbn [s_reads set_reads s_out s_disk]. unfold Used. cbn [fst snd books] in *. destruct (s_out s) as [o|] eqn:Eo.
  - unfold usedLocked. pose proof (rollover_within (env_clock (s_reads s)) (env_io (S (s_reads s))) o (s_disk s)
      (Ho o eq_refl)) as Hw.
    destruct (rolloverLocked _ _ _ _) as [o' d']. split; [done|]. by intros ? [= <-].
  - by split.
Qed.

Lemma cap_view_safe ow l : preserves Safe (transferOutCapView ow l).
Proof.
  induction l as [|a l IH]; cbn [transferOutCapView]; [by intros s Hs|].
  eapply triple_bind; [apply used_today_safe|]. intros used.
  apply (triple_keeps (safe h)); [keeps_tac|done|]. intros cap.
  eapply triple_bind; [apply IH|]. by intros rest s Hs.
Qed.

Lemma handle_safe ctx c : keeps_caps c -> preserves Safe (handle ctx c).
Proof.
  destruct c as [| | | | |c| | |c]; cbn [handle keeps_caps]; intros Hc; try done.
  6: { apply keeps_safe, (keeps_view books), keeps_evm; apply _. }
  7: { apply keeps_safe. intros s. exact (f_equal (fun x => fst (fst x)) (keeps_handle_read h d rd ctx c s)). }
  all: apply ignore_safe.
  - apply keeps_safe, (keeps_challenge books). intros s s' H. exact (f_equal (fun x => fst (fst (fst x))) H).
  - apply keeps_safe. eapply keeps_fst, keeps_verify.
  - apply BroadcastSignedTx_safe.
  - apply BroadcastEVMTx_safe.
  - apply run_tool_safe.
  - unfold GetTransferOutCap. apply (triple_keeps (safe h)); [auto with keeps|done|]. intros tp.
    apply triple_lift_bind; [done|]. intros l _. apply cap_view_safe.
Qed.

Lemma step_safe s s' : step keeps_caps s s' -> Safe s -> Safe s'.
Proof.
  intros [hd c s0 Hc|m s0|s0] Hs; [|done|].
  2: { pose proof (keeps_view books _ keeps_lendora_refresh s0) as Hk. by rewrite Hk. }
  assert (preserves Safe (serve hd c)) as H.
  { unfold serve. apply (triple_keeps (safe h)); [apply (keeps_view books), keeps_middleware; apply _|done|].
    intros [|ctx]; [by intros ? ?|by apply handle_safe]. }
  specialize (H s0 Hs). by destruct (serve hd c s0) as [[[]|e] s1].
Qed.

(** ** Who the senders are *)

(** The engine has no static tenants ([NewEngine(nil)] in wire.go), and the
    records of the tenant store are filed under their own ids. *)
Definition sound (r : gmap string TenantPolicy * DynamicTenantStore) : Prop :=
  fst r = ∅ /\ map_Forall (fun tid rec => tr_TenantID rec = tid) (dt_byTenant (snd r)).

Lemma sound_mint owner b t now s st :
  sound (s, st) -> sound (s, snd (Mint owner b t now st)).
Proof.
  intros [H1 H2]. unfold Mint. destruct (String.eqb owner ""); [done|]. destruct b as [b|]; [|done].
  destruct t as [t|]; [|done]. split; [done|]. cbn [snd fst with_maps dt_byTenant] in *.
  apply map_Forall_insert_2; [reflexivity|exact H2].
Qed.

Lemma keeps_preserves {X A} (v : srv -> X) (F : X -> Prop) (m : M srv A) :
  keeps v m -> preserves (fun s => F (v s)) m.
Proof. intros Hk s Hs. specialize (Hk s). destruct (m s) as [[a|e] s1]; cbn [snd] in Hk; by rewrite Hk. Qed.

Lemma keeps_registry_broadcasts ctx :
  (forall id tx, keeps registry (BroadcastSignedTx h ctx id tx)) /\ (forall id tx, keeps registry (BroadcastEVMTx h ctx id tx)).
Proof. split; intros id tx; [unfold BroadcastSignedTx|unfold BroadcastEVMTx]; keeps_tac. Qed.

Lemma keeps_caps_tools ctx :
  (forall sym amount, keeps (fun s => (outbox s, registry s)) (SetTransferOutCap ctx sym amount))
  /\ (forall sym, keeps (fun s => (outbox s, registry s)) (GetTransferOutCap ctx sym)).
Proof.
  assert (View (fun s => (outbox s, registry s))).
  { intros s s' H. exact (f_equal (fun x => (snd (fst (fst x)), snd (fst x))) H). }
  split; intros.
  - unfold SetTransferOutCap, set_unlimited, set_cap. keeps_tac.
  - unfold GetTransferOutCap. apply keeps_bind; [keeps_tac|]. intros tp. apply keeps_bind; [done|]. intros l.
    induction l as [|a l IH]; cbn [transferOutCapView]; [done|]. unfold used_today. keeps_tac.
Qed.

(** What minting with the draws of the environment keeps true of the registry,
    every step of the server keeps true: nothing else writes it. *)
Section Minted.
Variable F : gmap string TenantPolicy * DynamicTenantStore -> Prop.
Hypothesis HF : forall owner n1 n2 t s st, F (s, st) -> F (s, snd (Mint owner (env_rand n1) (env_rand n2) t st)).
Abbreviation Kept := (fun s : srv => F (registry s)) (only parsing).

Lemma verify_minted ctx nonce sig : preserves Kept (AuthVerify (h_ChainID h) ctx nonce sig).
Proof.
  unfold AuthVerify. eapply triple_bind.
  { apply (keeps_preserves registry F). unfold consume. keeps_tac. }
  intros [owner exp]. apply triple_lift_bind; [done|]. intros sg _. apply triple_lift_bind; [done|]. intros rec _.
  destruct (negb _); [by intros s Hs|]. apply (triple_bind _ _ (fun _ => Kept)).
  - intros s Hs. unfold wrapM, mint, mbind, M_bind, tick. rewrite now_eq. unfold run_state.
    cbn [set_reads s_reads s_tenants].
    match goal with |- context [Mint ?o (env_rand ?a) (env_rand ?b) ?t ?st] => pose proof (HF o a b t (s_static s) st Hs) as Hm;
      destruct (Mint o (env_rand a) (env_rand b) t st) as [[x|e] st'] end; exact Hm.
  - intros [[bearer tid] bexp]. apply (keeps_preserves registry F). unfold bind_session. keeps_tac.
Qed.

Lemma handle_minted ctx c : preserves Kept (handle ctx c).
Proof.
  assert (forall A (m : M srv A), preserves Kept m -> preserves Kept (ignore m)) as Hi.
  { intros A m H s Hs. specialize (H s Hs). unfold ignore. by destruct (m s) as [[a|e] s1]. }
  destruct c as [| | | | |c| | |c]; cbn [handle].
  9: { apply (keeps_preserves registry F). intros s. exact (f_equal (fun x => fst (snd x)) (keeps_handle_read h d rd ctx c s)). }
  6: { apply (keeps_preserves registry F), (keeps_view registry), keeps_evm; apply _. }
  2: { apply Hi, verify_minted. }
  all: apply Hi, (keeps_preserves registry F).
  - apply (keeps_challenge registry). intros s s' H. exact (f_equal (fun x => snd (fst x)) H).
  - apply keeps_registry_broadcasts.
  - apply keeps_registry_broadcasts.
  - eapply keeps_snd, keeps_run_tool.
  - eapply keeps_snd, (proj1 (keeps_caps_tools ctx)).
  - eapply keeps_snd, (proj2 (keeps_caps_tools ctx)).
Qed.

Lemma step_minted P s s' : step P s s' -> Kept s -> Kept s'.
Proof.
  intros [hd c s0 Hc|m s0|s0] Hs; [|done|].
  2: { pose proof (keeps_view registry _ keeps_lendora_refresh s0) as Hk. by rewrite Hk. }
  assert (preserves Kept (serve hd c)) as H.
  { unfold serve. eapply triple_bind; [apply (keeps_preserves registry F), (keeps_view registry), keeps_middleware; apply _|].
    intros [|ctx]; [by intros ? ?|by apply handle_minted]. }
  specialize (H s0 Hs). by destruct (serve hd c s0) as [[[]|e] s1].
Qed.

Lemma reachable_minted P s s' : reachable P s s' -> Kept s -> Kept s'.
Proof. induction 1 as [|s s1 s2 H1 _ IH]; [done|]. intros Hs. by apply IH, (step_minted P s s1 H1). Qed.

End Minted.

Abbreviation Sound := (fun s : srv => sound (registry s)) (only parsing).

(** The policy the engine gives the tenant of a bearer is that of its record. *)
Lemma policy_of_bearer s bearer t t2 rec tp :
  sound (registry s) -> bears bearer t rec (s_tenants s) -> in_force (tr_TenantID rec) t2 tp (engine s) -> tp = policy_of_record rec.
Proof.
  intros [Hst Hids] (tid & _ & Er & _) Ht. cbn [registry fst snd] in Hst, Hids.
  pose proof (Hids tid rec Er) as Hid. cbn in Hid. rewrite Hid in Ht. unfold in_force, engine in Ht. cbn [perTenant dynamic] in Ht.
  rewrite Hst, lookup_empty in Ht. destruct Ht as [Ht|(_ & st & rec' & [= <-] & Er' & _ & ->)]; [done|]. by simplify_eq.
Qed.

(** What a served request that reached a node says about its sender. *)
Definition sent_authentic (hd : option Header) (s s' : srv) : Prop :=
  exists hdr rec, hd = Some hdr /\ presents s hdr rec /\ tr_KillSwitch rec = false
  /\ ((exists raw, s_sent s' = s_sent s ++ [raw] /\ s_evm_sent s' = s_evm_sent s
         /\ signerAddressFromTxRaw raw = Ok (tr_Owner rec))
      \/ (exists etx from, s_evm_sent s' = s_evm_sent s ++ [(route h etx, etx)] /\ s_sent s' = s_sent s
         /\ EthTx_Sender etx = Ok from /\ ownerEthAddress (tr_Owner rec) = Ok from)).

Lemma admitted_presents hd c ctx s s1 clientID tp :
  sound (registry s) ->
  authReceivingMiddleware background (mkRequest hd "tools/call" (Some (tool_name c))) s = (Ok (Forward ctx), s1) ->
  admitted ctx clientID tp s1 ->
  exists hdr rec, hd = Some hdr /\ presents s hdr rec /\ tr_KillSwitch rec = false /\ tp_Owner tp = tr_Owner rec.
Proof.
  intros Hs Hm ((tc & Htc & Ht & _ & Hk) & _).
  destruct (middleware_inv background _ s s1 ctx eq_refl Hm) as (_ & Hr & (n & ->)).
  destruct (Hr tc Htc) as (hdr & Eh & rec & Hp & ->). cbn [rq_header tc_TenantID] in *.
  change (engine (set_reads n s)) with (engine s) in Ht.
  assert (tp = policy_of_record rec) as ->.
  { destruct Hp as [(bearer & _ & Hb)|(b & bearer & _ & _ & _ & Hb)]; by eapply policy_of_bearer. }
  by exists hdr, rec.
Qed.

(** Everything but the counter of interactions. *)
Definition still (s : srv) : srv := set_reads 0 s.

Lemma still_middleware ctx req : keeps still (authReceivingMiddleware ctx req).
Proof.
  assert (keeps still now) as Hn by (intros s; by rewrite now_eq).
  assert (forall token, keeps still (LookupTenantByToken token)) as Hl.
  { intros token. unfold LookupTenantByToken. apply keeps_bind; [exact Hn|]. intros t. apply keeps_run. intros s. by case_match. }
  assert (forall sid, keeps still (session_lookup sid)) as Hs.
  { intros sid. unfold session_lookup. apply keeps_bind; [exact Hn|]. intros t. by apply keeps_run. }
  unfold authReceivingMiddleware, resolve, resolve_bearer, resolve_session.
  repeat first [ apply Hl | apply Hs | apply keeps_ret | apply keeps_get | apply keeps_bind; [|intros ?] | case_match ].
Qed.

Definition handshake (c : call) : bool := match c with KChallenge _ | KVerify _ _ => true | _ => false end.

Lemma gated_tool c : handshake c = false -> RequiresAuth (tool_name c) = true.
Proof.
  destruct c; try done; intros _;
    cbv [tool_name build_tool_name evm_tool_name bridge_name op_name read_tool_name read_tool market_tool_name];
    repeat case_match; reflexivity.
Qed.

Lemma serve_inert hd c s :
  handshake c = false -> (forall hdr rec, hd = Some hdr -> ~ presents s hdr rec) -> still (snd (serve hd c s)) = still s.
Proof.
  intros Hc Hno. unfold serve, mbind, M_bind.
  pose proof (still_middleware background (mkRequest hd "tools/call" (Some (tool_name c))) s) as Hk.
  destruct (authReceivingMiddleware _ _ s) as [[[|ctx]|e] s1] eqn:Em; [exact Hk| |exact Hk]. exfalso.
  destruct (middleware_inv background _ s s1 ctx eq_refl Em) as (Hg & Hr & _).
  specialize (Hg eq_refl (tool_name c) eq_refl (gated_tool c Hc)). destruct (TenantFrom ctx) as [tc|] eqn:Et; [|done].
  destruct (Hr tc eq_refl) as (hdr & Eh & rec & Hp & _). exact (Hno hdr rec Eh Hp).
Qed.

Lemma serve_authentic hd c s :
  sound (registry s) ->
  outbox (snd (serve hd c s)) = outbox s \/ sent_authentic hd s (snd (serve hd c s)).
Proof.
  intros Hs. unfold serve, mbind, M_bind.
  pose proof (keeps_view outbox _ (keeps_middleware background (mkRequest hd "tools/call" (Some (tool_name c)))) s) as Ho.
  destruct (authReceivingMiddleware _ _ s) as [[g|e] s1] eqn:Em; [|by left]. cbn [snd] in Ho.
  destruct g as [|ctx]; [by left|]. pose proof (fun id tp => admitted_presents hd c ctx s s1 id tp Hs Em) as Hp.
  destruct (outbox_eq _ _ Ho) as [Eo1 Eo2]. rewrite <- Ho.
  destruct c as [| | | | |c| | |c]; cbn [handle].
  9: { left. exact (f_equal (fun x => snd (fst x)) (keeps_handle_read h d rd ctx c s1)). }
  6: { left. exact (keeps_view outbox _ (keeps_evm ctx c) s1). }
  all: unfold ignore.
  - left. pose proof (keeps_challenge outbox (h_ChainID h) ctx owner (fun s s' H => f_equal (fun x => snd (fst (fst x))) H) s1) as H.
    by destruct (AuthChallenge _ _ _ s1).
  - left. pose proof (keeps_snd _ _ _ (keeps_verify (h_ChainID h) ctx nonce signature) s1) as H.
    by destruct (AuthVerify _ _ _ _ s1).
  - destruct (BroadcastSignedTx h ctx clientID tx s1) as [r s2] eqn:Eb. cbn [snd].
    apply signed_guarded in Eb as [Eb|(tp & raw & q & out & E1 & E2 & Ha & _ & Hsig & _)]; [by left|right].
    destruct (Hp _ _ Ha) as (hdr & rec & ? & ? & ? & Ew). exists hdr, rec. split_and!; [done..|]. left. exists raw.
    rewrite E1, E2, Eo1, Eo2, <- Ew. done.
  - destruct (BroadcastEVMTx h ctx clientID tx s1) as [r s2] eqn:Eb. cbn [snd].
    apply evm_guarded in Eb as [Eb|(tp & raw & etx & from & E1 & E2 & _ & Ha & _ & _ & Hsig & Heth)]; [by left|right].
    destruct (Hp _ _ Ha) as (hdr & rec & ? & ? & ? & Ew). exists hdr, rec. split_and!; [done..|]. right. exists etx, from.
    rewrite E1, E2, Eo1, Eo2, <- Ew. done.
  - left. pose proof (keeps_fst _ _ _ (keeps_run_tool h ctx c) s1) as H. by destruct (run_tool h ctx c s1).
  - left. pose proof (keeps_fst _ _ _ (proj1 (keeps_caps_tools ctx) symbol amount) s1) as H. by destruct (SetTransferOutCap _ _ _ s1).
  - left. pose proof (keeps_fst _ _ _ (proj2 (keeps_caps_tools ctx) symbol) s1) as H. by destruct (GetTransferOutCap _ _ s1).
Qed.

Lemma reachable_sound P s s' : Sound s -> reachable P s s' -> Sound s'.
Proof. intros Hs Hr. eapply (reachable_minted sound); [|done..]. intros. by apply sound_mint. Qed.

Lemma reachable_safe s s' : Safe s -> reachable keeps_caps s s' -> Safe s'.
Proof. intros Hs Hr. induction Hr as [|s s1 s2 H1 _ IH]; [done|]. by apply IH, (step_safe s s1 H1). Qed.

End System.

(** ** Claims *)

(** C3: the caps hold in every reachable state.  From a server within its caps,
    whatever requests arrive, authenticated or not, in whatever order and with
    whatever answers of the clock, the disk and the nodes, as long as no owner
    changes a cap: on every UTC day every tenant's withdrawals stay within the
    daily cap and every owner's transfers out of a capped symbol, over both
    rails together, stay within the symbol's cap. *)
Theorem caps_hold {RL : RateLib} {E : Env} {EL : EnvLaws E} {L : ChainLib} {DL : DydxLib} {D : DecLib} {U : Unicode}
    {N : EVMEnv} {B : ABILib} {DA : DecArith} {Q : QueryEnv} {RD : Reads} (h : Handlers) (d : EVMDeps) (rd : ReadDeps) (s s' : srv)
    (Hr : reachable h d rd keeps_caps s s') (Hs : safe h (books s)) :
  (forall l now t, s_ledger s' = Some l -> spent l now t <= ledger_cap l)
  /\ (forall o now ow k c b, s_out s' = Some o -> at2 (caps o) ow k = Some c -> CapBase c = Some b ->
        0 <= moved o now ow k <= b).
Proof.
  destruct (reachable_safe h d rd s s' Hs Hr) as [Hl Ho]. split.
  - intros l now t El. exact (proj2 (proj1 (Hl l El)) now t).
  - intros o now ow k c b Eo Hc Hb. exact (Ho o Eo ow k c b Hc Hb now).
Qed.

(** C1: nothing is broadcast but for the holder of a key.  In every state
    reachable from a fresh server, by requests of any kind, a request that gets
    a transaction to a node presented a bearer (in its header or bound to its
    session) whose expiry was still ahead at the clock reading with which it was
    looked up, of a tenant that is not kill-switched, and the transaction was
    signed by the owner that tenant was minted for; every other request leaves
    the outbox as it was. *)
Theorem only_owners_send {RL : RateLib} {E : Env} {L : ChainLib} {DL : DydxLib} {D : DecLib} {U : Unicode}
    {N : EVMEnv} {B : ABILib} {DA : DecArith} {Q : QueryEnv} {RD : Reads} (h : Handlers) (d : EVMDeps) (rd : ReadDeps)
    (s0 s : srv) (hd : option Header) (c : call)
    (H0 : sound (registry s0)) (Hr : reachable h d rd (fun _ => True) s0 s) :
  outbox (snd (serve h d rd hd c s)) = outbox s \/ sent_authentic h hd s (snd (serve h d rd hd c s)).
Proof. by eapply serve_authentic, reachable_sound. Qed.

(** C15: without a bearer nothing happens.  Any request for any of the registered
    tools other than the two of the handshake, made without a bearer in its header
    or bound to its session, or with one that has expired at the clock reading
    with which it is looked up, leaves every store, cache, cap, limiter and
    log of the server as it was and sends nothing to a node, an indexer or a
    faucet: only the middleware looked at it. *)
Theorem unauthenticated_inert {RL : RateLib} {E : Env} {L : ChainLib} {DL : DydxLib} {D : DecLib} {U : Unicode}
    {N : EVMEnv} {B : ABILib} {DA : DecArith} {Q : QueryEnv} {RD : Reads} (h : Handlers) (d : EVMDeps) (rd : ReadDeps)
    (s : srv) (hd : option Header) (c : call) (Hc : handshake c = false)
    (Hno : forall hdr rec, hd = Some hdr -> ~ presents s hdr rec) :
  still (snd (serve h d rd hd c s)) = still s.
Proof. by apply serve_inert. Qed.

(** ** A session on the demonstration server: log in, then withdraw. *)

Definition demo_hd : option Header := Some {["Mcp-Session-Id"%string := "sess"%string]}.
Definition demo_serve (c : call) : M (srv (RL := demo_rate)) unit :=
  serve (E := demo_env) (L := demo_lib) (DL := dydx_lib) (D := demo_dec) (U := unicode_id)
    (N := demo_net) (B := demo_abi) (DA := demo_arith) (Q := demo_queries) (RD := demo_reads) demo_handlers demo_deps demo_read_deps demo_hd c.
Definition demo_s1 := snd (demo_serve (KChallenge "svp1a") demo_srv).
Definition demo_s2 := snd (demo_serve (KVerify "02" demo_sig) demo_s1).
Definition demo_s3 := snd (demo_serve (KBroadcast "c1" demo_signed) demo_s2).

Example demo_session_sends : s_sent demo_s3 = [chars "500000"].
Proof. vm_compute. reflexivity. Qed.

Lemma caps_hold_witness :
  exists l, s_ledger demo_s3 = Some l /\ spent l 20 "auto-07" <= ledger_cap l.
Proof.
  destruct (s_ledger demo_s3) as [l|] eqn:El; [|vm_compute in El; discriminate].
  exists l. split; [reflexivity|].
  apply (caps_hold (EL := demo_env_laws) (L := demo_lib) (DL := dydx_lib) (D := demo_dec) (U := unicode_id)
           (N := demo_net) (B := demo_abi) (DA := demo_arith) (Q := demo_queries) (RD := demo_reads) demo_handlers demo_deps demo_read_deps demo_srv demo_s3); [|exact demo_srv_safe|exact El].
  apply (rtc_l _ _ demo_s1); [apply step_serve; exact I|].
  apply (rtc_l _ _ demo_s2); [apply step_serve; exact I|].
  apply (rtc_l _ _ demo_s3); [apply step_serve; exact I|]. apply rtc_refl.
Defined.

Lemma only_owners_send_witness :
  exists hdr rec, demo_hd = Some hdr /\ presents (E := demo_env) demo_s2 hdr rec
  /\ @signerAddressFromTxRaw demo_lib (chars "500000") = Ok (tr_Owner rec).
Proof.
  destruct (only_owners_send (L := demo_lib) (DL := dydx_lib) (D := demo_dec) (U := unicode_id) (E := demo_env)
              (N := demo_net) (B := demo_abi) (DA := demo_arith) (Q := demo_queries) (RD := demo_reads) demo_handlers demo_deps demo_read_deps demo_srv demo_s2 demo_hd (KBroadcast "c1" demo_signed)) as [H|H].
  - split; [reflexivity|]. intros tid rec Hl. cbn in Hl. by rewrite lookup_empty in Hl.
  - apply (rtc_l _ _ demo_s1); [apply step_serve; exact I|].
    apply (rtc_l _ _ demo_s2); [apply step_serve; exact I|]. apply rtc_refl.
  - exfalso. apply (f_equal fst) in H. vm_compute in H. discriminate.
  - destruct H as (hdr & rec & E1 & Hp & _ & [(raw & Hs & _ & Hsig)|(etx & from & He & _)]).
    + exists hdr, rec. split; [exact E1|]. split; [exact Hp|]. vm_compute in Hs. injection Hs as <-. exact Hsig.
    + exfalso. change (s_evm_sent demo_s3 = s_evm_sent demo_s2 ++ [(route demo_handlers etx, etx)]) in He.
      assert (s_evm_sent demo_s3 = []) as E0 by (vm_compute; reflexivity). rewrite E0 in He.
      exact (app_cons_not_nil _ _ _ He).
Defined.

(** Two days later the session of the login and its bearer are still stored, but
    have expired. *)
Definition demo_late : Env := {|
  env_clock := fun _ => 48 * Hour; env_rand := env_rand (Env := demo_env); env_io := env_io (Env := demo_env);
  env_write := env_write (Env := demo_env); env_range := env_range (Env := demo_env); env_account := env_account (Env := demo_env);
  env_broadcast := env_broadcast (Env := demo_env); env_evm_send := env_evm_send (Env := demo_env);
  env_error_text := env_error_text (Env := demo_env) |}.

Lemma unauthenticated_inert_witness :
  dt_byTenant (s_tenants demo_s2) <> ∅
  /\ still (snd (serve (E := demo_late) (L := demo_lib) (DL := dydx_lib) (D := demo_dec) (U := unicode_id) (N := demo_net) (B := demo_abi)
       (DA := demo_arith) (Q := demo_queries) (RD := demo_reads) demo_handlers demo_deps demo_read_deps demo_hd
       (KBroadcast "c1" demo_signed) demo_s2)) = still demo_s2.
Proof.
  split; [vm_compute; discriminate|].
  apply (unauthenticated_inert (L := demo_lib) (DL := dydx_lib) (D := demo_dec) (U := unicode_id) (E := demo_late)
           (N := demo_net) (B := demo_abi) (DA := demo_arith) (Q := demo_queries) (RD := demo_reads) demo_handlers demo_deps
           demo_read_deps demo_s2 demo_hd (KBroadcast "c1" demo_signed) eq_refl).
  intros hdr rec [= <-] [(bearer & Hh & _)|(b & bearer & Hb & _ & (_ & e & He & _ & Ht) & _)].
  - vm_compute in Hh. discriminate.
  - vm_compute in Hb. injection Hb as <-. vm_compute in He. injection He as <-. vm_compute in Ht. discriminate.
Defined.
