(* ===== verification/Login.v ===== *)
(** * A login and what follows it (auth_tools.go, mcp_auth.go, dynamic_tenants.go)

    From the challenge to the last request before the bearer expires: what the
    signer of [Signer] answers is accepted by [AuthTools], and the requests of
    everybody else that [System] serves in between do not take the bearer away.
    The one thing that could is a random draw that repeats one of the login. *)

From S2P Require Import Prelude GoStrings GoNum GoTime GoEncoding Limits TransferOut Challenge NonceStore IPRateLimiter.
From S2P Require Import SessionBearers DynamicTenants Policy Markets Units ChainLib Payload Assembler Assets.
From S2P Require Import TxInspect Cancels Orders FundsBuilder Builders Server AuthTools Signer Broadcast Tools.
From S2P Require Import EVMBuilder BridgeRegistry ABI EVMTools SwapTools BridgeTools LendoraABI LendoraCache.
From S2P Require Import LendoraFormat LendoraRisk LendoraOps LendoraRead Indexer AccountTools MarketTools FaucetTools ReadTools System.

(** No draw of an environment makes this bearer or this tenant id again. *)
Definition spares {E : Env} (bearer tid : string) : Prop :=
  forall n b, env_rand n = Ok b -> HexEncode b <> bearer /\ ("auto-" +:+ HexEncode b)%string <> tid.

(** The record is stored under the bearer. *)
Definition stored (bearer : string) (rec : TenantRecord) (r : gmap string TenantPolicy * DynamicTenantStore) : Prop :=
  dt_byBearer (snd r) !! bearer = Some (tr_TenantID rec) /\ dt_byTenant (snd r) !! tr_TenantID rec = Some rec.

Lemma stored_mint {E : Env} bearer rec owner n1 n2 t s st :
  spares bearer (tr_TenantID rec) -> stored bearer rec (s, st) ->
  stored bearer rec (s, snd (Mint owner (env_rand n1) (env_rand n2) t st)).
Proof.
  intros Hd [H1 H2]. unfold Mint. destruct (String.eqb owner ""); [done|]. destruct (env_rand n1) as [b1|] eqn:E1; [|done].
  destruct (env_rand n2) as [b2|] eqn:E2; [|done]. split; cbn [snd with_maps dt_byBearer dt_byTenant] in *.
  - rewrite lookup_insert_ne; [done|]. by apply (Hd n1 b1).
  - rewrite lookup_insert_ne; [done|]. by apply (Hd n2 b2).
Qed.

Lemma Unix_le t : TimeUnix (Unix t) <= t.
Proof. unfold TimeUnix, Unix, Second. rewrite Z.mul_comm. apply Z.mul_div_le. lia. Qed.

(** ** Claims *)

(** C11: the owner gets in and stays in.  After auth_challenge for an owner, whoever
    signs the returned text with the owner's key and calls auth_verify before the
    announced expiry, on any later state in which that nonce was not consumed,
    is given a bearer for that owner.  From then on, whatever requests of anybody
    are served in between, logins of others and of the same owner included, with
    any clock and any answers of the nodes, and as long as no random draw repeats
    the bearer or the tenant id, every request that carries the bearer in its
    header before the announced expiry is forwarded with the owner's tenant.
    (Nonces have thirty-two characters, and the random source does not fail.) *)
Theorem login_completes {RL : RateLib} {E : Env} {L : ChainLib} {S : SignLib L} {SL : SignLaws L S}
    (chainID owner : string) (ctx0 ctx : context) (key : PrivKey) (sig : bytes) (s0 s1 s : srv) (ch : AuthChallengeOutput)
    (Hch : AuthChallenge chainID ctx0 owner s0 = (Ok ch, s1))
    (Hlen : List.length (chars (ac_Nonce ch)) = 32%nat)
    (Hkey : DeriveAddress key = Ok owner)
    (Hsig : PrivKey_Sign key (chars (ac_Challenge ch)) = Ok sig)
    (Hlive : ns_entries (s_nonces s) !! ac_Nonce ch = ns_entries (s_nonces s1) !! ac_Nonce ch)
    (Htime : env_clock (s_reads s) < TimeUnix (ac_ExpiresAt ch))
    (Hrand : forall n, is_ok (env_rand n) = true) :
  exists out s' tid, AuthVerify chainID ctx (ac_Nonce ch) (Base64Encode sig) s = (Ok out, s') /\ av_Owner out = owner
  /\ av_ExpiresAt out = Unix (reading s 3 + dt_ttl (s_tenants s)) /\ dt_byBearer (s_tenants s') !! av_BearerToken out = Some tid
  /\ forall (E' : Env) (DL : DydxLib) (D : DecLib) (U : Unicode) (N : EVMEnv) (B : ABILib) (DA : DecArith) (Q : QueryEnv) (RD : Reads)
       h d rd s2 ctx1 method tool hdr,
     reachable (E := E') h d rd (fun _ => True) s' s2 -> spares (E := E') (av_BearerToken out) tid ->
     hdr !! "Authorization"%string = Some ("Bearer " +:+ av_BearerToken out)%string ->
     env_clock (Env := E') (s_reads s2) < TimeUnix (av_ExpiresAt out) ->
     exists ctx' s3, authReceivingMiddleware (E := E') ctx1 (mkRequest (Some hdr) method tool) s2 = (Ok (Forward ctx'), s3)
     /\ TenantFrom ctx' = Some (mkTenantContext tid owner).
Proof.
  apply AuthChallenge_inv in Hch as (Ho & exp & Htext & Hexp & Hent). rewrite Hent in Hlive.
  rewrite Hexp in Htime. rewrite Htext in Hsig.
  pose proof (recover_signed key owner _ sig Hkey (challenge_long chainID _ exp Hlen) Hsig) as Hrec.
  destruct (AuthVerify_run chainID ctx (ac_Nonce ch) (Base64Encode sig) sig owner exp s Hlive (Z.lt_le_trans _ _ _ Htime (Unix_le exp))
    (base64_roundtrip sig) Hrec Ho Hrand) as (out & s' & rec & Hv & Hown & Hro & Hx & Hxt & Hb & Ht).
  exists out, s', (tr_TenantID rec). rewrite <- Hxt. split_and!; [done..|].
  intros E' DL D U N B DA Q RD h d rd s2 ctx1 method tool hdr Hr Hd Hh Ht2.
  eapply (reachable_minted (E := E') h d rd (stored (av_BearerToken out) rec)) in Hr as [Hb2 Ht3];
    [|intros; by apply (stored_mint (E := E'))|by split].
  destruct (middleware_run (E := E') ctx1 method tool hdr _ rec s2 Hh) as (ctx' & s3 & Hm & Htc).
  { apply LookupByBearer_bears. exists (tr_TenantID rec). split_and!; [done..|]. rewrite Hx in Ht2.
    exact (Z.lt_le_trans _ _ _ Ht2 (Unix_le _)). }
  exists ctx', s3. by rewrite <- Hro.
Qed.

(** A login, a challenge for somebody else, and a request with the bearer. *)
Lemma login_completes_witness :
  exists ch, fst demo_login = Ok ch
  /\ exists out s' tid, @AuthVerify demo_rate demo_login_env demo_wire_lib "svp-2517-1" background (ac_Nonce ch)
       (Base64Encode (repeat "k"%char 32 ++ repeat "x"%char 33)) (snd demo_login) = (Ok out, s')
     /\ av_Owner out = demo_key_owner
     /\ exists ctx' s3, authReceivingMiddleware (E := demo_still) background
          (mkRequest (Some {["Authorization"%string := ("Bearer " +:+ av_BearerToken out)%string]}) "tools/call" (Some "get_balance"%string))
          (snd (serve (E := demo_still) (L := demo_wire_lib) (DL := dydx_lib) (D := demo_dec) (U := unicode_id) (N := demo_net)
             (B := demo_abi) (DA := demo_arith) (Q := demo_queries) (RD := demo_reads) demo_handlers demo_deps demo_read_deps
             None (KChallenge "svp1a") s')) = (Ok (Forward ctx'), s3)
          /\ TenantFrom ctx' = Some (mkTenantContext tid demo_key_owner).
Proof.
  destruct demo_login as [r s1] eqn:El. destruct r as [ch|e]; [|by vm_compute in El].
  assert (fst demo_login = Ok ch) as Hc by (rewrite El; reflexivity).
  assert (s1 = snd demo_login) as Hr by (rewrite El; reflexivity).
  vm_compute in Hc. injection Hc as Hc. exists ch. split; [reflexivity|].
  destruct (@login_completes demo_rate demo_login_env demo_wire_lib demo_sign_lib demo_sign_laws "svp-2517-1" demo_key_owner
    background background demo_key (repeat "k"%char 32 ++ repeat "x"%char 33) demo_srv s1 s1 ch El
    ltac:(by rewrite <- Hc) eq_refl eq_refl eq_refl
    ltac:(rewrite Hr, <- Hc; vm_compute; reflexivity) (fun _ => eq_refl)) as (out & s' & tid & Hv & Ho & Hx & Ht & Hf).
  exists out, s', tid. split; [exact Hv|]. split; [exact Ho|]. eapply Hf; [eapply rtc_once, step_serve; exact I|..|reflexivity|].
  - rewrite Hr, <- Hc in Hv. vm_compute in Hv. injection Hv as <- <-. vm_compute in Ht. injection Ht as <-.
    intros n b [= <-]. split; intros H; apply (f_equal String.length) in H; vm_compute in H; discriminate.
  - rewrite Hx, Hr. vm_compute. reflexivity.
Defined.
