(* ===== verification/Edge.v ===== *)
(** * The HTTP edge (cmd/mcp-server/server.go, cmd/mcp-server/auth.go)

    [NewServer] puts the parts in a row: the HTTP server dispatches every request
    to the wrapper that stamps the client's address into a header, behind it the
    MCP server runs the receiving middleware and then the tool.  Here a request
    is what arrives on the socket, with whatever headers its sender chose, and
    the limit on handshakes per address is followed from the socket to the
    limiter. *)

From S2P Require Import Prelude GoStrings GoNum GoTime GoEncoding Limits TransferOut NonceStore IPRateLimiter.
From S2P Require Import SessionBearers DynamicTenants Policy Markets Units ChainLib Payload Assembler Assets.
From S2P Require Import TxInspect Cancels Orders FundsBuilder Builders Server AuthTools Broadcast Tools.
From S2P Require Import EVMBuilder BridgeRegistry ABI EVMTools SwapTools BridgeTools LendoraABI LendoraCache.
From S2P Require Import LendoraFormat LendoraRisk LendoraOps LendoraRead Indexer AccountTools MarketTools FaucetTools ReadTools System.

Record HttpCall : Type := mkHttpCall { hc_RemoteAddr : string; hc_Header : Header; hc_call : call }.

Section Edge.
Context {RL : RateLib} {E : Env} {N : EVMEnv} {L : ChainLib} {DL : DydxLib} {D : DecLib} {B : ABILib} {U : Unicode}.
Context {DA : DecArith} {Q : QueryEnv} {RD : Reads} (h : Handlers) (d : EVMDeps) (rd : ReadDeps).

(** The handler [NewServer] builds. *)
Definition ServeHTTP (r : HttpCall) : M srv unit :=
  serve h d rd (Some (ipMiddleware (hc_RemoteAddr r) (hc_Header r))) (hc_call r).

Definition http_run (rs : list HttpCall) (s : srv) : srv := foldl (fun s r => snd (ServeHTTP r s)) s rs.

(** A nonce came in, new or in the place of another. *)
Definition issued (s s' : srv) : bool := negb (bool_decide (ns_entries (s_nonces s') ⊆ ns_entries (s_nonces s))).

(** How many challenges the requests from an address obtain. *)
Fixpoint challenges (ip : string) (rs : list HttpCall) (s : srv) : Z :=
  match rs with
  | [] => 0
  | r :: rs =>
      let s' := snd (ServeHTTP r s) in
      (if String.eqb (clientIP (hc_RemoteAddr r)) ip && issued s s' then 1 else 0) + challenges ip rs s'
  end.

(** ** One request *)

Lemma middleware_ip ctx hdr method tool s s' ctx' :
  ctx_ip ctx = None ->
  authReceivingMiddleware ctx (mkRequest (Some hdr) method tool) s = (Ok (Forward ctx'), s') -> IPFrom ctx' = header_get hdr ipHeader.
Proof.
  intros Hn H. unfold authReceivingMiddleware in H. m_inv H as c1 s1 H1. cbn [rq_header] in H1.
  destruct (_ && bool_decide (TenantFrom c1 = None)); [done|]. injection H as <- _.
  unfold resolve in H1. m_inv H1 as r1 s2 H2.
  assert (forall c0, ctx_ip c0 = (if String.eqb (header_get hdr ipHeader) "" then None else Some (header_get hdr ipHeader)) ->
            IPFrom c0 = header_get hdr ipHeader) as Hip.
  { intros c0 Hc. unfold IPFrom. rewrite Hc. by destruct (String.eqb_spec (header_get hdr ipHeader) "") as [->|]. }
  destruct r1 as [tc|]; [|m_inv H1 as r2 s3 H3; destruct r2 as [tc|]]; injection H1 as <- _; apply Hip;
    destruct (String.eqb (header_get hdr ipHeader) ""), (String.eqb (header_get hdr "Mcp-Session-Id") ""); cbn; done.
Qed.

(** What the handshake's limiter and nonces see of a request. *)
Definition door_step (ip : string) (s s' : srv) : Prop :=
  s_ips s' = s_ips s /\ issued s s' = false
  \/ exists n, s_ips s' = snd (Allow ip (env_clock n) (s_ips s)) /\ (issued s s' = true -> fst (Allow ip (env_clock n) (s_ips s)) = true).

Lemma issued_same s s' : s_nonces s' = s_nonces s -> issued s s' = false.
Proof. intros H. unfold issued. rewrite H. by rewrite bool_decide_eq_true_2. Qed.

Lemma door_kept ip s s' : door s' = door s -> door_step ip s s'.
Proof. intros [= H1 H2 H3]. left. split; [done|]. by apply issued_same. Qed.

Lemma challenge_door chain ctx owner s : door_step (IPFrom ctx) s (snd (AuthChallenge chain ctx owner s)).
Proof.
  right. exists (s_reads s). unfold AuthChallenge, mbind, M_bind, ip_allow, mbind, M_bind. rewrite now_eq. unfold run_state.
  cbn [s_ips set_reads]. destruct (Allow (IPFrom ctx) (env_clock (s_reads s)) (s_ips s)) as [ok l]. cbn [fst snd].
  destruct ok; cbn [negb]; [|split; [done|]; by rewrite issued_same].
  destruct (String.eqb owner ""); [split; [done|]; by rewrite issued_same|].
  unfold wrapM, issue, mbind, M_bind, tick. rewrite now_eq. unfold run_state. cbn [s_nonces set_reads set_ips].
  by destruct (Issue _ _ _ _) as [[[nonce exp]|e] ns].
Qed.

(** A login takes a nonce out at most. *)
Lemma verify_door ip chain ctx nonce sig s : door_step ip s (snd (AuthVerify chain ctx nonce sig s)).
Proof.
  set (v := fun s : srv => (s_ips s, ns_entries (s_nonces s))).
  set (F := fun x : IPRateLimiter * gmap string nonceEntry => x.1 = s_ips s /\ x.2 ⊆ ns_entries (s_nonces s)).
  assert (View v) as Hv by (intros s1 s2 H; exact (f_equal (fun x => let y := snd (snd (snd x)) in (snd (fst y), ns_entries (fst (fst y)))) H)).
  assert (preserves (fun s => F (v s)) (AuthVerify chain ctx nonce sig)) as Hp.
  { unfold AuthVerify. apply (triple_bind _ _ (fun _ s => F (v s))).
    - intros s1 [H1 H2]. unfold wrapM, consume, mbind, M_bind. rewrite now_eq. unfold run_state. cbn [s_nonces set_reads].
      unfold Consume. destruct (ns_entries (s_nonces s1) !! nonce); [|by split].
      assert (delete nonce (ns_entries (s_nonces s1)) ⊆ ns_entries (s_nonces s)) by (etrans; [apply delete_subseteq|done]).
      by destruct (negb _).
    - intros [owner exp]. apply (keeps_preserves v F). unfold mint, bind_session. keeps_tac. }
  assert (F (v s)) as H0 by (by split). specialize (Hp s H0). left.
  destruct (AuthVerify chain ctx nonce sig s) as [[o|e] s']; destruct Hp as [H1 H2]; (split; [done|]);
    unfold issued; cbn [snd]; by rewrite bool_decide_eq_true_2.
Qed.

Lemma keeps_door_rest ctx c : handshake c = false -> keeps door (handle h d rd ctx c).
Proof.
  assert (forall ow k x, keeps door (check_out ow k x)) as K1 by (intros; unfold check_out; keeps_tac).
  assert (forall ow k x, keeps door (record_out ow k x)) as K2 by (intros; unfold record_out; keeps_tac).
  assert (forall t q, keeps door (enforce_withdraw h t q)) as K3 by (intros; unfold enforce_withdraw; keeps_tac).
  assert (forall t q, keeps door (record_withdraw t q)) as K4 by (intros; unfold record_withdraw; keeps_tac).
  assert (forall ow k, keeps door (used_today ow k)) as K5 by (intros; unfold used_today; keeps_tac).
  assert (forall ow l, keeps door (transferOutCapView ow l)) as K6.
  { intros ow l. induction l as [|x l IH]; cbn [transferOutCapView]; [done|]. repeat first [apply K5 | exact IH | keeps_step]. }
  destruct c as [| |id tx|id tx|c|c|sym amount|sym|c]; cbn [handshake handle]; intros Hc; try done.
  7: { intros s. exact (f_equal (fun x => snd (snd (snd x))) (keeps_handle_read h d rd ctx c s)). }
  4: { apply (keeps_view door), keeps_evm; apply _. }
  all: apply keeps_ignore.
  - unfold BroadcastSignedTx, broadcast_sync. repeat first [apply K1 | apply K2 | apply K3 | apply K4 | apply keeps_range; [apply _|intros ? ?] | keeps_step].
  - unfold BroadcastEVMTx, evm_send. repeat first [apply K1 | apply K2 | apply keeps_range; [apply _|intros ? ?] | keeps_step].
  - destruct c as [i|i|i|i|i|i|i|i|i]; cbn [run_tool]; unfold BuildPlaceLimitOrder, BuildPlaceMarketOrder, BuildPlaceConditionalOrder,
      BuildCancelOrder, BuildBatchCancelOrders, BuildDepositToSubaccount, BuildWithdrawFromSubaccount, BuildBankSend,
      BuildTransferBetweenSubaccounts; repeat first [apply K3 | keeps_step].
  - unfold SetTransferOutCap, set_unlimited, set_cap. keeps_tac.
  - unfold GetTransferOutCap. repeat first [apply K6 | keeps_step].
Qed.

Lemma serve_door r s : door_step (clientIP (hc_RemoteAddr r)) s (snd (ServeHTTP r s)).
Proof.
  unfold ServeHTTP, serve, mbind, M_bind. set (hdr := ipMiddleware (hc_RemoteAddr r) (hc_Header r)).
  pose proof (keeps_view door _ (keeps_middleware background (mkRequest (Some hdr) "tools/call" (Some (tool_name (hc_call r))))) s) as Hk.
  destruct (authReceivingMiddleware _ _ s) as [[[|ctx]|e] s1] eqn:Em; cbn [snd] in Hk; [by apply door_kept| |by apply door_kept].
  assert (IPFrom ctx = clientIP (hc_RemoteAddr r)) as Hip.
  { rewrite (middleware_ip background hdr _ _ _ _ _ eq_refl Em). apply (ip_header_trusted _ _ EmptyString). }
  injection Hk as K1 K2 K3.
  assert (forall s', door_step (clientIP (hc_RemoteAddr r)) s1 s' -> door_step (clientIP (hc_RemoteAddr r)) s s') as Hs.
  { intros s'. unfold door_step, issued. by rewrite K1, K2. }
  apply Hs. destruct (handshake (hc_call r)) eqn:Hc; [|by apply door_kept, keeps_door_rest].
  destruct (hc_call r); try done; cbn [handle]; rewrite <- Hip; unfold ignore.
  - pose proof (challenge_door (h_ChainID h) ctx owner s1) as Hd. by destruct (AuthChallenge _ _ _ s1).
  - pose proof (verify_door (IPFrom ctx) (h_ChainID h) ctx nonce signature s1) as Hd. by destruct (AuthVerify _ _ _ _ s1).
Qed.

(** ** A run, as the limiter sees it *)

Lemma run_history ip rs : forall s,
  exists ops, Forall (fun e => exists n, e.1 = env_clock n) ops /\ s_ips (http_run rs s) = ip_run ops (s_ips s)
  /\ challenges ip rs s <= allowed ip ops (s_ips s).
Proof.
  induction rs as [|r rs IH]; intros s; [by exists []|]. cbn [http_run foldl challenges].
  fold (http_run rs (snd (ServeHTTP r s))). destruct (IH (snd (ServeHTTP r s))) as (ops & H1 & H2 & H3).
  destruct (serve_door r s) as [[E1 E2]|(n & E1 & E2)].
  - exists ops. rewrite E1 in H2, H3. rewrite E2, andb_false_r. by split_and!.
  - exists ((env_clock n, IAllow (clientIP (hc_RemoteAddr r))) :: ops). rewrite E1 in H2, H3. split_and!.
    + constructor; [by exists n|done].
    + exact H2.
    + cbn [allowed fst]. unfold is_call, ip_step. cbn [fst snd].
      destruct (String.eqb_spec (clientIP (hc_RemoteAddr r)) ip) as [Ei|Ei]; cbn [andb]; [|lia]. rewrite Ei in *.
      destruct (issued s _); [rewrite E2 by done; lia|]. destruct (fst _); lia.
Qed.

Lemma Allow_other ip ip' t l : ip' <> ip -> il_entries (snd (Allow ip' t l)) !! ip = il_entries l !! ip.
Proof.
  intros Hne. unfold Allow. destruct (String.eqb ip' ""); [done|].
  destruct (il_entries l !! ip') as [e|]; [destruct (_ <=? Sub _ _)|]; cbn; by rewrite lookup_insert_ne.
Qed.

Lemma run_others ip rs : Forall (fun r => clientIP (hc_RemoteAddr r) <> ip) rs -> forall s,
  il_entries (s_ips (http_run rs s)) !! ip = il_entries (s_ips s) !! ip.
Proof.
  induction 1 as [|r rs Hr _ IH]; intros s; [done|]. cbn [http_run foldl]. fold (http_run rs (snd (ServeHTTP r s))). rewrite IH.
  destruct (serve_door r s) as [[-> _]|(n & -> & _)]; [done|by apply Allow_other].
Qed.

Lemma clock_within a w ops : (forall n, a <= env_clock n < a + w) -> Forall (fun e => exists n, e.1 = env_clock n) ops -> within a w ops = true.
Proof.
  intros Hc Hf. apply forallb_forall. intros e He. apply list_elem_of_In in He. destruct (proj1 (Forall_forall _ _) Hf e He) as [n ->].
  specialize (Hc n). apply andb_true_intro. split; [apply Z.leb_le|apply Z.ltb_lt]; lia.
Qed.

End Edge.

(** ** Claims *)

(** C13: login challenges are rationed by the address of the socket.  Whatever headers the requests on
    the socket carry, a forged client address included, and whatever was
    requested before: in any minute of the clock the requests from one host obtain
    at most twenty challenges, and at most ten when the host has no open window;
    and requests from other hosts leave its budget as it was. *)
Theorem challenge_rate {RL : RateLib} {E0 E : Env} {L : ChainLib} {DL : DydxLib} {D : DecLib} {U : Unicode}
    {N : EVMEnv} {B : ABILib} {DA : DecArith} {Q : QueryEnv} {RD : Reads} (h : Handlers) (d : EVMDeps) (rd : ReadDeps)
    (s0 : srv) (rs0 rs : list HttpCall) (ip : string) (a : Time)
    (H0 : s_ips s0 = NewIPRateLimiter DefaultIPChallengeRate DefaultIPChallengeWindow) (Hip : ip <> EmptyString)
    (Hclk : forall n, a <= env_clock (Env := E) n < a + DefaultIPChallengeWindow) :
  let s := http_run (E := E0) h d rd rs0 s0 in
  challenges (E := E) h d rd ip rs s <= 2 * DefaultIPChallengeRate
  /\ (il_entries (s_ips s) !! ip = None -> challenges (E := E) h d rd ip rs s <= DefaultIPChallengeRate)
  /\ (Forall (fun r => clientIP (hc_RemoteAddr r) <> ip) rs ->
      il_entries (s_ips (http_run (E := E) h d rd rs s)) !! ip = il_entries (s_ips s) !! ip).
Proof.
  intros s. destruct (run_history (E := E0) h d rd ip rs0 s0) as (ops0 & _ & Es & _). fold s in Es. rewrite H0 in Es.
  destruct (ip_run_ok ops0 (NewIPRateLimiter DefaultIPChallengeRate DefaultIPChallengeWindow)) as (Hp & Hc & Em & Ew).
  { split; [done|by split]. } { intros ? ? Hl. cbn in Hl. by rewrite lookup_empty in Hl. }
  rewrite <- Es in Hp, Hc, Em, Ew. cbn in Em, Ew.
  destruct (run_history (E := E) h d rd ip rs s) as (ops & Ht & _ & Hle).
  pose proof (clock_within a DefaultIPChallengeWindow ops Hclk Ht) as Hw. rewrite <- Ew in Hw. split_and!.
  - pose proof (allowed_any ip ops (s_ips s) a Hip Hp Hc Hw) as Ha. rewrite Em in Ha. unfold DefaultIPChallengeRate in *.
    destruct (il_entries (s_ips s) !! ip) as [v|] eqn:Ev; [|lia]. specialize (Hc ip v Ev). lia.
  - intros Hn. rewrite (allowed_fresh ip ops (s_ips s) a Hip Hp Hn Hw), Em in Hle. lia.
  - intros Hf. by apply run_others.
Qed.

(** Twelve challenges from one host, each with another forged address, among those
    of a second host. *)
Definition demo_flood : list HttpCall :=
  List.concat (map (fun k => [mkHttpCall "10.1.2.3:4711" {[ipHeader := FormatUint k]} (KChallenge "svp1a");
                              mkHttpCall "10.9.9.9:80" {[ipHeader := "10.1.2.3"%string]} (KChallenge "svp1b")]) (seqZ 0 12)).

Abbreviation demo_challenges := (challenges (RL := demo_rate) (E := demo_still) (L := demo_lib) (DL := dydx_lib) (D := demo_dec)
  (U := unicode_id) (N := demo_net) (B := demo_abi) (DA := demo_arith) (Q := demo_queries) (RD := demo_reads) demo_handlers demo_deps
  demo_read_deps) (only parsing).

Example demo_flood_value : demo_challenges "10.1.2.3" demo_flood demo_srv = DefaultIPChallengeRate.
Proof. vm_compute. reflexivity. Qed.

Lemma challenge_rate_witness : demo_challenges "10.1.2.3" demo_flood demo_srv <= DefaultIPChallengeRate.
Proof.
  refine (proj1 (proj2 (challenge_rate (RL := demo_rate) (E0 := demo_still) (E := demo_still) (L := demo_lib) (DL := dydx_lib) (D := demo_dec)
    (U := unicode_id) (N := demo_net) (B := demo_abi) (DA := demo_arith) (Q := demo_queries) (RD := demo_reads) demo_handlers demo_deps
    demo_read_deps demo_srv [] demo_flood "10.1.2.3" 7 eq_refl _ _)) eq_refl).
  - discriminate.
  - intros n. split; vm_compute; [discriminate|reflexivity].
Defined.
