(* ===== verification/Bank.v ===== *)
(** * The funds limits as a bank

    What the server promises about funds, as an abstract machine: per tenant what
    it has withdrawn today, per owner and symbol what it has moved today and its
    cap, and payments that are made only when they fit.  The server refines it on
    a day of its clock: whatever request is served, the two books change as the
    bank does, by the payment the request's own signed transaction takes out, by a
    new cap, or not at all. *)

From S2P Require Import Prelude GoStrings GoNum GoTime GoEncoding Limits TransferOut NonceStore IPRateLimiter.
From S2P Require Import SessionBearers DynamicTenants Policy GoBig Markets Units ChainLib Payload Assembler Assets.
From S2P Require Import TxInspect Cancels Orders FundsBuilder Builders EVMBuilder BridgeRegistry Server AuthTools Broadcast Tools ABI EVMTools BridgeTools.
From S2P Require Import Signer LendoraABI LendoraCache LendoraFormat LendoraRisk LendoraOps LendoraRead Http Indexer.
From S2P Require Import AccountTools MarketTools FaucetTools ReadTools SwapTools Config System.

(** ** The specification *)

Record bank : Type := mkBank {
  bk_spent : string -> Z;                      (* withdrawn today, by tenant *)
  bk_moved : string -> string -> Z;            (* moved today, by owner and symbol *)
  bk_cap : string -> string -> option Z;       (* the cap, by owner and symbol *)
}.

Record payment : Type := mkPayment {
  py_tenant : string; py_owner : string; py_withdraw : Z; py_out : gmap string Z }.

Section Spec.
Context (daily : option Z).

Definition affordable (p : payment) (a : bank) : Prop :=
  (0 < py_withdraw p -> forall c, daily = Some c -> bk_spent a (py_tenant p) + py_withdraw p <= c)
  /\ forall k x c, py_out p !! k = Some x -> 0 < x -> bk_cap a (py_owner p) k = Some c -> bk_moved a (py_owner p) k + x <= c.

Definition pay (p : payment) (a : bank) : bank :=
  mkBank (charge_withdraw (py_tenant p) (py_withdraw p) (bk_spent a)) (charge_out (py_owner p) (py_out p) (bk_moved a)) (bk_cap a).

Definition recap (ow k : string) (c : option Z) (a : bank) : bank :=
  mkBank (bk_spent a) (bk_moved a) (fun ow' k' => if decide (ow = ow' /\ k = k') then c else bk_cap a ow' k').

Inductive event : Type :=
| Paid (p : payment)
| Recapped (owner symbol : string) (c : option Z).

Inductive bank_step : option event -> bank -> bank -> Prop :=
| bank_idle a : bank_step None a a
| bank_recap ow k c a : bank_step (Some (Recapped ow k c)) a (recap ow k c a)
| bank_pay p a : affordable p a -> bank_step (Some (Paid p)) a (pay p a).

Inductive bank_run : list event -> bank -> bank -> Prop :=
| bank_done a : bank_run [] a a
| bank_next l es a1 a2 a3 : bank_step l a1 a2 -> bank_run es a2 a3 -> bank_run (option_list l ++ es) a1 a3.

End Spec.

(** ** The books as a bank *)

Section Refine.
Context {RL : RateLib} {E : Env} {EL : EnvLaws E} {L : ChainLib} (h : Handlers) (t0 : Time).
Hypothesis Hday : forall n, utc_day (env_clock n) = utc_day t0.

Abbreviation daily := (dailyCapQuantums (h_Limits h)) (only parsing).
Abbreviation book := (option MemoryLedger * option store)%type (only parsing).
Abbreviation on F := (fun s : srv => F (books s)) (only parsing).

(** The caps the two books enforce. *)
Definition limited (a : bank) (b : book) : Prop :=
  (forall l c, fst b = Some l -> daily = Some c -> ledger_cap l = c)
  /\ (forall o ow k, snd b = Some o -> at2 (caps o) ow k ≫= CapBase = bk_cap a ow k).

Definition holds (a : bank) (b : book) : Prop := balance t0 (bk_spent a) (bk_moved a) b /\ limited a b.

Lemma triple_and {A} (P P' : srv -> Prop) (m : M srv A) Q Q' R R' :
  triple P m Q R -> triple P' m Q' R' ->
  triple (fun s => P s /\ P' s) m (fun a s => Q a s /\ Q' a s) (fun s => R s /\ R' s).
Proof. intros H H' s [Hs Hs']. specialize (H s Hs). specialize (H' s Hs'). by destruct (m s) as [[x|e] s1]. Qed.

Lemma check_limited a ow k x : preserves (on (limited a)) (check_out ow k x).
Proof.
  apply (triple_check_out (limited a) (limited a) (limited a)). intros n io d l s [H1 H2]. cbn [fst snd] in *.
  unfold TransferOut.Check. destruct s as [o|]; [|done]. rewrite checkLocked_eq. destruct (x <=? 0); [done|].
  destruct (rollover_facts (env_clock n) io o d) as (_ & Hc & _). destruct (rolloverLocked _ io o d) as [o' d']. cbn [fst] in Hc.
  assert (limited a (l, Some o')); [|by destruct (match _ ≫= _ with Some _ => _ | None => _ end)].
  split; [done|]. intros ? ow' k' [= <-]. rewrite Hc. by apply H2.
Qed.

Lemma record_limited a ow k x : preserves (on (limited a)) (record_out ow k x).
Proof.
  apply (triple_record_out (limited a) (limited a) (limited a)). intros n o1 o2 d l s [H1 H2]. split; [done|].
  unfold RecordOut, nilsafe. destruct s as [o|]; [|done]. cbn [fst snd]. intros o' ow' k'.
  pose proof (recordLocked_caps (env_clock n) o1 o2 ow k (Some x) o d) as Hc.
  destruct (recordLocked _ _ _ _ _ _ _ _) as [o'' d']. cbn [fst] in *. intros [= <-]. rewrite Hc. by apply H2.
Qed.

Lemma record_withdraw_limited a t q : preserves (on (limited a)) (record_withdraw t q).
Proof.
  apply (triple_record_withdraw (limited a) (limited a) (limited a)). intros n l s [H1 H2]. split; [|done].
  cbn [fst snd] in *. destruct l as [l|]; [|done]. intros ? c [= <-] Hc. rewrite <- (H1 l c eq_refl Hc).
  apply (Limits.rollover_cap (env_clock n) l).
Qed.

Lemma enforce_limited a t q : preserves (on (limited a)) (enforce_withdraw h t q).
Proof.
  apply (triple_enforce h (limited a) (limited a) (limited a)). intros n l s H0. unfold Enforce.
  destruct (CheckPerTx _ _ _); [|done]. destruct l as [l|]; [|done]. destruct (negb _); [done|].
  destruct (dailyCapQuantums (h_Limits h)) as [c|]; [|exact H0]. destruct H0 as [H1 H2]. cbn [fst snd] in *.
  assert (limited a (Some (snd (Remaining (env_clock n) t l)), s)) as Hl.
  { split; [|done]. intros ? c' [= <-] Hc. rewrite <- (H1 l c' eq_refl Hc). apply (Limits.rollover_cap (env_clock n) l). }
  destruct (Remaining (env_clock n) t l) as [rem l']. by destruct (rem <? q).
Qed.

(** ** The checks: what passes fits *)

Definition fits_out (a : bank) (ow k : string) (x : Z) : Prop :=
  0 < x -> forall c, bk_cap a ow k = Some c -> bk_moved a ow k + x <= c.

Lemma check_holds a ow k x :
  triple (on (holds a)) (check_out ow k x) (fun _ => on (fun b => holds a b /\ fits_out a ow k x)) (on (holds a)).
Proof.
  intros s Hs. pose proof (triple_and _ _ _ _ _ _ _ (check_balance t0 Hday (bk_spent a) (bk_moved a) ow k x) (check_limited a ow k x) s Hs) as H.
  destruct (check_out ow k x s) as [[[]|e] s1] eqn:Ec; [|done]. split; [done|]. intros Hx c Hc.
  unfold check_out, mbind, M_bind in Ec. rewrite now_eq in Ec. unfold tick, run_state in Ec. cbn [s_reads set_reads s_out s_disk] in Ec.
  destruct Hs as [(_ & o & Ho & Hm) [_ Hl]]. cbn [fst snd books] in *. rewrite Ho in Ec. specialize (Hl o ow k Ho).
  unfold TransferOut.Check in Ec. rewrite checkLocked_eq in Ec. rewrite (proj2 (Z.leb_gt x 0)) in Ec by done.
  destruct (rolloverLocked _ _ _ _) as [o' d']. rewrite Hc in Hl. destruct (at2 (caps o) ow k) as [sc|]; [|done].
  cbn [mbind option_bind] in Ec, Hl. rewrite Hl in Ec. cbn [mbind option_bind] in Ec.
  destruct (Z.ltb_spec c (moved o (env_clock (s_reads s)) ow k + x)) as [|Hle]; [done|]. rewrite <- Hm.
  assert (moved o t0 ow k = moved o (env_clock (s_reads s)) ow k) as -> by (unfold moved; by rewrite (proj2 (day_key_iff _ _) (Hday _))).
  exact Hle.
Qed.

Lemma range_check_holds a ow m :
  triple (on (holds a)) (range m (check_out ow)) (fun _ => on (fun b => holds a b /\ forall k x, m !! k = Some x -> fits_out a ow k x))
    (on (holds a)).
Proof.
  unfold range. eapply (triple_bind _ _ (fun _ => on (holds a))); [by intros s Hs|]. intros n.
  assert (forall l, triple (on (holds a)) (for_each (check_out ow) l)
            (fun _ => on (fun b => holds a b /\ Forall (fun kx => fits_out a ow kx.1 kx.2) l)) (on (holds a))) as Hl.
  { induction l as [|[k x] l IH]; cbn [for_each]; [by intros s Hs|].
    eapply triple_bind; [apply check_holds|]. intros [] s [Hs Hf]. specialize (IH s Hs).
    destruct (for_each (check_out ow) l s) as [[[]|e] s1]; [|done]. destruct IH as [IH1 IH2]. split; [done|]. by constructor. }
  eapply triple_weaken; [apply Hl|done| |done]. intros [] s [Hs Hf]. split; [done|]. intros k x Hk.
  rewrite (range_perm n m), Forall_forall in Hf. by apply (Hf (k, x)), elem_of_map_to_list.
Qed.

Lemma enforce_holds a t q :
  0 < q -> triple (on (holds a)) (enforce_withdraw h t q)
    (fun _ => on (fun b => holds a b /\ forall c, daily = Some c -> bk_spent a t + q <= c)) (on (holds a)).
Proof.
  intros Hq s Hs. pose proof (triple_and _ _ _ _ _ _ _ (enforce_balance h t0 Hday (bk_spent a) (bk_moved a) t q) (enforce_limited a t q) s Hs) as H.
  destruct (enforce_withdraw h t q s) as [[[]|e] s1] eqn:Ee; [|done]. split; [done|]. intros c Hc.
  unfold enforce_withdraw, mbind, M_bind in Ee. rewrite now_eq in Ee. unfold run_state in Ee. cbn [s_ledger set_reads] in Ee.
  destruct Hs as [((l & Hl & Hok & Hsp) & _) [Hcap _]]. cbn [fst snd books] in *. rewrite Hl in Ee.
  rewrite (Enforce_withdraw _ _ _ _ _ _ (mem_ledger_ok l Hok) Hc) in Ee. destruct (CheckPerTx _ _ _); [|done]. cbv zeta in Ee.
  destruct (Z.ltb_spec (Z.max 0 (ledger_cap l - spent l (env_clock (s_reads s)) t)) q) as [|Hle]; [done|].
  rewrite (Hcap l c Hl Hc) in Hle. rewrite <- Hsp. change (mem_spent l t0 t) with (spent l t0 t).
  rewrite (spent_day l t0 (env_clock (s_reads s)) t) by (symmetry; apply Hday). lia.
Qed.

(** ** The records: the bank pays *)

Lemma range_record_limited a ow m : preserves (on (limited a)) (range m (record_out ow)).
Proof.
  unfold range. eapply (triple_bind _ _ (fun _ => on (limited a))); [by intros s Hs|]. intros n.
  generalize (env_range n m) as l. induction l as [|[k x] l IH]; cbn [for_each]; [by intros s Hs|].
  eapply triple_bind; [apply record_limited|]. by intros [].
Qed.

Lemma settle_holds a t ow q out (c : bool) (res : BroadcastResult) :
  0 <= q <= maxU64 ->
  triple (on (holds a))
    (_ ← (if c && (0 <? q) then record_withdraw t q else mret tt);
     _ ← (if c then range out (record_out ow) else mret tt); mret res)
    (fun _ => on (fun b => if c then holds (pay (mkPayment t ow q out) a) b else holds a b)) (on (holds a)).
Proof.
  intros Hq s [Hb Hl]. pose proof (settle_balance t0 Hday (bk_spent a) (bk_moved a) t ow q out c res Hq s Hb) as H1.
  assert (preserves (on (limited a))
    (_ ← (if c && (0 <? q) then record_withdraw t q else mret tt);
     _ ← (if c then range out (record_out ow) else mret tt); mret res)) as H2.
  { apply (triple_bind _ _ (fun _ => on (limited a))); [destruct (c && _); [apply record_withdraw_limited|by intros ? Hs]|].
    intros []. apply (triple_bind _ _ (fun _ => on (limited a))); [destruct c; [apply range_record_limited|by intros ? Hs]|].
    by intros [] ? Hs. }
  specialize (H2 s Hl). match goal with |- context [?m s] => destruct (m s) as [[r|e] s1] end; [|by split]. destruct H1 as [_ H1]. by destruct c; split.
Qed.

Lemma range_record_holds a t ow out :
  triple (on (holds a)) (range out (record_out ow)) (fun _ => on (holds (pay (mkPayment t ow 0 out) a))) (on (holds a)).
Proof.
  intros s [Hb Hl]. pose proof (range_record_balance t0 Hday (balance t0 (bk_spent a) (bk_moved a)) (bk_spent a) (bk_moved a) ow out s Hb) as H1.
  pose proof (range_record_limited a ow out s Hl) as H2.
  destruct (range out (record_out ow) s) as [[[]|e] s1]; [|by split]. split; [by apply charge_zero|done].
Qed.

(** ** The handlers *)

(** What the transaction of a request takes out of the funds of an owner. *)
Definition payer (ctx : context) (s : srv) (p : payment) : Prop :=
  exists tp, authorized ctx tp s /\ py_tenant p = tp_TenantID tp /\ py_owner p = tp_Owner tp.

Definition signed_payment (tx : SignedTx) (p : payment) : Prop :=
  exists raw, Base64Decode (st_TxRawBytesB64 tx) = Ok raw /\ signerAddressFromTxRaw raw = Ok (py_owner p)
  /\ extractWithdrawQuantums raw = Ok (py_withdraw p) /\ extractBankSends raw (py_owner p) = Ok (py_out p).

Definition evm_payment (tx : EVMSignedTx) (p : payment) : Prop :=
  exists raw etx from, hexutil_Decode (ev_RawTxHex tx) = Ok raw /\ EthTx_UnmarshalBinary raw = Ok etx
  /\ EthTx_Sender etx = Ok from /\ ownerEthAddress (py_owner p) = Ok from /\ py_withdraw p = 0
  /\ py_out p
     = if negb (bool_decide (u64 (etx_ChainId etx) ∈ h_ForeignChains h)) then
         decodeTransferOut (etx_To etx) (Some (etx_Value etx)) (etx_Data etx) from
           (fst (default (zero_address, zero_address) (h_Uniswap h))) (snd (default (zero_address, zero_address) (h_Uniswap h)))
       else ∅.

(** The books are as they were, or one affordable payment was made. *)
Definition paid (X : payment -> Prop) (a : bank) (b : book) : Prop :=
  holds a b \/ exists p, X p /\ affordable daily p a /\ holds (pay p a) b.

Lemma authorize_pays ctx tool a s0 :
  triple (fun s => holds a (books s) /\ s = s0) (authorize ctx tool) (fun tp s => holds a (books s) /\ authorized ctx tp s0) (on (holds a)).
Proof.
  intros s [Hs ->]. pose proof (keeps_view books _ (keeps_authorize ctx tool) s0) as Hk.
  destruct (authorize ctx tool s0) as [[tp|e] s1] eqn:Ea; cbn [fst snd] in *; rewrite Hk; [|done].
  by apply authorize_inv in Ea as [Ha _].
Qed.

Lemma signed_pays ctx clientID tx a s0 :
  triple (fun s => holds a (books s) /\ s = s0) (BroadcastSignedTx h ctx clientID tx)
    (fun _ => on (paid (fun p => payer ctx s0 p /\ signed_payment tx p) a)) (on (holds a)).
Proof.
  unfold BroadcastSignedTx. eapply triple_bind; [apply authorize_pays|]. intros tp. apply triple_pure. intros Hau.
  apply (triple_keeps (holds a)); [auto with keeps|done|]. intros [].
  apply triple_lift_bind; [done|]. intros raw H1%wrap_ok. apply triple_lift_bind; [done|]. intros signer H5%wrap_ok.
  apply triple_lift_bind; [done|]. intros [] H2%check_ok%negb_false_iff%String.eqb_eq. subst signer.
  apply triple_lift_bind; [done|]. intros q H3%wrap_ok. pose proof (extract_range raw q H3) as Hq.
  apply (triple_bind _ _ (fun _ s => holds a (books s) /\ (0 < q -> forall c, daily = Some c -> bk_spent a (tp_TenantID tp) + q <= c))).
  { destruct (Z.ltb_spec 0 q) as [Hp|Hp]; [|intros s Hs; split; [done|lia]].
    eapply triple_weaken; [exact (enforce_holds a (tp_TenantID tp) q Hp)|done| |done]. by intros [] s [Hs Hf]. }
  intros []. apply triple_pure. intros Hw. apply triple_lift_bind; [done|]. intros out H4%wrap_ok.
  eapply triple_bind; [apply range_check_holds|]. intros []. apply triple_pure. intros Hf.
  do 2 (apply (triple_keeps (holds a)); [auto with keeps|done|]; intros ?).
  do 2 (apply triple_lift_bind; [done|]; intros [] _).
  eapply triple_weaken; [exact (settle_holds a (tp_TenantID tp) (tp_Owner tp) q out (br_Code _ =? 0) _ Hq)|done| |done].
  intros res s Hs. cbv beta in Hs. destruct (br_Code _ =? 0); [right|by left]. eexists. split; [|split; [|exact Hs]].
  - split; [by exists tp|by exists raw].
  - split; [done|]. intros k x c Hk Hx Hc. by apply (Hf k x Hk Hx).
Qed.

Lemma evm_pays ctx clientID tx a s0 :
  triple (fun s => holds a (books s) /\ s = s0) (BroadcastEVMTx h ctx clientID tx)
    (fun _ => on (paid (fun p => payer ctx s0 p /\ evm_payment tx p) a)) (on (holds a)).
Proof.
  unfold BroadcastEVMTx. eapply triple_bind; [apply authorize_pays|]. intros tp. apply triple_pure. intros Hau.
  apply triple_lift_bind; [done|]. intros [] _. apply (triple_keeps (holds a)); [auto with keeps|done|]. intros [].
  apply triple_lift_bind; [done|]. intros raw H1%wrap_ok. apply triple_lift_bind; [done|]. intros etx H2%wrap_ok.
  apply triple_lift_bind; [done|]. intros from H3%wrap_ok. apply triple_lift_bind; [done|]. intros ownerEth H4.
  apply triple_lift_bind; [done|]. intros [] H5%check_ok%negb_false_iff%bool_decide_eq_true. subst ownerEth. cbv zeta.
  destruct (default _ _) as [router wsvp] eqn:Eu. match goal with |- context [range ?m (check_out _)] => set (out := m) end.
  eapply triple_bind; [apply range_check_holds|]. intros []. apply triple_pure. intros Hf.
  apply (triple_keeps (holds a)); [auto with keeps|done|]. intros r.
  destruct (match r with Ok _ => _ | Err _ => _ end) as [[txHash outcome] reason].
  apply (triple_keeps (holds a)); [auto with keeps|done|]. intros [].
  apply triple_lift_bind; [done|]. intros [] _. eapply triple_bind; [apply (range_record_holds a (tp_TenantID tp))|].
  intros [] s Hs. right. eexists. split; [|split; [|exact Hs]].
  - split; [by exists tp|]. exists raw, etx, from. rewrite Eu. by split_and!.
  - split; [cbn; lia|]. intros k x c Hk Hx Hc. by apply (Hf k x Hk Hx).
Qed.

(** A read of the totals may start a new day in the file, never change the day's. *)
Lemma used_today_balance lf mf ow k : preserves (on (balance t0 lf mf)) (used_today ow k).
Proof.
  intros s (Hl & o & Ho & Hm). unfold used_today, mbind, M_bind. rewrite now_eq. unfold tick, run_state.
  cbn [s_reads set_reads s_out s_disk]. cbn [fst snd books] in *. rewrite Ho. unfold Used, usedLocked.
  set (t := env_clock (s_reads s)). set (io := env_io (S (s_reads s))).
  pose proof (fun ow k => moved_rollover t io o (s_disk s) t0 ow k) as Hr.
  destruct (rolloverLocked t io o (s_disk s)) as [o' d']. cbn [fst] in Hr. split; [done|].
  exists o'. split; [done|]. intros ow' k'. rewrite Hr. subst t. by rewrite Hday, Z.eqb_refl.
Qed.

Lemma used_today_limited a ow k : preserves (on (limited a)) (used_today ow k).
Proof.
  intros s [Hc1 Hc2]. unfold used_today, mbind, M_bind. rewrite now_eq. unfold tick, run_state.
  cbn [s_reads set_reads s_out s_disk]. cbn [fst snd books] in *. destruct (s_out s) as [o|] eqn:Eo; [|by split].
  unfold Used, usedLocked. set (t := env_clock (s_reads s)). set (io := env_io (S (s_reads s))).
  pose proof (rollover_facts t io o (s_disk s)) as (_ & Hc & _).
  destruct (rolloverLocked t io o (s_disk s)) as [o' d']. cbn [fst] in Hc. split; [done|].
  intros ? ow' k' [= <-]. rewrite Hc. by apply Hc2.
Qed.

(** A new cap is the only change set_transfer_out_cap makes. *)
Lemma put_cap_balance lf mf (f : store -> disk -> store * disk) :
  (forall o d now ow k, moved (fst (f o d)) now ow k = moved o now ow k) ->
  preserves (on (balance t0 lf mf)) (modify (fun s => let '(o, d) := nilsafe f (s_out s) (s_disk s) in set_out o d s)).
Proof.
  intros Hf s (Hl & o & Ho & Hm). unfold modify. cbn [fst snd books] in *. rewrite Ho. cbn [nilsafe].
  specialize (Hf o (s_disk s)). destruct (f o (s_disk s)) as [o' d']. cbn [fst] in Hf. split; [done|].
  exists o'. split; [done|]. intros ow' k'. rewrite Hf. apply Hm.
Qed.

Lemma put_cap_limited a ow k c R (f : store -> disk -> store * disk) :
  (forall o d ow' k', at2 (caps (fst (f o d))) ow' k' = (if decide (ow = ow' /\ k = k') then c else at2 (caps o) ow' k')) ->
  triple (on (limited a)) (modify (fun s => let '(o, d) := nilsafe f (s_out s) (s_disk s) in set_out o d s))
    (fun _ => on (limited (recap ow k (c ≫= CapBase) a))) (on R).
Proof.
  intros Hf s [Hc1 Hc2]. unfold modify. cbn [fst snd books] in *. destruct (s_out s) as [o|] eqn:Eo; [|by split].
  cbn [nilsafe]. specialize (Hf o (s_disk s)). destruct (f o (s_disk s)) as [o' d']. cbn [fst] in Hf. split; [done|].
  intros ? ow' k' [= <-]. rewrite Hf. cbn [recap bk_cap]. case_decide; [done|]. by apply Hc2.
Qed.

Section Requests.
Context {N : EVMEnv} {DL : DydxLib} {D : DecLib} {B : ABILib} {U : Unicode} {DA : DecArith} {Q : QueryEnv} {RD : Reads}.
Context (d : EVMDeps) (rd : ReadDeps).

Lemma recap_holds ctx sym amount a s0 :
  triple (fun s => holds a (books s) /\ s = s0) (SetTransferOutCap ctx sym amount)
    (fun _ => on (fun b => exists tp k c, authorized ctx tp s0 /\ holds (recap (tp_Owner tp) k c a) b)) (on (holds a)).
Proof.
  unfold SetTransferOutCap. eapply triple_bind; [apply authorize_pays|]. intros tp. apply triple_pure. intros Hau.
  apply triple_lift_bind; [done|]. intros x _. destruct (String.eqb _ _); [|apply triple_lift_bind; [done|]; intros base _].
  1: apply (triple_bind _ _ (fun _ => on (holds (recap (tp_Owner tp) (as_symbol x) None a)))); [|by intros [] s Hs; eexists _, _, _].
  2: apply (triple_bind _ _ (fun _ => on (holds (recap (tp_Owner tp) (as_symbol x) (Some base) a)))); [|by intros [] s Hs; eexists _, _, _].
  all: apply (triple_keeps (holds a)); [keeps_tac|done|]; intros n.
  - apply (triple_and _ _ _ _ _ _ _ (put_cap_balance (bk_spent a) (bk_moved a) _ (fun o d now ow k => proj2 (SetUnlimited_effect _ _ _ o d ow k) now))).
    apply (put_cap_limited a (tp_Owner tp) (as_symbol x) None). intros o d' ow' k'. apply SetUnlimited_effect.
  - apply (triple_and _ _ _ _ _ _ _ (put_cap_balance (bk_spent a) (bk_moved a) _ (fun o d now ow k => proj2 (SetCap_effect _ _ _ o d ow k) now))).
    apply (put_cap_limited a (tp_Owner tp) (as_symbol x) (Some (mkSymbolCap (as_symbol x) (as_decimals x) (Some base)))).
    intros o d' ow' k'. apply SetCap_effect.
Qed.

Lemma recap_balance ctx sym amount lf mf : preserves (on (balance t0 lf mf)) (SetTransferOutCap ctx sym amount).
Proof.
  unfold SetTransferOutCap. apply (triple_keeps (balance t0 lf mf)); [auto with keeps|done|]. intros tp.
  apply triple_lift_bind; [done|]. intros x _. destruct (String.eqb _ _); [|apply triple_lift_bind; [done|]; intros base _].
  all: apply (triple_bind _ _ (fun _ => on (balance t0 lf mf))); [|by intros [] s Hs].
  all: apply (triple_keeps (balance t0 lf mf)); [keeps_tac|done|]; intros n; apply put_cap_balance; intros o d' now ow k.
  - apply SetUnlimited_effect.
  - apply SetCap_effect.
Qed.

(** The requests that neither broadcast nor change a cap touch the books by the
    check of a withdrawal and by reads of the totals only. *)
Definition plain (c : call) : bool :=
  match c with KBroadcast _ _ | KBroadcastEVM _ _ | KSetCap _ _ => false | _ => true end.

Section Plain.
Context (F : book -> Prop).
Hypothesis Hused : forall ow k, preserves (on F) (used_today ow k).
Hypothesis Henforce : forall t q, preserves (on F) (enforce_withdraw h t q).

Lemma cap_view_plain ow l : preserves (on F) (transferOutCapView ow l).
Proof.
  induction l as [|x l IH]; cbn [transferOutCapView]; [by intros s Hs|].
  eapply triple_bind; [apply Hused|]. intros used. apply (triple_keeps F); [keeps_tac|done|]. intros cap.
  eapply triple_bind; [apply IH|]. by intros rest s Hs.
Qed.

Lemma run_tool_plain ctx c : preserves (on F) (run_tool h ctx c).
Proof.
  destruct c as [i|i|i|i|i|i|i|i|i]; cbn [run_tool].
  7: { unfold BuildWithdrawFromSubaccount. apply (triple_keeps F); [auto with keeps|done|]. intros tp.
       apply triple_lift_bind; [done|]. intros q _. apply (triple_bind _ _ (fun _ => on F)); [apply Henforce|].
       intros []. apply (keeps_preserves books F). keeps_tac. }
  all: apply (keeps_preserves books F); unfold BuildPlaceLimitOrder, BuildPlaceMarketOrder,
    BuildPlaceConditionalOrder, BuildCancelOrder, BuildBatchCancelOrders, BuildDepositToSubaccount, BuildBankSend,
    BuildTransferBetweenSubaccounts; keeps_tac.
Qed.

Lemma ignore_plain {A} (m : M srv A) : preserves (on F) m -> preserves (on F) (ignore m).
Proof. intros H s Hs. specialize (H s Hs). unfold ignore. by destruct (m s) as [[x|e] s1]. Qed.

Lemma handle_plain ctx c : plain c = true -> preserves (on F) (handle h d rd ctx c).
Proof.
  destruct c as [| | | | |c| | |c]; cbn [plain handle]; intros Hp; try done.
  4: { apply (keeps_preserves books F), (keeps_view books), keeps_evm; apply _. }
  5: { apply (keeps_preserves books F). intros s'. exact (f_equal (fun x => fst (fst x)) (keeps_handle_read h d rd ctx c s')). }
  all: apply ignore_plain.
  - apply (keeps_preserves books F), (keeps_challenge books). intros s s' H. exact (f_equal (fun x => fst (fst (fst x))) H).
  - eapply (keeps_preserves books F), keeps_fst, keeps_verify.
  - apply run_tool_plain.
  - unfold GetTransferOutCap. apply (triple_keeps F); [auto with keeps|done|]. intros tp.
    apply triple_lift_bind; [done|]. intros l _. apply cap_view_plain.
Qed.

End Plain.

Lemma handle_holds ctx c a : plain c = true -> preserves (on (holds a)) (handle h d rd ctx c).
Proof.
  apply handle_plain.
  - intros ow k. apply triple_and; [apply used_today_balance|apply used_today_limited].
  - intros t q. apply triple_and; [by apply enforce_balance|apply enforce_limited].
Qed.

(** What a request may do to the bank. *)
Definition causes (ctx : context) (s : srv) (c : call) (e : event) : Prop :=
  match c, e with
  | KBroadcast _ tx, Paid p => payer ctx s p /\ signed_payment tx p
  | KBroadcastEVM _ tx, Paid p => payer ctx s p /\ evm_payment tx p
  | KSetCap _ _, Recapped ow _ _ => exists tp, authorized ctx tp s /\ ow = tp_Owner tp
  | _, _ => False
  end.

Definition moves (X : event -> Prop) (a : bank) (b : book) : Prop :=
  exists l a', bank_step daily l a a' /\ holds a' b /\ forall e, l = Some e -> X e.

Lemma moves_idle X a b : holds a b -> moves X a b.
Proof. intros H. exists None, a. split_and!; [constructor|done|done]. Qed.

Lemma moves_paid (X : payment -> Prop) (Y : event -> Prop) a b : paid X a b -> (forall p, X p -> Y (Paid p)) -> moves Y a b.
Proof.
  intros [H|(p & Hx & Ha & H)] Hy; [by apply moves_idle|]. exists (Some (Paid p)), (pay p a).
  split_and!; [by constructor|done|]. intros ? [= <-]. by apply Hy.
Qed.

Lemma outcome {A} (P : srv -> Prop) (m : M srv A) (R G : srv -> Prop) (V : A -> srv -> Prop) s :
  triple P m V R -> P s -> (forall x s', V x s' -> G s') -> (forall s', R s' -> G s') -> G (snd (m s)).
Proof. intros H Hs H1 H2. specialize (H s Hs). destruct (m s) as [[x|e] s1]; [by apply (H1 x)|by apply H2]. Qed.

Lemma snd_ignore {A} (m : M srv A) s : snd (ignore m s) = snd (m s).
Proof. unfold ignore. by destruct (m s). Qed.

Lemma handle_moves ctx c a s : holds a (books s) -> moves (causes ctx s c) a (books (snd (handle h d rd ctx c s))).
Proof.
  intros Hs. assert (forall A (m : M srv A), preserves (on (holds a)) m -> moves (causes ctx s c) a (books (snd (m s)))) as Hp.
  { intros A m H. apply (outcome _ m _ (on (moves (causes ctx s c) a)) _ s H Hs); [intros _|]; intros s'; apply moves_idle. }
  destruct (plain c) eqn:Hc; [by apply Hp, handle_holds|]. clear Hp.
  destruct c as [| |id tx|id tx| | |sym amount| |]; try done; cbn [handle]; rewrite snd_ignore.
  - eapply (outcome _ _ _ (on (moves _ a)) _ s (signed_pays ctx id tx a s) (conj Hs eq_refl)); [|by intros; apply moves_idle].
    intros _ s' H. by apply (moves_paid _ _ _ _ H).
  - eapply (outcome _ _ _ (on (moves _ a)) _ s (evm_pays ctx id tx a s) (conj Hs eq_refl)); [|by intros; apply moves_idle].
    intros _ s' H. by apply (moves_paid _ _ _ _ H).
  - eapply (outcome _ _ _ (on (moves _ a)) _ s (recap_holds ctx sym amount a s) (conj Hs eq_refl)); [|by intros; apply moves_idle].
    intros _ s' (tp & k & c & Hau & H). eexists _, _. split_and!; [apply bank_recap|exact H|]. intros ? [= <-]. by exists tp.
Qed.

(** The request, resolved by the middleware, may do it. *)
Definition caused (hd : option Header) (c : call) (s : srv) (e : event) : Prop :=
  exists ctx s1, authReceivingMiddleware background (mkRequest hd "tools/call" (Some (tool_name c))) s = (Ok (Forward ctx), s1)
  /\ causes ctx s1 c e.

Lemma serve_moves hd c a s : holds a (books s) -> moves (caused hd c s) a (books (snd (serve h d rd hd c s))).
Proof.
  intros Hs. unfold serve, mbind, M_bind.
  pose proof (keeps_view books _ (keeps_middleware background (mkRequest hd "tools/call" (Some (tool_name c)))) s) as Hk.
  unfold caused. destruct (authReceivingMiddleware _ _ s) as [[[|ctx]|e] s1]; cbn [fst snd] in *;
    [exact (moves_idle _ _ _ (eq_ind_r (holds a) Hs Hk))| |exact (moves_idle _ _ _ (eq_ind_r (holds a) Hs Hk))].
  destruct (handle_moves ctx c a s1) as (l & a' & H1 & H2 & H3); [by rewrite Hk|].
  exists l, a'. split_and!; [done..|]. intros e He. exists ctx, s1. split; [done|by apply H3].
Qed.

Lemma step_moves P a s s' : step h d rd P s s' -> holds a (books s) -> moves (fun _ => True) a (books s').
Proof.
  intros [hd c s0 Hc|m s0|s0] Hs; [|by apply moves_idle|].
  - destruct (serve_moves hd c a s0 Hs) as (l & a' & H1 & H2 & _). by exists l, a'.
  - apply moves_idle. pose proof (keeps_view books _ keeps_lendora_refresh s0) as Hk. by rewrite Hk.
Qed.

Lemma reachable_moves P a s s' :
  reachable h d rd P s s' -> holds a (books s) -> exists es a', bank_run daily es a a' /\ holds a' (books s').
Proof.
  intros Hr. revert a. induction Hr as [s|s s1 s2 H1 _ IH]; intros a Hs; [by exists [], a; split; [constructor|]|].
  destruct (step_moves P a s s1 H1 Hs) as (l & a1 & Hl & Ha1 & _). destruct (IH a1 Ha1) as (es & a2 & Hes & Ha2).
  exists (option_list l ++ es), a2. split; [by econstructor|done].
Qed.

End Requests.
End Refine.

(** ** Claims *)

(** C5: the server implements the bank.  On a UTC day of its clock, from books that
    hold the balances and caps of a bank, whatever requests are served in
    whatever order: in every reachable state the books hold a bank that the
    specification reaches by affordable payments and new caps only, and the next
    request moves that bank by at most one step.  A payment is made only by a
    broadcast, for the tenant and owner the middleware and the policy resolved,
    and is what the signed transaction takes out; a new cap is set only by
    set_transfer_out_cap, for the caller's own owner. *)
Theorem server_refines_bank {RL : RateLib} {E : Env} {EL : EnvLaws E} {L : ChainLib} {DL : DydxLib} {D : DecLib} {U : Unicode}
    {N : EVMEnv} {B : ABILib} {DA : DecArith} {Q : QueryEnv} {RD : Reads} (h : Handlers) (d : EVMDeps) (rd : ReadDeps)
    (t0 : Time) (Hday : forall n, utc_day (env_clock n) = utc_day t0) (a0 : bank) (s0 s : srv)
    (H0 : holds h t0 a0 (books s0)) (Hr : reachable h d rd (fun _ => True) s0 s) (hd : option Header) (c : call) :
  exists es a, bank_run (dailyCapQuantums (h_Limits h)) es a0 a /\ holds h t0 a (books s)
  /\ exists l a', bank_step (dailyCapQuantums (h_Limits h)) l a a' /\ holds h t0 a' (books (snd (serve h d rd hd c s)))
     /\ forall e, l = Some e -> caused h hd c s e.
Proof.
  destruct (reachable_moves h t0 Hday d rd _ a0 s0 s Hr H0) as (es & a & Hes & Ha).
  exists es, a. split; [done|]. split; [done|]. exact (serve_moves h t0 Hday d rd hd c a s Ha).
Qed.

(** ** A day at the demonstration server: log in, then withdraw 0.5 USDC. *)

Definition day_serve (c : call) : M (srv (RL := demo_rate)) unit :=
  serve (E := demo_still) (L := demo_lib) (DL := dydx_lib) (D := demo_dec) (U := unicode_id)
    (N := demo_net) (B := demo_abi) (DA := demo_arith) (Q := demo_queries) (RD := demo_reads) demo_handlers demo_deps demo_read_deps demo_hd c.
Definition day_s1 := snd (day_serve (KChallenge "svp1a") demo_srv).
Definition day_s2 := snd (day_serve (KVerify "02" demo_sig) day_s1).
Definition day_s3 := snd (day_serve (KBroadcast "c1" demo_signed) day_s2).
Definition day_bank : bank := mkBank (fun _ => 0) (fun _ _ => 0) (fun ow k => at2 (caps demo_out) ow k ≫= CapBase).

Example day_spent : option_map (fun l => mem_spent l 7 "auto-07") (s_ledger day_s3) = Some 500000.
Proof. vm_compute. reflexivity. Qed.

Lemma day_bank_holds : holds demo_handlers 7 day_bank (books demo_srv).
Proof.
  destruct (NewMemoryLedger_under_cap (Build_Config 0 0 0 1) ltac:(done) ltac:(done)) as [[Hok _] _]. split; split.
  - exists (NewMemoryLedger 1). split; [reflexivity|]. split; [exact Hok|]. intros t. vm_compute. reflexivity.
  - exists demo_out. split; [reflexivity|]. intros ow k. vm_compute. reflexivity.
  - intros l c Hl Hc. cbn [books fst s_ledger demo_srv] in Hl. apply (inj Some) in Hl. subst l.
    vm_compute in Hc. injection Hc as <-. vm_compute. reflexivity.
  - intros o ow k Ho. change (s_out demo_srv = Some o) in Ho. unfold day_bank, demo_out. rewrite Ho. reflexivity.
Qed.

Lemma server_refines_bank_witness :
  exists es a l a', bank_run (dailyCapQuantums (h_Limits demo_handlers)) es day_bank a
  /\ bank_step (dailyCapQuantums (h_Limits demo_handlers)) l a a' /\ bk_spent a' "auto-07" = 500000.
Proof.
  destruct (server_refines_bank (EL := demo_still_laws) (L := demo_lib) (DL := dydx_lib) (D := demo_dec) (U := unicode_id)
    (N := demo_net) (B := demo_abi) (DA := demo_arith) (Q := demo_queries) (RD := demo_reads) demo_handlers demo_deps demo_read_deps
    7 (fun _ => eq_refl) day_bank demo_srv day_s2 day_bank_holds) with (hd := demo_hd) (c := KBroadcast "c1" demo_signed)
    as (es & a & Hes & _ & l & a' & Hl & [((ml & El & _ & Hs) & _) _] & _).
  - apply (rtc_l _ _ day_s1); [apply step_serve; exact I|].
    apply (rtc_l _ _ day_s2); [apply step_serve; exact I|]. apply rtc_refl.
  - exists es, a, l, a'. split; [exact Hes|]. split; [exact Hl|]. rewrite <- Hs.
    pose proof day_spent as Hd. change (s_ledger day_s3 = Some ml) in El. rewrite El in Hd. by injection Hd.
Defined.
