(* ===== verification/ConcurrentAccounts.v ===== *)
(** * The books under concurrency

    Two broadcasts of one owner in flight can pass a cap together
    ([ConcurrentCaps]), but none is ever lost or counted twice: each transaction a
    node accepted is recorded once and in full, however the critical sections of
    all the requests are interleaved.  The history of a run is the list of the
    accepted transactions; the ghost of a thread is what it has sent and not yet
    recorded, and the books with these debts always add up to the history. *)

From S2P Require Import Prelude GoStrings GoNum GoTime GoEncoding Limits TransferOut NonceStore IPRateLimiter.
From S2P Require Import SessionBearers DynamicTenants Policy GoBig Markets Units ChainLib Payload Assembler Assets.
From S2P Require Import TxInspect Cancels Orders FundsBuilder Builders EVMBuilder BridgeRegistry Server AuthTools Broadcast Tools ABI EVMTools BridgeTools.
From S2P Require Import Signer LendoraABI LendoraCache LendoraFormat LendoraRisk LendoraOps LendoraRead Http Indexer.
From S2P Require Import AccountTools MarketTools FaucetTools ReadTools SwapTools Config System.
From S2P Require Import Concurrent ConcurrentCaps Bank.

(** ** Sums *)

Fixpoint Zsum {A} (f : A -> Z) (l : list A) : Z := match l with [] => 0 | x :: l => f x + Zsum f l end.

Lemma Zsum_app {A} (f : A -> Z) l1 l2 : Zsum f (l1 ++ l2) = Zsum f l1 + Zsum f l2.
Proof. induction l1 as [|x l1 IH]; [done|]. cbn. rewrite IH. lia. Qed.

Lemma Zsum_perm {A} (f : A -> Z) l1 l2 : l1 ≡ₚ l2 -> Zsum f l1 = Zsum f l2.
Proof. induction 1; cbn in *; lia. Qed.

Lemma Zsum_nonneg {A} (f : A -> Z) l : Forall (fun x => 0 <= f x) l -> 0 <= Zsum f l.
Proof. induction 1; cbn; lia. Qed.

(** What the entries of a list move of a symbol. *)
Definition outs_at (k : string) (l : list (string * Z)) : Z := Zsum (fun ka => if decide (ka.1 = k) then Z.max 0 ka.2 else 0) l.

Lemma outs_at_map k (m : gmap string Z) : outs_at k (map_to_list m) = Z.max 0 (default 0 (m !! k)).
Proof.
  induction m as [|k' a m Hk' IH] using map_ind; [done|]. unfold outs_at in *.
  rewrite (Zsum_perm _ _ _ (map_to_list_insert m k' a Hk')). cbn [Zsum fst snd].
  rewrite lookup_insert. destruct (decide (k' = k)) as [->|]; cbn [default from_option id].
  - rewrite Hk' in IH. cbn [default from_option] in IH. lia.
  - lia.
Qed.

(** ** The accepted transactions *)

Inductive sent : Type :=
| SentTx (raw : bytes)
| SentEVM (chain : Z) (tx : EthTx).

Section Accounts.
Context {RL : RateLib} {E : Env} {EL : EnvLaws E} {L : ChainLib} (h : Handlers) (t0 : Time).
Hypothesis Hday : forall n, utc_day (env_clock n) = utc_day t0.

(** What a node accepted in one action. *)
Definition accepted (s s' : srv) : list sent :=
  match drop (List.length (s_sent s)) (s_sent s') with
  | [raw] =>
      match env_broadcast (s_reads s) raw with
      | Ok res => if br_Code res =? 0 then [SentTx raw] else []
      | Err _ => []
      end
  | _ => []
  end
  ++ match drop (List.length (s_evm_sent s)) (s_evm_sent s') with
     | [(c, tx)] => match env_evm_send (s_reads s) c tx with Ok _ => [SentEVM c tx] | Err _ => [] end
     | _ => []
     end.

(** The history: which owner and tenant sent what. *)
Definition log_accepted (lb : string * string) (s s' : srv) (hs : list (string * string * sent)) :=
  hs ++ map (pair lb) (accepted s s').

(** What a transaction withdraws, and moves of a symbol for its owner. *)
Definition withdraws (x : sent) : Z :=
  match x with
  | SentTx raw => match extractWithdrawQuantums raw with Ok q => q | Err _ => 0 end
  | SentEVM _ _ => 0
  end.

Definition moves_out (ow : string) (x : sent) : gmap string Z :=
  match x with
  | SentTx raw => match extractBankSends raw ow with Ok m => m | Err _ => ∅ end
  | SentEVM _ tx =>
      match EthTx_Sender tx with
      | Ok from =>
          if negb (bool_decide (u64 (etx_ChainId tx) ∈ h_ForeignChains h)) then
            decodeTransferOut (etx_To tx) (Some (etx_Value tx)) (etx_Data tx) from
              (fst (default (zero_address, zero_address) (h_Uniswap h))) (snd (default (zero_address, zero_address) (h_Uniswap h)))
          else ∅
      | Err _ => ∅
      end
  end.

Definition withdrawn_by (t : string) (ev : string * string * sent) : Z :=
  if String.eqb ev.1.2 t then withdraws ev.2 else 0.
Definition moved_by (ow k : string) (ev : string * string * sent) : Z :=
  if String.eqb ev.1.1 ow then Z.max 0 (default 0 (moves_out ow ev.2 !! k)) else 0.

Lemma accepted_quiet s s' : outbox s' = outbox s -> accepted s s' = [].
Proof. intros [= E1 E2]. unfold accepted. by rewrite E1, E2, !drop_all. Qed.

Lemma accepted_sync raw s :
  accepted s (snd (broadcast_sync raw s))
  = match env_broadcast (s_reads s) raw with Ok res => if br_Code res =? 0 then [SentTx raw] else [] | Err _ => [] end.
Proof.
  unfold accepted, broadcast_sync, mbind, M_bind, tick, run_state. cbn [snd s_sent s_evm_sent set_sent set_reads s_reads].
  rewrite drop_app_length, drop_all. apply app_nil_r.
Qed.

Lemma accepted_evm c tx s :
  accepted s (snd (evm_send c tx s)) = match env_evm_send (s_reads s) c tx with Ok _ => [SentEVM c tx] | Err _ => [] end.
Proof.
  unfold accepted, evm_send, mbind, M_bind, tick, run_state. cbn [snd s_sent s_evm_sent set_evm_sent set_reads s_reads].
  by rewrite drop_app_length, drop_all.
Qed.

Lemma evm_send_fst c tx s : fst (evm_send c tx s) = Ok (env_evm_send (s_reads s) c tx).
Proof. done. Qed.

Lemma withdraws_nonneg x : 0 <= withdraws x.
Proof.
  destruct x as [raw|]; cbn; [|lia]. destruct (extractWithdrawQuantums raw) as [q|] eqn:Eq; [|lia].
  apply extract_range in Eq. lia.
Qed.

(** ** Debts *)

Record debt : Type := mkDebt { db_owner : string; db_tenant : string; db_spend : Z; db_outs : list (string * Z) }.

Definition db_label (g : debt) : string * string := (db_owner g, db_tenant g).
Definition due (t : string) (g : debt) : Z := if String.eqb (db_tenant g) t then db_spend g else 0.
Definition due_out (ow k : string) (g : debt) : Z := if String.eqb (db_owner g) ow then outs_at k (db_outs g) else 0.

Context (lf0 : string -> Z) (mf0 : string -> string -> Z).

Definition debt_ok (s : srv) (g : debt) : Prop := belongs s (db_tenant g) (db_owner g) /\ 0 <= db_spend g <= maxU64.

Definition adds_up (hs : list (string * string * sent)) (s : srv) (gs : list debt) : Prop :=
  Forall (debt_ok s) gs /\ exists lf mf, balance t0 lf mf (books s)
  /\ (forall t, Z.min maxU64 (lf t + Zsum (due t) gs) = Z.min maxU64 (lf0 t + Zsum (withdrawn_by t) hs))
  /\ (forall ow k, mf ow k + Zsum (due_out ow k) gs = mf0 ow k + Zsum (moved_by ow k) hs).

Abbreviation outlineA := (hist_outline db_label log_accepted adds_up).

Lemma due_nonneg s t gs : Forall (debt_ok s) gs -> 0 <= Zsum (due t) gs.
Proof.
  intros Hf. apply Zsum_nonneg. eapply Forall_impl; [exact Hf|]. intros g [_ Hg]. unfold due. case_match; lia.
Qed.

(** One action of one thread: what it adds to the books, it takes from its debt
    or from the history. *)
Lemma adds_up_step hs es s s' l1 g g' l2 lf mf lf' mf' :
  Forall (debt_ok s) (l1 ++ g :: l2) -> registry s' = registry s -> db_label g' = db_label g -> 0 <= db_spend g' <= maxU64 ->
  (forall t, Z.min maxU64 (lf t + Zsum (due t) (l1 ++ g :: l2)) = Z.min maxU64 (lf0 t + Zsum (withdrawn_by t) hs)) ->
  (forall ow k, mf ow k + Zsum (due_out ow k) (l1 ++ g :: l2) = mf0 ow k + Zsum (moved_by ow k) hs) ->
  balance t0 lf' mf' (books s') ->
  (forall t r, 0 <= r -> Z.min maxU64 (lf' t + due t g' + r) = Z.min maxU64 (lf t + due t g + r + Zsum (withdrawn_by t) es)) ->
  (forall ow k, mf' ow k + due_out ow k g' = mf ow k + due_out ow k g + Zsum (moved_by ow k) es) ->
  adds_up (hs ++ es) s' (l1 ++ g' :: l2).
Proof.
  intros Hf Hr [= E1 E2] Hg' Hl Hm Hb Hl' Hm'. pose proof Hf as [F1 [[Hb0 _] F2]%Forall_cons]%Forall_app. split.
  { assert (forall x, debt_ok s x -> debt_ok s' x) as Hx by (intros x [Hx1 Hx2]; split; [by eapply belongs_registry|done]).
    apply Forall_app. split; [by eapply Forall_impl|]. constructor; [|by eapply Forall_impl].
    split; [|done]. rewrite E1, E2. by eapply belongs_registry. }
  exists lf', mf'. split; [done|]. split.
  - intros t. specialize (Hl t). rewrite Zsum_app in Hl |- *. cbn [Zsum] in Hl |- *.
    pose proof (due_nonneg s t l1 F1). pose proof (due_nonneg s t l2 F2).
    specialize (Hl' t (Zsum (due t) l1 + Zsum (due t) l2) ltac:(lia)). rewrite Zsum_app.
    assert (0 <= Zsum (withdrawn_by t) es).
    { apply Zsum_nonneg, Forall_forall. intros ev _. unfold withdrawn_by. case_match; [apply withdraws_nonneg|lia]. }
    lia.
  - intros ow k. specialize (Hm ow k). specialize (Hm' ow k). rewrite (Zsum_app _ hs es).
    rewrite Zsum_app in Hm |- *. cbn [Zsum] in Hm |- *. lia.
Qed.

(** ** The actions *)

(** An action that sends nothing and changes no balance; the thread may restate
    its debt. *)
Lemma acc_restate {A} (m : M srv A) g (Q : result A -> debt -> Prop) :
  keeps (fun s => (outbox s, registry s)) m ->
  (forall lf mf, preserves (fun s => balance t0 lf mf (books s)) m) ->
  (forall s, debt_ok s g -> exists g', db_label g' = db_label g /\ db_spend g' = db_spend g
     /\ (forall k, outs_at k (db_outs g') = outs_at k (db_outs g)) /\ Q (fst (m s)) g') ->
  outlineA (atomically m) g Q.
Proof.
  intros Hk Hb HQ. apply hist_atomic. intros hs s l1 l2 (Hf & lf & mf & H0 & Hl & Hm).
  pose proof Hf as [_ [Hg _]%Forall_cons]%Forall_app. destruct (HQ s Hg) as (g' & Eg & Es & Eo & HQ').
  specialize (Hk s). specialize (Hb lf mf s H0). destruct (m s) as [r s']. cbn [fst snd] in *. injection Hk as K1 K2 K3 K4.
  exists g'. split; [done|]. split; [|exact HQ']. unfold log_accepted.
  rewrite (accepted_quiet s s') by (unfold outbox; congruence). cbn [map]. injection Eg as E1 E2.
  eapply adds_up_step; [exact Hf|by unfold registry; congruence|unfold db_label; congruence|destruct Hg; lia|exact Hl|exact Hm|by destruct r| |].
  - intros t r0 _. unfold due. rewrite E2, Es. cbn [Zsum]. f_equal. lia.
  - intros ow k. unfold due_out. rewrite E1, Eo. cbn [Zsum]. lia.
Qed.

Lemma acc_quiet {A} (m : M srv A) g (Q : result A -> debt -> Prop) :
  keeps (fun s => (outbox s, registry s)) m -> (forall lf mf, preserves (fun s => balance t0 lf mf (books s)) m) ->
  (forall s, debt_ok s g -> Q (fst (m s)) g) -> outlineA (atomically m) g Q.
Proof. intros Hk Hb HQ. apply acc_restate; [done..|]. intros s Hg. exists g. auto. Qed.

(** A node accepts: the thread owes what the transaction takes out. *)
Lemma acc_send {A} (m : M srv A) g x (Q : result A -> debt -> Prop) :
  db_spend g = 0 -> db_outs g = [] ->
  keeps (fun s => (books s, registry s)) m -> (forall s, accepted s (snd (m s)) = [] \/ accepted s (snd (m s)) = [x]) ->
  0 <= withdraws x <= maxU64 ->
  (forall s, accepted s (snd (m s)) = [] -> Q (fst (m s)) g) ->
  (forall s, accepted s (snd (m s)) = [x] ->
     Q (fst (m s)) (mkDebt (db_owner g) (db_tenant g) (withdraws x) (map_to_list (moves_out (db_owner g) x)))) ->
  outlineA (atomically m) g Q.
Proof.
  intros Es Eo Hk Ha Hx Q0 Q1. apply hist_atomic. intros hs s l1 l2 (Hf & lf & mf & H0 & Hl & Hm).
  pose proof Hf as [_ [Hg _]%Forall_cons]%Forall_app.
  specialize (Hk s). specialize (Ha s). specialize (Q0 s). specialize (Q1 s). destruct (m s) as [r s']. cbn [fst snd] in *.
  injection Hk as K1 K2 K3 K4. assert (books s' = books s) as Eb by (unfold books; congruence).
  destruct Ha as [Ha|Ha].
  - exists g. split; [done|]. split; [|by apply Q0]. unfold log_accepted. rewrite Ha.
    eapply adds_up_step; [exact Hf|by unfold registry; congruence|done|destruct Hg; lia|exact Hl|exact Hm|by rewrite Eb| |];
      intros; cbn [Zsum map]; [f_equal|]; lia.
  - eexists. split; [|split; [|by apply Q1]]; [done|]. unfold log_accepted. rewrite Ha.
    eapply adds_up_step; [exact Hf|by unfold registry; congruence|done|done|exact Hl|exact Hm|by rewrite Eb| |].
    + intros t r0 _. unfold due, withdrawn_by. cbn [Zsum map fst snd db_tenant db_spend db_label]. rewrite Es.
      f_equal. destruct (String.eqb _ _); lia.
    + intros ow k. unfold due_out, moved_by. cbn [Zsum map fst snd db_owner db_outs db_label]. rewrite Eo, outs_at_map.
      destruct (String.eqb_spec (db_owner g) ow) as [->|]; cbn [outs_at Zsum]; lia.
Qed.

Lemma record_withdraw_ok t q s :
  exists s', record_withdraw t q s = (Ok tt, s') /\ outbox s' = outbox s /\ registry s' = registry s.
Proof. unfold record_withdraw, mbind, M_bind. rewrite now_eq. by eexists. Qed.

Lemma record_out_ok ow k a s : exists s', record_out ow k a s = (Ok tt, s') /\ outbox s' = outbox s /\ registry s' = registry s.
Proof.
  unfold record_out, mbind, M_bind. rewrite now_eq. unfold tick, modify. destruct (RecordOut _ _ _ _ _ _ _ _) as [o' d'].
  by eexists.
Qed.

(** A record pays a debt. *)
Lemma acc_record_withdraw g (Q : error -> debt -> Prop) :
  Q (Ok tt) (mkDebt (db_owner g) (db_tenant g) 0 (db_outs g)) ->
  outlineA (atomically (record_withdraw (db_tenant g) (db_spend g))) g Q.
Proof.
  intros HQ. apply hist_atomic. intros hs s l1 l2 (Hf & lf & mf & H0 & Hl & Hm).
  pose proof Hf as [_ [[_ Hg] _]%Forall_cons]%Forall_app.
  pose proof (record_withdraw_balance t0 Hday lf mf (db_tenant g) (db_spend g) (fun _ => True) Hg s H0) as Hb.
  destruct (record_withdraw_ok (db_tenant g) (db_spend g) s) as (s' & Er & K1 & K2). rewrite Er in Hb |- *.
  eexists. split; [|split; [|exact HQ]]; [done|]. unfold log_accepted. rewrite (accepted_quiet s s') by done. cbn [map].
  eapply adds_up_step; [exact Hf|done|done|cbn; lia|exact Hl|exact Hm|exact Hb| |].
  - intros t r0 Hr0. unfold due, charge_withdraw. cbn [db_tenant db_spend Zsum]. rewrite (String.eqb_sym t).
    destruct (String.eqb_spec (db_tenant g) t) as [->|]; lia.
  - intros ow k. unfold due_out. cbn [db_owner db_outs Zsum]. lia.
Qed.

Lemma acc_record g k a l (Q : error -> debt -> Prop) :
  db_outs g = (k, a) :: l -> Q (Ok tt) (mkDebt (db_owner g) (db_tenant g) (db_spend g) l) ->
  outlineA (atomically (record_out (db_owner g) k a)) g Q.
Proof.
  intros Eg HQ. apply hist_atomic. intros hs s l1 l2 (Hf & lf & mf & H0 & Hl & Hm).
  pose proof Hf as [_ [[_ Hg] _]%Forall_cons]%Forall_app.
  pose proof (record_balance t0 Hday lf mf (db_owner g) k a (fun _ => True) s H0) as Hb.
  destruct (record_out_ok (db_owner g) k a s) as (s' & Er & K1 & K2). rewrite Er in Hb |- *.
  eexists. split; [|split; [|exact HQ]]; [done|]. unfold log_accepted. rewrite (accepted_quiet s s') by done. cbn [map].
  eapply adds_up_step; [exact Hf|done|done|done|exact Hl|exact Hm|exact Hb| |].
  - intros t r0 Hr0. unfold due. cbn [db_tenant db_spend Zsum]. f_equal. lia.
  - intros ow k'. unfold due_out, outs_at. cbn [db_owner db_outs]. rewrite Eg. cbn [Zsum fst snd].
    destruct (String.eqb_spec (db_owner g) ow) as [->|Hne]; [|rewrite decide_False by naive_solver; lia].
    destruct (decide (k = k')) as [->|]; [rewrite decide_True by done|rewrite decide_False by naive_solver]; lia.
Qed.

(** ** The handlers *)

Lemma acc_keeps {A} (m : M srv A) g (Q : result A -> debt -> Prop) :
  keeps (fun s => (books s, outbox s, registry s)) m -> (forall s, debt_ok s g -> Q (fst (m s)) g) -> outlineA (atomically m) g Q.
Proof.
  intros Hk HQ. apply acc_quiet; [| |done].
  - intros s. exact (f_equal (fun x => (snd (fst x), snd x)) (Hk s)).
  - intros lf mf. apply (keeps_preserves books). intros s. exact (f_equal (fun x => fst (fst x)) (Hk s)).
Qed.

Lemma acc_checks l : forall g (Q : error -> debt -> Prop),
  (forall e, Q (Err e) g) -> Q (Ok tt) g ->
  outlineA (for_each_prog (fun k a => atomically (check_out (db_owner g) k a)) l) g Q.
Proof.
  induction l as [|[k a] l IH]; intros g Q Qe Qo; cbn [for_each_prog]; [done|].
  apply hist_bind, acc_quiet.
  - intros s. unfold check_out, mbind, M_bind. rewrite now_eq. unfold tick, run_state. by destruct (TransferOut.Check _ _ _ _ _ _ _) as [? []].
  - intros lf mf. by apply check_balance.
  - intros s _. destruct (fst _) as [[]|e]; [by apply IH|apply Qe].
Qed.

Lemma acc_records l : forall g (Q : error -> debt -> Prop),
  db_outs g = l -> Q (Ok tt) (mkDebt (db_owner g) (db_tenant g) (db_spend g) []) ->
  outlineA (for_each_prog (fun k a => atomically (record_out (db_owner g) k a)) l) g Q.
Proof.
  induction l as [|[k a] l IH]; intros g Q Eg Qo; cbn [for_each_prog].
  - destruct g. cbn in *. by subst.
  - apply hist_bind. eapply acc_record; [exact Eg|]. by apply (IH (mkDebt _ _ _ _)).
Qed.

Lemma acc_range_checks m g (Q : error -> debt -> Prop) :
  (forall e, Q (Err e) g) -> Q (Ok tt) g ->
  outlineA (range_prog m (fun k a => atomically (check_out (db_owner g) k a))) g Q.
Proof. intros Qe Qo. apply hist_bind, acc_keeps; [done|]. intros s _. cbn [tick fst]. by apply acc_checks. Qed.

Lemma acc_range_records m g (Q : error -> debt -> Prop) :
  db_outs g = map_to_list m -> Q (Ok tt) (mkDebt (db_owner g) (db_tenant g) (db_spend g) []) ->
  outlineA (range_prog m (fun k a => atomically (record_out (db_owner g) k a))) g Q.
Proof.
  intros Eg Qo. apply hist_bind, acc_restate; [done|by intros lf mf s Hs|]. intros s _. cbn [tick fst].
  exists (mkDebt (db_owner g) (db_tenant g) (db_spend g) (env_range (s_reads s) m)). split_and!; [done..| |].
  - intros k. cbn [db_outs]. rewrite Eg. apply Zsum_perm, range_perm.
  - by apply (acc_records _ (mkDebt _ _ _ _)).
Qed.

Lemma acc_authorize ctx tool tc g (Q : result TenantPolicy -> debt -> Prop) :
  TenantFrom ctx = Some tc -> tc_TenantID tc = db_tenant g -> (forall e, Q (Err e) g) ->
  (forall tp, tp_TenantID tp = db_tenant g -> tp_Owner tp = db_owner g -> Q (Ok tp) g) ->
  outlineA (authorize_prog ctx tool) g Q.
Proof.
  intros Ht Hid Qe Qo. unfold authorize_prog. rewrite Ht, Hid.
  apply hist_bind, acc_keeps; [done|]. intros s1 _. case_match; [|done].
  apply hist_bind, acc_keeps; [done|]. intros s2 (Hb & _). rewrite policy_eq. cbn [fst].
  destruct (Tenant _ _ _) as [tp|e] eqn:Et; [|apply Qe]. apply Hb in Et as [? ?].
  apply hist_bind, acc_keeps; [intros s; by rewrite rate_allow_eq|]. intros s3 _. case_match; [|done].
  destruct (negb _); [apply Qe|by apply Qo].
Qed.

Lemma claim_audit_keeps :
  (forall t c, keeps (fun s => (books s, outbox s, registry s)) (claim t c))
  /\ (forall e, keeps (fun s => (books s, outbox s, registry s)) (append_audit e)).
Proof.
  split; intros; intros s.
  - unfold claim, mbind, M_bind. rewrite now_eq. unfold run_state. by destruct (Claim _ _ _ _).
  - unfold append_audit, mbind, M_bind. rewrite now_eq. unfold tick, ignore, run_state. by destruct (Append _ _ _ _).
Qed.

Lemma append_audit_ok e s : fst (append_audit e s) = Ok tt.
Proof.
  unfold append_audit, mbind, M_bind. rewrite now_eq. unfold tick, ignore, run_state. by destruct (Append _ _ _ _).
Qed.

Lemma acc_if_enforce (b : bool) t q g (Q : error -> debt -> Prop) :
  (forall r, Q r g) -> outlineA (if b then atomically (enforce_withdraw h t q) else mret tt) g Q.
Proof.
  intros HQ. destruct b; [|apply HQ]. apply acc_quiet; [|intros lf mf; by apply enforce_balance|intros s _; apply HQ].
  intros s. unfold enforce_withdraw, mbind, M_bind. rewrite now_eq. unfold run_state. by destruct (Enforce _ _ _ _ _ _).
Qed.

(** Nothing is owed at the end. *)
Definition settled {A} (r : result A) (g : debt) : Prop := db_spend g = 0 /\ db_outs g = [].

Ltac acc_pure := apply hist_bind; cbn [hist_outline plift]; match goal with |- match ?r with _ => _ end => destruct r; [|done] end.
Ltac acc_step K := apply hist_bind, acc_keeps; [apply K|]; intros ? _; match goal with |- match ?r with _ => _ end => destruct r; [|done] end.

(** After the node's answer: what was accepted is recorded. *)
Lemma acc_signed_tail tp cid q out (r : result BroadcastResult) g (ok := match r with Ok res => br_Code res =? 0 | Err _ => false end) :
  tp_TenantID tp = db_tenant g -> tp_Owner tp = db_owner g ->
  (if ok then db_spend g = q /\ 0 <= q /\ db_outs g = map_to_list out else settled r g) ->
  outlineA
    (let res := match r with Ok res => res | Err _ => mkBroadcastResult "" 0 "" end in
     _ ← atomically (append_audit (audit_broadcast tp cid res (negb (is_ok r))));
     _ ← plift (match r with Ok _ => Ok tt | Err e => Err e end);
     _ ← plift (if negb (br_Code res =? 0) then
                 match ParseBroadcastError res with Some pe => Err pe | None => Ok tt end
               else Ok tt);
     _ ← (if (br_Code res =? 0) && (0 <? q) then atomically (record_withdraw (tp_TenantID tp) q) else mret tt);
     _ ← (if br_Code res =? 0 then range_prog out (fun sym amt => atomically (record_out (tp_Owner tp) sym amt)) else mret tt);
     mret res) g settled.
Proof.
  intros Et Eo Hg. destruct claim_audit_keeps as [_ Ka]. cbv zeta. subst ok.
  apply hist_bind, acc_keeps; [apply Ka|]. intros s _. rewrite append_audit_ok.
  destruct r as [res|e]; [|done]. apply hist_bind. cbn [hist_outline plift]. apply hist_bind. cbn [hist_outline plift].
  destruct (br_Code res =? 0) eqn:Ec; cbn [negb andb].
  - destruct Hg as (E1 & Hq & E2). rewrite Et, Eo. apply hist_bind.
    assert (outlineA (_ ← range_prog out (fun sym amt => atomically (record_out (db_owner g) sym amt)); mret res)
              (mkDebt (db_owner g) (db_tenant g) 0 (db_outs g)) settled) as Hrest.
    { apply hist_bind. by apply (acc_range_records _ (mkDebt _ _ _ _)). }
    destruct (Z.ltb_spec 0 q); [rewrite <- E1; by apply acc_record_withdraw|].
    assert (mkDebt (db_owner g) (db_tenant g) 0 (db_outs g) = g) as Eg by (destruct g; cbn in *; f_equal; lia).
    rewrite Eg in Hrest. exact Hrest.
  - by destruct (ParseBroadcastError res).
Qed.

Lemma acc_signed ctx cid tx tc g :
  TenantFrom ctx = Some tc -> tc_TenantID tc = db_tenant g -> db_spend g = 0 -> db_outs g = [] ->
  outlineA (BroadcastSignedTx_prog h ctx cid tx) g settled.
Proof.
  intros Ht Hid Es Eo. destruct claim_audit_keeps as [Kc _]. unfold BroadcastSignedTx_prog.
  apply hist_bind. eapply acc_authorize; [exact Ht|exact Hid|done|]. intros tp Et Ew.
  acc_step Kc. apply hist_bind. cbn [hist_outline plift]. destruct (wrap _ _) as [raw|]; [|done].
  acc_pure. apply hist_bind. cbn [hist_outline plift]. match goal with |- context [String.eqb ?x ?y] => destruct (String.eqb_spec x y) as [->|] end; [|done].
  cbn [negb check]. apply hist_bind. cbn [hist_outline plift].
  destruct (wrap _ _) as [q|] eqn:Hq; [|done]. apply wrap_ok in Hq. pose proof (extract_range raw q Hq) as Hr.
  apply hist_bind, acc_if_enforce. intros [[]|]; [|done].
  apply hist_bind. cbn [hist_outline plift]. destruct (wrap _ _) as [out|] eqn:Hout; [|done]. apply wrap_ok in Hout.
  rewrite Ew in Hout |- *. apply hist_bind, acc_range_checks; [done|].
  assert (withdraws (SentTx raw) = q) as Hw by (cbn; by rewrite Hq).
  assert (moves_out (db_owner g) (SentTx raw) = out) as Hm by (cbn; by rewrite Hout).
  apply hist_bind, (acc_send _ _ (SentTx raw)); [done..| | |by rewrite Hw| |].
  - done.
  - intros s0. rewrite accepted_sync. destruct (env_broadcast _ _) as [res|]; [destruct (_ =? 0)|]; auto.
  - intros s0 Ha. rewrite accepted_sync in Ha. cbn [broadcast_sync mbind M_bind tick run_state fst]. rewrite <- Ew.
    apply acc_signed_tail; [done..|]. destruct (env_broadcast _ _) as [res|]; [|done]. by destruct (br_Code res =? 0).
  - intros s0 Ha. rewrite accepted_sync in Ha. cbn [broadcast_sync mbind M_bind tick run_state fst]. rewrite <- Ew.
    apply acc_signed_tail; [done..|]. destruct (env_broadcast _ _) as [res|]; [|done]. destruct (br_Code res =? 0); [|done].
    cbn [db_spend db_outs]. rewrite Hw, Ew, Hm. split_and!; [done|lia|done].
Qed.

Lemma acc_evm ctx cid tx tc g :
  TenantFrom ctx = Some tc -> tc_TenantID tc = db_tenant g -> db_spend g = 0 -> db_outs g = [] ->
  outlineA (BroadcastEVMTx_prog h ctx cid tx) g settled.
Proof.
  intros Ht Hid Es Eo. destruct claim_audit_keeps as [Kc Ka]. unfold BroadcastEVMTx_prog.
  apply hist_bind. eapply acc_authorize; [exact Ht|exact Hid|done|]. intros tp Et Ew.
  acc_pure. acc_step Kc. acc_pure. apply hist_bind. cbn [hist_outline plift]. destruct (wrap _ _) as [etx|]; [|done].
  apply hist_bind. cbn [hist_outline plift]. destruct (wrap _ _) as [from|] eqn:Hfrom; [|done]. apply wrap_ok in Hfrom.
  apply hist_bind. cbn [hist_outline plift]. destruct (ownerEthAddress _) as [eth|]; [|done].
  apply hist_bind. cbn [hist_outline plift]. destruct (addr_eqb from eth) eqn:Ea; [|done]. apply bool_decide_eq_true in Ea. subst eth.
  cbn [negb check]. destruct (default (zero_address, zero_address) (h_Uniswap h)) as [router wsvp] eqn:Eu. cbv zeta.
  match goal with |- context [range_prog ?m (fun sym amt => atomically (check_out _ sym amt))] => set (out := m) end.
  match goal with |- context [evm_send ?c etx] => set (chain := c) end.
  rewrite Ew. apply hist_bind, acc_range_checks; [done|].
  assert (moves_out (db_owner g) (SentEVM chain etx) = out) as Hm by (unfold moves_out; by rewrite Hfrom, Eu).
  apply hist_bind, (acc_send _ _ (SentEVM chain etx)); [done|done|done| |cbn; unfold maxU64; lia| |].
  - intros s0. rewrite accepted_evm. destruct (env_evm_send _ _ _); auto.
  - intros s0 Ha. rewrite accepted_evm in Ha. rewrite evm_send_fst.
    destruct (env_evm_send _ _ _) as [hash|e]; [discriminate Ha|]. apply hist_bind, acc_keeps; [apply Ka|]. intros s1 _.
    by rewrite append_audit_ok.
  - intros s0 Ha. rewrite accepted_evm in Ha. rewrite evm_send_fst.
    destruct (env_evm_send _ _ _) as [hash|e]; [|discriminate Ha]. apply hist_bind, acc_keeps; [apply Ka|]. intros s1 _.
    rewrite append_audit_ok, Hm. apply hist_bind. cbn [hist_outline plift]. apply hist_bind.
    by apply (acc_range_records _ (mkDebt _ _ _ _)).
Qed.

(** ** The pool *)

(** Any broadcast of a tenant of the owner may start, at any time. *)
Definition any_broadcast (s : srv) (running : list (string * string)) (lb : string * string) (p : prog unit) : Prop :=
  belongs s (snd lb) (fst lb) /\ exists cid, broadcast_of h (snd lb) cid p.

Lemma acc_start hs s gs lb p :
  any_broadcast s (map db_label gs) lb p -> adds_up hs s gs ->
  exists g, db_label g = lb /\ adds_up hs s (g :: gs) /\ outlineA p g settled.
Proof.
  intros (Hb & cid & ctx & tc & Ht & Hid & Hp) (Hf & lf & mf & H0 & Hl & Hm).
  exists (mkDebt (fst lb) (snd lb) 0 []). split; [by destruct lb|]. split.
  - split; [constructor; [|done]; split; [done|cbn; unfold maxU64; lia]|]. exists lf, mf. split_and!; [done| |].
    + intros t. rewrite <- Hl. cbn [Zsum]. unfold due at 1. cbn [db_tenant db_spend]. f_equal. destruct (String.eqb _ _); lia.
    + intros ow k. rewrite <- Hm. cbn [Zsum]. unfold due_out at 1. cbn. destruct (String.eqb _ _); lia.
  - destruct Hp as [(tx & ->)|(tx & ->)]; apply hist_bind;
      (eapply hist_mono; [|first [by eapply acc_signed|by eapply acc_evm]]); by intros [|].
Qed.

Lemma acc_end hs s l1 l2 g r : settled (A := unit) r g -> adds_up hs s (l1 ++ g :: l2) -> adds_up hs s (l1 ++ l2).
Proof.
  intros [E1 E2] (Hf & lf & mf & H0 & Hl & Hm). split.
  { apply Forall_app in Hf as [F1 [_ F2]%Forall_cons]. by apply Forall_app. }
  exists lf, mf. split_and!; [done| |].
  - intros t. rewrite <- Hl, !Zsum_app. cbn [Zsum]. unfold due at 4. rewrite E1. f_equal. destruct (String.eqb _ _); lia.
  - intros ow k. rewrite <- Hm, !Zsum_app. cbn [Zsum]. unfold due_out at 4. rewrite E2. destruct (String.eqb _ _); cbn; lia.
Qed.

(** Beside the broadcasts, whole requests for any other tool but the login, and
    the refresh loops. *)
Definition beside (c : call) : Prop :=
  match c with KBroadcast _ _ | KBroadcastEVM _ _ | KVerify _ _ => False | _ => True end.

Section Others.
Context {N : EVMEnv} {DL : DydxLib} {D : DecLib} {B : ABILib} {U : Unicode} {DA : DecArith} {Q : QueryEnv} {RD : Reads}.
Context (d : EVMDeps) (rd : ReadDeps).

Lemma beside_registry ctx c : beside c -> keeps registry (handle h d rd ctx c).
Proof.
  assert (forall A (m : M srv A), keeps registry m -> keeps registry (ignore m)) as Hi.
  { intros A m Hm s. specialize (Hm s). unfold ignore. by destruct (m s). }
  destruct c as [| | | | |c| | |c]; cbn [handle beside]; intros Hc; try done.
  6: { intros s. exact (f_equal (fun x => fst (snd x)) (keeps_handle_read h d rd ctx c s)). }
  3: { apply (keeps_view registry), keeps_evm; apply _. }
  all: apply Hi.
  - apply (keeps_challenge registry). intros s s' H. exact (f_equal (fun x => snd (fst x)) H).
  - eapply keeps_snd, keeps_run_tool.
  - eapply keeps_snd, (proj1 (keeps_caps_tools ctx)).
  - eapply keeps_snd, (proj2 (keeps_caps_tools ctx)).
Qed.

Lemma beside_balance lf mf ctx c : beside c -> preserves (fun s => balance t0 lf mf (books s)) (handle h d rd ctx c).
Proof.
  intros Hc. destruct (plain c) eqn:Hp.
  - apply handle_plain; [intros; by apply used_today_balance|intros; by apply enforce_balance|done].
  - destruct c; try done. cbn [handle]. apply ignore_plain, recap_balance.
Qed.

Lemma acc_other hs s s' gs : step h d rd beside s s' -> adds_up hs s gs -> adds_up hs s' gs.
Proof.
  intros Hst (Hf & lf & mf & H0 & Hs).
  assert (registry s' = registry s /\ balance t0 lf mf (books s')) as [Hr Hb].
  { destruct Hst as [hd c s Hc|m s|s]; [|done|].
    2: { split; [exact (keeps_view registry _ keeps_lendora_refresh s)|].
         pose proof (keeps_view books _ keeps_lendora_refresh s) as Hk. by rewrite Hk. }
    unfold serve, mbind, M_bind.
    pose proof (keeps_middleware background (mkRequest hd "tools/call" (Some (tool_name c)))) as Hk.
    pose proof (keeps_view registry _ Hk s) as K1. pose proof (keeps_view books _ Hk s) as K2.
    destruct (authReceivingMiddleware _ _ s) as [[[|ctx]|e] s1]; cbn [snd] in *;
      [split; [done|exact (eq_ind_r (balance t0 lf mf) H0 K2)]| |split; [done|exact (eq_ind_r (balance t0 lf mf) H0 K2)]].
    pose proof (beside_registry ctx c Hc s1) as K3. rewrite K3. split; [done|]. rewrite <- K2 in H0.
    pose proof (beside_balance lf mf ctx c Hc s1 H0) as Hh. by destruct (handle h d rd ctx c s1) as [[[]|e] s2]. }
  split; [|by exists lf, mf]. eapply Forall_impl; [exact Hf|]. intros g [G1 G2]. split; [by eapply belongs_registry|done].
Qed.

Lemma accounts_add_up s ts s' hs :
  balance t0 lf0 mf0 (books s) -> rtc (hist_step log_accepted any_broadcast (step h d rd beside)) ([], s, []) (ts, s', hs) ->
  exists gs, map db_label gs = ts.*1 /\ adds_up hs s' gs.
Proof.
  intros H0 Hr. eapply (hist_invariant db_label log_accepted adds_up); [exact acc_start|exact acc_end|exact acc_other| |exact Hr].
  split; [constructor|]. exists lf0, mf0. split; [done|]. split; intros; cbn; [f_equal|]; lia.
Qed.

End Others.
End Accounts.

(** ** Claims *)

(** C6: no accepted transaction is lost or counted twice.  On a UTC day, any number
    of broadcasts over both rails, of the same or different owners and tenants, are in flight at
    once and their critical sections are interleaved in any order, among
    themselves and with whole requests for the other tools and the refresh loops.
    Once nothing is in flight, each tenant has spent exactly what it had before and what
    the transactions the chain accepted from it withdrew (saturating at 2^64-1),
    and each owner has moved of each symbol exactly what it had before and what
    its accepted transactions sent. *)
Theorem concurrent_accounting {RL : RateLib} {E : Env} {EL : EnvLaws E} {L : ChainLib} {DL : DydxLib} {D : DecLib} {U : Unicode}
    {N : EVMEnv} {B : ABILib} {DA : DecArith} {Q : QueryEnv} {RD : Reads} (h : Handlers) (d : EVMDeps) (rd : ReadDeps)
    (t0 : Time) (Hday : forall n, utc_day (env_clock n) = utc_day t0) (s s' : srv) (hs : list (string * string * sent))
    (l : MemoryLedger) (o : store) (Hl : s_ledger s = Some l) (Hok : mem_ok l) (Ho : s_out s = Some o)
    (Hr : rtc (hist_step log_accepted (any_broadcast h) (step h d rd beside)) ([], s, []) ([], s', hs)) :
  exists l' o', s_ledger s' = Some l' /\ s_out s' = Some o'
  /\ (forall t, mem_spent l' t0 t = Z.min maxU64 (mem_spent l t0 t + Zsum (withdrawn_by t) hs))
  /\ (forall ow k, moved o' t0 ow k = moved o t0 ow k + Zsum (moved_by h ow k) hs).
Proof.
  destruct (accounts_add_up h t0 Hday (mem_spent l t0) (moved o t0) d rd s [] s' hs) as (gs & Hg & _ & lf & mf & Hb & Hs & Hm).
  - split; [by exists l|by exists o].
  - exact Hr.
  - destruct gs; [|done]. destruct Hb as [(l' & El & Hok' & Hsp) (o' & Eo & Hmv)]. exists l', o'. split_and!; [done..| |].
    + intros t. specialize (Hs t). cbn [Zsum] in Hs. rewrite <- Hsp in Hs. pose proof (mem_spent_range l' t0 t Hok'). lia.
    + intros ow k. specialize (Hm ow k). cbn [Zsum] in Hm. rewrite Hmv. lia.
Qed.

(** ** The race of [ConcurrentCaps], with its history *)

Definition demo_label : string * string := ("svp1a", "t1")%string.
Definition demo_books :=
  hist_sched (log_accepted (E := demo_still)) (repeat 0%nat 6 ++ repeat 1%nat 6 ++ repeat 0%nat 12 ++ repeat 1%nat 12)
    ([(demo_label, demo_thread "c1" demo_withdraw); (demo_label, demo_thread "c2" demo_withdraw)], demo_live, []).

Example demo_books_value :
  demo_books.2 = [(demo_label, SentTx (chars "600000")); (demo_label, SentTx (chars "600000"))]
  /\ demo_books.1.1 = [(demo_label, Return (Ok tt)); (demo_label, Return (Ok tt))].
Proof. split; vm_compute; reflexivity. Qed.

Abbreviation demo_step := (hist_step (RL := demo_rate) (log_accepted (E := demo_still))
  (any_broadcast (E := demo_still) (L := demo_lib) demo_handlers)
  (step (E := demo_still) (L := demo_lib) (DL := dydx_lib) (D := demo_dec) (U := unicode_id) (N := demo_net) (B := demo_abi)
     (DA := demo_arith) (Q := demo_queries) (RD := demo_reads) demo_handlers demo_deps demo_read_deps beside)) (only parsing).

Lemma demo_books_run : rtc demo_step ([], demo_live, []) demo_books.
Proof.
  assert (forall cid ts, any_broadcast (E := demo_still) (L := demo_lib) demo_handlers demo_live ts demo_label (demo_thread cid demo_withdraw)) as Hp.
  { intros cid ts. split; [intros t tp H; cbn in H; injection H as <-; split; reflexivity|].
    exists cid, demo_ctx, (mkTenantContext "t1" "svp1a"). split; [reflexivity|]. split; [reflexivity|].
    left. by exists demo_withdraw. }
  eapply rtc_l; [apply (hs_start _ _ _ _ _ _ demo_label (demo_thread "c2" demo_withdraw)), Hp|].
  eapply rtc_l; [apply (hs_start _ _ _ _ _ _ demo_label (demo_thread "c1" demo_withdraw)), Hp|]. apply hist_sched_steps.
Qed.

Lemma demo_books_end : rtc demo_step ([], demo_live, []) ([], demo_books.1.2, demo_books.2).
Proof.
  pose proof demo_books_run as Hr. destruct demo_books_value as [_ Et]. destruct demo_books as [[ts s'] hs]. cbn [fst snd] in *.
  subst ts. etrans; [exact Hr|]. eapply rtc_l; [apply (hs_end _ _ _ [])|]. eapply rtc_l; [apply (hs_end _ _ _ [])|]. apply rtc_refl.
Qed.

Lemma concurrent_accounting_witness :
  exists l', s_ledger demo_books.1.2 = Some l' /\ mem_spent l' 7 "t1" = 1200000.
Proof.
  destruct (concurrent_accounting (RL := demo_rate) (E := demo_still) (EL := demo_still_laws) (L := demo_lib) (DL := dydx_lib) (D := demo_dec)
    (U := unicode_id) (N := demo_net) (B := demo_abi) (DA := demo_arith) (Q := demo_queries) (RD := demo_reads) demo_handlers
    demo_deps demo_read_deps 7 (fun _ => eq_refl) demo_live demo_books.1.2 demo_books.2 (NewMemoryLedger 1) demo_out eq_refl
    (proj1 (proj1 (NewMemoryLedger_under_cap (Build_Config 0 0 0 1) ltac:(done) ltac:(done)))) eq_refl demo_books_end)
    as (l' & o' & El & _ & Hs & _).
  exists l'. split; [exact El|]. rewrite Hs, (proj1 demo_books_value). vm_compute. reflexivity.
Defined.
