(* ===== verification/Boot.v ===== *)
(** * Start-up (cmd/mcp-server/wire.go, chain/grpc.go, chain/cometbft.go, chain/evm.go)

    [BuildServer]: from a configuration to the handlers, their dependencies and
    the stores the server starts with.  The state of the computation is whether
    the gRPC connection is open, which every failure but one closes again.
    Dialling, the route file and the read of the cap file are arguments.  The
    theorems carry the guarantees of [System] over to a server as it is started:
    what they assume of their first state is what [BuildServer] makes. *)

From S2P Require Import Prelude GoStrings GoPath GoNum GoTime GoEncoding Limits TransferOut NonceStore IPRateLimiter.
From S2P Require Import SessionBearers DynamicTenants Policy Markets Units ChainLib Payload Assembler Assets.
From S2P Require Import TxInspect EVMBuilder BridgeRegistry Server AuthTools Broadcast Tools ABI EVMTools BridgeTools.
From S2P Require Import Signer LendoraABI LendoraCache LendoraFormat LendoraRisk LendoraOps LendoraRead Http Indexer.
From S2P Require Import AccountTools MarketTools FaucetTools ReadTools Config System.

Section Boot.
Context {RL : RateLib} {L : ChainLib} {D : DecLib} {U : Unicode}.

(** The world a server is started in. *)
Record World : Type := mkWorld {
  w_tcp : string -> result unit;             (* NewTcpConnection *)
  w_comet : string -> result unit;           (* rpchttp.New *)
  w_eth : string -> result Z;                (* ethclient.DialContext: the node reached *)
  w_abi : abi_json -> error;                 (* abi.JSON on an embedded text *)
  w_routes : string -> result Registry;      (* LoadRegistry *)
  w_read : option goerr;                     (* what os.ReadFile of the cap file fails with *)
  w_disk : disk;
}.

Context (w : World).

Definition Dial (addr : string) : result unit :=
  wrap (fun e => Errorf "dial chain gRPC %s: %w" [FStr addr; FErr e]) (w_tcp w addr).
Definition NewCometBftClient (rpcURL : string) : result unit :=
  wrap (fun e => Errorf "cometbft.New %s: %w" [FStr rpcURL; FErr e]) (w_comet w rpcURL).
Definition NewEVMClient (rpcURL : string) : result Z :=
  wrap (fun e => Errorf "ethclient.Dial %s: %w" [FStr rpcURL; FErr e]) (w_eth w rpcURL).

Record BuiltServer : Type := mkBuiltServer {
  sv_ListenAddr : string;
  sv_Handlers : Handlers;
  sv_EVM : EVMDeps;
  sv_Reads : ReadDeps;
  sv_state : srv;
}.

(** The money-market cache [BuildServer] makes; without a Comptroller there is
    none and no tool looks at it. *)
Definition lendora_cache (c : Config) (d : EVMDeps) : lendora.Cache :=
  lendora.NewCache (default 0 (ed_EVM d)) (default zero_address (ed_Lendora d)) (cc_MarketsRefresh (cf_Cache c)).

Definition start_state (c : Config) (d : EVMDeps) (out : store) : srv :=
  {| s_static := perTenant (NewEngine (D := DynamicTenantStore) []);
     s_tenants := NewDynamicTenantStore (mkDynamicTenantStoreConfig DefaultBearerTTL [0; 1; 2; 3; 4; 5; 6; 7; 8; 9]);
     s_nonces := NewNonceStore DefaultChallengeTTL;
     s_ips := NewIPRateLimiter DefaultIPChallengeRate DefaultIPChallengeWindow;
     s_sessions := Some (NewSessionBearers DefaultBearerTTL);
     s_rate := NewRateLimiter rate_zero 0;
     s_idem := NewIdempotency 0;
     s_audit := [];
     s_ledger := Some (NewMemoryLedger (DailyWithdrawCapUSDC (limitsCfg c)));
     s_out := Some out;
     s_disk := w_disk w;
     s_markets := NewCache (cc_MarketsRefresh (cf_Cache c));
     s_lendora := lendora_cache c d;
     s_sent := []; s_evm_sent := []; s_http := []; s_reads := 0 |}.

(** The connection: opened by the dial, and closed before a failure is returned. *)
Definition open_conn (r : result unit) : M bool unit := fun o => match r with Ok _ => (Ok tt, true) | Err e => (Err e, o) end.
Definition or_close {A} (r : result A) : M bool A := fun o => match r with Ok a => (Ok a, o) | Err e => (Err e, false) end.

Definition BuildServer (c : Config) : M bool BuiltServer :=
  _ ← open_conn (wrap (fun e => Errorf "dial chain gRPC: %w" [FErr e]) (Dial (cf_GrpcAddr c)));
  _ ← or_close (wrap (fun e => Errorf "cometbft client: %w" [FErr e]) (NewCometBftClient (cf_CometRPCURL c)));
  d ← or_close (wire_evm (w_abi w) NewEVMClient (w_routes w) c);
  let faucetClient := if empty (cf_FaucetBaseURL c) then None
                      else Some (faucet.NewClient (cf_FaucetBaseURL c) (faucet.mkOptions 0 0 0)) in
  let idx := Indexer.NewClient (cf_IndexerBaseURL c) (Indexer.mkOptions "" 0 0 0) in
  transferOut ← lift (wrap (fun e => Errorf "load transfer-out cap state: %w" [FErr e])
                        (LoadMemoryTransferOutStore (cf_TransferOutCapPath c) (w_read w) (w_disk w)));
  mret {| sv_ListenAddr := cf_ListenAddr c;
          sv_Handlers := wire_handlers c d;
          sv_EVM := d;
          sv_Reads := mkReadDeps idx faucetClient (cf_BroadcastMode c);
          sv_state := start_state c d transferOut |}.

(** ** What a start establishes *)

Lemma BuildServer_inv c o sv o' :
  BuildServer c o = (Ok sv, o') ->
  o' = true /\ exists d out, wire_evm (w_abi w) NewEVMClient (w_routes w) c = Ok d
  /\ LoadMemoryTransferOutStore (cf_TransferOutCapPath c) (w_read w) (w_disk w) = Ok out
  /\ sv_EVM sv = d /\ sv_Handlers sv = wire_handlers c d /\ sv_state sv = start_state c d out.
Proof.
  unfold BuildServer, mbind, M_bind, open_conn, or_close, lift. destruct (wrap _ (Dial _)) as [[]|]; [|done].
  destruct (wrap _ (NewCometBftClient _)) as [[]|]; [|done]. destruct (wire_evm _ _ _ _) as [d|] eqn:Ew; [|done].
  destruct (wrap _ (LoadMemoryTransferOutStore _ _ _)) as [out|] eqn:El; [|done]. intros [= <- <-].
  apply wrap_ok in El. split; [done|]. by exists d, out.
Qed.

(** The error of a start that did not open a connection or closed it again, and
    of the one that leaves it open. *)
Lemma BuildServer_err c e o' :
  BuildServer c false = (Err e, o') ->
  o' = false
  \/ o' = true /\ exists e', e = Errorf "load transfer-out cap state: %w" [FErr e']
     /\ LoadMemoryTransferOutStore (cf_TransferOutCapPath c) (w_read w) (w_disk w) = Err e'.
Proof.
  unfold BuildServer, mbind, M_bind, open_conn, or_close, lift.
  destruct (wrap _ (Dial _)) as [[]|]; [|intros [= <- <-]; by left].
  destruct (wrap _ (NewCometBftClient _)) as [[]|]; [|intros [= <- <-]; by left].
  destruct (wire_evm _ _ _ _) as [d|]; [|intros [= <- <-]; by left].
  destruct (LoadMemoryTransferOutStore _ _ _) as [out|e'] eqn:El; cbn [wrap]; [done|]. intros [= <- <-].
  right. split; [done|]. by exists e'.
Qed.

Lemma start_sound c d out : sound (registry (start_state c d out)).
Proof. split; [done|]. cbn. apply map_Forall_empty. Qed.

Lemma start_no_bearer c d out bearer t rec : ~ bears bearer t rec (s_tenants (start_state c d out)).
Proof. intros (tid & H & _). cbn in H. by rewrite lookup_empty in H. Qed.

(** The cap file: not asked for, not there yet, or what a server within its caps
    wrote. *)
Definition cap_file_ok (p : string) : Prop :=
  p = EmptyString \/ w_disk w !! p = None
  \/ exists st, path st = p /\ caps_set st /\ within_caps st /\ w_disk w !! p = Some (Doc (snapshot st)).

Lemma empty_within p day : within_caps (mkStore p day ∅ ∅).
Proof. intros ow k c b H. unfold at2 in H. cbn in H. by rewrite lookup_empty in H. Qed.

Lemma equiv_within s1 s2 : store_equiv s1 s2 -> within_caps s2 -> within_caps s1.
Proof.
  intros He H ow k c b Hc Hb now. pose proof He as (_ & _ & Ec & _). rewrite Ec in Hc.
  rewrite (moved_proper s1 s2 He now now eq_refl ow ow eq_refl k k eq_refl). by eapply H.
Qed.

Lemma loaded_within p out :
  cap_file_ok p -> LoadMemoryTransferOutStore p (w_read w) (w_disk w) = Ok out -> within_caps out.
Proof.
  intros Hf H. destruct (String.eqb p "") eqn:Ep.
  { unfold LoadMemoryTransferOutStore in H. rewrite Ep in H. injection H as <-. apply empty_within. }
  destruct (w_read w) as [e|] eqn:Er.
  { unfold LoadMemoryTransferOutStore in H. by rewrite Ep in H. }
  destruct Hf as [->|[Hn|(st & <- & Hs & Hw & Hd)]]; [done|..].
  - unfold LoadMemoryTransferOutStore in H. rewrite Ep, Hn in H. injection H as <-. apply empty_within.
  - apply String.eqb_neq in Ep. destruct (reload_snapshot st (w_disk w) Ep Hs Hd) as (st' & H' & He).
    rewrite H in H'. injection H' as ->. by eapply equiv_within.
Qed.

Lemma start_safe c d out :
  0 < DailyWithdrawCapUSDC (limitsCfg c) -> DailyWithdrawCapUSDC (limitsCfg c) * quantumsPerUSDC <= maxU64 ->
  within_caps out -> safe (wire_handlers c d) (books (start_state c d out)).
Proof.
  intros H0 H1 Hw. destruct (NewMemoryLedger_under_cap (limitsCfg c) H0 H1) as (Hu & Hc & Hd). split.
  - intros ml [= <-]. split; [done|]. cbn [h_Limits wire_handlers]. rewrite Hd. f_equal. symmetry. exact Hc.
  - by intros st [= <-].
Qed.

End Boot.

(** ** The configuration file *)

Lemma resolve_path_abs config p :
  filepath.IsAbs config = true -> resolve_path config p = EmptyString \/ filepath.IsAbs (resolve_path config p) = true.
Proof.
  intros H. unfold resolve_path, empty. destruct (String.eqb p "") eqn:Ep; cbn [negb andb].
  - apply String.eqb_eq in Ep. by left.
  - destruct (filepath.IsAbs p) eqn:Ea; cbn [negb andb]; right; [done|]. by apply filepath.Join_abs, filepath.Dir_abs.
Qed.

Lemma LoadConfig_valid {L : ChainLib} {D : DecLib} decode path c : LoadConfig decode path = Ok c -> Validate c = Ok tt.
Proof.
  unfold LoadConfig. destruct (wrap _ (decode UnmarshalText path)) as [c0|]; [|done]. cbn [mbind result_bind].
  by intros [Hv [= <-]]%bind_error_ok.
Qed.

(** A configuration that was loaded passed validation, has its defaults, and its
    file names do not depend on where the server was started from: next to a
    configuration file with a rooted name they are rooted. *)
Theorem LoadConfig_ok {L : ChainLib} {D : DecLib} (decode : (string -> result Duration) -> string -> result Config) (path : string) (c : Config)
    (H : LoadConfig decode path = Ok c) :
  Validate c = Ok tt /\ cf_BroadcastMode c <> EmptyString /\ fee_GasLimit (cf_Fee c) <> 0
  /\ (filepath.IsAbs path = true ->
      Forall (fun p => p = EmptyString \/ filepath.IsAbs p = true) [cf_EVMBridgeRoutesPath c; cf_TransferOutCapPath c]).
Proof.
  unfold LoadConfig in H. destruct (wrap _ (decode UnmarshalText path)) as [c0|]; [|done]. cbn [mbind result_bind] in H.
  apply bind_error_ok in H as [Hv [= <-]]. split_and!; [exact Hv|..]; cbn [cf_BroadcastMode cf_Fee applyDefaults fee_GasLimit].
  - unfold empty. destruct (String.eqb (cf_BroadcastMode c0) "") eqn:Em; [done|]. by apply String.eqb_neq.
  - destruct (fee_GasLimit (cf_Fee c0) =? 0) eqn:Eg; [done|]. by apply Z.eqb_neq.
  - intros Ha. cbn [cf_EVMBridgeRoutesPath cf_TransferOutCapPath]. rewrite !Forall_cons. split_and!; [by apply resolve_path_abs..|done].
Qed.

(** ** Claims *)


Definition demo_world : World :=
  mkWorld (fun _ => Ok tt) (fun _ => Ok tt) demo_dial (fun _ => Ok tt) (fun _ => Ok demo_registry) None ∅.
Definition demo_load : result Config :=
  LoadConfig (L := demo_lib) (D := demo_dec) (fun _ _ => Ok demo_config) "/etc/svpchain-mcp/mcp.toml".
Definition demo_loaded : Config := match demo_load with Ok c => c | Err _ => demo_config end.
Definition demo_boot := BuildServer (RL := demo_rate) (L := demo_lib) (U := unicode_id) demo_world demo_loaded false.

Example demo_loaded_paths :
  cf_TransferOutCapPath demo_loaded = "/etc/svpchain-mcp/caps.json"%string
  /\ cf_EVMBridgeRoutesPath demo_loaded = "/etc/svpchain-mcp/routes.json"%string.
Proof. vm_compute. done. Qed.

