(* ===== verification/Restart.v ===== *)
(** * Restarts

    The cap file across the life of a server: as long as the writes succeed, the
    file holds what the transfer-out store holds after every operation of every
    handler, so a server that is stopped at any point and started again from the
    same configuration comes up, with the caps and today's usage it had. *)

From S2P Require Import Prelude GoStrings GoPath GoNum GoTime GoEncoding Limits TransferOut NonceStore IPRateLimiter.
From S2P Require Import SessionBearers DynamicTenants Policy Markets Units ChainLib Payload Assembler Assets.
From S2P Require Import TxInspect EVMBuilder BridgeRegistry Server AuthTools Broadcast Tools ABI EVMTools BridgeTools.
From S2P Require Import Signer LendoraABI LendoraCache LendoraFormat LendoraRisk LendoraOps LendoraRead Http Indexer.
From S2P Require Import AccountTools MarketTools FaucetTools ReadTools Config System Boot.

(** ** The store and its file *)

(** The store is the one of the path, and the file holds it; a store that was
    never written to needs no file. *)
Definition durable (p : string) (od : option store * disk) : Prop :=
  exists st, fst od = Some st /\ path st = p /\ caps_set st
  /\ (st = mkStore p "" ∅ ∅ /\ snd od !! p = None
      \/ exists st0, store_equiv st0 st /\ snd od !! p = Some (Doc (snapshot st0))).

Section Durable.
Context (p : string) (Hp : p <> EmptyString).

Lemma persist_durable s d : path s = p -> caps_set s -> durable p (Some s, fst (persistLocked IOok s d)).
Proof.
  intros Hs Hc. exists s. split_and!; [done..|]. right. exists s. split; [reflexivity|].
  unfold persistLocked. rewrite Hs, (proj2 (String.eqb_neq _ _) Hp). cbn [fst snd]. apply lookup_insert_eq.
Qed.

Lemma durable_inv st d : durable p (Some st, d) -> path st = p /\ caps_set st.
Proof. by intros (? & [= <-] & ? & ? & _). Qed.

Lemma rollover_durable now st d : durable p (Some st, d) ->
  durable p (let '(s, d') := rolloverLocked now IOok st d in (Some s, d')).
Proof.
  intros H. unfold rolloverLocked. destruct (String.eqb _ _); [done|]. apply durable_inv in H as [Hs Hc].
  by apply persist_durable.
Qed.

Lemma check_durable now ow k a o d : durable p (o, d) -> durable p (snd (TransferOut.Check now IOok ow k a o d)).
Proof.
  intros H. unfold TransferOut.Check, checkLocked. destruct o as [st|]; [|done].
  pose proof (rollover_durable now st d H) as Hr. destruct (rolloverLocked now IOok st d) as [s' d'].
  repeat case_match; simplify_eq; done.
Qed.

Lemma record_durable now ow k a o d : durable p (o, d) -> durable p (RecordOut now IOok IOok ow k a o d).
Proof.
  intros H. unfold RecordOut, nilsafe, recordLocked. destruct o as [st|]; [|done]. destruct a as [a|]; [|done].
  destruct (a <=? 0); [done|]. pose proof (rollover_durable now st d H) as Hr.
  destruct (rolloverLocked now IOok st d) as [s' d']. apply durable_inv in Hr as [Hs Hc]. by apply persist_durable.
Qed.

Lemma used_durable now ow k o d : durable p (o, d) -> durable p (snd (Used now IOok ow k o d)).
Proof.
  intros H. unfold Used, usedLocked. destruct o as [st|]; [|done].
  pose proof (rollover_durable now st d H) as Hr. by destruct (rolloverLocked now IOok st d) as [s' d'].
Qed.

Lemma set_cap_durable ow c b o d : CapBase c = Some b -> durable p (o, d) -> durable p (SetCap IOok ow c o d).
Proof.
  intros Hb H. unfold SetCap, nilsafe, setCapLocked. destruct o as [st|]; [|done].
  apply durable_inv in H as [Hs Hc]. apply persist_durable; [done|]. intros o' k' c' Hl. cbn [caps] in Hl.
  rewrite at2_insert in Hl. case_decide; [|by eapply Hc]. simplify_eq. by exists b.
Qed.

Lemma set_unlimited_durable ow k o d : durable p (o, d) -> durable p (SetUnlimited IOok ow k o d).
Proof.
  intros H. unfold SetUnlimited, nilsafe, setUnlimitedLocked. destruct o as [st|]; [|done].
  apply durable_inv in H as [Hs Hc]. apply persist_durable; [done|]. intros o' k' c' Hl. cbn [caps] in Hl.
  rewrite at2_delete in Hl. case_decide; [done|by eapply Hc].
Qed.

(** What reads back from the file of a durable store is that store. *)
Lemma durable_reload o d : durable p (o, d) ->
  exists st st', o = Some st /\ LoadMemoryTransferOutStore p None d = Ok st' /\ store_equiv st' st.
Proof.
  intros (st & Ho & Hs & Hc & Hf); cbn [fst snd] in *. exists st. destruct Hf as [[-> Hd]|(st0 & He & Hd)].
  - exists (mkStore p "" ∅ ∅). split_and!; [done| |reflexivity]. unfold LoadMemoryTransferOutStore.
    by rewrite (proj2 (String.eqb_neq _ _) Hp), Hd.
  - pose proof He as (Ep & _ & Ec & _). assert (path st0 = p) as E0 by congruence. subst p.
    destruct (reload_snapshot st0 d) as (st' & Hl & Eq); [congruence| |congruence|].
    { intros o' k c Hk. rewrite Ec in Hk. by eapply Hc. }
    exists st'. split_and!; [done|congruence|by etrans].
Qed.

(** Loading a file the server wrote, or none, gives a durable store. *)
Lemma load_durable (w : World) st :
  w_read w = None -> w_disk w !! p = None \/ (exists st0, path st0 = p /\ caps_set st0 /\ w_disk w !! p = Some (Doc (snapshot st0))) ->
  LoadMemoryTransferOutStore p (w_read w) (w_disk w) = Ok st -> durable p (Some st, w_disk w).
Proof.
  intros -> [Hn|(st0 & E0 & Hc & Hd)] Hl.
  - unfold LoadMemoryTransferOutStore in Hl. rewrite (proj2 (String.eqb_neq _ _) Hp), Hn in Hl. injection Hl as <-.
    exists (mkStore p "" ∅ ∅). split_and!; [done..| |by left]. intros o k c H. cbn [caps] in H. by rewrite at2_empty in H.
  - subst p. destruct (reload_snapshot st0 (w_disk w) Hp Hc Hd) as (st' & Hl' & He). rewrite Hl in Hl'. injection Hl' as <-.
    pose proof He as (Ep & _ & Ec & _). exists st. split_and!; [done..| |right; exists st0; split; [by symmetry|done]].
    intros o k c Hk. cbn [fst] in Hk. rewrite Ec in Hk. by eapply Hc.
Qed.

End Durable.

(** The file of a durable store within its caps. *)
Lemma durable_file_ok (w : World) p st :
  durable p (Some st, w_disk w) -> within_caps st -> cap_file_ok w p.
Proof.
  intros (st' & [= <-] & Ep & Hc & [[_ Hn]|(st0 & He & Hd)]) Hin; right; [by left|right]. cbn [fst snd] in *.
  pose proof He as (E0 & _ & Ec & _). exists st0. split_and!; [congruence| |by eapply equiv_within|done].
  intros o k c Hk. rewrite Ec in Hk. by eapply Hc.
Qed.

(** ** The handlers keep the file *)

Section Handlers.
Context {RL : RateLib} {E : Env} {N : EVMEnv} {L : ChainLib} {DL : DydxLib} {D : DecLib} {B : ABILib} {U : Unicode}.
Context {DA : DecArith} {Q : QueryEnv} {RD : Reads} (h : Handlers) (d : EVMDeps) (rd : ReadDeps).
Context (p : string) (Hp : p <> EmptyString) (Hio : forall n, env_io n = IOok).

Abbreviation Durable := (fun s : srv => durable p (cap_state s)) (only parsing).

Lemma keeps_durable {A} (m : M srv A) : keeps cap_state m -> preserves Durable m.
Proof. apply (keeps_preserves cap_state (durable p)). Qed.

Lemma durable_bind {A X} (m : M srv A) (f : A -> M srv X) :
  preserves Durable m -> (forall a, preserves Durable (f a)) -> preserves Durable (m ≫= f).
Proof. intros H1 H2. by apply (triple_bind _ _ (fun _ => Durable)). Qed.

Lemma durable_ignore {A} (m : M srv A) : preserves Durable m -> preserves Durable (ignore m).
Proof. intros H s Hs. specialize (H s Hs). unfold ignore. by destruct (m s) as [[a|e] s1]. Qed.

Lemma check_out_durable ow k a : preserves Durable (check_out ow k a).
Proof.
  intros s Hs. unfold check_out, mbind, M_bind. rewrite now_eq. unfold tick, run_state. cbn [s_reads set_reads s_out s_disk].
  rewrite Hio. pose proof (check_durable p Hp (env_clock (s_reads s)) ow k (Some a) (s_out s) (s_disk s) Hs) as H.
  destruct (TransferOut.Check _ _ _ _ _ _ _) as [[[]|e] [o' d']]; exact H.
Qed.

Lemma record_out_durable ow k a : preserves Durable (record_out ow k a).
Proof.
  intros s Hs. unfold record_out, mbind, M_bind. rewrite now_eq. unfold tick, modify. cbn [s_reads set_reads s_out s_disk].
  rewrite !Hio. pose proof (record_durable p Hp (env_clock (s_reads s)) ow k (Some a) (s_out s) (s_disk s) Hs) as H.
  destruct (RecordOut _ _ _ _ _ _ _ _) as [o' d']. exact H.
Qed.

Lemma used_today_durable ow k : preserves Durable (used_today ow k).
Proof.
  intros s Hs. unfold used_today, mbind, M_bind. rewrite now_eq. unfold tick, run_state. cbn [s_reads set_reads s_out s_disk].
  rewrite Hio. pose proof (used_durable p Hp (env_clock (s_reads s)) ow k (s_out s) (s_disk s) Hs) as H.
  destruct (Used _ _ _ _ _ _) as [v [o' d']]. exact H.
Qed.

Lemma set_cap_op_durable ow c b : CapBase c = Some b -> preserves Durable (set_cap ow c).
Proof.
  intros Hb s Hs. unfold set_cap, mbind, M_bind, tick, modify. cbn [s_reads set_reads s_out s_disk]. rewrite Hio.
  pose proof (set_cap_durable p Hp ow c b (s_out s) (s_disk s) Hb Hs) as H. destruct (SetCap _ _ _ _ _) as [o' d']. exact H.
Qed.

Lemma set_unlimited_op_durable ow k : preserves Durable (set_unlimited ow k).
Proof.
  intros s Hs. unfold set_unlimited, mbind, M_bind, tick, modify. cbn [s_reads set_reads s_out s_disk]. rewrite Hio.
  pose proof (set_unlimited_durable p Hp ow k (s_out s) (s_disk s) Hs) as H. destruct (SetUnlimited _ _ _ _ _) as [o' d'].
  exact H.
Qed.

Lemma range_durable m f : (forall k a, preserves Durable (f k a)) -> preserves Durable (range m f).
Proof.
  intros Hf. unfold range. apply durable_bind; [apply keeps_durable; keeps_tac|]. intros n.
  induction (env_range n m) as [|[k a] l IH]; cbn [for_each]; [by apply keeps_durable|]. by apply durable_bind.
Qed.

(** Walk a handler: what does not touch the caps, the operations on them, binds
    and branches. *)
Ltac durable_step :=
  first
    [ apply range_durable; intros ? ?
    | apply check_out_durable | apply record_out_durable | apply used_today_durable
    | apply set_unlimited_op_durable | eapply set_cap_op_durable; reflexivity
    | lazymatch goal with |- triple _ (_ ≫= _) _ _ => apply durable_bind; [|intros ?] end
    | lazymatch goal with |- triple _ (match _ with _ => _ end) _ _ => case_match end
    | solve [apply keeps_durable; keeps_tac] ].

Lemma broadcasts_durable ctx :
  (forall id tx, preserves Durable (BroadcastSignedTx h ctx id tx)) /\ (forall id tx, preserves Durable (BroadcastEVMTx h ctx id tx)).
Proof.
  split; intros id tx; [unfold BroadcastSignedTx, enforce_withdraw, record_withdraw, broadcast_sync|unfold BroadcastEVMTx, evm_send];
    repeat durable_step.
Qed.

Lemma caps_tools_durable ctx :
  (forall sym amount, preserves Durable (SetTransferOutCap ctx sym amount))
  /\ (forall sym, preserves Durable (GetTransferOutCap ctx sym)).
Proof.
  split; intros.
  - unfold SetTransferOutCap. repeat durable_step.
  - unfold GetTransferOutCap. apply durable_bind; [apply keeps_durable; keeps_tac|]. intros tp. cbv zeta.
    apply durable_bind; [by apply keeps_durable|]. intros l.
    induction l as [|a l IH]; cbn [transferOutCapView]; [by apply keeps_durable|]. repeat first [apply IH | durable_step].
Qed.

Lemma keeps_cap_build ctx c : keeps cap_state (run_tool h ctx c).
Proof.
  destruct c; cbn [run_tool]; unfold BuildPlaceLimitOrder, BuildPlaceMarketOrder, BuildPlaceConditionalOrder,
    BuildCancelOrder, BuildBatchCancelOrders, BuildDepositToSubaccount, BuildWithdrawFromSubaccount, BuildBankSend,
    BuildTransferBetweenSubaccounts, enforce_withdraw; keeps_tac.
Qed.

Lemma handle_durable ctx c : preserves Durable (handle h d rd ctx c).
Proof.
  destruct c as [| | | | |c| | |c]; cbn [handle].
  9: { apply keeps_durable. intros s. exact (f_equal (fun x => (snd (fst (fst x)), fst (snd (snd x)))) (keeps_handle_read h d rd ctx c s)). }
  6: { apply keeps_durable, (keeps_view cap_state), keeps_evm; apply _. }
  all: apply durable_ignore.
  - apply keeps_durable, (keeps_challenge cap_state). intros s s' H. exact (f_equal (fun x => (snd (fst (fst (fst x))), snd (snd x))) H).
  - apply keeps_durable. unfold AuthVerify, consume, mint, bind_session. keeps_tac.
  - apply broadcasts_durable.
  - apply broadcasts_durable.
  - apply keeps_durable, keeps_cap_build.
  - apply caps_tools_durable.
  - apply caps_tools_durable.
Qed.

Lemma step_durable P s s' : step h d rd P s s' -> Durable s -> Durable s'.
Proof.
  intros [hd c s0 Hc|m s0|s0] Hs; [|done|].
  2: { pose proof (keeps_view cap_state _ (keeps_lendora_refresh) s0) as Hk. by rewrite Hk. }
  assert (preserves Durable (serve h d rd hd c)) as H.
  { unfold serve. apply durable_bind; [apply keeps_durable, (keeps_view cap_state), keeps_middleware; apply _|].
    intros [|ctx]; [by apply keeps_durable|apply handle_durable]. }
  specialize (H s0 Hs). by destruct (serve h d rd hd c s0) as [[[]|e] s1].
Qed.

Lemma reachable_durable P s s' : Durable s -> reachable h d rd P s s' -> Durable s'.
Proof. intros Hs Hr. induction Hr as [|s s1 s2 H1 _ IH]; [done|]. by apply IH, (step_durable P s s1 H1). Qed.

End Handlers.

(** ** Claims *)

(** The world a stopped server is started in again: its disk, readable. *)
Definition with_disk (w : World) (d : disk) : World := mkWorld (w_tcp w) (w_comet w) (w_eth w) (w_abi w) (w_routes w) None d.

(** A start that succeeded succeeds again on any disk the cap file loads from. *)
Lemma BuildServer_disk {RL : RateLib} {L : ChainLib} {U : Unicode} w c o sv o' :
  BuildServer w c o = (Ok sv, o') -> forall d st, LoadMemoryTransferOutStore (cf_TransferOutCapPath c) None d = Ok st ->
  exists sv2, BuildServer (with_disk w d) c false = (Ok sv2, true) /\ s_out (sv_state sv2) = Some st.
Proof.
  intros H d st Hl. unfold BuildServer, mbind, M_bind, open_conn, or_close, lift in *.
  change (Dial (with_disk w d)) with (Dial w). change (NewCometBftClient (with_disk w d)) with (NewCometBftClient w).
  change (NewEVMClient (with_disk w d)) with (NewEVMClient w). cbn [w_abi w_routes w_read w_disk with_disk].
  destruct (wrap _ (Dial _ _)) as [[]|]; [|done]. destruct (wrap _ (NewCometBftClient _ _)) as [[]|]; [|done].
  destruct (wire_evm _ _ _ _) as [ed|]; [|done]. rewrite Hl. cbn [wrap]. by eexists.
Qed.

(** C10: a restart loses no cap and forgives no transfer.  A server with a cap file
    that is absent or was written by it before, whose writes succeed, may be
    stopped after any requests in any order: started again from the same
    configuration on the disk as it is then, it comes up; every owner's caps and
    what the owner moved out today are what they were, every check answers the
    same; and if the caps held, the file is one for which the guarantees of a
    start hold again. *)
Theorem restart_keeps_caps {RL : RateLib} {E : Env} {L : ChainLib} {DL : DydxLib} {D : DecLib} {U : Unicode}
    {N : EVMEnv} {B : ABILib} {DA : DecArith} {Q : QueryEnv} {RD : Reads} (w : World) (c : Config) (o o' : bool)
    (sv : BuiltServer) (s : srv)
    (Hp : cf_TransferOutCapPath c <> EmptyString) (Hio : forall n, env_io n = IOok) (Hread : w_read w = None)
    (Hf : w_disk w !! cf_TransferOutCapPath c = None
          \/ exists st, path st = cf_TransferOutCapPath c /\ caps_set st
             /\ w_disk w !! cf_TransferOutCapPath c = Some (Doc (snapshot st)))
    (Hb : BuildServer w c o = (Ok sv, o'))
    (Hs : reachable (sv_Handlers sv) (sv_EVM sv) (sv_Reads sv) (fun _ => True) (sv_state sv) s) :
  exists sv2 st st2, BuildServer (with_disk w (s_disk s)) c false = (Ok sv2, true)
  /\ s_out s = Some st /\ s_out (sv_state sv2) = Some st2
  /\ (forall ow k, at2 (caps st2) ow k = at2 (caps st) ow k)
  /\ (forall now ow k, moved st2 now ow k = moved st now ow k)
  /\ (forall now i ow k a d1 d2, fst (checkLocked now i ow k a st2 d1) = fst (checkLocked now i ow k a st d2))
  /\ (within_caps st -> cap_file_ok (with_disk w (s_disk s)) (cf_TransferOutCapPath c)).
Proof.
  destruct (BuildServer_inv w c o sv o' Hb) as (_ & d & out & Hw & Hl & Ed & Eh & Es).
  assert (durable (cf_TransferOutCapPath c) (cap_state s)) as Hd.
  { eapply (reachable_durable _ _ _ _ Hp Hio); [|exact Hs]. rewrite Es. by apply load_durable. }
  destruct (durable_reload _ Hp _ _ Hd) as (st & st2 & Eo & Hl2 & He).
  destruct (BuildServer_disk w c o sv o' Hb (s_disk s) st2 Hl2) as (sv2 & Hb2 & Eo2).
  exists sv2, st, st2. pose proof He as (_ & _ & Ec & _). split_and!; [done..| | |].
  - intros now ow k. by apply moved_proper.
  - intros. by apply check_equiv.
  - intros Hin. unfold cap_state in Hd. rewrite Eo in Hd. by apply (durable_file_ok (with_disk w (s_disk s)) _ st).
Qed.

(** ** A restart of the demonstration server *)

Definition demo_started : BuiltServer (RL := demo_rate) :=
  match fst demo_boot with
  | Ok sv => sv
  | Err _ => mkBuiltServer "" demo_handlers demo_deps demo_read_deps demo_srv
  end.
Definition demo_request (c : call) (s : srv) : srv :=
  snd (serve (RL := demo_rate) (E := demo_env) (L := demo_lib) (DL := dydx_lib) (D := demo_dec) (U := unicode_id)
    (N := demo_net) (B := demo_abi) (DA := demo_arith) (Q := demo_queries) (RD := demo_reads) (sv_Handlers demo_started)
    (sv_EVM demo_started) (sv_Reads demo_started) demo_hd c s).
Definition demo_capped : srv :=
  demo_request (KSetCap "svp" "5") (demo_request (KVerify "02" demo_sig) (demo_request (KChallenge "svp1a") (sv_state demo_started))).

Example demo_capped_cap : (s_out demo_capped ≫= fun st => at2 (caps st) "svp1a" "svp") = Some (mkSymbolCap "svp" 18 (Some (5 * 10 ^ 18))).
Proof. vm_compute. reflexivity. Qed.

Lemma restart_keeps_caps_witness :
  exists sv2 st2, BuildServer (RL := demo_rate) (L := demo_lib) (U := unicode_id) (with_disk demo_world (s_disk demo_capped))
    demo_loaded false = (Ok sv2, true)
  /\ s_out (sv_state sv2) = Some st2 /\ at2 (caps st2) "svp1a" "svp" = Some (mkSymbolCap "svp" 18 (Some (5 * 10 ^ 18))).
Proof.
  destruct (@restart_keeps_caps demo_rate demo_env demo_lib dydx_lib demo_dec unicode_id demo_net demo_abi demo_arith
    demo_queries demo_reads demo_world demo_loaded false true demo_started demo_capped)
    as (sv2 & st & st2 & H1 & H2 & H3 & H4 & _).
  - vm_compute. discriminate.
  - intros n. reflexivity.
  - reflexivity.
  - left. vm_compute. reflexivity.
  - vm_compute. reflexivity.
  - apply (rtc_l _ _ (demo_request (KChallenge "svp1a") (sv_state demo_started))); [apply step_serve; exact I|].
    apply (rtc_l _ _ (demo_request (KVerify "02" demo_sig) (demo_request (KChallenge "svp1a") (sv_state demo_started))));
      [apply step_serve; exact I|].
    apply (rtc_l _ _ demo_capped); [apply step_serve; exact I|]. apply rtc_refl.
  - exists sv2, st2. split; [exact H1|]. split; [exact H3|]. rewrite H4. pose proof demo_capped_cap as Hc.
    rewrite H2 in Hc. exact Hc.
Defined.
