(* ===== verification/Lifecycle.v ===== *)
(** * The life of the server process (cmd/mcp-server/server.go, cmd/mcp-server/main.go, transport/streamable_http.go)

    [Server.Run] as a labelled step relation: the goroutines of the two caches,
    ticks included, and of the HTTP server, with the buffered channels they
    report on; the context the signal cancels; and the control of [Run] itself.
    An execution is an infinite sequence of processes, in which the signal and
    the ticks come when they please.  [run] of main.go composes loading, building
    and running, with its deferred [Close]. *)

From S2P Require Import Prelude GoStrings GoPath GoNum GoTime GoEncoding Limits TransferOut NonceStore IPRateLimiter.
From S2P Require Import SessionBearers DynamicTenants Policy Markets Units ChainLib Payload Assembler Assets.
From S2P Require Import TxInspect EVMBuilder BridgeRegistry Server AuthTools Broadcast Tools ABI EVMTools BridgeTools.
From S2P Require Import Signer LendoraABI LendoraCache LendoraFormat LendoraRisk LendoraOps LendoraRead Http Indexer.
From S2P Require Import AccountTools MarketTools FaucetTools ReadTools Config System Boot.

(** ** transport.Server *)

Definition ErrServerClosed : goerr := ErrNew "http: Server closed".

(** [Start] from what [ListenAndServe] returned, which is never nil. *)
Definition Start (listen : goerr) : error :=
  if errors_Is ErrServerClosed listen then Ok tt else Err (Errorf "mcp http server: %w" [FErr listen]).

(** The deadline of a context, if it has one; [context.WithTimeout] never moves a
    deadline of its parent back. *)
Definition WithTimeout (parent : option Time) (now : Time) (d : Duration) : option Time :=
  Some (match parent with Some p => Z.min p (now + d) | None => now + d end).

Definition DefaultShutdownTimeout : Duration := 5 * Second.

(** [http.Server.Shutdown]: nil once the requests in flight have drained, the
    error of the context when its deadline comes first; the time it returns. *)
Definition http_Shutdown (ctx : option Time) (drained : Time) : error * Time :=
  match ctx with
  | Some dl => if dl <? drained then (Err (ErrNew "context deadline exceeded"), dl) else (Ok tt, drained)
  | None => (Ok tt, drained)
  end.

Definition Shutdown (ctx : option Time) (now drained : Time) : error * Time :=
  http_Shutdown (WithTimeout ctx now DefaultShutdownTimeout) drained.

(** The call of [Run], which makes its context at [t0]. *)
Definition run_shutdown (t0 now drained : Time) : error * Time := Shutdown (WithTimeout None t0 (10 * Second)) now drained.

(** The ten seconds of [Run] are never the bound: [Shutdown] waits for a request
    in flight for at most five, whatever context it is called with. *)
Lemma shutdown_five_seconds t0 now drained :
  t0 <= now <= t0 + 5 * Second -> now <= drained ->
  run_shutdown t0 now drained =
    if now + 5 * Second <? drained then (Err (ErrNew "context deadline exceeded"), now + 5 * Second) else (Ok tt, drained).
Proof.
  intros Ht Hd. unfold run_shutdown, Shutdown, WithTimeout, http_Shutdown, DefaultShutdownTimeout.
  by replace (Z.min (t0 + 10 * Second) (now + 5 * Second)) with (now + 5 * Second) by (unfold Second in *; lia).
Qed.

Lemma shutdown_bounded ctx now drained : snd (Shutdown ctx now drained) <= now + 5 * Second.
Proof.
  unfold Shutdown, WithTimeout, http_Shutdown, DefaultShutdownTimeout.
  destruct ctx as [p|]; case Z.ltb_spec; cbn [snd]; lia.
Qed.

(** ** Server.Run *)

(** A goroutine that runs a cache, and its channel. *)
Inductive cache_run : Type :=
| Refreshing                     (* in the initial refresh *)
| Looping                        (* in the select on the context and the ticker *)
| Ticking                        (* in the refresh of a tick *)
| Finished (r : error)           (* returned, the result in the channel *)
| Drained.                       (* the result was received *)

Inductive http_run : Type :=
| Listening
| Exited (r : error)
| Taken.

Inductive control : Type :=
| Selecting                      (* the select on the context and httpDone *)
| ShuttingDown                   (* about to call transport.Shutdown *)
| AwaitMarkets                   (* <-cacheDone *)
| AwaitLendora                   (* <-lendoraDone *)
| Returned (r : error).

Record process : Type := mkProcess {
  pr_cancelled : bool;           (* ctx.Done() is closed *)
  pr_markets : cache_run;
  pr_lendora : cache_run;
  pr_http : http_run;
  pr_shutdown : bool;            (* Shutdown was called *)
  pr_control : control;
}.

(** What a cache goroutine does: a refresh ends, a tick fires, the context is
    seen. *)
Inductive cache_action : Type := Refreshed | Tick | Stop.

#[export] Instance cache_action_eq_dec : EqDecision cache_action.
Proof. solve_decision. Defined.

(** [Cache.Run]: only a failed initial refresh or the context ends it; a failed
    tick is logged. *)
Inductive cache_step (failure : string) (cancelled : bool) : cache_action -> cache_run -> cache_run -> Prop :=
| cache_fails e : cache_step failure cancelled Refreshed Refreshing (Finished (Err (Errorf failure [FErr e])))
| cache_ready : cache_step failure cancelled Refreshed Refreshing Looping
| cache_tick : cache_step failure cancelled Tick Looping Ticking
| cache_ticked : cache_step failure cancelled Refreshed Ticking Looping
| cache_stops : cancelled = true -> cache_step failure cancelled Stop Looping (Finished (Ok tt)).

Definition markets_failure : string := "initial market cache refresh: %w".
Definition lendora_failure : string := "initial lendora market cache refresh: %w".

Inductive which : Type := TheMarkets | TheLendora.

#[export] Instance which_eq_dec : EqDecision which.
Proof. solve_decision. Defined.

Inductive action : Type :=
| Signal                         (* SIGINT or SIGTERM *)
| OfCache (w : which) (a : cache_action)
| HttpFails                      (* ListenAndServe returns by itself *)
| HttpCloses                     (* ListenAndServe returns after Shutdown *)
| Select                         (* a ready case of the select of [Run] *)
| CallShutdown
| Receive (w : which).

#[export] Instance action_eq_dec : EqDecision action.
Proof. solve_decision. Defined.

Inductive run_step : action -> process -> process -> Prop :=
| rs_signal ml ll h sd k :
    run_step Signal (mkProcess false ml ll h sd k) (mkProcess true ml ll h sd k)
| rs_markets a c ml ml' ll h sd k : cache_step markets_failure c a ml ml' ->
    run_step (OfCache TheMarkets a) (mkProcess c ml ll h sd k) (mkProcess c ml' ll h sd k)
| rs_lendora a c ml ll ll' h sd k : cache_step lendora_failure c a ll ll' ->
    run_step (OfCache TheLendora a) (mkProcess c ml ll h sd k) (mkProcess c ml ll' h sd k)
| rs_http_fails c ml ll sd k e : errors_Is ErrServerClosed e = false ->
    run_step HttpFails (mkProcess c ml ll Listening sd k) (mkProcess c ml ll (Exited (Start e)) sd k)
| rs_http_closed c ml ll k :
    run_step HttpCloses (mkProcess c ml ll Listening true k) (mkProcess c ml ll (Exited (Start ErrServerClosed)) true k)
| rs_select_ctx ml ll h sd :
    run_step Select (mkProcess true ml ll h sd Selecting) (mkProcess true ml ll h sd ShuttingDown)
| rs_select_err c ml ll sd e :
    run_step Select (mkProcess c ml ll (Exited (Err e)) sd Selecting)
      (mkProcess c ml ll Taken sd (Returned (Err (Errorf "http server: %w" [FErr e]))))
| rs_select_nil c ml ll sd :
    run_step Select (mkProcess c ml ll (Exited (Ok tt)) sd Selecting) (mkProcess c ml ll Taken sd ShuttingDown)
| rs_shutdown c ml ll h sd :
    run_step CallShutdown (mkProcess c ml ll h sd ShuttingDown) (mkProcess c ml ll h true AwaitMarkets)
| rs_markets_done c r ll h sd :
    run_step (Receive TheMarkets) (mkProcess c (Finished r) ll h sd AwaitMarkets) (mkProcess c Drained ll h sd AwaitLendora)
| rs_lendora_done c ml r h sd :
    run_step (Receive TheLendora) (mkProcess c ml (Finished r) h sd AwaitLendora)
      (mkProcess c ml Drained h sd (Returned (Ok tt))).

(** The process when [Run] reaches its select; without a money-market cache nil
    is in its channel at once. *)
Definition run_start (lendoraMarkets : bool) : process :=
  mkProcess false Refreshing (if lendoraMarkets then Refreshing else Finished (Ok tt)) Listening false Selecting.

(** ** Executions *)

(** At each moment an action happens or nothing does. *)
Record execution (lendoraMarkets : bool) (tr : nat -> process) (act : nat -> option action) : Prop := {
  ex_start : tr O = run_start lendoraMarkets;
  ex_step : forall n, match act n with Some a => run_step a (tr n) (tr (S n)) | None => tr (S n) = tr n end;
}.

Definition enabled (a : action) (p : process) : Prop := exists p', run_step a p p'.

(** The actions the process owes: everything but the signal, the ticks and the
    exit of the HTTP server, which need never come. *)
Definition owed (a : action) : bool :=
  match a with Signal | OfCache _ Tick | HttpFails | HttpCloses => false | _ => true end.

(** A scheduler that does not starve an owed action: at every moment it is taken
    at some later one, unless it is possible no more from some moment on.  So a
    refresh that was begun ends, and a select takes a case that is ready again
    and again. *)
Definition fair (tr : nat -> process) (act : nat -> option action) : Prop :=
  forall a n, owed a = true ->
  exists m, (n <= m)%nat /\ (act m = Some a \/ forall k, (m <= k)%nat -> ~ enabled a (tr k)).

(** ** Invariant *)

Definition drained (l : cache_run) : bool := match l with Drained => true | _ => false end.

Record run_ok (p : process) : Prop := {
  ro_markets : drained (pr_markets p) = match pr_control p with AwaitLendora | Returned (Ok _) => true | _ => false end;
  ro_lendora : drained (pr_lendora p) = match pr_control p with Returned (Ok _) => true | _ => false end;
  ro_shutdown : pr_shutdown p = match pr_control p with AwaitMarkets | AwaitLendora | Returned (Ok _) => true | _ => false end;
  ro_cancelled : match pr_control p with Selecting | Returned (Err _) => True | _ => pr_cancelled p = true end;
  ro_taken : pr_http p = Taken <-> exists e, pr_control p = Returned (Err e);
  ro_closed : pr_http p = Exited (Ok tt) -> pr_shutdown p = true;
  ro_failed : forall e, pr_http p = Exited (Err e) ->
    exists e', errors_Is ErrServerClosed e' = false /\ Start e' = Err e;
  ro_error : forall e, pr_control p = Returned (Err e) ->
    exists e' e'', errors_Is ErrServerClosed e' = false /\ Start e' = Err e'' /\ e = Errorf "http server: %w" [FErr e''];
}.

Lemma cache_step_drained f c a l l' : cache_step f c a l l' -> drained l = false /\ drained l' = false.
Proof. by intros []. Qed.

Lemma Start_fails e : errors_Is ErrServerClosed e = false -> exists e', Start e = Err e'.
Proof. intros H. unfold Start. rewrite H. by eexists. Qed.

Lemma run_start_ok b : run_ok (run_start b).
Proof. split; cbn; try done; [by destruct b|]. split; [done|by intros [? ?]]. Qed.

Lemma run_step_ok a p p' : run_step a p p' -> run_ok p -> run_ok p'.
Proof.
  intros H [H1 H2 H3 H4 H5 H6 H7 H8]; inversion H; subst; cbn in *; split; cbn; try done;
    repeat match goal with Hc : cache_step _ _ _ _ _ |- _ => apply cache_step_drained in Hc as [? ?] end; try congruence.
  all: try (by destruct k as [| | | |[]]).
  all: try (rewrite <- H5; by split).
  all: try (split; [done|intros [? Hx]; by destruct (proj2 H5 (ex_intro _ _ Hx))]).
  all: try (split; [by intros [? Hx]%H5|by intros [? ?]]).
  all: try (specialize (H6 eq_refl); congruence).
  - destruct (Start_fails e H0) as [e' He]. rewrite He. by intros [=].
  - intros e0 [= He]. by exists e.
  - split; [|done]. intros _. by eexists.
  - intros e0 [= <-]. destruct (H7 _ eq_refl) as (e' & Ha & Hb). by exists e', e.
Qed.

(** ** Along an execution *)

Definition cache_of (w : which) (p : process) : cache_run := match w with TheMarkets => pr_markets p | TheLendora => pr_lendora p end.

Definition refreshing (l : cache_run) : bool := match l with Refreshing | Ticking => true | _ => false end.
Definition ended (l : cache_run) : bool := match l with Finished _ | Drained => true | _ => false end.

(** Whose turn [Run] waits for in a state of its control. *)
Definition awaits (k : control) (w : which) : bool :=
  match k, w with AwaitMarkets, TheMarkets | AwaitLendora, TheLendora => true | _, _ => false end.

Lemma cancelled_step a p p' : run_step a p p' -> pr_cancelled p = true -> pr_cancelled p' = true.
Proof. intros Hs H. by destruct Hs. Qed.

Lemma returned_step a p p' r : run_step a p p' -> pr_control p = Returned r -> pr_control p' = Returned r.
Proof. intros Hs H. by destruct Hs. Qed.

Lemma refreshing_step w a p p' :
  run_step a p p' -> a <> OfCache w Refreshed -> refreshing (cache_of w p) = true -> refreshing (cache_of w p') = true.
Proof. intros H Ha; destruct w, H as [|? ? ? ? ? ? ? ? Hc|? ? ? ? ? ? ? ? Hc| | | | | | | |]; cbn; try done; by destruct Hc. Qed.

Lemma ended_step w a p p' : run_step a p p' -> ended (cache_of w p) = true -> ended (cache_of w p') = true.
Proof. intros H; destruct w, H as [|? ? ? ? ? ? ? ? Hc|? ? ? ? ? ? ? ? Hc| | | | | | | |]; cbn; try done; by destruct Hc. Qed.

Section Execution.
Context (b : bool) (tr : nat -> process) (act : nat -> option action) (Hx : execution b tr act).

Lemma tr_ok n : run_ok (tr n).
Proof.
  induction n as [|n IH]; [rewrite (ex_start _ _ _ Hx); apply run_start_ok|].
  pose proof (ex_step _ _ _ Hx n) as Hs. destruct (act n) as [a|]; [by eapply run_step_ok|by rewrite Hs].
Qed.

(** What every step keeps holds for ever. *)
Lemma keep_always (P : process -> Prop) n m :
  (forall a p p', run_step a p p' -> P p -> P p') -> (n <= m)%nat -> P (tr n) -> P (tr m).
Proof.
  intros HP Hle Hn. induction Hle as [|m _ IH]; [done|].
  pose proof (ex_step _ _ _ Hx m) as Hs. destruct (act m) as [a|]; [by eapply HP|by rewrite Hs].
Qed.

(** What every step but [a] keeps holds until [a] is taken. *)
Lemma keep_until (a : action) (P : process -> Prop) n m :
  (forall a' p p', run_step a' p p' -> a' <> a -> P p -> P p') -> (n <= m)%nat -> P (tr n) ->
  P (tr m) \/ exists k, (n <= k < m)%nat /\ act k = Some a /\ P (tr k).
Proof.
  intros HP Hle Hn. induction Hle as [|m Hle IH]; [by left|].
  destruct IH as [IH|(k & ? & ?)]; [|right; exists k; split; [lia|done]].
  pose proof (ex_step _ _ _ Hx m) as Hs. destruct (act m) as [a'|] eqn:Ea; [|left; by rewrite Hs].
  destruct (decide (a' = a)) as [->|Hne]; [right; exists m; split_and!; lia || done|left; by eapply HP].
Qed.

Context (Hf : fair tr act).

(** An owed action that stays possible until it is taken is taken. *)
Lemma taken (a : action) (P : process -> Prop) n :
  owed a = true -> (forall a' p p', run_step a' p p' -> a' <> a -> P p -> P p') -> (forall p, P p -> enabled a p) ->
  P (tr n) -> exists m, (n <= m)%nat /\ P (tr m) /\ run_step a (tr m) (tr (S m)).
Proof.
  intros Ho HP He Hn. destruct (Hf a n Ho) as (m & Hle & Hm).
  assert (forall k, act k = Some a -> run_step a (tr k) (tr (S k))) as Ha
    by (intros k Hk; pose proof (ex_step _ _ _ Hx k) as Hs; by rewrite Hk in Hs).
  destruct (keep_until a P n m HP Hle Hn) as [Hk|(k & Hk & Ek & Pk)]; [|exists k; split_and!; [lia|done|by apply Ha]].
  destruct Hm as [Hm|Hm]; [exists m; split_and!; [lia|done|by apply Ha]|]. by destruct (Hm m (le_n _) (He _ Hk)).
Qed.

Lemma refreshing_enabled w p : refreshing (cache_of w p) = true -> enabled (OfCache w Refreshed) p.
Proof.
  destruct p as [c ml ll h sd k]. destruct w; cbn; intros Hr; [destruct ml|destruct ll]; try done; eexists;
    ((apply rs_markets || apply rs_lendora); (apply cache_ready || apply cache_ticked)).
Qed.

Lemma stop_enabled w p : cache_of w p = Looping -> pr_cancelled p = true -> enabled (OfCache w Stop) p.
Proof.
  destruct p as [c ml ll h sd k]. destruct w; cbn; intros -> ->; eexists;
    ((apply rs_markets || apply rs_lendora); by apply cache_stops).
Qed.

Lemma refreshed_step w p p' : run_step (OfCache w Refreshed) p p' -> cache_of w p' = Looping \/ ended (cache_of w p') = true.
Proof. intros H; inversion H as [|? ? ? ? ? ? ? ? Hc|? ? ? ? ? ? ? ? Hc| | | | | | | |]; subst; inversion Hc; cbn; auto. Qed.

Lemma stop_step w p p' : run_step (OfCache w Stop) p p' -> ended (cache_of w p') = true.
Proof. intros H; inversion H as [|? ? ? ? ? ? ? ? Hc|? ? ? ? ? ? ? ? Hc| | | | | | | |]; subst; inversion Hc; cbn; auto. Qed.

(** Once the context is cancelled a cache goroutine ends. *)
Lemma cache_ends w n : pr_cancelled (tr n) = true -> exists m, (n <= m)%nat /\ ended (cache_of w (tr m)) = true.
Proof.
  intros Hc. destruct (Hf (OfCache w Stop) n eq_refl) as (m & Hle & Hm).
  destruct Hm as [Hm|Hm].
  { exists (S m). split; [lia|]. pose proof (ex_step _ _ _ Hx m) as Hs. rewrite Hm in Hs. by eapply stop_step. }
  assert (forall k, (m <= k)%nat -> cache_of w (tr k) <> Looping) as Hl.
  { intros k Hk El. apply (Hm k Hk), stop_enabled; [done|].
    apply (keep_always (fun p => pr_cancelled p = true) n); [apply cancelled_step|lia|done]. }
  destruct (refreshing (cache_of w (tr m))) eqn:Er.
  - destruct (taken (OfCache w Refreshed) (fun p => refreshing (cache_of w p) = true) m eq_refl) as (k & Hk & _ & Hs);
      [intros *; apply refreshing_step|apply refreshing_enabled|done|].
    exists (S k). split; [lia|]. apply refreshed_step in Hs as [Hs|Hs]; [|done]. by destruct (Hl (S k) ltac:(lia)).
  - exists m. split; [lia|]. specialize (Hl m (le_n _)). by destruct (cache_of w (tr m)).
Qed.

(** [Run] receives the result it waits for. *)
Lemma receives w n :
  awaits (pr_control (tr n)) w = true ->
  exists m, (n <= m)%nat /\ run_step (Receive w) (tr m) (tr (S m)).
Proof.
  intros Hw. assert (pr_cancelled (tr n) = true) as Hc.
  { pose proof (ro_cancelled _ (tr_ok n)) as Hc. by destruct (pr_control (tr n)). }
  destruct (cache_ends w n Hc) as (m & Hle & He).
  assert (forall a p p', run_step a p p' -> a <> Receive w -> awaits (pr_control p) w = true -> awaits (pr_control p') w = true)
    as Hk by (intros a p p' [] Ha; cbn; destruct w; try done; by destruct k).
  destruct (keep_until (Receive w) (fun p => awaits (pr_control p) w = true) n m Hk Hle Hw) as [Hm|(k & Hk' & Ek & _)].
  - destruct (taken (Receive w) (fun p => run_ok p /\ awaits (pr_control p) w = true /\ ended (cache_of w p) = true) m eq_refl)
      as (j & Hj & _ & Hs).
    + intros a p p' Hs Ha (H1 & H2 & H3). split_and!; [by eapply run_step_ok|by eapply Hk|by eapply ended_step].
    + intros [c ml ll h sd k] ([H1 H2 _ _ _ _ _ _] & Ha & Hd). cbn in *.
      destruct w, k; try done; [destruct ml|destruct ll]; try done; eexists; constructor.
    + split_and!; [apply tr_ok|done|done].
    + exists j. split; [lia|done].
  - exists k. split; [lia|]. pose proof (ex_step _ _ _ Hx k) as Hs. by rewrite Ek in Hs.
Qed.

Lemma returns_from_lendora n : pr_control (tr n) = AwaitLendora -> exists m r, (n <= m)%nat /\ pr_control (tr m) = Returned r.
Proof.
  intros E. destruct (receives TheLendora n) as (m & Hm & Hs); [by rewrite E|].
  exists (S m), (Ok tt). split; [lia|]. by inversion Hs.
Qed.

Lemma returns_from_markets n : pr_control (tr n) = AwaitMarkets -> exists m r, (n <= m)%nat /\ pr_control (tr m) = Returned r.
Proof.
  intros E. destruct (receives TheMarkets n) as (m & Hm & Hs); [by rewrite E|].
  destruct (returns_from_lendora (S m)) as (k & r & Hk & Er); [by inversion Hs|]. exists k, r. split; [lia|done].
Qed.

Lemma returns_from_shutdown n : pr_control (tr n) = ShuttingDown -> exists m r, (n <= m)%nat /\ pr_control (tr m) = Returned r.
Proof.
  intros E. destruct (taken CallShutdown (fun p => pr_control p = ShuttingDown) n eq_refl) as (m & Hm & _ & Hs); [| |done|].
  - by intros a p p' [].
  - intros [c ml ll h sd k] Ek. cbn in Ek. subst k. eexists. apply rs_shutdown.
  - destruct (returns_from_markets (S m)) as (k & r & Hk & Er); [by inversion Hs|]. exists k, r. split; [lia|done].
Qed.

Definition leaving (p : process) : Prop := pr_cancelled p = true \/ pr_http p <> Listening.

Lemma returns_from_select n :
  pr_control (tr n) = Selecting -> leaving (tr n) -> exists m r, (n <= m)%nat /\ pr_control (tr m) = Returned r.
Proof.
  intros E Hl.
  destruct (taken Select (fun p => run_ok p /\ pr_control p = Selecting /\ leaving p) n eq_refl) as (m & Hm & _ & Hs).
  - intros a p p' Hs Ha (H1 & H2 & H3). split; [by eapply run_step_ok|]. unfold leaving in *.
    destruct Hs; cbn in *; try done; (split; [done|]); naive_solver.
  - intros [c ml ll h sd k] (Ho & Ek & Hl'). cbn in Ek. subst k. unfold leaving in Hl'. cbn in Hl'.
    destruct c; [eexists; apply rs_select_ctx|]. destruct h as [|[[]|e]|]; [naive_solver|eexists; apply rs_select_nil
      |eexists; apply rs_select_err|]. by destruct (proj1 (ro_taken _ Ho) eq_refl).
  - split_and!; [apply tr_ok|done|done].
  - inversion Hs as [| | | | |ml ll h sd Ha Hp Hp'|c ml ll sd e Ha Hp Hp'|c ml ll sd Ha Hp Hp'| | |].
    + destruct (returns_from_shutdown (S m)) as (k & r & Hk & Er); [by rewrite <- Hp'|]. exists k, r. split; [lia|done].
    + eexists (S m), _. split; [lia|by rewrite <- Hp'].
    + destruct (returns_from_shutdown (S m)) as (k & r & Hk & Er); [by rewrite <- Hp'|]. exists k, r. split; [lia|done].
Qed.

Lemma returns_from n : leaving (tr n) -> exists m r, (n <= m)%nat /\ pr_control (tr m) = Returned r.
Proof.
  intros Hl. destruct (pr_control (tr n)) as [| | | |r] eqn:E; [by apply returns_from_select|by apply returns_from_shutdown
    |by apply returns_from_markets|by apply returns_from_lendora|by exists n, r].
Qed.

End Execution.

(** What the goroutine of the market cache reports is what [Run] of the cache
    returns, however many ticks come before. *)
Lemma markets_reports (initial : result (list ClobPair) * result (list Perpetual)) ticks (c : Markets.Cache) :
  rtc (fun l l' => exists a, cache_step markets_failure true a l l') Refreshing
    (Finished (fst (Markets.Run initial ticks c))).
Proof.
  unfold Markets.Run. destruct (Refresh _ _ _) as [[[]|e] c']; cbn [fst].
  - eapply rtc_l; [eexists; apply cache_ready|]. apply rtc_once. eexists. by apply cache_stops.
  - apply rtc_once. eexists. apply (cache_fails markets_failure true e).
Qed.

(** ** main *)

(** [Server.Close] on the connection. *)
Definition Close : bool -> bool := fun _ => false.

Definition wrap_conn {A} (f : goerr -> goerr) (m : M bool A) : M bool A := fun o => let '(r, o') := m o in (wrap f r, o').

Definition run_then_close (outcome : error) : M bool unit := fun o => (outcome, Close o).

(** [run] of main.go with what [Server.Run] returned; the second component is
    whether the gRPC connection is open at exit. *)
Definition main_run {RL : RateLib} {L : ChainLib} {D : DecLib} {U : Unicode} (w : World) (decode : (string -> result Duration) -> string -> result Config)
    (cfgPath : string) (outcome : BuiltServer -> error) : M bool unit :=
  _ ← lift (check (empty cfgPath) (Errorf "--config is required" []));
  cfg ← lift (wrap (fun e => Errorf "load config: %w" [FErr e]) (LoadConfig decode cfgPath));
  sv ← wrap_conn (fun e => Errorf "build server: %w" [FErr e]) (BuildServer w cfg);
  run_then_close (outcome sv).

(** ** Claims *)

(** C39: [Server.Run] serves until it is told to stop, and then ends.  In every
    execution, as long as there was no signal and the HTTP server listens, [Run]
    stays in its select, whatever the caches do (a failed initial refresh does
    not end it).  In a fair one, after a signal or an exit of the HTTP server
    [Run] returns, however often the caches tick.  It returns once; nil only
    after a signal, with the HTTP server told to shut down and the results of both
    caches received; an error only when the HTTP server failed by itself, and
    then without a shutdown. *)
Theorem Run_returns (lendoraMarkets : bool) (tr : nat -> process) (act : nat -> option action)
    (Hx : execution lendoraMarkets tr act) :
  (forall n, pr_cancelled (tr n) = false -> pr_http (tr n) = Listening -> pr_control (tr n) = Selecting)
  /\ (fair tr act -> forall n, pr_cancelled (tr n) = true \/ pr_http (tr n) <> Listening ->
      exists m r, (n <= m)%nat /\ pr_control (tr m) = Returned r)
  /\ (forall n m r, (n <= m)%nat -> pr_control (tr n) = Returned r -> pr_control (tr m) = Returned r)
  /\ (forall n, pr_control (tr n) = Returned (Ok tt) ->
      pr_cancelled (tr n) = true /\ pr_shutdown (tr n) = true /\ pr_markets (tr n) = Drained /\ pr_lendora (tr n) = Drained)
  /\ (forall n e, pr_control (tr n) = Returned (Err e) -> pr_shutdown (tr n) = false
        /\ exists e' e'', errors_Is ErrServerClosed e' = false /\ Start e' = Err e'' /\ e = Errorf "http server: %w" [FErr e'']).
Proof.
  pose proof (tr_ok _ _ _ Hx) as Hok. split_and!.
  - intros n Hc Hh. pose proof (ro_cancelled _ (Hok n)) as H4. pose proof (proj2 (ro_taken _ (Hok n))) as H5.
    rewrite Hc, Hh in *. destruct (pr_control (tr n)) as [| | | |[]]; try done. discriminate H5. by eexists.
  - intros Hf n. by apply (returns_from _ _ _ Hx Hf).
  - intros n m r Hle. apply (keep_always _ _ _ Hx (fun p => pr_control p = Returned r)); [|done]. intros *. apply returned_step.
  - intros n E. destruct (Hok n) as [H1 H2 H3 H4 _ _ _ _]. rewrite E in *.
    by destruct (pr_markets (tr n)), (pr_lendora (tr n)).
  - intros n e E. pose proof (ro_shutdown _ (Hok n)) as Hs. rewrite E in Hs. split; [done|]. by apply (ro_error _ (Hok n)).
Qed.

(** C40: a start that fails gives back what it took.  When the program ends, the
    gRPC connection is closed, with a single exception: a cap file that cannot be
    read or parsed, for which the start fails with that error. *)
Theorem run_releases {RL : RateLib} {L : ChainLib} {D : DecLib} {U : Unicode} (w : World) (decode : (string -> result Duration) -> string -> result Config)
    (cfgPath : string) (outcome : BuiltServer -> error) (r : error)
    (H : main_run w decode cfgPath outcome false = (r, true)) :
  exists cfg e, LoadConfig decode cfgPath = Ok cfg
  /\ LoadMemoryTransferOutStore (cf_TransferOutCapPath cfg) (w_read w) (w_disk w) = Err e
  /\ r = Err (Errorf "build server: %w" [FErr (Errorf "load transfer-out cap state: %w" [FErr e])]).
Proof.
  unfold main_run, wrap_conn, run_then_close, mbind, M_bind, lift in H. destruct (check _ _) as [[]|]; [|done].
  destruct (wrap _ (LoadConfig _ _)) as [cfg|] eqn:El; [|done]. apply wrap_ok in El.
  destruct (BuildServer w cfg false) as [[sv|e] o] eqn:Eb; cbn [wrap] in H; [done|]. injection H as <- ->.
  apply BuildServer_err in Eb as [?|(_ & e' & -> & Hl)]; [done|]. by exists cfg, e'.
Qed.

(** An execution with both caches: the market cache loads and ticks once, the
    other one fails, and the signal comes. *)
Definition demo_actions : list action :=
  [OfCache TheMarkets Refreshed; OfCache TheMarkets Tick; OfCache TheLendora Refreshed; OfCache TheMarkets Refreshed; Signal;
   Select; CallShutdown; OfCache TheMarkets Stop; Receive TheMarkets; Receive TheLendora].
Definition demo_lost : error := Err (Errorf lendora_failure [FErr (ErrNew "unreachable")]).
Definition demo_processes : list process :=
  [run_start true;
   mkProcess false Looping Refreshing Listening false Selecting;
   mkProcess false Ticking Refreshing Listening false Selecting;
   mkProcess false Ticking (Finished demo_lost) Listening false Selecting;
   mkProcess false Looping (Finished demo_lost) Listening false Selecting;
   mkProcess true Looping (Finished demo_lost) Listening false Selecting;
   mkProcess true Looping (Finished demo_lost) Listening false ShuttingDown;
   mkProcess true Looping (Finished demo_lost) Listening true AwaitMarkets;
   mkProcess true (Finished (Ok tt)) (Finished demo_lost) Listening true AwaitMarkets;
   mkProcess true Drained (Finished demo_lost) Listening true AwaitLendora].
Definition demo_end : process := mkProcess true Drained Drained Listening true (Returned (Ok tt)).
Definition demo_trace (n : nat) : process := nth n demo_processes demo_end.
Definition demo_act (n : nat) : option action := nth_error demo_actions n.

Lemma demo_execution : execution true demo_trace demo_act.
Proof.
  split; [reflexivity|]. intros n. do 10 (destruct n as [|n]; [cbn; repeat constructor|]).
  unfold demo_act, demo_trace. cbn. by destruct n.
Qed.

Lemma demo_fair : fair demo_trace demo_act.
Proof.
  intros a n Ha. exists (n + 10)%nat. split; [lia|]. right. intros k Hk [p' Hs].
  replace (demo_trace k) with demo_end in Hs; [|do 10 (destruct k as [|k]; [lia|]); by destruct k].
  unfold demo_end in Hs. inversion Hs as [|? ? ? ? ? ? ? ? Hc|? ? ? ? ? ? ? ? Hc| | | | | | | |]; subst; try done; inversion Hc.
Qed.

Lemma Run_returns_witness :
  pr_control (demo_trace 3) = Selecting /\ exists m r, (5 <= m)%nat /\ pr_control (demo_trace m) = Returned r.
Proof.
  destruct (Run_returns true demo_trace demo_act demo_execution) as (H1 & H2 & _). split.
  - exact (H1 3%nat eq_refl eq_refl).
  - exact (H2 demo_fair 5%nat (or_introl eq_refl)).
Defined.

Definition demo_bad_disk : World :=
  mkWorld (fun _ => Ok tt) (fun _ => Ok tt) demo_dial (fun _ => Ok tt) (fun _ => Ok demo_registry) (Some (ErrNew "permission denied")) ∅.

Lemma run_releases_witness :
  exists cfg e, LoadConfig (L := demo_lib) (D := demo_dec) (fun _ _ => Ok demo_config) "/etc/svpchain-mcp/mcp.toml" = Ok cfg
  /\ LoadMemoryTransferOutStore (cf_TransferOutCapPath cfg) (Some (ErrNew "permission denied")) ∅ = Err e.
Proof.
  destruct (main_run (RL := demo_rate) (L := demo_lib) (D := demo_dec) (U := unicode_id) demo_bad_disk
    (fun _ _ => Ok demo_config) "/etc/svpchain-mcp/mcp.toml" (fun _ => Ok tt) false) as [r o] eqn:Hm.
  assert (o = true) as -> by (vm_compute in Hm; congruence).
  destruct (@run_releases demo_rate demo_lib demo_dec unicode_id demo_bad_disk (fun _ _ => Ok demo_config)
    "/etc/svpchain-mcp/mcp.toml" (fun _ => Ok tt) r Hm) as (cfg & e & H1 & H2 & _).
  exists cfg, e. exact (conj H1 H2).
Defined.
